(* ===== verification/_CoqProject ===== *)
-Q . S2P
Prelude.v
Msel.v
Words.v
Stdc.v
SwAes.v
Fips197.v
AesDriver.v
Xts.v
Gcm.v
Prng.v
SwSha.v
Sha2.v
Kdf.v
Prime521.v
Ed521.v
Curve.v
Memory.v
Malloc.v
Tidl.v
Protocols.v
Bulk.v
Channel.v
Flash.v
Kernel.v
Task.v
Session.v
Syscall.v
Isr.v
Invariant.v
Calls.v
Mmu.v
