(* ===== verification/Prelude.v ===== *)
(** * Verification of the ORP software stack

    ORP is a security processor: a small kernel (mselOS) on an OpenRISC core,
    cryptographic libraries and drivers, and applications that a host reaches
    through packets written to a "faux filesystem".  This library models the
    software of the device, as it is built for OpenRISC, and proves what its
    parts do.  Sources are named relative to src/software/os/mselOS/src unless
    they start with include/ (src/software/os/mselOS/include) or applications/
    (src/software/applications).

    ** The parts and their files

    Common ground.  [Prelude] has the notations, loops, list and byte lemmas and
    hint databases, [Words] the byte orders, [Msel] the status codes of
    include/msel.h, [Stdc] the routines of os/stdc.c and os/util.c, [Memory] the
    byte-addressed RAM.

    Cryptography.  [SwAes] is driver/swcrypto/sw_aes.c and [Fips197] the standard
    it implements; [AesDriver] is driver/aes_driver.c, arch/openrisc/aes.c and
    lib/crypto/aes.c; [Xts], [Gcm] and [Prng] are aes_xts.c, aes_gcm.c and prng.c
    of lib/crypto.  [SwSha] is driver/swcrypto/sw_sha.c with driver/sha_driver.c,
    [Sha2] lib/crypto/sha2.c, [Kdf] lib/crypto/kdf.c.  [Prime521], [Ed521] and
    [Curve] are the field, the point arithmetic and the group of
    driver/swcrypto/ed521.c with driver/ecc_driver.c.  The library code reaches a
    driver through a system call: it is a function of a service, and the classes
    [AesService] and [ShaCore] say what it relies on.  Both AES drivers and the
    SHA driver are instances.

    Applications.  [Tidl] is lib/tidl.c, [Protocols] the four generated protocol
    files of applications/, [Bulk] the task and the packet handlers of
    applications/orp-bulkencryption/src/bulkencryption.c, [Channel] what a host
    and a second device observe of it.

    Kernel.  [Malloc] is the heap of os/malloc.c.  [Kernel] is the state of the
    kernel (its global variables, memory and device registers in one record) and
    the monad its functions are written in.  [Task] is os/task.c, os/taskmem.c,
    os/mutex.c and the drivers the scheduler uses; [Session] is
    driver/ffs_session.c with arch/openrisc/ffs.c; [Syscall] is os/syscall.c,
    driver/pol.c, driver/uart.c and the loop of os/system.c; [Isr] is
    arch/openrisc/isr.c.  [Invariant], [Calls] and [Mmu] are about all of these
    together.  [Flash] is arch/openrisc/flash.c, mtc.c and master_key.c with
    driver/provision.c.

    ** How code is modelled

    A buffer is the list of its bytes and a pointer into it an offset; the heap
    and the kernel work on byte memory at 32-bit addresses.  Integers are [Z]
    with the wrap-around of their C type written out.  A C loop over a counter
    is [for_loop]; a function that writes through pointers returns the new
    contents.  Fallible code returns the C status, and [None] stands for what
    has no result (a read outside a buffer, a loop that does not end).  In the
    kernel the outcomes are [Oob], an access outside an array, [Hang], an endless
    loop, and [Panic].  A handler runs with interrupts disabled, so a handler is
    one step, and an execution is a sequence of events: ticks, system calls,
    faults, TLB misses, packets and acknowledgements of the host.

    ** What the theorems show

    - Cryptography against its standards: [sw_aes_fips197], [aes_xts_ieee1619],
      [gcm_seal_nist], [prng_stream_x931] and [sha256_hash_fips180] are
      equalities with the definitions of FIPS 197, IEEE 1619, SP 800-38D, X9.31
      and FIPS 180-4.  Decryption inverts encryption ([aes_xts_roundtrip],
      [aes_gcm_roundtrip]), and the hardware and software AES drivers agree.
      sha2.c deviates from the standard for some lengths, and
      [sha256_hash_ignores_tail] says how.
    - The curve: 2^521 - 1 is prime, the addition formulas have no exceptional
      case ([point_operations_complete]), the points are a group, and
      [msel_ecc_mul_correct] shows scalar multiplication in that group.
    - The bulk encryption application: it answers every packet, as long as the
      heap has room and the kernel accepts the answers in the end
      ([bulk_task_answers]), two devices agree on a secret ([bulk_dh_agreement]),
      and a channel carries any blocks ([bulk_channel_roundtrip]);
      [bulk_keystream_repeats] and [bulk_pubkey_withheld] are two faults of it.
    - The heap: in every reachable heap live blocks are aligned, disjoint and
      unchanged by the allocator ([heap_reachable_safe], [heap_malloc_spec],
      [heap_realloc_spec]), freeing everything gives the whole heap back
      ([heap_free_all]), and nothing outside the heap is touched
      ([heap_confined]).
    - The kernel: from boot until the host has had a sixth task created, no event
      leaves an array, loops or resumes a task that cannot run
      ([kernel_never_stuck]); the sixth creation, which nothing prevents, makes the
      next scheduling leave the task list ([task_churn_overruns]); the scheduler is a fair round robin
      ([schedule_round_robin], [schedule_fair]); a session is a FIFO of two
      packets ([session_refines_fifo]); a TLB entry lets a task write its own memory
      only and read nothing of another task ([dtlb_page_isolated]), but it outlives
      a task switch ([dtlb_survives_switch]); a proof-of-life operation ends by the
      button and the time since its start ([pol_outcome]).  The other theorems of [Task] and [Calls] follow
      single calls, faults included.
    - Storage: flash contents, provisioning and the master key read back
      ([flash_roundtrip], [provision_spec]); the monotonic counter repeats after
      32 values ([mtc_repeats]).
    - Wire format: enumerations are read back as written and everything else is
      refused ([protocol_enums]); messages and integers round-trip.

    ** Fuel

    Loops that do not count carry fuel, and lemmas show that it is enough: a
    free list is never longer than the heap divided by the smallest chunk
    ([heap_fuel]); every turn of [update_loop], [flash_read_loop] and
    [flash_write_loop] moves at least one byte, so the length is enough; every
    turn of the console's flush sends a byte or stops; the scheduler's search
    goes round the task list once, and [schedule_never_busy] covers the case in
    which the C loop does not end.  The loop that sends a packet runs over the list
    of the kernel's replies and has no result when the list holds no acceptance.

    ** Parameters

    Hardware is a parameter with the documented laws as hypotheses: the AES core
    ([arch_do_hw_aes]), the flash part ([FlashPart], [FlashLaws]), the interrupt
    controller, the UART's readiness, the linker's symbols.  The table of
    endpoints belongs to the application image and is a parameter of the session
    manager.  Memory fresh from the allocator has arbitrary contents, and may be
    refused where the code takes it without a check ([kdf_getkey]).

    The kernel's variables are a record apart from the memory [ram].  System calls
    check no pointers, so a task can have the kernel store into its own variables;
    such calls are outside the model, and so are the effects of the drivers behind
    the remaining system calls on anything but memory.  Busy-waits for the UART and
    for the AES core are assumed to end, and the breakpoint of MSEL_SVC_DEBUG is
    ignored, as the comment at it allows.

    ** Not modelled

    The ARM port (unfinished, another architecture); assembly without a C-level
    meaning (reset, register save and restore, compiler helpers); reads of the
    random number generator; the SHA and ECC cores' register access; os/list.h,
    which nothing uses; the packet loops of the encryptor, XTS encryptor and chat
    applications, of which only the protocols are modelled; host programs (the
    FUSE demo, the TIDL compiler, the ROM generator, the Android application) and
    the hardware itself. *)

From stdpp Require Export base tactics numbers option list.
From Stdlib Require Export ZArith Lia Btauto.

Declare Scope orp_scope.
Delimit Scope orp_scope with orp.

Local Open Scope Z_scope.

(** ** Machine integers

    A C unsigned integer of width [w] is a [Z] in [0, 2^w); assignment to a
    variable of that width wraps. *)

Definition u8 (x : Z) : Z := x mod 2 ^ 8.
Definition u16 (x : Z) : Z := x mod 2 ^ 16.
Definition u32 (x : Z) : Z := x mod 2 ^ 32.
Definition u64 (x : Z) : Z := x mod 2 ^ 64.

Definition is_u8 (x : Z) : Prop := 0 <= x < 2 ^ 8.
Definition is_u16 (x : Z) : Prop := 0 <= x < 2 ^ 16.
Definition is_u32 (x : Z) : Prop := 0 <= x < 2 ^ 32.
Definition is_u64 (x : Z) : Prop := 0 <= x < 2 ^ 64.

Arguments u8 : simpl never.
Arguments u16 : simpl never.
Arguments u32 : simpl never.
Arguments u64 : simpl never.
#[global] Arguments Z.lxor : simpl never.
#[global] Arguments Z.land : simpl never.
#[global] Arguments Z.lor : simpl never.
#[global] Arguments Z.shiftr : simpl never.
#[global] Arguments Z.shiftl : simpl never.

(** [~x] on a [w]-bit unsigned integer. *)
Definition not8 (x : Z) : Z := Z.lxor x (2 ^ 8 - 1).
Definition not32 (x : Z) : Z := Z.lxor x (2 ^ 32 - 1).

Notation "a ^^ b" := (Z.lxor a b) (at level 48, left associativity) : orp_scope.
Notation "a .& b" := (Z.land a b) (at level 47, left associativity) : orp_scope.
Notation "a .| b" := (Z.lor a b) (at level 49, left associativity) : orp_scope.
Notation "a >>> n" := (Z.shiftr a n) (at level 46, left associativity) : orp_scope.
Notation "a <<< n" := (Z.shiftl a n) (at level 46, left associativity) : orp_scope.

Local Open Scope orp_scope.

(** ** Ltac *)

(** Case analysis on the innermost [if]/[match] of the goal or a hypothesis. *)
Ltac split_if :=
  match goal with
  | |- context [if ?b then _ else _] => destruct b eqn:?
  | H : context [if ?b then _ else _] |- _ => destruct b eqn:?
  end.

(** Turn boolean comparisons of hypotheses into propositions. *)
Ltac bool_to_prop :=
  repeat match goal with
  | H : (_ =? _)%Z = true |- _ => apply Z.eqb_eq in H
  | H : (_ =? _)%Z = false |- _ => apply Z.eqb_neq in H
  | H : (_ <? _)%Z = true |- _ => apply Z.ltb_lt in H
  | H : (_ <? _)%Z = false |- _ => apply Z.ltb_ge in H
  | H : (_ <=? _)%Z = true |- _ => apply Z.leb_le in H
  | H : (_ <=? _)%Z = false |- _ => apply Z.leb_gt in H
  | H : (_ =? _)%nat = true |- _ => apply Nat.eqb_eq in H
  | H : (_ =? _)%nat = false |- _ => apply Nat.eqb_neq in H
  | H : (_ <? _)%nat = true |- _ => apply Nat.ltb_lt in H
  | H : (_ <? _)%nat = false |- _ => apply Nat.ltb_ge in H
  | H : (_ && _) = true |- _ => apply andb_true_iff in H; destruct H
  | H : (_ || _) = false |- _ => apply orb_false_iff in H; destruct H
  | H : negb _ = true |- _ => apply negb_true_iff in H
  | H : negb _ = false |- _ => apply negb_false_iff in H
  end.

(** Equality of two integers built from xor, and, or: compare bit [n] and let
    [btauto] decide the boolean identity. *)
Ltac xor_solve :=
  apply Z.bits_inj'; intros ?n ?Hn;
  repeat first [rewrite Z.lxor_spec | rewrite Z.land_spec | rewrite Z.lor_spec]; btauto.

(** ** Width lemmas *)

Create HintDb width.

Lemma u8_range x : is_u8 (u8 x).
Proof. apply Z.mod_pos_bound; lia. Qed.
Lemma u16_range x : is_u16 (u16 x).
Proof. apply Z.mod_pos_bound; lia. Qed.
Lemma u32_range x : is_u32 (u32 x).
Proof. apply Z.mod_pos_bound; lia. Qed.
Lemma u64_range x : is_u64 (u64 x).
Proof. apply Z.mod_pos_bound; lia. Qed.

Lemma u8_id x : is_u8 x → u8 x = x.
Proof. apply Z.mod_small. Qed.
Lemma u16_id x : is_u16 x → u16 x = x.
Proof. apply Z.mod_small. Qed.
Lemma u32_id x : is_u32 x → u32 x = x.
Proof. apply Z.mod_small. Qed.
Lemma u64_id x : is_u64 x → u64 x = x.
Proof. apply Z.mod_small. Qed.

(** A non-negative integer is below [2 ^ w] iff its bits from [w] on are 0. *)
Lemma pow2_bound_testbit (w x : Z) :
  0 <= w → 0 <= x → (∀ i, w <= i → Z.testbit x i = false) → x < 2 ^ w.
Proof.
  intros Hw Hx Hbits.
  destruct (Z.eq_dec x 0) as [->|Hnz]; [apply Z.pow_pos_nonneg; lia|].
  apply Z.log2_lt_pow2; [lia|].
  destruct (Z.lt_ge_cases (Z.log2 x) w) as [|Hge]; [done|].
  pose proof (Z.bit_log2 x ltac:(lia)) as Hl.
  rewrite (Hbits _ Hge) in Hl; done.
Qed.

Lemma testbit_above (w x i : Z) : 0 <= x < 2 ^ w → w <= i → Z.testbit x i = false.
Proof.
  intros Hx Hi. destruct (Z.lt_ge_cases w 0) as [Hw|Hw].
  { rewrite Z.pow_neg_r in Hx by done. lia. }
  rewrite <- (Z.mod_small x (2 ^ w)) by done. by apply Z.mod_pow2_bits_high.
Qed.

Section bitop_bounds.
Context (w : Z) (Hw : 0 <= w).

Lemma lxor_bound a b : 0 <= a < 2 ^ w → 0 <= b < 2 ^ w → 0 <= Z.lxor a b < 2 ^ w.
Proof.
  intros Ha Hb. assert (0 <= Z.lxor a b) by (apply Z.lxor_nonneg; lia).
  split; [done|]. apply pow2_bound_testbit; [done..|]. intros i Hi.
  by rewrite Z.lxor_spec, !(testbit_above w).
Qed.

Lemma lor_bound a b : 0 <= a < 2 ^ w → 0 <= b < 2 ^ w → 0 <= Z.lor a b < 2 ^ w.
Proof.
  intros Ha Hb. assert (0 <= Z.lor a b) by (apply Z.lor_nonneg; lia).
  split; [done|]. apply pow2_bound_testbit; [done..|]. intros i Hi.
  by rewrite Z.lor_spec, !(testbit_above w).
Qed.

Lemma land_bound_l a b : 0 <= a < 2 ^ w → 0 <= Z.land a b < 2 ^ w.
Proof.
  intros Ha. assert (0 <= Z.land a b) by (apply Z.land_nonneg; lia).
  split; [done|]. apply pow2_bound_testbit; [done..|]. intros i Hi.
  by rewrite Z.land_spec, (testbit_above w a).
Qed.

Lemma land_bound_r a b : 0 <= b < 2 ^ w → 0 <= Z.land a b < 2 ^ w.
Proof. rewrite Z.land_comm. apply land_bound_l. Qed.
End bitop_bounds.

(** Clearing the low [w] bits of a 32-bit word. *)
Lemma land_high w x : 0 <= w <= 32 → is_u32 x → Z.land x (Z.shiftl (Z.ones (32 - w)) w) = x - x mod 2 ^ w.
Proof.
  intros Hw Hx. assert (x - x mod 2 ^ w = Z.shiftl (Z.shiftr x w) w) as ->.
  { rewrite Z.shiftl_mul_pow2, Z.shiftr_div_pow2 by lia. pose proof (Z.div_mod x (2 ^ w)). lia. }
  apply Z.bits_inj'. intros n Hn. rewrite Z.land_spec, !Z.shiftl_spec by lia. destruct (Z.lt_ge_cases n w).
  { rewrite !(Z.testbit_neg_r _ (n - w)) by lia. apply andb_false_r. }
  rewrite Z.shiftr_spec by lia. replace (n - w + w) with n by lia.
  destruct (Z.lt_ge_cases n 32).
  - rewrite Z.ones_spec_low by lia. apply andb_true_r.
  - rewrite (testbit_above 32 x n) by (done || lia). done.
Qed.

(** Disjoint bits add up. *)
Lemma lor_disjoint w a b : 0 <= w → a mod 2 ^ w = 0 → 0 <= b < 2 ^ w → Z.lor a b = a + b.
Proof.
  intros Hw Ha Hb. assert (Z.land a b = 0) as H.
  { apply Z.bits_inj'. intros n Hn. rewrite Z.land_spec, Z.bits_0. destruct (Z.lt_ge_cases n w).
    - rewrite <- (Z.mod_pow2_bits_low a w n), Ha, Z.bits_0 by lia. done.
    - rewrite (testbit_above w b n) by (done || lia). apply andb_false_r. }
  rewrite Z.add_nocarry_lxor by done. symmetry. by apply Z.lxor_lor.
Qed.

Lemma is_u8_lxor a b : is_u8 a → is_u8 b → is_u8 (a ^^ b).
Proof. apply lxor_bound; lia. Qed.
Lemma is_u32_lxor a b : is_u32 a → is_u32 b → is_u32 (a ^^ b).
Proof. apply lxor_bound; lia. Qed.

Lemma is_u8_lor a b : is_u8 a → is_u8 b → is_u8 (a .| b).
Proof. apply lor_bound; lia. Qed.
Lemma is_u8_land a b : is_u8 a → is_u8 (a .& b).
Proof. apply land_bound_l; lia. Qed.

#[export] Hint Resolve u8_range u16_range u32_range u64_range
  is_u8_lxor is_u8_lor is_u8_land is_u32_lxor : width.

(** ** Arrays

    A C array of integers is a list; [get] is an in-bounds read (0 outside),
    stdpp's [<[i:=x]>] an in-bounds write. *)

Definition get (l : list Z) (i : nat) : Z := default 0 (l !! i).

Abbreviation upd l i x := (@insert nat Z (list Z) _ i%nat x l) (only parsing).

Definition bytes_ok (l : list Z) : Prop := Forall is_u8 l.
Definition words_ok (l : list Z) : Prop := Forall is_u32 l.

Definition xor_list (a b : list Z) : list Z := zip_with Z.lxor a b.

Lemma get_lookup l i x : l !! i = Some x → get l i = x.
Proof. unfold get. by intros ->. Qed.

Lemma lookup_get l i : (i < length l)%nat → l !! i = Some (get l i).
Proof. intros H. unfold get. by destruct (lookup_lt_is_Some_2 l i H) as [x ->]. Qed.

Lemma get_insert_eq l i x : (i < length l)%nat → get (<[i:=x]> l) i = x.
Proof. intros. unfold get. by rewrite list_lookup_insert_eq. Qed.

Lemma get_insert_ne l i j x : i ≠ j → get (<[i:=x]> l) j = get l j.
Proof. intros. unfold get. by rewrite list_lookup_insert_ne. Qed.

Lemma get_oob l i : (length l ≤ i)%nat → get l i = 0.
Proof. intros. unfold get. by rewrite lookup_ge_None_2. Qed.

Lemma get_app_l l1 l2 i : (i < length l1)%nat → get (l1 ++ l2) i = get l1 i.
Proof. intros. unfold get. by rewrite lookup_app_l. Qed.

Lemma get_app_r l1 l2 i : (length l1 ≤ i)%nat → get (l1 ++ l2) i = get l2 (i - length l1).
Proof. intros. unfold get. by rewrite lookup_app_r. Qed.

(** The bind as an equation, which leaves the continuation folded. *)
Lemma some_bind {A B} (x : A) (f : A → option B) : (Some x ≫= f) = f x.
Proof. reflexivity. Qed.

Lemma get_take (l : list Z) k i : (i < k)%nat → get (take k l) i = get l i.
Proof. intros. unfold get. by rewrite lookup_take_lt. Qed.

Lemma get_drop (l : list Z) k i : get (drop k l) i = get l (k + i).
Proof. unfold get. by rewrite lookup_drop. Qed.

Lemma get_Forall (P : Z → Prop) l i : P 0 → Forall P l → P (get l i).
Proof.
  intros H0 Hl. unfold get. destruct (l !! i) as [x|] eqn:E; [|done].
  by eapply Forall_lookup_1 in Hl.
Qed.

Lemma get_u8 l i : bytes_ok l → is_u8 (get l i).
Proof. apply get_Forall. unfold is_u8; lia. Qed.

Lemma get_u32 l i : words_ok l → is_u32 (get l i).
Proof. apply get_Forall. unfold is_u32; lia. Qed.

(** Two arrays of the same length are equal when their cells are. *)
Lemma list_eq_get (l1 l2 : list Z) :
  length l1 = length l2 → (∀ i, (i < length l1)%nat → get l1 i = get l2 i) → l1 = l2.
Proof.
  intros Hlen H. apply list_eq. intros i.
  destruct (decide (i < length l1)%nat).
  - rewrite !lookup_get by lia. f_equal. by apply H.
  - rewrite !lookup_ge_None_2 by lia. done.
Qed.

Lemma bytes_ok_insert l i x : bytes_ok l → is_u8 x → bytes_ok (<[i:=x]> l).
Proof. intros. by apply Forall_insert. Qed.

Lemma words_ok_insert l i x : words_ok l → is_u32 x → words_ok (<[i:=x]> l).
Proof. intros. by apply Forall_insert. Qed.

Lemma bytes_ok_app a b : bytes_ok (a ++ b) ↔ bytes_ok a ∧ bytes_ok b.
Proof. apply Forall_app. Qed.

Lemma bytes_ok_take n l : bytes_ok l → bytes_ok (take n l).
Proof. apply Forall_take. Qed.
Lemma bytes_ok_drop n l : bytes_ok l → bytes_ok (drop n l).
Proof. apply Forall_drop. Qed.

Lemma bytes_ok_replicate n x : is_u8 x → bytes_ok (replicate n x).
Proof. intros. by apply Forall_replicate. Qed.

Lemma length_xor_list a b : length a = length b → length (xor_list a b) = length a.
Proof. intros. unfold xor_list. rewrite length_zip_with. lia. Qed.

Lemma get_xor_list a b i :
  length a = length b → get (xor_list a b) i = get a i ^^ get b i.
Proof.
  intros Hlen. unfold xor_list, get. rewrite lookup_zip_with.
  destruct (a !! i) eqn:Ha, (b !! i) eqn:Hb; simpl; try done.
  - apply lookup_lt_Some in Ha. apply lookup_ge_None_1 in Hb. lia.
  - apply lookup_lt_Some in Hb. apply lookup_ge_None_1 in Ha. lia.
Qed.

Lemma bytes_ok_xor_list a b : bytes_ok a → bytes_ok b → bytes_ok (xor_list a b).
Proof.
  intros Ha. revert b. induction Ha as [|x a Hx Ha IH]; intros b Hb; [by constructor|].
  destruct Hb; simpl; constructor; [by apply is_u8_lxor|by apply IH].
Qed.

Lemma xor_list_comm a b : xor_list a b = xor_list b a.
Proof.
  revert b. induction a as [|x a IH]; intros [|y b]; try done.
  cbn [xor_list zip_with]. f_equal; [apply Z.lxor_comm|apply IH].
Qed.

Lemma xor_list_cancel a b : length a = length b → xor_list (xor_list a b) b = a.
Proof.
  intros H. apply list_eq_get; [by rewrite !length_xor_list by (rewrite ?length_xor_list; done)|].
  intros i _. rewrite !get_xor_list by (rewrite ?length_xor_list; done).
  rewrite Z.lxor_assoc, Z.lxor_nilpotent, Z.lxor_0_r. done.
Qed.

Lemma xor_list_same_key a b k : length a = length k → length b = length k →
  xor_list (xor_list a k) (xor_list b k) = xor_list a b.
Proof.
  intros Ha Hb. assert (length (xor_list a k) = length (xor_list b k)) as H by (rewrite !length_xor_list; lia).
  apply list_eq_get; [rewrite !length_xor_list; lia|]. intros i _. rewrite !get_xor_list by (done || lia).
  rewrite (Z.lxor_comm (get b i)), Z.lxor_assoc, <- (Z.lxor_assoc (get k i)), Z.lxor_nilpotent, Z.lxor_0_l. done.
Qed.

(** ** Counted loops

    [for_loop from n f s] is [for (i = from; i < from + n; i++) s = f i s]. *)

Definition for_loop {S : Type} (from n : nat) (f : nat → S → S) (s : S) : S :=
  foldl (λ s i, f i s) s (seq from n).

Section for_loop.
Context {S : Type}.
Implicit Types (f : nat → S → S) (s : S).

Lemma for_loop_0 from f s : for_loop from 0 f s = s.
Proof. done. Qed.

Lemma for_loop_S_l from n f s :
  for_loop from (Datatypes.S n) f s = for_loop (Datatypes.S from) n f (f from s).
Proof. done. Qed.

Lemma for_loop_S_r from n f s :
  for_loop from (Datatypes.S n) f s = f (from + n)%nat (for_loop from n f s).
Proof. unfold for_loop. by rewrite seq_S, foldl_app. Qed.

Lemma for_loop_add from n m f s :
  for_loop from (n + m) f s = for_loop (from + n) m f (for_loop from n f s).
Proof. unfold for_loop. by rewrite seq_app, foldl_app. Qed.

(** The loop invariant rule. *)
Lemma for_loop_ind (P : nat → S → Prop) from n f s :
  P from s →
  (∀ i s', (from ≤ i < from + n)%nat → P i s' → P (Datatypes.S i) (f i s')) →
  P (from + n)%nat (for_loop from n f s).
Proof.
  intros H0 Hstep. induction n as [|n IH].
  - by rewrite Nat.add_0_r.
  - rewrite for_loop_S_r, Nat.add_succ_r. apply Hstep; [lia|].
    apply IH. intros; apply Hstep; [lia|done].
Qed.

(** The same rule for an invariant that does not mention the counter. *)
Lemma for_loop_inv (P : S → Prop) from n f s :
  P s → (∀ i s', (from ≤ i < from + n)%nat → P s' → P (f i s')) → P (for_loop from n f s).
Proof. intros H0 Hs. by apply (for_loop_ind (λ _, P)). Qed.

(** Two loops whose bodies agree compute the same. *)
Lemma for_loop_ext from n f g s :
  (∀ i s', (from ≤ i < from + n)%nat → f i s' = g i s') →
  for_loop from n f s = for_loop from n g s.
Proof.
  intros H. induction n as [|n IH]; [done|].
  rewrite !for_loop_S_r, IH by (intros; apply H; lia). apply H; lia.
Qed.
End for_loop.

Lemma for_loop_shift {S : Type} a n (f : nat → S → S) s :
  for_loop 0 n (λ j s, f (a + j)%nat s) s = for_loop a n f s.
Proof. induction n as [|n IH]; [done|]. by rewrite !for_loop_S_r, IH. Qed.

(** Two nested counted loops are one loop over the product. *)
Lemma for_loop_nest {S : Type} n m (f : nat → S → S) s :
  for_loop 0 n (λ i s, for_loop 0 m (λ j s, f (m * i + j)%nat s) s) s = for_loop 0 (n * m) f s.
Proof.
  induction n as [|n IH]; [done|]. rewrite for_loop_S_r, IH. cbn [Nat.add Nat.mul].
  by rewrite (Nat.add_comm m), for_loop_add, for_loop_shift, (Nat.mul_comm n m).
Qed.

(** [for_down n f s] is [for (i = n; i > 0; i--) s = f i s]. *)
Fixpoint for_down {S : Type} (n : nat) (f : nat → S → S) (s : S) : S :=
  match n with
  | O => s
  | Datatypes.S n' => for_down n' f (f n s)
  end.

Lemma for_down_S {S : Type} n (f : nat → S → S) s :
  for_down (Datatypes.S n) f s = for_down n f (f (Datatypes.S n) s).
Proof. done. Qed.

(** A loop that rewrites every cell of an array in place is [map]. *)
Lemma for_loop_map (f : Z → Z) (l : list Z) :
  for_loop 0 (length l) (λ i s, <[i := f (get s i)]> s) l = map f l.
Proof.
  pose (P i s := s = map f (take i l) ++ drop i l).
  enough (P (0 + length l)%nat (for_loop 0 (length l) (λ i s, <[i := f (get s i)]> s) l)) as H.
  { unfold P in H. rewrite H. simpl. rewrite take_ge, drop_ge by lia. by rewrite app_nil_r. }
  apply for_loop_ind; [by unfold P|]. unfold P. intros i s Hi ->.
  destruct (drop i l) as [|x r] eqn:Hd.
  { apply (f_equal length) in Hd. rewrite length_drop in Hd. simpl in Hd. lia. }
  assert (l !! i = Some x) as Hx.
  { rewrite <- (Nat.add_0_r i), <- lookup_drop, Hd. done. }
  assert (length (map f (take i l)) = i) as Hlen.
  { rewrite length_map, length_take. lia. }
  assert (get (map f (take i l) ++ x :: r) i = x) as ->.
  { rewrite get_app_r by lia. rewrite Hlen, Nat.sub_diag. done. }
  rewrite insert_app_r_alt, Hlen, Nat.sub_diag by lia. simpl.
  rewrite (take_S_r _ _ _ Hx), map_app, <- app_assoc. simpl. do 2 f_equal.
  rewrite (drop_S _ _ _ Hx) in Hd. by simplify_eq.
Qed.

(** Checkers, for concrete buffers. *)
Definition bytes_okb (l : list Z) : bool := forallb (λ x, (0 <=? x) && (x <? 256)) l.
Definition words_okb (l : list Z) : bool := forallb (λ x, (0 <=? x) && (x <? 4294967296)) l.

Lemma bytes_okb_ok l : bytes_okb l = true → bytes_ok l.
Proof.
  unfold bytes_okb. rewrite forallb_forall. intros H. apply Forall_forall. intros x Hx.
  apply list_elem_of_In, H in Hx. bool_to_prop. unfold is_u8. lia.
Qed.

Lemma words_okb_ok l : words_okb l = true → words_ok l.
Proof.
  unfold words_okb. rewrite forallb_forall. intros H. apply Forall_forall. intros x Hx.
  apply list_elem_of_In, H in Hx. bool_to_prop. unfold is_u32. lia.
Qed.

#[export] Hint Resolve get_u8 get_u32 bytes_ok_insert words_ok_insert
  bytes_ok_take bytes_ok_drop bytes_ok_xor_list : width.
