(* ===== verification/Msel.v ===== *)
(** * Status codes

    The [msel_status] enumeration of include/msel.h, returned by every system
    function. *)

From S2P Require Import Prelude.

Local Open Scope Z_scope.

Inductive msel_status : Set :=
  | MSEL_EUNKNOWN
  | MSEL_EINVAL
  | MSEL_ERESOURCE
  | MSEL_EBUSY
  | MSEL_EINVSVC
  | MSEL_ENOTIMPL
  | MSEL_EBADF
  | MSEL_ENOMEM
  | MSEL_EEXIST
  | MSEL_ESUSP
  | MSEL_EAGAIN
  | MSEL_EPERM
  | MSEL_OK.

#[export] Instance msel_status_eq_dec : EqDecision msel_status.
Proof. solve_decision. Defined.

(** The integer a status is returned as. *)
Definition status_val (s : msel_status) : Z :=
  match s with
  | MSEL_EUNKNOWN => -128 | MSEL_EINVAL => -127 | MSEL_ERESOURCE => -126 | MSEL_EBUSY => -125
  | MSEL_EINVSVC => -124 | MSEL_ENOTIMPL => -123 | MSEL_EBADF => -122 | MSEL_ENOMEM => -121
  | MSEL_EEXIST => -120 | MSEL_ESUSP => -119 | MSEL_EAGAIN => -118 | MSEL_EPERM => -117
  | MSEL_OK => 0
  end.

Lemma status_val_inj s t : status_val s = status_val t → s = t.
Proof. by destruct s, t. Qed.
