(* ===== verification/Words.v ===== *)
(** * Bytes and words

    Integers as sequences of bytes, in both byte orders, and the shift/or
    idiom the sources use to assemble and take apart 32-bit words
    ([c8to32]/[c32to8] of sw_sha.c, the key loading of sw_aes.c, the counters
    of aes_gcm.c and aes_xts.c). *)

From S2P Require Import Prelude.

Local Open Scope Z_scope.
Local Open Scope orp_scope.

(** Placing [y] under [x]: the or of disjoint fields is their sum. *)
Lemma lor_shiftl_add x y k : 0 <= k → 0 <= y < 2 ^ k → (x <<< k) .| y = x * 2 ^ k + y.
Proof.
  intros Hk Hy. rewrite <- Z.shiftl_mul_pow2 by done. symmetry.
  rewrite <- Z.lxor_lor; [apply Z.add_nocarry_lxor|];
    apply Z.bits_inj'; intros n Hn; rewrite Z.land_spec, Z.bits_0;
    (destruct (Z.lt_ge_cases n k); [by rewrite Z.shiftl_spec_low|]);
    by rewrite (testbit_above k y), andb_false_r.
Qed.

Lemma testbit_field x y k n : 0 <= k → 0 <= y < 2 ^ k → 0 <= n →
  Z.testbit (x * 2 ^ k + y) n = if n <? k then Z.testbit y n else Z.testbit x (n - k).
Proof.
  intros Hk Hy Hn. rewrite <- lor_shiftl_add by done. rewrite Z.lor_spec.
  destruct (Z.ltb_spec n k).
  - by rewrite Z.shiftl_spec_low.
  - by rewrite Z.shiftl_spec, (testbit_above k y), orb_false_r.
Qed.

Lemma field_lxor x y x' y' k : 0 <= k → 0 <= y < 2 ^ k → 0 <= y' < 2 ^ k →
  (x * 2 ^ k + y) ^^ (x' * 2 ^ k + y') = (x ^^ x') * 2 ^ k + (y ^^ y').
Proof.
  intros Hk Hy Hy'. apply Z.bits_inj'. intros n Hn.
  rewrite Z.lxor_spec, !testbit_field by (try apply lxor_bound; done).
  destruct (n <? k); by rewrite Z.lxor_spec.
Qed.

(** ** 32-bit words from four bytes, most significant first *)

Definition be32 (a b c d : Z) : Z := (a <<< 24) .| (b <<< 16) .| (c <<< 8) .| d.

Lemma be32_arith a b c d : is_u8 a → is_u8 b → is_u8 c → is_u8 d →
  be32 a b c d = ((a * 2 ^ 8 + b) * 2 ^ 8 + c) * 2 ^ 8 + d.
Proof.
  unfold is_u8, be32. intros. rewrite <- !Z.lor_assoc.
  rewrite (lor_shiftl_add c d 8), (lor_shiftl_add b _ 16), (lor_shiftl_add a _ 24); lia.
Qed.

Ltac be32_arith := rewrite !be32_arith by assumption; unfold is_u8, is_u32, u8, u32 in *.

Lemma be32_range a b c d : is_u8 a → is_u8 b → is_u8 c → is_u8 d → is_u32 (be32 a b c d).
Proof. intros. be32_arith. lia. Qed.

Lemma be32_bytes a b c d : is_u8 a → is_u8 b → is_u8 c → is_u8 d →
  u8 (be32 a b c d >>> 24) = a ∧ u8 (be32 a b c d >>> 16) = b ∧
  u8 (be32 a b c d >>> 8) = c ∧ u8 (be32 a b c d) = d.
Proof.
  intros. be32_arith. rewrite !Z.shiftr_div_pow2 by lia.
  change (2 ^ 24) with 16777216. change (2 ^ 16) with 65536. change (2 ^ 8) with 256 in *.
  repeat split; Z.div_mod_to_equations; lia.
Qed.

Lemma be32_lxor a b c d a' b' c' d' :
  is_u8 a → is_u8 b → is_u8 c → is_u8 d → is_u8 a' → is_u8 b' → is_u8 c' → is_u8 d' →
  be32 a b c d ^^ be32 a' b' c' d' = be32 (a ^^ a') (b ^^ b') (c ^^ c') (d ^^ d').
Proof.
  intros. rewrite !be32_arith by (try apply is_u8_lxor; done).
  by rewrite !field_lxor by (lia || done).
Qed.

Lemma be32_byte3 a b c d : is_u8 a → is_u8 b → is_u8 c → is_u8 d → u8 (be32 a b c d >>> 24) = a.
Proof. intros. by destruct (be32_bytes a b c d) as (? & ? & ? & ?). Qed.
Lemma be32_byte2 a b c d : is_u8 a → is_u8 b → is_u8 c → is_u8 d → u8 (be32 a b c d >>> 16) = b.
Proof. intros. by destruct (be32_bytes a b c d) as (? & ? & ? & ?). Qed.
Lemma be32_byte1 a b c d : is_u8 a → is_u8 b → is_u8 c → is_u8 d → u8 (be32 a b c d >>> 8) = c.
Proof. intros. by destruct (be32_bytes a b c d) as (? & ? & ? & ?). Qed.
Lemma be32_byte0 a b c d : is_u8 a → is_u8 b → is_u8 c → is_u8 d → u8 (be32 a b c d) = d.
Proof. intros. by destruct (be32_bytes a b c d) as (? & ? & ? & ?). Qed.

(** The four bytes of a 32-bit word. *)
Definition byte3 (x : Z) : Z := u8 (x >>> 24).
Definition byte2 (x : Z) : Z := u8 (x >>> 16).
Definition byte1 (x : Z) : Z := u8 (x >>> 8).
Definition byte0 (x : Z) : Z := u8 x.

Lemma be32_eta x : is_u32 x → be32 (byte3 x) (byte2 x) (byte1 x) (byte0 x) = x.
Proof.
  intros Hx. rewrite be32_arith by apply u8_range.
  unfold byte3, byte2, byte1, byte0, u8, is_u32 in *.
  rewrite !Z.shiftr_div_pow2 by lia.
  change (2 ^ 24) with 16777216. change (2 ^ 16) with 65536. change (2 ^ 8) with 256 in *.
  Z.div_mod_to_equations. lia.
Qed.

(** ** Byte sequences as integers *)

(** Little-endian value: the first byte is the least significant one. *)
Fixpoint le_val (l : list Z) : Z :=
  match l with [] => 0 | x :: l => le_val l * 2 ^ 8 + x end.

(** Big-endian value. *)
Definition be_val (l : list Z) : Z := le_val (rev l).

Lemma le_val_range l : bytes_ok l → 0 <= le_val l < 2 ^ (8 * Z.of_nat (length l)).
Proof.
  induction 1 as [|x l Hx _ IH]; [done|]. cbn [le_val length]. unfold is_u8 in Hx.
  replace (8 * Z.of_nat (S (length l))) with (8 * Z.of_nat (length l) + 8) by lia.
  rewrite Z.pow_add_r by lia. nia.
Qed.

Lemma le_val_app l k : le_val (l ++ k) = le_val k * 2 ^ (8 * Z.of_nat (length l)) + le_val l.
Proof.
  induction l as [|x l IH]; [simpl; lia|]. cbn [le_val length app]. rewrite IH.
  replace (8 * Z.of_nat (S (length l))) with (8 * Z.of_nat (length l) + 8) by lia.
  rewrite (Z.pow_add_r 2 _ 8) by lia. ring.
Qed.

Lemma le_val_inj l k : bytes_ok l → bytes_ok k → length l = length k → le_val l = le_val k → l = k.
Proof.
  intros Hl. revert k. induction Hl as [|x l Hx _ IH]; intros [|y k] Hk Hlen; try done.
  inversion_clear Hk as [|? ? Hy Hk']. cbn [le_val]. unfold is_u8 in *. intros Heq.
  assert (x = y ∧ le_val l = le_val k) as [-> ?] by lia.
  f_equal. apply IH; try done. simpl in Hlen. lia.
Qed.

Lemma le_val_xor l k : bytes_ok l → bytes_ok k → length l = length k →
  le_val (xor_list l k) = le_val l ^^ le_val k.
Proof.
  intros Hl. revert k. induction Hl as [|x l Hx _ IH]; intros [|y k] Hk Hlen; try done.
  inversion_clear Hk as [|? ? Hy Hk']. cbn [le_val xor_list zip_with].
  rewrite field_lxor by (lia || done). f_equal. f_equal. apply IH; [done|].
  simpl in Hlen. lia.
Qed.

Lemma be_val_range l : bytes_ok l → 0 <= be_val l < 2 ^ (8 * Z.of_nat (length l)).
Proof.
  intros. rewrite <- length_rev. apply le_val_range. by apply Forall_rev.
Qed.

Lemma be_val_inj l k : bytes_ok l → bytes_ok k → length l = length k → be_val l = be_val k → l = k.
Proof.
  intros ??? H. apply le_val_inj in H; [|by apply Forall_rev..|by rewrite !length_rev].
  by rewrite <- (rev_involutive l), H, rev_involutive.
Qed.

Lemma be_val_snoc l x : be_val (l ++ [x]) = be_val l * 2 ^ 8 + x.
Proof. unfold be_val. by rewrite rev_app_distr. Qed.

Lemma be_val_be32 a b c d : is_u8 a → is_u8 b → is_u8 c → is_u8 d →
  be_val [a; b; c; d] = be32 a b c d.
Proof. intros. by rewrite be32_arith by done. Qed.

(** The [n] low bytes of an integer, least significant first. *)
Fixpoint le_bytes (n : nat) (v : Z) : list Z :=
  match n with O => [] | S n => v mod 2 ^ 8 :: le_bytes n (v / 2 ^ 8) end.

Lemma le_bytes_val l : bytes_ok l → le_bytes (length l) (le_val l) = l.
Proof.
  induction 1 as [|x l Hx _ IH]; [done|]. cbn [le_val length le_bytes]. unfold is_u8 in Hx.
  rewrite Z.add_comm, Z.mod_add, Z.mod_small, Z.div_add, Z.div_small by lia.
  by rewrite Z.add_0_l, IH.
Qed.

Lemma le_val_bytes n v : 0 <= v < 2 ^ (8 * Z.of_nat n) → le_val (le_bytes n v) = v.
Proof.
  revert v. induction n as [|n IH]; intros v Hv; [simpl in *; lia|].
  cbn [le_bytes le_val]. rewrite IH; [pose proof (Z.div_mod v (2 ^ 8)); lia|].
  replace (8 * Z.of_nat (S n)) with (8 * Z.of_nat n + 8) in Hv by lia.
  rewrite Z.pow_add_r in Hv by lia. split; [apply Z.div_pos; lia|].
  apply Z.div_lt_upper_bound; lia.
Qed.

Lemma le_bytes_length n v : length (le_bytes n v) = n.
Proof. revert v. induction n as [|n IH]; intros v; [done|]. cbn. by rewrite IH. Qed.

Lemma le_bytes_ok n v : bytes_ok (le_bytes n v).
Proof.
  revert v. induction n as [|n IH]; intros v; [constructor|].
  cbn [le_bytes]. constructor; [apply u8_range|apply IH].
Qed.

Lemma be_val_app l k : be_val (l ++ k) = be_val l * 2 ^ (8 * Z.of_nat (length k)) + be_val k.
Proof. unfold be_val. by rewrite rev_app_distr, le_val_app, length_rev. Qed.

(** Replacing one byte changes the value by its difference at its weight. *)
Lemma le_val_insert l j x : (j < length l)%nat →
  le_val (<[j := x]> l) = le_val l + (x - get l j) * 2 ^ (8 * Z.of_nat j).
Proof.
  intros Hj. destruct (lookup_lt_is_Some_2 l j Hj) as [y Hy].
  rewrite <- (take_drop_middle l j y Hy) at 2. rewrite insert_take_drop by done.
  rewrite !le_val_app. cbn [le_val]. unfold get. rewrite Hy. cbn [default].
  rewrite length_take, Nat.min_l by lia. cbn. ring.
Qed.

Lemma be_val_insert l j x : (j < length l)%nat →
  be_val (<[j := x]> l) = be_val l + (x - get l j) * 2 ^ (8 * Z.of_nat (length l - 1 - j)).
Proof.
  intros Hj. destruct (lookup_lt_is_Some_2 l j Hj) as [y Hy].
  rewrite <- (take_drop_middle l j y Hy) at 2. rewrite insert_take_drop by done.
  rewrite !be_val_app. change (be_val (?z :: ?k)) with (be_val ([z] ++ k)).
  rewrite !be_val_app. unfold get. rewrite Hy. cbn [length default from_option].
  rewrite length_drop. change (be_val [x]) with (0 * 2 ^ 8 + x). change (be_val [y]) with (0 * 2 ^ 8 + y).
  replace (length l - 1 - j)%nat with (length l - S j)%nat by lia. cbn. ring.
Qed.

(** Bit [8 i + j] of a little-endian value is bit [j] of byte [i]. *)
Lemma le_val_testbit l i j : bytes_ok l → 0 <= j < 8 →
  Z.testbit (le_val l) (8 * Z.of_nat i + j) = Z.testbit (get l i) j.
Proof.
  intros Hl Hj. revert i. induction Hl as [|x l Hx Hl IH]; intros i.
  { rewrite get_oob by (simpl; lia). by rewrite !Z.bits_0. }
  cbn [le_val]. rewrite testbit_field by (lia || done). destruct i as [|i].
  - destruct (Z.ltb_spec (8 * Z.of_nat 0 + j) 8); [done|lia].
  - destruct (Z.ltb_spec (8 * Z.of_nat (S i) + j) 8); [lia|].
    change (get (x :: l) (S i)) with (get l i). rewrite <- IH. f_equal. lia.
Qed.
