(* ===== verification/Stdc.v ===== *)
(** * The freestanding C library

    [msel_memset], [msel_memcpy], [msel_memcmp], [msel_strlen], [msel_strcmp]
    and [msel_strcpy] of os/stdc.c, and [ilog2] of os/util.c.  A buffer is the
    list of its bytes; a pointer into it is an offset.  The comparison and
    string routines stop at a byte they find, so they return [None] when they
    would read past the end of a buffer. *)

From S2P Require Import Prelude.

Local Open Scope Z_scope.
Local Open Scope orp_scope.

(** ** Operations *)

Definition msel_memset (dst : list Z) (off : nat) (val : Z) (sz : nat) : list Z :=
  for_loop 0 sz (λ idx d, <[(off + idx)%nat := u8 val]> d) dst.

Definition msel_memcpy (dst : list Z) (doff : nat) (src : list Z) (soff sz : nat) : list Z :=
  for_loop 0 sz (λ idx d, <[(doff + idx)%nat := get src (soff + idx)]> d) dst.

(** The three-way comparison that ends [msel_memcmp] and [msel_strcmp]. *)
Definition compare_at (x y : Z) : Z := if x <? y then -1 else if y <? x then 1 else 0.

(** The while loop of [msel_memcmp]; the bound [sz - 1] is a [size_t], so it
    wraps when [sz] is 0. *)
Fixpoint memcmp_loop (fuel : nat) (a b : list Z) (last : Z) (idx : nat) : option Z :=
  match fuel with
  | O => None
  | S fuel =>
      x ← a !! idx; y ← b !! idx;
      if (Z.of_nat idx <? last) && (x =? y) then memcmp_loop fuel a b last (S idx)
      else Some (compare_at x y)
  end.
Definition msel_memcmp (a b : list Z) (sz : Z) : option Z :=
  memcmp_loop (S (length a)) a b (u32 (sz - 1)) 0.

Fixpoint strlen_loop (fuel : nat) (src : list Z) (ctr : nat) : option nat :=
  match fuel with
  | O => None
  | S fuel => c ← src !! ctr; if c =? 0 then Some ctr else strlen_loop fuel src (S ctr)
  end.
Definition msel_strlen (src : list Z) : option nat := strlen_loop (S (length src)) src 0.

Fixpoint strcmp_loop (fuel : nat) (a b : list Z) (idx : nat) : option Z :=
  match fuel with
  | O => None
  | S fuel =>
      x ← a !! idx; y ← b !! idx;
      if negb (x =? 0) && (x =? y) then strcmp_loop fuel a b (S idx)
      else Some (compare_at x y)
  end.
Definition msel_strcmp (a b : list Z) : option Z := strcmp_loop (S (length a)) a b 0.

Fixpoint strcpy_loop (fuel : nat) (dst src : list Z) (idx : nat) : option (list Z) :=
  match fuel with
  | O => None
  | S fuel =>
      c ← src !! idx;
      if c =? 0 then Some dst
      else strcpy_loop fuel (<[idx := c]> dst) src (S idx)
  end.
Definition msel_strcpy (dst src : list Z) : option (list Z) :=
  strcpy_loop (S (length src)) dst src 0.

(** [ilog2]: the exact base-2 logarithm, or -1. *)
Definition ilog2 (op : Z) : Z :=
  let last := for_loop 0 32 (λ pos last,
    if negb (op .& u32 (1 <<< Z.of_nat pos) =? 0) then Z.of_nat pos else last) 0 in
  if negb (op =? u32 (1 <<< last)) then -1 else last.

(** ** Behaviour *)

(** Overwrite [dst] with [src] from offset [off]. *)
Definition blit (off : nat) (src dst : list Z) : list Z :=
  take off dst ++ src ++ drop (off + length src) dst.

Lemma blit_length off src dst :
  (off + length src ≤ length dst)%nat → length (blit off src dst) = length dst.
Proof. intros. unfold blit. rewrite !length_app, length_take, length_drop. lia. Qed.

Lemma blit_snoc off src x dst : (off + length src < length dst)%nat →
  <[(off + length src)%nat := x]> (blit off src dst) = blit off (src ++ [x]) dst.
Proof.
  intros H. unfold blit.
  rewrite insert_app_r_alt; rewrite length_take, Nat.min_l by lia; [|lia].
  replace (off + length src - off)%nat with (length src + 0)%nat by lia.
  rewrite insert_app_r, <- app_assoc. do 2 f_equal.
  destruct (lookup_lt_is_Some_2 dst (off + length src)) as [y Hy]; [lia|].
  rewrite (drop_S _ _ _ Hy). cbn [app insert list_insert]. f_equal.
  rewrite length_app. simpl. f_equal. lia.
Qed.

Lemma bytes_ok_blit off src dst : bytes_ok src → bytes_ok dst → bytes_ok (blit off src dst).
Proof.
  intros. unfold blit. rewrite !bytes_ok_app. auto with width.
Qed.

Lemma blit_take off src dst : (off + length src ≤ length dst)%nat →
  take (off + length src) (blit off src dst) = take off dst ++ src.
Proof.
  intros. unfold blit. rewrite app_assoc, take_app_le.
  - apply take_ge. rewrite length_app, length_take. lia.
  - rewrite length_app, length_take. lia.
Qed.

(** [msel_memcpy] writes exactly the [sz] bytes of the source into the
    destination and leaves every other byte alone. *)
Lemma msel_memcpy_blit dst doff src soff sz :
  (doff + sz ≤ length dst)%nat → (soff + sz ≤ length src)%nat →
  msel_memcpy dst doff src soff sz = blit doff (take sz (drop soff src)) dst.
Proof.
  intros Hd Hs. unfold msel_memcpy. induction sz as [|n IH].
  { unfold blit. simpl. rewrite Nat.add_0_r. by rewrite take_drop. }
  rewrite for_loop_S_r, IH by lia.
  assert (length (take n (drop soff src)) = n) as Hl by (rewrite length_take, length_drop; lia).
  destruct (lookup_lt_is_Some_2 src (soff + n)) as [y Hy]; [lia|].
  rewrite (take_S_r _ _ y) by (rewrite lookup_drop; done).
  rewrite <- (blit_snoc _ _ y) by (rewrite Hl; lia). rewrite Hl. simpl.
  unfold get. by rewrite Hy.
Qed.

Lemma msel_memset_blit dst off val sz : (off + sz ≤ length dst)%nat →
  msel_memset dst off val sz = blit off (replicate sz (u8 val)) dst.
Proof.
  intros Hd. unfold msel_memset. induction sz as [|n IH].
  { unfold blit. simpl. rewrite Nat.add_0_r. by rewrite take_drop. }
  rewrite for_loop_S_r, IH by lia. rewrite replicate_S_end.
  rewrite <- blit_snoc by (rewrite length_replicate; lia). by rewrite length_replicate.
Qed.

(** Lexicographic three-way comparison. *)
Fixpoint lex_compare (a b : list Z) : Z :=
  match a, b with
  | x :: a, y :: b => if x =? y then lex_compare a b else compare_at x y
  | _, _ => 0
  end.

Lemma compare_at_ne x y : x ≠ y → compare_at x y ≠ 0.
Proof.
  intros. unfold compare_at. destruct (Z.ltb_spec x y); [done|].
  destruct (Z.ltb_spec y x); [done|lia].
Qed.

Lemma lex_compare_0 a b : length a = length b → lex_compare a b = 0 ↔ a = b.
Proof.
  revert b. induction a as [|x a IH]; intros [|y b] Hl; try done. injection Hl as Hl. cbn [lex_compare].
  destruct (Z.eqb_spec x y) as [->|Hne].
  - rewrite IH by done. split; [by intros ->|by intros [= ->]].
  - split; [by intros ?%compare_at_ne|by intros [= ? ?]].
Qed.

Lemma memcmp_loop_spec fuel a b n idx :
  (idx < n)%nat → (n ≤ length a)%nat → (n ≤ length b)%nat → (n - idx ≤ fuel)%nat →
  memcmp_loop fuel a b (Z.of_nat n - 1) idx =
  Some (lex_compare (take (n - idx) (drop idx a)) (take (n - idx) (drop idx b))).
Proof.
  revert idx. induction fuel as [|fuel IH]; intros idx Hi Ha Hb Hf; [lia|].
  destruct (lookup_lt_is_Some_2 a idx) as [x Hx]; [lia|].
  destruct (lookup_lt_is_Some_2 b idx) as [y Hy]; [lia|].
  cbn [memcmp_loop]. rewrite Hx, Hy. cbn [mbind option_bind].
  rewrite (drop_S _ _ _ Hx), (drop_S _ _ _ Hy).
  destruct (n - idx)%nat as [|m] eqn:Em; [lia|]. cbn [take lex_compare].
  destruct (Z.ltb_spec (Z.of_nat idx) (Z.of_nat n - 1)) as [Hlt|Hge]; cbn [andb].
  - destruct (x =? y); [|done]. rewrite IH by lia.
    by replace (n - S idx)%nat with m by lia.
  - assert (m = 0%nat) as -> by lia. cbn [take lex_compare].
    destruct (Z.eqb_spec x y) as [->|]; [|done]. unfold compare_at. by rewrite Z.ltb_irrefl.
Qed.

(** [msel_memcmp] on a non-empty range compares the two ranges
    lexicographically, byte by byte, and never reads past [sz] bytes. *)
Theorem msel_memcmp_lex a b sz :
  1 <= sz < 2 ^ 32 → sz <= Z.of_nat (length a) → sz <= Z.of_nat (length b) →
  msel_memcmp a b sz =
  Some (lex_compare (take (Z.to_nat sz) a) (take (Z.to_nat sz) b)).
Proof.
  intros Hsz Ha Hb. unfold msel_memcmp. rewrite u32_id by (unfold is_u32; lia).
  rewrite <- (Z2Nat.id sz) at 1 by lia.
  rewrite memcmp_loop_spec by lia. by rewrite Nat.sub_0_r, !drop_0.
Qed.

Lemma msel_memcmp_lex_witness :
  msel_memcmp [1; 2; 3] [1; 2; 9] 2 = Some 0 ∧ msel_memcmp [1; 2; 3] [1; 2; 9] 3 = Some (-1).
Proof.
  split.
  - rewrite (msel_memcmp_lex [1; 2; 3] [1; 2; 9] 2); [reflexivity|simpl; lia..].
  - reflexivity.
Defined.

(** A zero length makes the bound wrap: the first byte is still compared. *)
Lemma msel_memcmp_zero : msel_memcmp [1] [2] 0 = Some (-1).
Proof. vm_compute. reflexivity. Qed.

(** A C string: characters other than 0, a terminator, anything after it. *)
Definition cstring (s rest : list Z) : list Z := s ++ 0 :: rest.
Definition chars_ok (s : list Z) : Prop := Forall (λ c, c ≠ 0) s.

Lemma cstring_char s rest i c : s !! i = Some c → cstring s rest !! i = Some c.
Proof. intros H. unfold cstring. rewrite lookup_app_l; [done|by eapply lookup_lt_Some]. Qed.

Lemma cstring_end s rest : cstring s rest !! length s = Some 0.
Proof. unfold cstring. by rewrite lookup_app_r, Nat.sub_diag by lia. Qed.

Lemma cstring_length s rest : length (cstring s rest) = S (length s + length rest).
Proof. unfold cstring. rewrite length_app. simpl. lia. Qed.

Lemma strlen_loop_spec fuel s rest ctr : chars_ok s → (ctr ≤ length s)%nat →
  (length s - ctr < fuel)%nat → strlen_loop fuel (cstring s rest) ctr = Some (length s).
Proof.
  intros Hs. revert ctr. induction fuel as [|fuel IH]; intros ctr Hc Hf; [lia|].
  cbn [strlen_loop]. destruct (decide (ctr = length s)) as [->|Hne].
  { by rewrite cstring_end. }
  destruct (lookup_lt_is_Some_2 s ctr) as [c Hc']; [lia|].
  rewrite (cstring_char _ _ _ _ Hc'). cbn [mbind option_bind].
  pose proof (Forall_lookup_1 _ _ _ _ Hs Hc') as Hnz. simpl in Hnz.
  destruct (Z.eqb_spec c 0); [done|]. apply IH; lia.
Qed.

Lemma msel_strlen_spec s rest : chars_ok s → msel_strlen (cstring s rest) = Some (length s).
Proof. intros. apply strlen_loop_spec; [done|lia|]. rewrite cstring_length. lia. Qed.

Lemma lookup_pre (pre : list Z) x l : (pre ++ x :: l) !! length pre = Some x.
Proof. by rewrite lookup_app_r, Nat.sub_diag by lia. Qed.

Lemma strcmp_loop_spec fuel pa pb s t ra rb :
  chars_ok s → chars_ok t → length pa = length pb → (length s < fuel)%nat →
  strcmp_loop fuel (pa ++ cstring s ra) (pb ++ cstring t rb) (length pa) =
  Some (lex_compare (s ++ [0]) (t ++ [0])).
Proof.
  revert pa pb s t. induction fuel as [|fuel IH]; intros pa pb s t Hs Ht Hl Hf; [lia|].
  cbn [strcmp_loop]. unfold cstring.
  destruct Hs as [|x s Hx Hs]; destruct Ht as [|y t Hy Ht]; cbn [app];
    rewrite lookup_pre; cbn [mbind option_bind]; rewrite Hl, lookup_pre;
    cbn [mbind option_bind lex_compare].
  - done.
  - destruct (Z.eqb_spec 0 y); [congruence|done].
  - by destruct (Z.eqb_spec x 0).
  - destruct (Z.eqb_spec x 0); [done|]. cbn [negb andb]. destruct (Z.eqb_spec x y) as [->|]; [|done].
    specialize (IH (pa ++ [y]) (pb ++ [y]) s t Hs Ht).
    rewrite !length_app, <- !app_assoc in IH. cbn [app length] in IH, Hf.
    rewrite <- IH by lia. unfold cstring. f_equal. lia.
Qed.

Lemma lex_compare_cstring_0 s t : chars_ok s → chars_ok t →
  lex_compare (s ++ [0]) (t ++ [0]) = 0 ↔ s = t.
Proof.
  intros Hs. revert t. induction Hs as [|x s Hx Hs IH]; intros t [|y t' Hy Ht];
    cbn [app lex_compare].
  - done.
  - destruct (Z.eqb_spec 0 y) as [<-|Hne]; [done|]. by split; [intros ?%compare_at_ne|].
  - destruct (Z.eqb_spec x 0) as [->|Hne]; [done|]. by split; [intros ?%compare_at_ne|].
  - destruct (Z.eqb_spec x y) as [->|Hne].
    + rewrite IH by done. split; [by intros ->|by intros [= ->]].
    + split; [by intros ?%compare_at_ne|by intros [= ? ?]].
Qed.

(** [msel_strcmp] returns 0 on two C strings exactly when they are equal. *)
Theorem msel_strcmp_equal s t ra rb : chars_ok s → chars_ok t →
  ∃ r, msel_strcmp (cstring s ra) (cstring t rb) = Some r ∧ (r = 0 ↔ s = t).
Proof.
  intros Hs Ht. eexists. split; [|by apply lex_compare_cstring_0].
  apply (strcmp_loop_spec _ [] []); try done. rewrite cstring_length. lia.
Qed.

Lemma msel_strcmp_equal_witness :
  ∃ r, msel_strcmp (cstring [97; 98] []) (cstring [97; 99] [7]) = Some r ∧
    (r = 0 ↔ [97; 98] = [97; 99]).
Proof. apply (msel_strcmp_equal [97; 98] [97; 99] [] [7]); repeat constructor; done. Defined.

Lemma strcpy_loop_spec fuel pre s rest dst :
  chars_ok s → (length pre + length s ≤ length dst)%nat → (length s < fuel)%nat →
  strcpy_loop fuel (blit 0 pre dst) (pre ++ cstring s rest) (length pre) =
  Some (blit 0 (pre ++ s) dst).
Proof.
  revert pre s. induction fuel as [|fuel IH]; intros pre s Hs Hd Hf; [lia|].
  cbn [strcpy_loop]. unfold cstring.
  destruct Hs as [|x s Hx Hs]; cbn [app]; rewrite lookup_pre; cbn [mbind option_bind].
  { by rewrite app_nil_r. }
  destruct (Z.eqb_spec x 0); [done|]. cbn [length] in *.
  pose proof (blit_snoc 0 pre x dst) as Hb. cbn [Nat.add] in Hb. rewrite Hb by lia.
  specialize (IH (pre ++ [x]) s Hs). rewrite length_app, <- !app_assoc in IH.
  cbn [app length] in IH. rewrite Nat.add_1_r in IH. apply IH; lia.
Qed.

(** [msel_strcpy] copies the characters but not the terminator. *)
Lemma msel_strcpy_no_terminator s rest dst :
  chars_ok s → (length s ≤ length dst)%nat →
  msel_strcpy dst (cstring s rest) = Some (s ++ drop (length s) dst).
Proof.
  intros Hs Hl. unfold msel_strcpy. pose proof (strcpy_loop_spec (S (length (cstring s rest)))
    [] s rest dst Hs ltac:(simpl; lia) ltac:(rewrite cstring_length; lia)) as H.
  unfold blit in H. simpl in H. by rewrite drop_0 in H.
Qed.

Lemma ilog2_last op n : (n ≤ 32)%nat → 0 <= op →
  let last := for_loop 0 n (λ pos last,
    if negb (op .& u32 (1 <<< Z.of_nat pos) =? 0) then Z.of_nat pos else last) 0 in
  0 <= last < 32 ∧ (∀ i, last < i < Z.of_nat n → Z.testbit op i = false) ∧
  (last ≠ 0 → Z.testbit op last = true).
Proof.
  intros Hn Hop. cbv zeta. induction n as [|n IH]; [cbn; split; [lia|split; intros; lia]|].
  destruct IH as (Hr & Hf & Ht); [lia|]. rewrite for_loop_S_r. cbn [Nat.add].
  set (l := for_loop 0 n _ 0) in *. rewrite Z.shiftl_1_l, u32_id.
  2: { split; [lia|]. apply Z.pow_lt_mono_r; lia. }
  assert ((op .& 2 ^ Z.of_nat n =? 0) = negb (Z.testbit op (Z.of_nat n))) as ->.
  { destruct (Z.testbit op (Z.of_nat n)) eqn:E; cbn [negb].
    - apply Z.eqb_neq. intros H. apply (f_equal (λ z, Z.testbit z (Z.of_nat n))) in H.
      rewrite Z.land_spec, E, Z.pow2_bits_true, Z.bits_0 in H by lia. done.
    - apply Z.eqb_eq, Z.bits_inj'. intros i Hi. rewrite Z.land_spec, Z.bits_0, Z.pow2_bits_eqb by lia.
      destruct (Z.eqb_spec (Z.of_nat n) i) as [<-|]; [by rewrite E|by rewrite andb_false_r]. }
  rewrite negb_involutive. destruct (Z.testbit op (Z.of_nat n)) eqn:E.
  - split; [lia|]. split; [intros; lia|done].
  - split; [lia|]. split; [|done]. intros i Hi. destruct (decide (i = Z.of_nat n)) as [->|]; [done|].
    apply Hf. lia.
Qed.

(** [ilog2] returns the exponent of a power of two and -1 on every other
    32-bit value. *)
Theorem ilog2_correct op : is_u32 op →
  (∃ k, 0 <= k < 32 ∧ op = 2 ^ k ∧ ilog2 op = k) ∨
  ((∀ k, 0 <= k < 32 → op ≠ 2 ^ k) ∧ ilog2 op = -1).
Proof.
  intros Hop. destruct (ilog2_last op 32) as (Hr & Hf & Ht); [lia|apply Hop|].
  unfold ilog2. set (l := for_loop 0 32 _ 0) in *. clearbody l.
  rewrite Z.shiftl_1_l, u32_id by (split; [lia|]; apply Z.pow_lt_mono_r; lia).
  destruct (Z.eqb_spec op (2 ^ l)) as [->|Hne]; cbn [negb]; [left; eauto|right].
  split; [|done]. intros k Hk ->. apply Hne. f_equal.
  destruct (Z.lt_trichotomy k l) as [Hlt|[->|Hgt]]; [|done|].
  - rewrite Z.pow2_bits_false in Ht by lia. specialize (Ht ltac:(lia)). done.
  - specialize (Hf k ltac:(lia)). by rewrite Z.pow2_bits_true in Hf by lia.
Qed.

Lemma ilog2_correct_witness :
  (∃ k, 0 <= k < 32 ∧ 4096 = 2 ^ k ∧ ilog2 4096 = k) ∨
  ((∀ k, 0 <= k < 32 → 4096 ≠ 2 ^ k) ∧ ilog2 4096 = -1).
Proof. apply (ilog2_correct 4096). unfold is_u32. lia. Defined.

(** ** Storing a 64-bit counter

    The loop with which sha2.c and aes_gcm.c store a 64-bit count: take the top
    byte, shift the count left. *)

(** Write the eight bytes of [N], most significant first, from offset [off]. *)
Definition put_be64 (off : nat) (N : Z) (din : list Z) : list Z :=
  (for_loop 0 8 (λ i st,
    let '(Ntmp, din) := st in
    (u64 (Ntmp <<< 8), <[(off + i)%nat := u8 (Ntmp >>> 56)]> din)) (N, din)).2.

(** The eight bytes. *)
Definition be64 (N : Z) : list Z := map (λ i, u8 (N >>> (56 - 8 * Z.of_nat i))) (seq 0 8).

Lemma shift_byte N i : (i < 8)%nat →
  u8 (u64 (N <<< (8 * Z.of_nat i)) >>> 56) = u8 (N >>> (56 - 8 * Z.of_nat i)).
Proof.
  intros Hi. unfold u8, u64. rewrite <- !Z.land_ones by lia.
  apply Z.bits_inj'. intros n Hn. rewrite !Z.land_spec, !Z.shiftr_spec by lia.
  rewrite Z.land_spec, Z.shiftl_spec by lia.
  destruct (Z.ltb_spec n 8).
  - rewrite !Z.ones_spec_low by lia. rewrite !andb_true_r. f_equal. lia.
  - by rewrite (Z.ones_spec_high 8) by lia; rewrite !andb_false_r.
Qed.

Lemma put_be64_loop off N din n : (n ≤ 8)%nat → (off + 8 ≤ length din)%nat → is_u64 N →
  for_loop 0 n (λ i st, let '(Ntmp, din) := st in
    (u64 (Ntmp <<< 8), <[(off + i)%nat := u8 (Ntmp >>> 56)]> din)) (N, din) =
  (u64 (N <<< (8 * Z.of_nat n)), blit off (take n (be64 N)) din).
Proof.
  intros Hn Hl HN. induction n as [|n IH].
  { cbn. rewrite Z.shiftl_0_r, u64_id by done. unfold blit. simpl.
    by rewrite Nat.add_0_r, take_drop. }
  rewrite for_loop_S_r, IH by lia. cbn [Nat.add]. f_equal.
  - unfold u64. rewrite !Z.shiftl_mul_pow2 by lia. rewrite Zmult_mod_idemp_l.
    replace (8 * Z.of_nat (S n)) with (8 * Z.of_nat n + 8) by lia.
    rewrite Z.pow_add_r by lia. f_equal. ring.
  - rewrite shift_byte by lia.
    assert (be64 N !! n = Some (u8 (N >>> (56 - 8 * Z.of_nat n)))) as Hb.
    { unfold be64. by rewrite list_lookup_fmap, lookup_seq_lt by lia. }
    rewrite (take_S_r _ _ _ Hb). 
    assert (length (take n (be64 N)) = n) as Hln by (rewrite length_take; simpl; lia).
    rewrite <- blit_snoc by lia. by rewrite Hln.
Qed.

Lemma put_be64_spec off N din : (off + 8 ≤ length din)%nat → is_u64 N →
  put_be64 off N din = blit off (be64 N) din.
Proof. intros. unfold put_be64. rewrite put_be64_loop by (done || lia). reflexivity. Qed.

Lemma be64_length N : length (be64 N) = 8%nat.
Proof. reflexivity. Qed.

Lemma be64_bytes N : bytes_ok (be64 N).
Proof. apply Forall_map, Forall_forall. intros. apply u8_range. Qed.

