(* ===== verification/SwAes.v ===== *)
(** * The software AES of src/driver/swcrypto/sw_aes.c

    [aes_sbox] is the Boolean circuit of the source, gate by gate; the cipher
    works on a 16-byte state stored row by row ([state[row * 4 + column]]).
    Fips197.v shows that it computes the standard. *)

From S2P Require Import Prelude.

Local Open Scope Z_scope.
Local Open Scope orp_scope.

Definition AES_BLOCK_SIZE : nat := 16.
Definition Nb : nat := 4.

(** ** The S-box circuit *)

(** The wires the top layer hands to the shared middle layer. *)
Record sbox_wires := SboxWires {
  T1 : Z;
  T2 : Z;
  T3 : Z;
  T4 : Z;
  T6 : Z;
  T8 : Z;
  T9 : Z;
  T10 : Z;
  T13 : Z;
  T14 : Z;
  T15 : Z;
  T16 : Z;
  T17 : Z;
  T19 : Z;
  T20 : Z;
  T22 : Z;
  T23 : Z;
  T24 : Z;
  T25 : Z;
  T26 : Z;
  T27 : Z;
  Y5 : Z
}.

(** The products the middle layer hands to the bottom layer. *)
Record sbox_products := SboxProducts {
  M46 : Z;
  M47 : Z;
  M48 : Z;
  M49 : Z;
  M50 : Z;
  M51 : Z;
  M52 : Z;
  M53 : Z;
  M54 : Z;
  M55 : Z;
  M56 : Z;
  M57 : Z;
  M58 : Z;
  M59 : Z;
  M60 : Z;
  M61 : Z;
  M62 : Z;
  M63 : Z
}.

(** Top layer (linear), forward direction or inverse. *)
Definition sbox_top (u : Z) (inv : bool) : sbox_wires :=
  let u0 := (u >>> 7) .& 1 in
  let u1 := (u >>> 6) .& 1 in
  let u2 := (u >>> 5) .& 1 in
  let u3 := (u >>> 4) .& 1 in
  let u4 := (u >>> 3) .& 1 in
  let u5 := (u >>> 2) .& 1 in
  let u6 := (u >>> 1) .& 1 in
  let u7 := (u >>> 0) .& 1 in
  if negb inv then
    let t1 := u0 ^^ u3 in
    let t2 := u0 ^^ u5 in
    let t3 := u0 ^^ u6 in
    let t4 := u3 ^^ u5 in
    let t5 := u4 ^^ u6 in
    let t6 := t1 ^^ t5 in
    let t7 := u1 ^^ u2 in
    let t8 := u7 ^^ t6 in
    let t9 := u7 ^^ t7 in
    let t10 := t6 ^^ t7 in
    let t11 := u1 ^^ u5 in
    let t12 := u2 ^^ u5 in
    let t13 := t3 ^^ t4 in
    let t14 := t6 ^^ t11 in
    let t15 := t5 ^^ t11 in
    let t16 := t5 ^^ t12 in
    let t17 := t9 ^^ t16 in
    let t18 := u3 ^^ u7 in
    let t19 := t7 ^^ t18 in
    let t20 := t1 ^^ t19 in
    let t21 := u6 ^^ u7 in
    let t22 := t7 ^^ t21 in
    let t23 := t2 ^^ t22 in
    let t24 := t2 ^^ t10 in
    let t25 := t20 ^^ t17 in
    let t26 := t3 ^^ t16 in
    let t27 := t1 ^^ t12 in
    let y5 := u7 in
    SboxWires t1 t2 t3 t4 t6 t8 t9 t10 t13 t14 t15 t16 t17 t19 t20 t22 t23 t24 t25 t26 t27 y5
  else
    let t23 := u0 ^^ u3 in
    let t22 := not8 (u1 ^^ u3) in
    let t2 := not8 (u0 ^^ u1) in
    let t1 := u3 ^^ u4 in
    let t24 := not8 (u4 ^^ u7) in
    let r5 := u6 ^^ u7 in
    let t8 := not8 (u1 ^^ t23) in
    let t19 := t22 ^^ r5 in
    let t9 := not8 (u7 ^^ t1) in
    let t10 := t2 ^^ t24 in
    let t13 := t2 ^^ r5 in
    let t3 := t1 ^^ r5 in
    let t25 := not8 (u2 ^^ t1) in
    let r13 := u1 ^^ u6 in
    let t17 := not8 (u2 ^^ t19) in
    let t20 := t24 ^^ r13 in
    let t4 := u4 ^^ t8 in
    let r17 := not8 (u2 ^^ u5) in
    let r18 := not8 (u5 ^^ u6) in
    let r19 := not8 (u2 ^^ u4) in
    let y5 := u0 ^^ r17 in
    let t6 := t22 ^^ r17 in
    let t16 := r13 ^^ r19 in
    let t27 := t1 ^^ r18 in
    let t15 := t10 ^^ t27 in
    let t14 := t10 ^^ r18 in
    let t26 := t3 ^^ t16 in
    SboxWires t1 t2 t3 t4 t6 t8 t9 t10 t13 t14 t15 t16 t17 t19 t20 t22 t23 t24 t25 t26 t27 y5.

(** Middle layer: inversion in GF(2^8), the same circuit in both directions. *)
Definition sbox_middle (w : sbox_wires) : sbox_products :=
  let t1 := T1 w in
  let t2 := T2 w in
  let t3 := T3 w in
  let t4 := T4 w in
  let t6 := T6 w in
  let t8 := T8 w in
  let t9 := T9 w in
  let t10 := T10 w in
  let t13 := T13 w in
  let t14 := T14 w in
  let t15 := T15 w in
  let t16 := T16 w in
  let t17 := T17 w in
  let t19 := T19 w in
  let t20 := T20 w in
  let t22 := T22 w in
  let t23 := T23 w in
  let t24 := T24 w in
  let t25 := T25 w in
  let t26 := T26 w in
  let t27 := T27 w in
  let y5 := Y5 w in
  let m1 := t13 .& t6 in
  let m2 := t23 .& t8 in
  let m3 := t14 ^^ m1 in
  let m4 := t19 .& y5 in
  let m5 := m4 ^^ m1 in
  let m6 := t3 .& t16 in
  let m7 := t22 .& t9 in
  let m8 := t26 ^^ m6 in
  let m9 := t20 .& t17 in
  let m10 := m9 ^^ m6 in
  let m11 := t1 .& t15 in
  let m12 := t4 .& t27 in
  let m13 := m12 ^^ m11 in
  let m14 := t2 .& t10 in
  let m15 := m14 ^^ m11 in
  let m16 := m3 ^^ m2 in
  let m17 := m5 ^^ t24 in
  let m18 := m8 ^^ m7 in
  let m19 := m10 ^^ m15 in
  let m20 := m16 ^^ m13 in
  let m21 := m17 ^^ m15 in
  let m22 := m18 ^^ m13 in
  let m23 := m19 ^^ t25 in
  let m24 := m22 ^^ m23 in
  let m25 := m22 .& m20 in
  let m26 := m21 ^^ m25 in
  let m27 := m20 ^^ m21 in
  let m28 := m23 ^^ m25 in
  let m29 := m28 .& m27 in
  let m30 := m26 .& m24 in
  let m31 := m20 .& m23 in
  let m32 := m27 .& m31 in
  let m33 := m27 ^^ m25 in
  let m34 := m21 .& m22 in
  let m35 := m24 .& m34 in
  let m36 := m24 ^^ m25 in
  let m37 := m21 ^^ m29 in
  let m38 := m32 ^^ m33 in
  let m39 := m23 ^^ m30 in
  let m40 := m35 ^^ m36 in
  let m41 := m38 ^^ m40 in
  let m42 := m37 ^^ m39 in
  let m43 := m37 ^^ m38 in
  let m44 := m39 ^^ m40 in
  let m45 := m42 ^^ m41 in
  let m46 := m44 .& t6 in
  let m47 := m40 .& t8 in
  let m48 := m39 .& y5 in
  let m49 := m43 .& t16 in
  let m50 := m38 .& t9 in
  let m51 := m37 .& t17 in
  let m52 := m42 .& t15 in
  let m53 := m45 .& t27 in
  let m54 := m41 .& t10 in
  let m55 := m44 .& t13 in
  let m56 := m40 .& t23 in
  let m57 := m39 .& t19 in
  let m58 := m43 .& t3 in
  let m59 := m38 .& t22 in
  let m60 := m37 .& t20 in
  let m61 := m42 .& t1 in
  let m62 := m45 .& t4 in
  let m63 := m41 .& t2 in
  SboxProducts m46 m47 m48 m49 m50 m51 m52 m53 m54 m55 m56 m57 m58 m59 m60 m61 m62 m63.

(** Bottom layer (affine), forward direction or inverse: the eight output bits. *)
Definition sbox_bottom (p : sbox_products) (inv : bool) : list Z :=
  let m46 := M46 p in
  let m47 := M47 p in
  let m48 := M48 p in
  let m49 := M49 p in
  let m50 := M50 p in
  let m51 := M51 p in
  let m52 := M52 p in
  let m53 := M53 p in
  let m54 := M54 p in
  let m55 := M55 p in
  let m56 := M56 p in
  let m57 := M57 p in
  let m58 := M58 p in
  let m59 := M59 p in
  let m60 := M60 p in
  let m61 := M61 p in
  let m62 := M62 p in
  let m63 := M63 p in
  if negb inv then
    let l0 := m61 ^^ m62 in
    let l1 := m50 ^^ m56 in
    let l2 := m46 ^^ m48 in
    let l3 := m47 ^^ m55 in
    let l4 := m54 ^^ m58 in
    let l5 := m49 ^^ m61 in
    let l6 := m62 ^^ l5 in
    let l7 := m46 ^^ l3 in
    let l8 := m51 ^^ m59 in
    let l9 := m52 ^^ m53 in
    let l10 := m53 ^^ l4 in
    let l11 := m60 ^^ l2 in
    let l12 := m48 ^^ m51 in
    let l13 := m50 ^^ l0 in
    let l14 := m52 ^^ m61 in
    let l15 := m55 ^^ l1 in
    let l16 := m56 ^^ l0 in
    let l17 := m57 ^^ l1 in
    let l18 := m58 ^^ l8 in
    let l19 := m63 ^^ l4 in
    let l20 := l0 ^^ l1 in
    let l21 := l1 ^^ l7 in
    let l22 := l3 ^^ l12 in
    let l23 := l18 ^^ l2 in
    let l24 := l15 ^^ l9 in
    let l25 := l6 ^^ l10 in
    let l26 := l7 ^^ l9 in
    let l27 := l8 ^^ l10 in
    let l28 := l11 ^^ l14 in
    let l29 := l11 ^^ l17 in
    let s0 := l6 ^^ l24 in
    let s1 := not8 (l16 ^^ l26) in
    let s2 := not8 (l19 ^^ l28) in
    let s3 := l6 ^^ l21 in
    let s4 := l20 ^^ l22 in
    let s5 := l25 ^^ l29 in
    let s6 := not8 (l13 ^^ l27) in
    let s7 := not8 (l6 ^^ l23) in
    [s0; s1; s2; s3; s4; s5; s6; s7]
  else
    let p0 := m52 ^^ m61 in
    let p1 := m58 ^^ m59 in
    let p2 := m54 ^^ m62 in
    let p3 := m47 ^^ m50 in
    let p4 := m48 ^^ m56 in
    let p5 := m46 ^^ m51 in
    let p6 := m49 ^^ m60 in
    let p7 := p0 ^^ p1 in
    let p8 := m50 ^^ m53 in
    let p9 := m55 ^^ m63 in
    let p10 := m57 ^^ p4 in
    let p11 := p0 ^^ p3 in
    let p12 := m46 ^^ m48 in
    let p13 := m49 ^^ m51 in
    let p14 := m49 ^^ m62 in
    let p15 := m54 ^^ m59 in
    let p16 := m57 ^^ m61 in
    let p17 := m58 ^^ p2 in
    let p18 := m63 ^^ p5 in
    let p19 := p2 ^^ p3 in
    let p20 := p4 ^^ p6 in
    let p22 := p2 ^^ p7 in
    let p23 := p7 ^^ p8 in
    let p24 := p5 ^^ p7 in
    let p25 := p6 ^^ p10 in
    let p26 := p9 ^^ p11 in
    let p27 := p10 ^^ p18 in
    let p28 := p11 ^^ p25 in
    let p29 := p15 ^^ p20 in
    let s0 := p13 ^^ p22 in
    let s1 := p26 ^^ p29 in
    let s2 := p17 ^^ p28 in
    let s3 := p12 ^^ p22 in
    let s4 := p23 ^^ p27 in
    let s5 := p19 ^^ p24 in
    let s6 := p14 ^^ p23 in
    let s7 := p9 ^^ p16 in
    [s0; s1; s2; s3; s4; s5; s6; s7].

Definition aes_sbox (u : Z) (inv : bool) : Z :=
  let s := sbox_bottom (sbox_middle (sbox_top u inv)) inv in
  ((get s 0 .& 1) <<< 7)
  .| ((get s 1 .& 1) <<< 6)
  .| ((get s 2 .& 1) <<< 5)
  .| ((get s 3 .& 1) <<< 4)
  .| ((get s 4 .& 1) <<< 3)
  .| ((get s 5 .& 1) <<< 2)
  .| ((get s 6 .& 1) <<< 1)
  .| ((get s 7 .& 1) <<< 0).
Arguments aes_sbox : simpl never.

(** ** Key schedule *)

Definition Rcon : list Z :=
  [0x00; 0x01; 0x02; 0x04; 0x08; 0x10; 0x20; 0x40; 0x80; 0x1b; 0x36; 0x6c; 0xd8; 0xab; 0x4d; 0x9a].

Definition RotWord (x : Z) : Z := u32 (x <<< 8) .| (x >>> 24).

Definition SubWord (x : Z) : Z :=
  (aes_sbox (u8 (x >>> 24)) false <<< 24)
  .| (aes_sbox (u8 (x >>> 16)) false <<< 16)
  .| (aes_sbox (u8 (x >>> 8)) false <<< 8)
  .| (aes_sbox (u8 (x >>> 0)) false <<< 0).

Record sw_aes_ctx_t := SwAesCtx { algo : Z; ks : list Z }.

(** One iteration of the expansion loop; the state is the counter [j] and [ctx->ks]. *)
Definition setkey_step (Nk i : nat) (st : nat * list Z) : nat * list Z :=
  let '(j, ks) := st in
  let temp := get ks (i - 1) in
  let '(temp, j) :=
    if (j =? Nk)%nat then
      let temp := RotWord temp in
      let temp := SubWord temp in
      let temp := temp ^^ u32 (get Rcon (i / Nk) <<< 24) in
      (temp, 0%nat)
    else if (6 <? Nk)%nat && (j =? 4)%nat then (SubWord temp, j)
    else (temp, j) in
  ((j + 1)%nat, <[i := get ks (i - Nk) ^^ temp]> ks).

Definition load_key_word (kptr : list Z) (i : nat) : Z :=
  (get kptr (i * 4 + 0) <<< 24)
  .| (get kptr (i * 4 + 1) <<< 16)
  .| (get kptr (i * 4 + 2) <<< 8)
  .| (get kptr (i * 4 + 3) <<< 0).

Definition sw_aes_setkey (a : Z) (key : list Z) : sw_aes_ctx_t :=
  let Nk := Z.to_nat (a * 2 + 4) in
  let Nr := Z.to_nat (a * 2 + 10) in
  let ks := for_loop 0 Nk (λ i ks, <[i := load_key_word key i]> ks) (replicate 60 0) in
  let '(_, ks) := for_loop Nk (Nb * (Nr + 1) - Nk) (setkey_step Nk) (Nk, ks) in
  SwAesCtx a ks.

(** ** Cipher *)

Definition SubBytes (state : list Z) : list Z :=
  for_loop 0 AES_BLOCK_SIZE (λ i s, <[i := aes_sbox (get s i) false]> s) state.

(** The four assignments [state[row + 0] = a; ...; state[row + 3] = d]. *)
Definition set_row (row : nat) (a b c d : Z) (s : list Z) : list Z :=
  upd (upd (upd (upd s (row + 0) a) (row + 1) b) (row + 2) c) (row + 3) d.

Definition ShiftRows (state : list Z) : list Z :=
  let s0 := get state (1 * 4 + 0) in
  let s1 := get state (1 * 4 + 1) in
  let s2 := get state (1 * 4 + 2) in
  let s3 := get state (1 * 4 + 3) in
  let state := set_row (1 * 4) s1 s2 s3 s0 state in
  let s0 := get state (2 * 4 + 0) in
  let s1 := get state (2 * 4 + 1) in
  let s2 := get state (2 * 4 + 2) in
  let s3 := get state (2 * 4 + 3) in
  let state := set_row (2 * 4) s2 s3 s0 s1 state in
  let s0 := get state (3 * 4 + 0) in
  let s1 := get state (3 * 4 + 1) in
  let s2 := get state (3 * 4 + 2) in
  let s3 := get state (3 * 4 + 3) in
  set_row (3 * 4) s3 s0 s1 s2 state.

Definition mix_reduce : list Z := [0x00; 0x1b].
Definition xtime (x : Z) : Z := (x <<< 1) ^^ get mix_reduce (Z.to_nat (x >>> 7)).

Definition MixColumns (state : list Z) : list Z :=
  for_loop 0 Nb (λ i st,
    let s0 := get st (0 * 4 + i) in
    let s1 := get st (1 * 4 + i) in
    let s2 := get st (2 * 4 + i) in
    let s3 := get st (3 * 4 + i) in
    let tmp := u8 (s0 ^^ s1 ^^ s2 ^^ s3) in
    let st := upd st (0 * 4 + i) (u8 (get st (0 * 4 + i) ^^ (xtime (s0 ^^ s1) ^^ tmp))) in
    let st := upd st (1 * 4 + i) (u8 (get st (1 * 4 + i) ^^ (xtime (s1 ^^ s2) ^^ tmp))) in
    let st := upd st (2 * 4 + i) (u8 (get st (2 * 4 + i) ^^ (xtime (s2 ^^ s3) ^^ tmp))) in
    upd st (3 * 4 + i) (u8 (get st (3 * 4 + i) ^^ (xtime (s3 ^^ s0) ^^ tmp)))) state.

Definition AddRoundKey (state w : list Z) : list Z :=
  for_loop 0 Nb (λ i st,
    let st := upd st (0 * Nb + i) (u8 (get st (0 * Nb + i) ^^ (get w i >>> 24))) in
    let st := upd st (1 * Nb + i) (u8 (get st (1 * Nb + i) ^^ (get w i >>> 16))) in
    let st := upd st (2 * Nb + i) (u8 (get st (2 * Nb + i) ^^ (get w i >>> 8))) in
    upd st (3 * Nb + i) (u8 (get st (3 * Nb + i) ^^ (get w i >>> 0)))) state.

(** The two nested loops that fill the state from the input, column by column,
    and write it back out; [state] and the output start as any 16 bytes. *)
Definition load_state (inptr : list Z) : list Z :=
  for_loop 0 Nb (λ i st,
    for_loop 0 4 (λ j st, upd st (j * Nb + i) (get inptr (i * 4 + j))) st)
    (replicate AES_BLOCK_SIZE 0).

Definition store_state (state : list Z) : list Z :=
  for_loop 0 Nb (λ i out,
    for_loop 0 4 (λ j out, upd out (i * 4 + j) (get state (j * Nb + i))) out)
    (replicate AES_BLOCK_SIZE 0).

Definition sw_aes_ecb_encrypt (ctx : sw_aes_ctx_t) (data_in : list Z) : list Z :=
  let Nr := Z.to_nat (algo ctx * 2 + 10) in
  let state := load_state data_in in
  let state := AddRoundKey state (drop (0 * Nb) (ks ctx)) in
  let state := for_loop 1 (Nr - 1) (λ round state,
    let state := SubBytes state in
    let state := ShiftRows state in
    let state := MixColumns state in
    AddRoundKey state (drop (round * Nb) (ks ctx))) state in
  let state := SubBytes state in
  let state := ShiftRows state in
  let state := AddRoundKey state (drop (Nr * Nb) (ks ctx)) in
  store_state state.

Definition InvShiftRows (state : list Z) : list Z :=
  let s0 := get state (1 * 4 + 0) in
  let s1 := get state (1 * 4 + 1) in
  let s2 := get state (1 * 4 + 2) in
  let s3 := get state (1 * 4 + 3) in
  let state := set_row (1 * 4) s3 s0 s1 s2 state in
  let s0 := get state (2 * 4 + 0) in
  let s1 := get state (2 * 4 + 1) in
  let s2 := get state (2 * 4 + 2) in
  let s3 := get state (2 * 4 + 3) in
  let state := set_row (2 * 4) s2 s3 s0 s1 state in
  let s0 := get state (3 * 4 + 0) in
  let s1 := get state (3 * 4 + 1) in
  let s2 := get state (3 * 4 + 2) in
  let s3 := get state (3 * 4 + 3) in
  set_row (3 * 4) s1 s2 s3 s0 state.

Definition InvSubBytes (state : list Z) : list Z :=
  for_loop 0 AES_BLOCK_SIZE (λ i s, <[i := aes_sbox (get s i) true]> s) state.

Definition InvMixColumns (state : list Z) : list Z :=
  for_loop 0 Nb (λ i st,
    let s0_1 := get st (0 * 4 + i) in
    let s1_1 := get st (1 * 4 + i) in
    let s2_1 := get st (2 * 4 + i) in
    let s3_1 := get st (3 * 4 + i) in
    let s0_2 := u8 (xtime s0_1) in
    let s1_2 := u8 (xtime s1_1) in
    let s2_2 := u8 (xtime s2_1) in
    let s3_2 := u8 (xtime s3_1) in
    let s0_4 := u8 (xtime s0_2) in
    let s1_4 := u8 (xtime s1_2) in
    let s2_4 := u8 (xtime s2_2) in
    let s3_4 := u8 (xtime s3_2) in
    let s0_8 := u8 (xtime s0_4) in
    let s1_8 := u8 (xtime s1_4) in
    let s2_8 := u8 (xtime s2_4) in
    let s3_8 := u8 (xtime s3_4) in
    let st := upd st (0 * 4 + i) (u8 ((s0_8 ^^ s0_4 ^^ s0_2) ^^ (s1_8 ^^ s1_2 ^^ s1_1)
                ^^ (s2_8 ^^ s2_4 ^^ s2_1) ^^ (s3_8 ^^ s3_1))) in
    let st := upd st (1 * 4 + i) (u8 ((s0_8 ^^ s0_1) ^^ (s1_8 ^^ s1_4 ^^ s1_2)
                ^^ (s2_8 ^^ s2_2 ^^ s2_1) ^^ (s3_8 ^^ s3_4 ^^ s3_1))) in
    let st := upd st (2 * 4 + i) (u8 ((s0_8 ^^ s0_4 ^^ s0_1) ^^ (s1_8 ^^ s1_1)
                ^^ (s2_8 ^^ s2_4 ^^ s2_2) ^^ (s3_8 ^^ s3_2 ^^ s3_1))) in
    upd st (3 * 4 + i) (u8 ((s0_8 ^^ s0_2 ^^ s0_1) ^^ (s1_8 ^^ s1_4 ^^ s1_1)
                ^^ (s2_8 ^^ s2_1) ^^ (s3_8 ^^ s3_4 ^^ s3_2)))) state.

Definition sw_aes_ecb_decrypt (ctx : sw_aes_ctx_t) (data_in : list Z) : list Z :=
  let Nr := Z.to_nat (algo ctx * 2 + 10) in
  let state := load_state data_in in
  let state := AddRoundKey state (drop (Nr * Nb) (ks ctx)) in
  let state := for_down (Nr - 1) (λ round state,
    let state := InvShiftRows state in
    let state := InvSubBytes state in
    let state := AddRoundKey state (drop (round * Nb) (ks ctx)) in
    InvMixColumns state) state in
  let state := InvShiftRows state in
  let state := InvSubBytes state in
  let state := AddRoundKey state (drop (0 * Nb) (ks ctx)) in
  store_state state.

(** ** Round trip *)

Definition bytes256 : list Z := map Z.of_nat (seq 0 256).

(** A property of a byte checked on all 256 of them. *)
Lemma forall_byte (P : Z → bool) : forallb P bytes256 = true → ∀ b, is_u8 b → P b = true.
Proof.
  intros H b Hb. rewrite forallb_forall in H. apply H.
  unfold bytes256. apply in_map_iff. exists (Z.to_nat b).
  unfold is_u8 in Hb. split; [lia|]. apply in_seq. lia.
Qed.

Lemma aes_sbox_range u inv : is_u8 u → is_u8 (aes_sbox u inv).
Proof.
  intros Hu. pose (P u := (0 <=? aes_sbox u inv) && (aes_sbox u inv <? 256)).
  assert (P u = true) as H by (apply forall_byte; [by destruct inv; vm_compute|done]).
  unfold P in H. bool_to_prop. unfold is_u8. lia.
Qed.

Lemma aes_sbox_inverse u : is_u8 u → aes_sbox (aes_sbox u false) true = u.
Proof.
  intros Hu. apply Z.eqb_eq.
  apply (forall_byte (λ u, aes_sbox (aes_sbox u false) true =? u)); [by vm_compute|done].
Qed.

Lemma aes_sbox_inverse_l u : is_u8 u → aes_sbox (aes_sbox u true) false = u.
Proof.
  intros Hu. apply Z.eqb_eq.
  apply (forall_byte (λ u, aes_sbox (aes_sbox u true) false =? u)); [by vm_compute|done].
Qed.

(** A 16-byte block, seen cell by cell. *)
Ltac destruct_block l :=
  do 16 (destruct l as [|? l]; [exfalso; done|]); destruct l; [|exfalso; done].

Ltac destruct_block_as l a0 a1 a2 a3 b0 b1 b2 b3 c0 c1 c2 c3 d0 d1 d2 d3 :=
  destruct l as [|a0 [|a1 [|a2 [|a3 [|b0 [|b1 [|b2 [|b3 [|c0 [|c1 [|c2 [|c3
    [|d0 [|d1 [|d2 [|d3 l]]]]]]]]]]]]]]]]; try (exfalso; done); destruct l; [|exfalso; done].

(** Unfold the array code of the cipher on a concrete 16-cell list, leaving the
    byte operations folded. *)
Ltac block_cbv :=
  cbv [AddRoundKey MixColumns InvMixColumns ShiftRows InvShiftRows set_row load_state store_state
       for_loop foldl seq insert list_insert get lookup list_lookup default from_option id
       replicate Nb AES_BLOCK_SIZE Nat.add Nat.mul drop map].

(** Every cell of a block that computes to a 16-element list satisfies [tac]. *)
Ltac forall_cells tac :=
  do 16 (refine (Forall_cons_2 _ _ _ _ _); [solve [tac]|]); apply Forall_nil_2.

Definition block_ok (l : list Z) : Prop := length l = AES_BLOCK_SIZE ∧ bytes_ok l.

Lemma SubBytes_map s : length s = AES_BLOCK_SIZE → SubBytes s = map (λ x, aes_sbox x false) s.
Proof. intros H. unfold SubBytes. rewrite <- H. apply (for_loop_map (λ x, aes_sbox x false)). Qed.

Lemma InvSubBytes_map s : length s = AES_BLOCK_SIZE → InvSubBytes s = map (λ x, aes_sbox x true) s.
Proof. intros H. unfold InvSubBytes. rewrite <- H. apply (for_loop_map (λ x, aes_sbox x true)). Qed.

Lemma SubBytes_ok s : block_ok s → block_ok (SubBytes s).
Proof.
  intros [Hl Hb]. unfold block_ok. rewrite SubBytes_map by done. split; [by rewrite length_map|].
  apply Forall_map. eapply Forall_impl; [done|]. intros x Hx. by apply aes_sbox_range.
Qed.

Lemma InvSubBytes_SubBytes s : block_ok s → InvSubBytes (SubBytes s) = s.
Proof.
  intros Hs. rewrite InvSubBytes_map by apply SubBytes_ok, Hs.
  destruct Hs as [Hl Hb]. rewrite SubBytes_map by done. rewrite map_map.
  rewrite <- (map_id s) at 2. apply map_ext_Forall. eapply Forall_impl; [done|].
  apply aes_sbox_inverse.
Qed.

Lemma ShiftRows_ok s : block_ok s → block_ok (ShiftRows s).
Proof.
  intros [Hl Hb]. destruct_block s. split; [done|].
  unfold bytes_ok in Hb. decompose_Forall_hyps. forall_cells assumption.
Qed.

Lemma InvShiftRows_ShiftRows s : block_ok s → InvShiftRows (ShiftRows s) = s.
Proof. intros [Hl _]. by destruct_block s. Qed.

Lemma u8_lxor a b : u8 (a ^^ b) = u8 a ^^ u8 b.
Proof.
  unfold u8. rewrite <- !Z.land_ones by lia. xor_solve.
Qed.

Lemma u8_u8 a : u8 (u8 a) = u8 a.
Proof. apply u8_id, u8_range. Qed.

Lemma AddRoundKey_ok s w : length s = AES_BLOCK_SIZE → block_ok (AddRoundKey s w).
Proof.
  intros Hl. destruct_block s. split; [done|]. 
  block_cbv. forall_cells ltac:(apply u8_range).
Qed.

Lemma AddRoundKey_involutive s w : block_ok s → AddRoundKey (AddRoundKey s w) w = s.
Proof.
  intros [Hl Hb]. destruct_block s. unfold bytes_ok in Hb. decompose_Forall_hyps.
  assert (∀ x k, is_u8 x → u8 (u8 (x ^^ k) ^^ k) = x) as Hx.
  { intros x k Hx. rewrite u8_lxor, u8_u8, <- u8_lxor.
    by rewrite Z.lxor_assoc, Z.lxor_nilpotent, Z.lxor_0_r, u8_id. }
  block_cbv. by rewrite !Hx by done.
Qed.

(** Multiplication by x in GF(2^8), as stored in a byte. *)
Definition xt (x : Z) : Z := u8 (xtime x).

Lemma xt_lxor a b : is_u8 a → is_u8 b → xt (a ^^ b) = xt a ^^ xt b.
Proof.
  intros Ha Hb. apply Z.eqb_eq.
  apply (forall_byte (λ b, xt (a ^^ b) =? xt a ^^ xt b)); [|done].
  apply (forall_byte (λ a, forallb (λ b, xt (a ^^ b) =? xt a ^^ xt b) bytes256)); [|done].
  vm_cast_no_check (eq_refl true).
Qed.

Lemma xt_range x : is_u8 (xt x).
Proof. apply u8_range. Qed.

Ltac is_u8_solve := repeat first [assumption | apply xt_range | apply u8_range | apply is_u8_lxor].

Ltac fold_xt := repeat match goal with
  | |- context [u8 (xtime ?x)] => change (u8 (xtime x)) with (xt x)
  end.

(** The four bytes MixColumns and InvMixColumns write to one column. *)
Definition mix_column (s0 s1 s2 s3 : Z) : list Z :=
  let tmp := s0 ^^ s1 ^^ s2 ^^ s3 in
  [s0 ^^ (xt s0 ^^ xt s1 ^^ tmp); s1 ^^ (xt s1 ^^ xt s2 ^^ tmp);
   s2 ^^ (xt s2 ^^ xt s3 ^^ tmp); s3 ^^ (xt s3 ^^ xt s0 ^^ tmp)].

Definition inv_mix_column (s0 s1 s2 s3 : Z) : list Z :=
  let x2 := xt in let x4 x := xt (xt x) in let x8 x := xt (xt (xt x)) in
  [(x8 s0 ^^ x4 s0 ^^ x2 s0) ^^ (x8 s1 ^^ x2 s1 ^^ s1) ^^ (x8 s2 ^^ x4 s2 ^^ s2) ^^ (x8 s3 ^^ s3);
   (x8 s0 ^^ s0) ^^ (x8 s1 ^^ x4 s1 ^^ x2 s1) ^^ (x8 s2 ^^ x2 s2 ^^ s2) ^^ (x8 s3 ^^ x4 s3 ^^ s3);
   (x8 s0 ^^ x4 s0 ^^ s0) ^^ (x8 s1 ^^ s1) ^^ (x8 s2 ^^ x4 s2 ^^ x2 s2) ^^ (x8 s3 ^^ x2 s3 ^^ s3);
   (x8 s0 ^^ x2 s0 ^^ s0) ^^ (x8 s1 ^^ x4 s1 ^^ s1) ^^ (x8 s2 ^^ s2) ^^ (x8 s3 ^^ x4 s3 ^^ x2 s3)].

Lemma inv_mix_column_mix s0 s1 s2 s3 :
  is_u8 s0 → is_u8 s1 → is_u8 s2 → is_u8 s3 →
  let m := mix_column s0 s1 s2 s3 in
  inv_mix_column (get m 0) (get m 1) (get m 2) (get m 3) = [s0; s1; s2; s3].
Proof.
  intros. cbv [m mix_column inv_mix_column get lookup list_lookup default from_option id].
  rewrite !xt_lxor by is_u8_solve.
  repeat apply (f_equal2 cons); [xor_solve..|done].
Qed.

Lemma mix_cell s a b t :
  is_u8 s → is_u8 a → is_u8 b → is_u8 t →
  u8 (s ^^ (xtime (a ^^ b) ^^ u8 t)) = s ^^ (xt a ^^ xt b ^^ t).
Proof.
  intros. rewrite !u8_lxor, u8_u8. fold (xt (a ^^ b)). by rewrite xt_lxor, !u8_id.
Qed.

(** Apply [f] to each column of a state stored by rows. *)
Definition map_columns (f : Z → Z → Z → Z → list Z) (s : list Z) : list Z :=
  let col c := f (get s c) (get s (4 + c)) (get s (8 + c)) (get s (12 + c)) in
  [get (col 0%nat) 0; get (col 1%nat) 0; get (col 2%nat) 0; get (col 3%nat) 0;
   get (col 0%nat) 1; get (col 1%nat) 1; get (col 2%nat) 1; get (col 3%nat) 1;
   get (col 0%nat) 2; get (col 1%nat) 2; get (col 2%nat) 2; get (col 3%nat) 2;
   get (col 0%nat) 3; get (col 1%nat) 3; get (col 2%nat) 3; get (col 3%nat) 3].

Ltac columns_cbv :=
  cbv [map_columns mix_column inv_mix_column get lookup list_lookup default from_option id Nat.add].

Lemma MixColumns_columns s : block_ok s → MixColumns s = map_columns mix_column s.
Proof.
  intros [Hl Hb]. destruct_block s. unfold bytes_ok in Hb. decompose_Forall_hyps.
  block_cbv. rewrite !mix_cell by is_u8_solve. columns_cbv. reflexivity.
Qed.

Lemma InvMixColumns_columns s : block_ok s → InvMixColumns s = map_columns inv_mix_column s.
Proof.
  intros [Hl Hb]. destruct_block s. unfold bytes_ok in Hb. decompose_Forall_hyps.
  block_cbv. fold_xt. rewrite !u8_id by is_u8_solve. columns_cbv. reflexivity.
Qed.

Lemma MixColumns_ok s : block_ok s → block_ok (MixColumns s).
Proof.
  intros Hs. rewrite MixColumns_columns by done. destruct Hs as [Hl Hb]. destruct_block s.
  unfold bytes_ok in Hb. decompose_Forall_hyps. split; [done|]. columns_cbv.
  forall_cells is_u8_solve.
Qed.

Lemma InvMixColumns_MixColumns s : block_ok s → InvMixColumns (MixColumns s) = s.
Proof.
  intros Hs. rewrite InvMixColumns_columns by by apply MixColumns_ok.
  rewrite MixColumns_columns by done. destruct Hs as [Hl Hb].
  destruct_block_as s a0 a1 a2 a3 b0 b1 b2 b3 c0 c1 c2 c3 d0 d1 d2 d3.
  unfold bytes_ok in Hb. decompose_Forall_hyps.
  pose proof (inv_mix_column_mix a0 b0 c0 d0 ltac:(done) ltac:(done) ltac:(done) ltac:(done)) as H0c.
  pose proof (inv_mix_column_mix a1 b1 c1 d1 ltac:(done) ltac:(done) ltac:(done) ltac:(done)) as H1c.
  pose proof (inv_mix_column_mix a2 b2 c2 d2 ltac:(done) ltac:(done) ltac:(done) ltac:(done)) as H2c.
  pose proof (inv_mix_column_mix a3 b3 c3 d3 ltac:(done) ltac:(done) ltac:(done) ltac:(done)) as H3c.
  cbv zeta in *.
  change (map_columns inv_mix_column (map_columns mix_column
    [a0; a1; a2; a3; b0; b1; b2; b3; c0; c1; c2; c3; d0; d1; d2; d3])) with
    (let m c := match c with 0%nat => mix_column a0 b0 c0 d0 | 1%nat => mix_column a1 b1 c1 d1
                | 2%nat => mix_column a2 b2 c2 d2 | _ => mix_column a3 b3 c3 d3 end in
     let col c := inv_mix_column (get (m c) 0) (get (m c) 1) (get (m c) 2) (get (m c) 3) in
     [get (col 0%nat) 0; get (col 1%nat) 0; get (col 2%nat) 0; get (col 3%nat) 0;
      get (col 0%nat) 1; get (col 1%nat) 1; get (col 2%nat) 1; get (col 3%nat) 1;
      get (col 0%nat) 2; get (col 1%nat) 2; get (col 2%nat) 2; get (col 3%nat) 2;
      get (col 0%nat) 3; get (col 1%nat) 3; get (col 2%nat) 3; get (col 3%nat) 3]).
  cbv zeta beta iota. rewrite H0c, H1c, H2c, H3c. done.
Qed.

Lemma load_state_ok d : block_ok d → block_ok (load_state d).
Proof.
  intros [Hl Hb]. destruct_block d. split; [done|].
  unfold bytes_ok in *. decompose_Forall_hyps. block_cbv. forall_cells ltac:(done).
Qed.

Lemma load_store_state s : length s = AES_BLOCK_SIZE → load_state (store_state s) = s.
Proof. intros Hl. by destruct_block s. Qed.

Lemma store_load_state d : length d = AES_BLOCK_SIZE → store_state (load_state d) = d.
Proof. intros Hl. by destruct_block d. Qed.

Lemma store_state_ok s : block_ok s → block_ok (store_state s).
Proof.
  intros [Hl Hb]. destruct_block s. split; [done|].
  unfold bytes_ok in *. decompose_Forall_hyps. block_cbv. forall_cells ltac:(done).
Qed.

(** One iteration of the encryption loop and of the decryption loop. *)
Definition enc_round (w : list Z) (round : nat) (s : list Z) : list Z :=
  AddRoundKey (MixColumns (ShiftRows (SubBytes s))) (drop (round * Nb) w).
Definition dec_round (w : list Z) (round : nat) (s : list Z) : list Z :=
  InvMixColumns (AddRoundKey (InvSubBytes (InvShiftRows s)) (drop (round * Nb) w)).

Create HintDb aes.
#[export] Hint Resolve SubBytes_ok ShiftRows_ok MixColumns_ok load_state_ok store_state_ok : aes.

Lemma AddRoundKey_block s w : block_ok s → block_ok (AddRoundKey s w).
Proof. intros [Hl _]. by apply AddRoundKey_ok. Qed.
#[export] Hint Resolve AddRoundKey_block : aes.

Lemma enc_round_ok w r s : block_ok s → block_ok (enc_round w r s).
Proof. unfold enc_round. auto with aes. Qed.
#[export] Hint Resolve enc_round_ok : aes.

Lemma enc_rounds_ok w n s : block_ok s → block_ok (for_loop 1 n (enc_round w) s).
Proof. intros Hs. apply for_loop_inv; [done|]. intros. by apply enc_round_ok. Qed.
#[export] Hint Resolve enc_rounds_ok : aes.

Lemma InvSub_InvShift s : block_ok s → InvSubBytes (InvShiftRows (ShiftRows (SubBytes s))) = s.
Proof. intros. rewrite InvShiftRows_ShiftRows, InvSubBytes_SubBytes; auto with aes. Qed.

(** A decryption round started at the substituted and shifted output of the
    encryption round of the same number reaches that round's substituted and
    shifted input. *)
Lemma dec_round_enc_round w r s : block_ok s →
  dec_round w r (ShiftRows (SubBytes (enc_round w r s))) = ShiftRows (SubBytes s).
Proof.
  intros. unfold dec_round. rewrite InvSub_InvShift by auto with aes.
  unfold enc_round. rewrite AddRoundKey_involutive by auto with aes.
  apply InvMixColumns_MixColumns. auto with aes.
Qed.

Lemma dec_rounds_enc_rounds w n s : block_ok s →
  for_down n (dec_round w) (ShiftRows (SubBytes (for_loop 1 n (enc_round w) s)))
  = ShiftRows (SubBytes s).
Proof.
  intros Hs. induction n as [|n IH]; [done|].
  rewrite for_loop_S_r, for_down_S, dec_round_enc_round by auto with aes. apply IH.
Qed.

Definition rounds (ctx : sw_aes_ctx_t) : nat := Z.to_nat (algo ctx * 2 + 10).

Lemma sw_aes_ecb_encrypt_eq ctx d :
  sw_aes_ecb_encrypt ctx d =
  store_state (AddRoundKey (ShiftRows (SubBytes
    (for_loop 1 (rounds ctx - 1) (enc_round (ks ctx))
      (AddRoundKey (load_state d) (drop (0 * Nb) (ks ctx))))))
    (drop (rounds ctx * Nb) (ks ctx))).
Proof. unfold sw_aes_ecb_encrypt, enc_round, rounds. cbv zeta. reflexivity. Qed.

Lemma sw_aes_ecb_decrypt_eq ctx d :
  sw_aes_ecb_decrypt ctx d =
  store_state (AddRoundKey (InvSubBytes (InvShiftRows
    (for_down (rounds ctx - 1) (dec_round (ks ctx))
      (AddRoundKey (load_state d) (drop (rounds ctx * Nb) (ks ctx))))))
    (drop (0 * Nb) (ks ctx))).
Proof. unfold sw_aes_ecb_decrypt, dec_round, rounds. cbv zeta. reflexivity. Qed.

Lemma sw_aes_ecb_encrypt_block ctx d : block_ok d → block_ok (sw_aes_ecb_encrypt ctx d).
Proof. intros. rewrite sw_aes_ecb_encrypt_eq. auto 10 with aes. Qed.

(** Decryption undoes encryption under the same context, whatever its key
    schedule holds. *)
Lemma sw_aes_roundtrip ctx d :
  block_ok d → sw_aes_ecb_decrypt ctx (sw_aes_ecb_encrypt ctx d) = d.
Proof.
  intros Hd. rewrite sw_aes_ecb_decrypt_eq, sw_aes_ecb_encrypt_eq.
  rewrite load_store_state by (apply AddRoundKey_block; auto 10 with aes).
  rewrite AddRoundKey_involutive by auto 10 with aes.
  rewrite dec_rounds_enc_rounds, InvSub_InvShift by auto 10 with aes.
  rewrite AddRoundKey_involutive by auto 10 with aes.
  apply store_load_state, Hd.
Qed.

Definition fips_key : list Z := map Z.of_nat (seq 0 16).
Definition fips_block : list Z := map (λ i, 17 * Z.of_nat i) (seq 0 16).

Lemma fips_block_ok : block_ok fips_block.
Proof. split; [done|]. vm_compute. repeat constructor; discriminate. Qed.
