(* ===== verification/Fips197.v ===== *)
(** * FIPS 197 and the software AES

    The Advanced Encryption Standard as the standard states it (the field
    GF(2^8), the S-box as inversion followed by the affine map, the state as a
    4x4 array filled by columns, the key expansion on 4-byte words), and the
    theorems that sw_aes.c computes it: the S-box circuit, the row-major state,
    the packed key schedule and the whole cipher and inverse cipher. *)

From S2P Require Import Prelude Words SwAes.

Local Open Scope Z_scope.
Local Open Scope orp_scope.

Module Fips.

(** ** Section 4: the field GF(2^8) *)

(** Product of polynomials over GF(2), and reduction by x^8+x^4+x^3+x+1. *)
Definition clmul (a b : Z) : Z :=
  foldl (λ acc i, if Z.testbit b i then acc ^^ (a <<< i) else acc) 0 [0; 1; 2; 3; 4; 5; 6; 7].
Definition reduce (p : Z) : Z :=
  foldl (λ p i, if Z.testbit p i then p ^^ (0x11b <<< (i - 8)) else p) p
    [14; 13; 12; 11; 10; 9; 8].
Definition gmul (a b : Z) : Z := reduce (clmul a b).

Fixpoint gpow (a : Z) (n : nat) : Z :=
  match n with O => 1 | S n => gmul a (gpow a n) end.

(** The inverse, as the power 254 by an addition chain; 0 maps to 0. *)
Definition ginv (a : Z) : Z :=
  let a2 := gmul a a in let a4 := gmul a2 a2 in let a8 := gmul a4 a4 in
  let a16 := gmul a8 a8 in let a32 := gmul a16 a16 in let a64 := gmul a32 a32 in
  let a128 := gmul a64 a64 in
  gmul a128 (gmul a64 (gmul a32 (gmul a16 (gmul a8 (gmul a4 a2))))).

(** ** Section 5.1.1: the S-box *)

Definition affine (b : Z) : Z :=
  foldl (λ acc i,
    let bit := xorb (Z.testbit b i) (xorb (Z.testbit b ((i + 4) mod 8))
      (xorb (Z.testbit b ((i + 5) mod 8)) (xorb (Z.testbit b ((i + 6) mod 8))
      (xorb (Z.testbit b ((i + 7) mod 8)) (Z.testbit 0x63 i))))) in
    acc + (if bit then 2 ^ i else 0)) 0 [0; 1; 2; 3; 4; 5; 6; 7].
Definition sbox (b : Z) : Z := affine (ginv b).

(** Section 5.3.2: the inverse S-box, the inverse affine map then inversion. *)
Definition inv_affine (b : Z) : Z :=
  foldl (λ acc i,
    let bit := xorb (Z.testbit b ((i + 2) mod 8)) (xorb (Z.testbit b ((i + 5) mod 8))
      (xorb (Z.testbit b ((i + 7) mod 8)) (Z.testbit 0x05 i))) in
    acc + (if bit then 2 ^ i else 0)) 0 [0; 1; 2; 3; 4; 5; 6; 7].
Definition inv_sbox (b : Z) : Z := ginv (inv_affine b).

(** ** Section 3.4: the state, byte [r + 4c] of the input at row r, column c *)

Definition cell (s : list Z) (r c : nat) : Z := get s (r + 4 * c).
Definition build (f : nat → nat → Z) : list Z :=
  [f 0 0; f 1 0; f 2 0; f 3 0; f 0 1; f 1 1; f 2 1; f 3 1;
   f 0 2; f 1 2; f 2 2; f 3 2; f 0 3; f 1 3; f 2 3; f 3 3]%nat.

Definition SubBytes (s : list Z) : list Z := build (λ r c, sbox (cell s r c)).
Definition InvSubBytes (s : list Z) : list Z := build (λ r c, inv_sbox (cell s r c)).
Definition ShiftRows (s : list Z) : list Z := build (λ r c, cell s r ((c + r) mod 4)).
Definition InvShiftRows (s : list Z) : list Z := build (λ r c, cell s r ((c + 4 - r) mod 4)).

(** Multiply each column by the circulant matrix whose first row is [m]. *)
Definition mul_columns (m : list Z) (s : list Z) : list Z :=
  build (λ r c, foldl (λ acc k, acc ^^ gmul (get m ((k + 4 - r) mod 4)) (cell s k c)) 0
    [0; 1; 2; 3]%nat).
Definition MixColumns : list Z → list Z := mul_columns [0x02; 0x03; 0x01; 0x01].
Definition InvMixColumns : list Z → list Z := mul_columns [0x0e; 0x0b; 0x0d; 0x09].

(** ** Section 5.2: key expansion on words of four bytes *)

Definition word_at (w : list (list Z)) (i : nat) : list Z := default [0; 0; 0; 0] (w !! i).
Definition SubWord (x : list Z) : list Z := map sbox x.
Definition RotWord (x : list Z) : list Z :=
  match x with [a; b; c; d] => [b; c; d; a] | _ => x end.
Definition Rcon (k : nat) : list Z := [gpow 2 (k - 1); 0; 0; 0].

Definition next_word (Nk : nat) (w : list (list Z)) : list Z :=
  let i := length w in
  let temp := word_at w (i - 1) in
  let temp :=
    if (i mod Nk =? 0)%nat then xor_list (SubWord (RotWord temp)) (Rcon (i / Nk))
    else if (6 <? Nk)%nat && (i mod Nk =? 4)%nat then SubWord temp
    else temp in
  xor_list (word_at w (i - Nk)) temp.

Fixpoint expand (Nk n : nat) (w : list (list Z)) : list (list Z) :=
  match n with O => w | S n => expand Nk n (w ++ [next_word Nk w]) end.

Definition key_word (key : list Z) (i : nat) : list Z :=
  [get key (4 * i); get key (4 * i + 1); get key (4 * i + 2); get key (4 * i + 3)].

Definition KeyExpansion (Nk Nr : nat) (key : list Z) : list (list Z) :=
  expand Nk (4 * (Nr + 1) - Nk) (map (key_word key) (seq 0 Nk)).

Definition AddRoundKey (round : nat) (w : list (list Z)) (s : list Z) : list Z :=
  build (λ r c, cell s r c ^^ get (word_at w (4 * round + c)) r).

(** ** Sections 5.1 and 5.3: the cipher and its inverse *)

Definition Cipher (Nr : nat) (w : list (list Z)) (inp : list Z) : list Z :=
  let s := AddRoundKey 0 w inp in
  let s := for_loop 1 (Nr - 1) (λ round s,
    AddRoundKey round w (MixColumns (ShiftRows (SubBytes s)))) s in
  AddRoundKey Nr w (ShiftRows (SubBytes s)).

Definition InvCipher (Nr : nat) (w : list (list Z)) (inp : list Z) : list Z :=
  let s := AddRoundKey Nr w inp in
  let s := for_down (Nr - 1) (λ round s,
    InvMixColumns (AddRoundKey round w (InvSubBytes (InvShiftRows s)))) s in
  AddRoundKey 0 w (InvSubBytes (InvShiftRows s)).

(** Key length and number of rounds of AES-128, AES-192 and AES-256. *)
Definition Nk_of (a : Z) : nat := Z.to_nat (a * 2 + 4).
Definition Nr_of (a : Z) : nat := Z.to_nat (a * 2 + 10).

End Fips.

(** [ginv] is the multiplicative inverse of the field. *)
Lemma ginv_correct b : is_u8 b → b ≠ 0 → Fips.gmul b (Fips.ginv b) = 1.
Proof.
  intros Hb Hnz.
  assert ((b =? 0) || (Fips.gmul b (Fips.ginv b) =? 1) = true) as H.
  { apply (forall_byte (λ b, (b =? 0) || (Fips.gmul b (Fips.ginv b) =? 1))); [by vm_compute|done]. }
  apply orb_true_iff in H as [H|H]; bool_to_prop; lia.
Qed.

(** The combinational S-box circuit of [aes_sbox] computes the standard's S-box
    and inverse S-box on every byte. *)
Lemma aes_sbox_spec b : is_u8 b → aes_sbox b false = Fips.sbox b.
Proof.
  intros. apply Z.eqb_eq.
  apply (forall_byte (λ b, aes_sbox b false =? Fips.sbox b)); [by vm_compute|done].
Qed.

Lemma aes_inv_sbox_spec b : is_u8 b → aes_sbox b true = Fips.inv_sbox b.
Proof.
  intros. apply Z.eqb_eq.
  apply (forall_byte (λ b, aes_sbox b true =? Fips.inv_sbox b)); [by vm_compute|done].
Qed.

(** ** The transformations, through the change from columns to rows *)

(** Multiplication by a constant below 16 is a sum of repeated doublings. *)
Definition gmul_const (m x : Z) : Z :=
  (if Z.testbit m 3 then xt (xt (xt x)) else 0) ^^ (if Z.testbit m 2 then xt (xt x) else 0)
  ^^ (if Z.testbit m 1 then xt x else 0) ^^ (if Z.testbit m 0 then x else 0).

Lemma gmul_const_spec m x : 0 <= m < 16 → is_u8 x → Fips.gmul m x = gmul_const m x.
Proof.
  intros Hm Hx. apply Z.eqb_eq.
  apply (forall_byte (λ x, Fips.gmul m x =? gmul_const m x)); [|done].
  assert (forallb (λ m, forallb (λ x, Fips.gmul m x =? gmul_const m x) bytes256)
    (map Z.of_nat (seq 0 16)) = true) as H by by vm_compute.
  rewrite forallb_forall in H. apply H, in_map_iff. exists (Z.to_nat m).
  split; [lia|]. apply in_seq. lia.
Qed.

Ltac spec_cbv :=
  cbv [Fips.SubBytes Fips.InvSubBytes Fips.ShiftRows Fips.InvShiftRows Fips.MixColumns
       Fips.InvMixColumns Fips.mul_columns Fips.AddRoundKey Fips.build Fips.cell
       map_columns mix_column inv_mix_column
       load_state for_loop foldl seq insert list_insert get lookup list_lookup default from_option
       id replicate Nb AES_BLOCK_SIZE Nat.add Nat.mul Nat.sub Nat.modulo Nat.divmod fst snd map].

(** Open a goal about a 16-byte block: name the cells and their bounds. *)
Ltac open_block :=
  match goal with |- context [load_state ?s] =>
    let H := fresh in intros H; destruct H as [Hlen Hbytes]; destruct_block s;
    unfold bytes_ok in Hbytes; decompose_Forall_hyps
  end.

Lemma SubBytes_spec s : block_ok s → SwAes.SubBytes (load_state s) = load_state (Fips.SubBytes s).
Proof.
  intros Hs. rewrite SubBytes_map by by apply load_state_ok. revert Hs. open_block.
  spec_cbv. by rewrite !aes_sbox_spec by done.
Qed.

Lemma InvSubBytes_spec s :
  block_ok s → SwAes.InvSubBytes (load_state s) = load_state (Fips.InvSubBytes s).
Proof.
  intros Hs. rewrite InvSubBytes_map by by apply load_state_ok. revert Hs. open_block.
  spec_cbv. by rewrite !aes_inv_sbox_spec by done.
Qed.

Lemma ShiftRows_spec s : block_ok s → SwAes.ShiftRows (load_state s) = load_state (Fips.ShiftRows s).
Proof. by open_block. Qed.

Lemma InvShiftRows_spec s :
  block_ok s → SwAes.InvShiftRows (load_state s) = load_state (Fips.InvShiftRows s).
Proof. by open_block. Qed.

(** The products by the matrix entries. *)
Lemma gmul_01 x : is_u8 x → Fips.gmul 1 x = x.
Proof. intros. by rewrite gmul_const_spec. Qed.
Lemma gmul_02 x : is_u8 x → Fips.gmul 2 x = xt x.
Proof. intros. rewrite gmul_const_spec by done. apply Z.lxor_0_r. Qed.
Lemma gmul_03 x : is_u8 x → Fips.gmul 3 x = xt x ^^ x.
Proof. intros. by rewrite gmul_const_spec. Qed.
Lemma gmul_09 x : is_u8 x → Fips.gmul 9 x = xt (xt (xt x)) ^^ x.
Proof. intros. rewrite gmul_const_spec by done. unfold gmul_const. cbn. by rewrite ?Z.lxor_0_r. Qed.
Lemma gmul_0b x : is_u8 x → Fips.gmul 11 x = xt (xt (xt x)) ^^ xt x ^^ x.
Proof. intros. rewrite gmul_const_spec by done. unfold gmul_const. cbn. by rewrite ?Z.lxor_0_r. Qed.
Lemma gmul_0d x : is_u8 x → Fips.gmul 13 x = xt (xt (xt x)) ^^ xt (xt x) ^^ x.
Proof. intros. rewrite gmul_const_spec by done. unfold gmul_const. cbn. by rewrite ?Z.lxor_0_r. Qed.
Lemma gmul_0e x : is_u8 x → Fips.gmul 14 x = xt (xt (xt x)) ^^ xt (xt x) ^^ xt x.
Proof. intros. rewrite gmul_const_spec by done. unfold gmul_const. cbn. by rewrite ?Z.lxor_0_r. Qed.

(** Compare two columns cell by cell. *)
Ltac column_cells :=
  rewrite ?gmul_01, ?gmul_02, ?gmul_03, ?gmul_09, ?gmul_0b, ?gmul_0d, ?gmul_0e by assumption;
  rewrite !Z.lxor_0_l;
  repeat apply (f_equal2 cons); [xor_solve..|reflexivity].

Lemma MixColumns_spec s : block_ok s → SwAes.MixColumns (load_state s) = load_state (Fips.MixColumns s).
Proof.
  intros Hs. rewrite MixColumns_columns by by apply load_state_ok. revert Hs. open_block.
  spec_cbv. column_cells.
Qed.

Lemma InvMixColumns_spec s :
  block_ok s → SwAes.InvMixColumns (load_state s) = load_state (Fips.InvMixColumns s).
Proof.
  intros Hs. rewrite InvMixColumns_columns by by apply load_state_ok. revert Hs. open_block.
  spec_cbv. column_cells.
Qed.

(** ** The key schedule: packed words against 4-byte words *)

Definition be_word (x : list Z) : Z :=
  match x with [a; b; c; d] => be32 a b c d | _ => 0 end.
Definition word_ok (x : list Z) : Prop := length x = 4%nat ∧ bytes_ok x.

(** [ks] holds the first [n] words of [w], packed. *)
Definition sched_rel (n : nat) (ks : list Z) (w : list (list Z)) : Prop :=
  ∀ i, (i < n)%nat → word_ok (Fips.word_at w i) ∧ get ks i = be_word (Fips.word_at w i).

Ltac open_word x H :=
  let Hl := fresh in let Hb := fresh in
  destruct H as [Hl Hb]; do 4 (destruct x as [|? x]; [exfalso; done|]); destruct x; [|exfalso; done];
  unfold bytes_ok in Hb; decompose_Forall_hyps.

Lemma word_ok_cons a b c d : is_u8 a → is_u8 b → is_u8 c → is_u8 d → word_ok [a; b; c; d].
Proof. intros. split; [done|]. by repeat apply Forall_cons_2. Qed.

Lemma RotWord_spec x : word_ok x → SwAes.RotWord (be_word x) = be_word (Fips.RotWord x).
Proof.
  intros Hx. open_word x Hx. simpl. unfold SwAes.RotWord.
  rewrite !be32_arith by done. unfold u32, is_u8 in *.
  rewrite Z.shiftr_div_pow2, Z.shiftl_mul_pow2 by lia.
  set (X := ((z * 2 ^ 8 + z0) * 2 ^ 8 + z1) * 2 ^ 8 + z2).
  assert (X / 2 ^ 24 = z) as -> by (symmetry; apply (Z.div_unique _ _ _ (X - z * 2 ^ 24)); lia).
  replace ((X * 2 ^ 8) mod 2 ^ 32) with (((z0 * 2 ^ 8 + z1) * 2 ^ 8 + z2) * 2 ^ 8)
    by (apply (Z.mod_unique _ _ z); lia).
  rewrite <- Z.shiftl_mul_pow2 by lia. rewrite lor_shiftl_add, Z.shiftl_mul_pow2; lia.
Qed.

Lemma SubWord_spec x : word_ok x → SwAes.SubWord (be_word x) = be_word (Fips.SubWord x).
Proof.
  intros Hx. open_word x Hx. cbn [be_word Fips.SubWord map]. unfold SwAes.SubWord.
  rewrite Z.shiftr_0_r, Z.shiftl_0_r, be32_byte3, be32_byte2, be32_byte1, be32_byte0 by assumption.
  rewrite !aes_sbox_spec by assumption. unfold be32. reflexivity.
Qed.

Lemma sbox_range b : is_u8 b → is_u8 (Fips.sbox b).
Proof. intros. rewrite <- aes_sbox_spec by done. by apply aes_sbox_range. Qed.

Lemma SubWord_ok x : word_ok x → word_ok (Fips.SubWord x).
Proof.
  intros [Hl Hb]. split; [unfold Fips.SubWord; by rewrite length_map|].
  apply Forall_map. eapply Forall_impl; [done|]. apply sbox_range.
Qed.

Lemma RotWord_ok x : word_ok x → word_ok (Fips.RotWord x).
Proof. intros Hx. open_word x Hx. by apply word_ok_cons. Qed.

Lemma xor_word_ok x y : word_ok x → word_ok y → word_ok (xor_list x y).
Proof.
  intros Hx Hy. open_word x Hx. open_word y Hy. apply word_ok_cons; by apply is_u8_lxor.
Qed.

Lemma be_word_xor x y : word_ok x → word_ok y →
  be_word (xor_list x y) = be_word x ^^ be_word y.
Proof. intros Hx Hy. open_word x Hx. open_word y Hy. simpl. by rewrite be32_lxor. Qed.

(** The round constants of the table are the powers of x. *)
Lemma Rcon_spec k : (1 ≤ k ≤ 15)%nat →
  word_ok (Fips.Rcon k) ∧ u32 (get SwAes.Rcon k <<< 24) = be_word (Fips.Rcon k).
Proof.
  intros Hk. do 16 (destruct k as [|k]; [first [lia | split; [|by vm_compute]; split; [done|];
    vm_compute; repeat constructor; discriminate]|]). lia.
Qed.

#[local] Hint Resolve SubWord_ok RotWord_ok xor_word_ok : aes.

Lemma word_at_app_l w x i : (i < length w)%nat → Fips.word_at (w ++ x) i = Fips.word_at w i.
Proof. intros. unfold Fips.word_at. by rewrite lookup_app_l. Qed.

Lemma word_at_snoc w x : Fips.word_at (w ++ [x]) (length w) = x.
Proof. unfold Fips.word_at. by rewrite lookup_app_r, Nat.sub_diag by lia. Qed.

(** The invariant of the expansion loop of [sw_aes_setkey] before iteration
    [length w]: [ks] packs the words so far, and the counter [j] is the index
    reduced modulo [Nk], with [Nk] in place of 0. *)
Definition expand_inv (Nk : nat) (st : nat * list Z) (w : list (list Z)) : Prop :=
  (length st.2 = 60 ∧ Nk ≤ length w)%nat ∧ sched_rel (length w) st.2 w ∧
  (st.1 mod Nk = length w mod Nk ∧ 1 ≤ st.1 ≤ Nk)%nat.

Lemma counter_reset j i Nk : (1 ≤ j ≤ Nk)%nat → (j mod Nk = i mod Nk)%nat →
  (j =? Nk)%nat = (i mod Nk =? 0)%nat.
Proof.
  intros Hj Hm. destruct (Nat.eqb_spec j Nk) as [->|].
  - rewrite Nat.Div0.mod_same in Hm. by rewrite <- Hm.
  - rewrite Nat.mod_small in Hm by lia. symmetry. apply Nat.eqb_neq. lia.
Qed.

Lemma counter_four j i Nk : (1 ≤ j < Nk)%nat → (j mod Nk = i mod Nk)%nat →
  (j =? 4)%nat = (i mod Nk =? 4)%nat.
Proof. intros Hj Hm. rewrite Nat.mod_small in Hm by lia. by rewrite Hm. Qed.

(** One iteration appends the standard's next word. *)
Lemma setkey_step_spec Nk j ks w : expand_inv Nk (j, ks) w → (1 ≤ Nk)%nat →
  (length w / Nk ≤ 15)%nat →
  word_ok (Fips.next_word Nk w) ∧
  setkey_step Nk (length w) (j, ks) =
    (((if (j =? Nk)%nat then 0 else j) + 1)%nat,
     <[length w := be_word (Fips.next_word Nk w)]> ks).
Proof.
  intros ((Hks & Hlen) & Hrel & Hj & Hb) HNk Hdiv. cbn [fst snd] in *.
  set (i := length w) in *.
  destruct (Hrel (i - 1)%nat ltac:(lia)) as [Ht Hgt].
  destruct (Hrel (i - Nk)%nat ltac:(lia)) as [Ho Hgo].
  destruct (Rcon_spec (i / Nk)) as [Hr Hgr].
  { split; [|done]. apply Nat.div_le_lower_bound; lia. }
  unfold setkey_step, Fips.next_word. fold i. rewrite Hgt, Hgo, Hgr.
  rewrite <- (counter_reset j i Nk) by done. destruct (Nat.eqb_spec j Nk) as [Ej|Ej].
  - rewrite RotWord_spec, SubWord_spec by auto with aes.
    rewrite <- !be_word_xor by auto with aes.
    split; [auto with aes|reflexivity].
  - rewrite <- (counter_four j i Nk) by lia.
    destruct ((6 <? Nk)%nat && (j =? 4)%nat).
    + rewrite SubWord_spec, <- be_word_xor by auto with aes.
    split; [auto with aes|reflexivity].
    + rewrite <- be_word_xor by auto with aes.
    split; [auto with aes|reflexivity].
Qed.

Lemma expand_inv_step Nk st w : expand_inv Nk st w → (4 ≤ Nk)%nat → (length w < 60)%nat →
  expand_inv Nk (setkey_step Nk (length w) st) (w ++ [Fips.next_word Nk w]).
Proof.
  intros Hinv HNk Hlt. destruct st as [j ks].
  destruct (setkey_step_spec Nk j ks w) as [Hok ->]; [done|lia| |].
  { apply Nat.Div0.div_le_upper_bound. nia. }
  destruct Hinv as ((Hks & Hlen) & Hrel & Hj & Hb). unfold expand_inv. cbn [fst snd] in *.
  split; [|split].
  - rewrite length_insert, length_app. simpl. lia.
  - intros i Hi. rewrite length_app in Hi. simpl in Hi.
    destruct (decide (i = length w)) as [->|Hne].
    + rewrite word_at_snoc, get_insert_eq by lia. done.
    + rewrite word_at_app_l, get_insert_ne by lia. apply Hrel. lia.
  - rewrite length_app. cbn [length fst]. destruct (Nat.eqb_spec j Nk) as [->|]; [|split; [|lia]].
    + rewrite Nat.Div0.mod_same in Hj. split; [|lia].
      rewrite (Nat.Div0.add_mod (length w)), <- Hj, !Nat.add_0_l, Nat.Div0.mod_mod. done.
    + by rewrite Nat.Div0.add_mod, Hj, <- Nat.Div0.add_mod.
Qed.

Lemma expand_length Nk n w : length (Fips.expand Nk n w) = (length w + n)%nat.
Proof.
  revert w. induction n as [|n IH]; intros w; [simpl; lia|].
  cbn [Fips.expand]. rewrite IH, length_app. simpl. lia.
Qed.

Lemma expand_inv_loop Nk n st w :
  expand_inv Nk st w → (4 ≤ Nk)%nat → (length w + n ≤ 60)%nat →
  expand_inv Nk (for_loop (length w) n (setkey_step Nk) st) (Fips.expand Nk n w).
Proof.
  revert st w. induction n as [|n IH]; intros st w Hinv HNk Hle; [done|].
  rewrite for_loop_S_l. cbn [Fips.expand].
  specialize (IH (setkey_step Nk (length w) st) (w ++ [Fips.next_word Nk w])).
  rewrite length_app, Nat.add_1_r in IH. apply IH; [|done|simpl; lia].
  apply expand_inv_step; [done|done|lia].
Qed.

(** [key_ok a key]: a key buffer at least as long as algorithm [a] needs. *)
Definition key_ok (a : Z) (key : list Z) : Prop :=
  (a = 0 ∨ a = 1 ∨ a = 2) ∧ (4 * Fips.Nk_of a ≤ length key)%nat ∧ bytes_ok key.

Lemma load_key_loop n key : (n ≤ 60)%nat →
  let ks := for_loop 0 n (λ i ks, <[i := load_key_word key i]> ks) (replicate 60 0) in
  length ks = 60%nat ∧ ∀ i, (i < n)%nat → get ks i = load_key_word key i.
Proof.
  intros Hn. cbv zeta. induction n as [|n IH]; [split; [done|lia]|].
  destruct IH as [Hl IH]; [lia|]. rewrite for_loop_S_r, length_insert. split; [done|].
  intros i Hi. destruct (decide (i = n)) as [->|].
  - by rewrite get_insert_eq by lia.
  - rewrite get_insert_ne by lia. apply IH. lia.
Qed.

Lemma load_key_word_spec key i : bytes_ok key →
  word_ok (Fips.key_word key i) ∧ load_key_word key i = be_word (Fips.key_word key i).
Proof.
  intros Hk. split; [by apply word_ok_cons; apply get_u8|].
  unfold load_key_word, Fips.key_word, be_word, be32. rewrite Z.shiftl_0_r.
  by rewrite Nat.add_0_r, (Nat.mul_comm i 4).
Qed.

(** The context that [sw_aes_setkey] fills holds the standard's key expansion. *)
Lemma setkey_spec a key : key_ok a key →
  algo (sw_aes_setkey a key) = a ∧
  sched_rel (4 * (Fips.Nr_of a + 1)) (ks (sw_aes_setkey a key))
    (Fips.KeyExpansion (Fips.Nk_of a) (Fips.Nr_of a) key).
Proof.
  intros (Ha & Hl & Hb). unfold sw_aes_setkey, Fips.KeyExpansion.
  fold (Fips.Nk_of a) (Fips.Nr_of a). set (Nk := Fips.Nk_of a). set (Nr := Fips.Nr_of a).
  assert (4 ≤ Nk ∧ Nr = Nk + 6 ∧ Nk ≤ 8)%nat as (HNk & HNr & HNk8).
  { unfold Nk, Nr, Fips.Nk_of, Fips.Nr_of. lia. }
  destruct (load_key_loop Nk key) as [Hlk Hgk]; [lia|]. set (k0 := for_loop 0 Nk _ _) in *.
  set (w0 := map (Fips.key_word key) (seq 0 Nk)).
  assert (length w0 = Nk) as Hw0 by (unfold w0; by rewrite length_map, length_seq).
  assert (expand_inv Nk (Nk, k0) w0) as Hinv.
  { split; [cbn; lia|]. rewrite Hw0. split; [|cbn; lia]. intros i Hi. cbn [snd].
    rewrite Hgk by done. unfold Fips.word_at, w0.
    rewrite list_lookup_fmap, lookup_seq_lt by done. by apply load_key_word_spec. }
  apply (expand_inv_loop _ (4 * (Nr + 1) - Nk)) in Hinv; [|lia|rewrite Hw0; lia].
  rewrite Hw0 in Hinv. change Nb with 4%nat.
  destruct (for_loop Nk (4 * (Nr + 1) - Nk) (setkey_step Nk) (Nk, k0)) as [j k].
  split; [done|]. destruct Hinv as (_ & Hrel & _).
  rewrite expand_length, Hw0 in Hrel. cbn [snd ks] in *.
  intros i Hi. apply Hrel. lia.
Qed.

(** ** The cipher *)

Lemma AddRoundKey_words s w : length s = AES_BLOCK_SIZE →
  SwAes.AddRoundKey s w = SwAes.AddRoundKey s [get w 0; get w 1; get w 2; get w 3].
Proof. intros Hl. destruct_block s. block_cbv. reflexivity. Qed.

Section add_cell.
Context (s a b c d : Z) (Hs : is_u8 s) (Ha : is_u8 a) (Hb : is_u8 b) (Hc : is_u8 c) (Hd : is_u8 d).

Lemma add_cell_0 : u8 (s ^^ (be32 a b c d >>> 24)) = s ^^ a.
Proof. rewrite u8_lxor, u8_id by done. f_equal. by apply be32_byte3. Qed.
Lemma add_cell_1 : u8 (s ^^ (be32 a b c d >>> 16)) = s ^^ b.
Proof. rewrite u8_lxor, u8_id by done. f_equal. by apply be32_byte2. Qed.
Lemma add_cell_2 : u8 (s ^^ (be32 a b c d >>> 8)) = s ^^ c.
Proof. rewrite u8_lxor, u8_id by done. f_equal. by apply be32_byte1. Qed.
Lemma add_cell_3 : u8 (s ^^ (be32 a b c d >>> 0)) = s ^^ d.
Proof. rewrite Z.shiftr_0_r, u8_lxor, u8_id by done. f_equal. by apply be32_byte0. Qed.
End add_cell.

(** The standard's AddRoundKey with the four words of the round as arguments. *)
Definition add_words (x0 x1 x2 x3 s : list Z) : list Z :=
  Fips.build (λ r c, Fips.cell s r c ^^
    get (match c with 0 => x0 | 1 => x1 | 2 => x2 | _ => x3 end)%nat r).

Lemma Fips_AddRoundKey_words round w s :
  Fips.AddRoundKey round w s =
  add_words (Fips.word_at w (4 * round + 0)) (Fips.word_at w (4 * round + 1))
    (Fips.word_at w (4 * round + 2)) (Fips.word_at w (4 * round + 3)) s.
Proof. reflexivity. Qed.

Lemma AddRoundKey_spec n ks w round s : sched_rel n ks w → (4 * (round + 1) ≤ n)%nat → block_ok s →
  SwAes.AddRoundKey (load_state s) (drop (round * Nb) ks)
  = load_state (Fips.AddRoundKey round w s).
Proof.
  intros Hrel Hn Hs. rewrite AddRoundKey_words by by apply load_state_ok.
  rewrite !get_drop. change Nb with 4%nat. rewrite (Nat.mul_comm round 4).
  destruct (Hrel (4 * round + 0)%nat ltac:(lia)) as [H0w ->].
  destruct (Hrel (4 * round + 1)%nat ltac:(lia)) as [H1w ->].
  destruct (Hrel (4 * round + 2)%nat ltac:(lia)) as [H2w ->].
  destruct (Hrel (4 * round + 3)%nat ltac:(lia)) as [H3w ->].
  rewrite (Fips_AddRoundKey_words round w s).
  generalize dependent (Fips.word_at w (4 * round + 0)). intros x0 H0w.
  generalize dependent (Fips.word_at w (4 * round + 1)). intros x1 H1w.
  generalize dependent (Fips.word_at w (4 * round + 2)). intros x2 H2w.
  generalize dependent (Fips.word_at w (4 * round + 3)). intros x3 H3w.
  open_word x0 H0w. open_word x1 H1w. open_word x2 H2w. open_word x3 H3w.
  revert Hs. open_block. unfold be_word, add_words. block_cbv. spec_cbv.
  by rewrite !add_cell_0, !add_cell_1, !add_cell_2, !add_cell_3 by assumption.
Qed.

(** Every transformation of the standard keeps a block of bytes. *)
Lemma load_state_bytes s : length s = AES_BLOCK_SIZE → block_ok (load_state s) → block_ok s.
Proof.
  intros Hl Hb. rewrite <- (store_load_state s) by done. by apply store_state_ok.
Qed.

Lemma build_length f : length (Fips.build f) = AES_BLOCK_SIZE.
Proof. reflexivity. Qed.

Lemma InvSubBytes_ok s : block_ok s → block_ok (SwAes.InvSubBytes s).
Proof.
  intros [Hl Hb]. unfold block_ok. rewrite InvSubBytes_map by done. split; [by rewrite length_map|].
  apply Forall_map. eapply Forall_impl; [done|]. intros x Hx. by apply aes_sbox_range.
Qed.

Lemma InvShiftRows_ok s : block_ok s → block_ok (SwAes.InvShiftRows s).
Proof.
  intros [Hl Hb]. destruct_block s. split; [done|].
  unfold bytes_ok in Hb. decompose_Forall_hyps. forall_cells assumption.
Qed.

Lemma InvMixColumns_ok s : block_ok s → block_ok (SwAes.InvMixColumns s).
Proof.
  intros Hs. rewrite InvMixColumns_columns by done. destruct Hs as [Hl Hb]. destruct_block s.
  unfold bytes_ok in Hb. decompose_Forall_hyps. split; [done|]. columns_cbv.
  forall_cells is_u8_solve.
Qed.
#[export] Hint Resolve InvSubBytes_ok InvShiftRows_ok InvMixColumns_ok : aes.

(** The simulation between the code's row-major state and the standard's. *)
Definition sim (st s : list Z) : Prop := block_ok s ∧ st = load_state s.

(** A code transformation that maps [load_state s] to [load_state] of a block
    built cell by cell, and keeps blocks of bytes, preserves the simulation. *)
Lemma sim_intro (f : list Z → list Z) (g : list Z → list Z) st s :
  (∀ s, ∃ h, g s = Fips.build h) →
  (∀ s, block_ok s → block_ok (f s)) → (∀ s, block_ok s → f (load_state s) = load_state (g s)) →
  sim st s → sim (f st) (g s).
Proof.
  intros Hg Hf Heq [Hs ->]. split; [|by apply Heq].
  apply load_state_bytes; [destruct (Hg s) as [h ->]; apply build_length|].
  rewrite <- Heq by done. auto with aes.
Qed.

Ltac sim_op lem := apply sim_intro;
  [intros ?; eexists; reflexivity|intros; auto with aes|intros; by apply lem].

Lemma sim_SubBytes st s : sim st s → sim (SwAes.SubBytes st) (Fips.SubBytes s).
Proof. sim_op SubBytes_spec. Qed.
Lemma sim_InvSubBytes st s : sim st s → sim (SwAes.InvSubBytes st) (Fips.InvSubBytes s).
Proof. sim_op InvSubBytes_spec. Qed.
Lemma sim_ShiftRows st s : sim st s → sim (SwAes.ShiftRows st) (Fips.ShiftRows s).
Proof. sim_op ShiftRows_spec. Qed.
Lemma sim_InvShiftRows st s : sim st s → sim (SwAes.InvShiftRows st) (Fips.InvShiftRows s).
Proof. sim_op InvShiftRows_spec. Qed.
Lemma sim_MixColumns st s : sim st s → sim (SwAes.MixColumns st) (Fips.MixColumns s).
Proof. sim_op MixColumns_spec. Qed.
Lemma sim_InvMixColumns st s : sim st s → sim (SwAes.InvMixColumns st) (Fips.InvMixColumns s).
Proof. sim_op InvMixColumns_spec. Qed.

Section cipher.
Context (n : nat) (k : list Z) (w : list (list Z)) (Hrel : sched_rel n k w).

Lemma sim_AddRoundKey round st s : (4 * (round + 1) ≤ n)%nat → sim st s →
  sim (SwAes.AddRoundKey st (drop (round * Nb) k)) (Fips.AddRoundKey round w s).
Proof.
  intros Hn. apply (sim_intro (λ st, SwAes.AddRoundKey st _)).
  - intros ?. eexists. reflexivity.
  - intros. auto with aes.
  - intros. by apply (AddRoundKey_spec n).
Qed.

Lemma sim_enc_rounds m st s : (4 * (m + 1) ≤ n)%nat → sim st s →
  sim (for_loop 1 m (enc_round k) st)
    (for_loop 1 m (λ round s, Fips.AddRoundKey round w
       (Fips.MixColumns (Fips.ShiftRows (Fips.SubBytes s)))) s).
Proof.
  intros Hm Hs. induction m as [|m IH]; [done|].
  rewrite !for_loop_S_r. apply sim_AddRoundKey; [lia|].
  apply sim_MixColumns, sim_ShiftRows, sim_SubBytes, IH. lia.
Qed.

Lemma sim_dec_rounds m st s : (4 * (m + 1) ≤ n)%nat → sim st s →
  sim (for_down m (dec_round k) st)
    (for_down m (λ round s, Fips.InvMixColumns (Fips.AddRoundKey round w
       (Fips.InvSubBytes (Fips.InvShiftRows s)))) s).
Proof.
  revert st s. induction m as [|m IH]; intros st s Hm Hs; [done|].
  rewrite !for_down_S. apply IH; [lia|]. apply sim_InvMixColumns, sim_AddRoundKey; [lia|].
  by apply sim_InvSubBytes, sim_InvShiftRows.
Qed.
End cipher.

Lemma sim_load s : block_ok s → sim (load_state s) s.
Proof. done. Qed.

Lemma sim_store st s : sim st s → store_state st = s.
Proof. intros [[Hl _] ->]. by apply store_load_state. Qed.

Lemma sw_aes_ecb_encrypt_spec a key d : key_ok a key → block_ok d →
  sw_aes_ecb_encrypt (sw_aes_setkey a key) d =
  Fips.Cipher (Fips.Nr_of a) (Fips.KeyExpansion (Fips.Nk_of a) (Fips.Nr_of a) key) d.
Proof.
  intros Hk Hd. destruct (setkey_spec a key Hk) as [Ha Hrel].
  rewrite sw_aes_ecb_encrypt_eq. unfold rounds. rewrite Ha. fold (Fips.Nr_of a).
  assert (1 ≤ Fips.Nr_of a)%nat by (destruct Hk as (? & _); unfold Fips.Nr_of; lia).
  apply sim_store, (sim_AddRoundKey _ _ _ Hrel); [lia|]. apply sim_ShiftRows, sim_SubBytes.
  apply (sim_enc_rounds _ _ _ Hrel); [lia|].
  apply (sim_AddRoundKey _ _ _ Hrel 0); [lia|]. by apply sim_load.
Qed.

Lemma sw_aes_ecb_decrypt_spec a key d : key_ok a key → block_ok d →
  sw_aes_ecb_decrypt (sw_aes_setkey a key) d =
  Fips.InvCipher (Fips.Nr_of a) (Fips.KeyExpansion (Fips.Nk_of a) (Fips.Nr_of a) key) d.
Proof.
  intros Hk Hd. destruct (setkey_spec a key Hk) as [Ha Hrel].
  rewrite sw_aes_ecb_decrypt_eq. unfold rounds. rewrite Ha. fold (Fips.Nr_of a).
  assert (1 ≤ Fips.Nr_of a)%nat by (destruct Hk as (? & _); unfold Fips.Nr_of; lia).
  apply sim_store, (sim_AddRoundKey _ _ _ Hrel 0); [lia|].
  apply sim_InvSubBytes, sim_InvShiftRows. apply (sim_dec_rounds _ _ _ Hrel); [lia|].
  apply (sim_AddRoundKey _ _ _ Hrel); [lia|]. by apply sim_load.
Qed.

Lemma fips_key_ok : key_ok 0 fips_key.
Proof. split; [auto|]. split; [done|]. vm_compute. repeat constructor; discriminate. Qed.

Definition fips_cipher : list Z :=
  [0x69; 0xc4; 0xe0; 0xd8; 0x6a; 0x7b; 0x04; 0x30; 0xd8; 0xcd; 0xb7; 0x80; 0x70; 0xb4; 0xc5; 0x5a].

(** C2: under a context prepared by [sw_aes_setkey], [sw_aes_ecb_encrypt] is the
    FIPS 197 cipher and [sw_aes_ecb_decrypt] the FIPS 197 inverse cipher, with
    the standard's key expansion, for 128, 192 and 256-bit keys. *)
Theorem sw_aes_fips197 a key d : key_ok a key → block_ok d →
  let w := Fips.KeyExpansion (Fips.Nk_of a) (Fips.Nr_of a) key in
  sw_aes_ecb_encrypt (sw_aes_setkey a key) d = Fips.Cipher (Fips.Nr_of a) w d ∧
  sw_aes_ecb_decrypt (sw_aes_setkey a key) d = Fips.InvCipher (Fips.Nr_of a) w d.
Proof.
  intros Hk Hd. split; [by apply sw_aes_ecb_encrypt_spec|by apply sw_aes_ecb_decrypt_spec].
Qed.

Lemma sw_aes_fips197_witness :
  let w := Fips.KeyExpansion 4 10 fips_key in
  sw_aes_ecb_encrypt (sw_aes_setkey 0 fips_key) fips_block = Fips.Cipher 10 w fips_block ∧
  sw_aes_ecb_decrypt (sw_aes_setkey 0 fips_key) fips_block = Fips.InvCipher 10 w fips_block.
Proof. exact (sw_aes_fips197 0 fips_key fips_block fips_key_ok fips_block_ok). Defined.

(** The example vector of the standard's appendix C.1. *)
Lemma fips_vector : sw_aes_ecb_encrypt (sw_aes_setkey 0 fips_key) fips_block = fips_cipher.
Proof. vm_compute. reflexivity. Qed.

(** ** The block cipher keyed by a byte string *)

Definition aes_enc (a : Z) (key d : list Z) : list Z :=
  Fips.Cipher (Fips.Nr_of a) (Fips.KeyExpansion (Fips.Nk_of a) (Fips.Nr_of a) key) d.
Definition aes_dec (a : Z) (key d : list Z) : list Z :=
  Fips.InvCipher (Fips.Nr_of a) (Fips.KeyExpansion (Fips.Nk_of a) (Fips.Nr_of a) key) d.

Lemma aes_enc_ok a key d : key_ok a key → block_ok d → block_ok (aes_enc a key d).
Proof.
  intros. unfold aes_enc. rewrite <- sw_aes_ecb_encrypt_spec by done.
  by apply sw_aes_ecb_encrypt_block.
Qed.

(** The standard's inverse cipher inverts its cipher. *)
Lemma aes_dec_enc a key d : key_ok a key → block_ok d → aes_dec a key (aes_enc a key d) = d.
Proof.
  intros. unfold aes_enc, aes_dec. rewrite <- sw_aes_ecb_encrypt_spec by done.
  rewrite <- sw_aes_ecb_decrypt_spec by auto using sw_aes_ecb_encrypt_block.
  by apply sw_aes_roundtrip.
Qed.

(** Only the first [4 * Nk] bytes of the key buffer matter. *)
Lemma KeyExpansion_take Nk Nr key n : (4 * Nk ≤ n)%nat →
  Fips.KeyExpansion Nk Nr (take n key) = Fips.KeyExpansion Nk Nr key.
Proof.
  intros Hn. unfold Fips.KeyExpansion. f_equal. apply map_ext_in. intros i Hi%in_seq.
  unfold Fips.key_word, get. rewrite !lookup_take, !decide_True by lia. done.
Qed.

Lemma aes_enc_take a key n d : (4 * Fips.Nk_of a ≤ n)%nat →
  aes_enc a (take n key) d = aes_enc a key d.
Proof. intros. unfold aes_enc. by rewrite KeyExpansion_take. Qed.

Lemma aes_dec_take a key n d : (4 * Fips.Nk_of a ≤ n)%nat →
  aes_dec a (take n key) d = aes_dec a key d.
Proof. intros. unfold aes_dec. by rewrite KeyExpansion_take. Qed.

Lemma aes_dec_ok a key d : key_ok a key → block_ok d → block_ok (aes_dec a key d).
Proof.
  intros. unfold aes_dec. rewrite <- sw_aes_ecb_decrypt_spec by done.
  rewrite sw_aes_ecb_decrypt_eq. apply store_state_ok, AddRoundKey_block, InvSubBytes_ok, InvShiftRows_ok.
  assert (∀ n s, block_ok s → block_ok (for_down n (dec_round (ks (sw_aes_setkey a key))) s)) as Hl.
  { induction n as [|n IH]; intros s Hs; [done|]. rewrite for_down_S. apply IH.
    unfold dec_round. auto with aes. }
  apply Hl. auto with aes.
Qed.

Lemma sw_aes_enc a key d : key_ok a key → block_ok d →
  sw_aes_ecb_encrypt (sw_aes_setkey a key) d = aes_enc a key d.
Proof. apply sw_aes_ecb_encrypt_spec. Qed.

Lemma sw_aes_dec a key d : key_ok a key → block_ok d →
  sw_aes_ecb_decrypt (sw_aes_setkey a key) d = aes_dec a key d.
Proof. apply sw_aes_ecb_decrypt_spec. Qed.

(** Clients reason about the cipher through the lemmas above. *)
#[global] Opaque aes_enc aes_dec.
