(* ===== verification/AesDriver.v ===== *)
(** * The AES driver and the AES library

    [msel_do_aes] of driver/aes_driver.c (software build), [arch_do_hw_aes] of
    arch/openrisc/aes.c (hardware build), and [aes_setkey], [aes_ecb_encrypt],
    [aes_ecb_decrypt] of lib/crypto/aes.c, which reach the driver through the
    AES system call.  The class [AesService] is what the library relies on; both
    drivers implement it. *)

From S2P Require Import Prelude Msel Words Stdc SwAes Fips197.

Local Open Scope Z_scope.
Local Open Scope orp_scope.

Definition AES_128 : Z := 0.
Definition AES_192 : Z := 1.
Definition AES_256 : Z := 2.

Record aes_driver_ctx_t := AesDriverCtx {
  enc : bool;
  key_size : Z;
  key : list Z;
  din : list Z;
  dout : list Z;
  data_len : nat
}.

(** ** The software driver *)

(** One iteration of the block loop, at byte offset [16 * k]. *)
Definition do_aes_block (sw : sw_aes_ctx_t) (ctx : aes_driver_ctx_t) (k : nat) (out : list Z)
  : list Z :=
  let i := (16 * k)%nat in
  let blk := msel_memcpy (replicate 16 0) 0 (din ctx) i 16 in
  let res := if enc ctx then sw_aes_ecb_encrypt sw blk else sw_aes_ecb_decrypt sw blk in
  msel_memcpy out i res 0 16.

Definition msel_do_aes (ctx : aes_driver_ctx_t) : msel_status * list Z :=
  if AES_256 <? key_size ctx then (MSEL_EINVAL, dout ctx)
  else if negb (data_len ctx mod 16 =? 0)%nat then (MSEL_EINVAL, dout ctx)
  else
    let sw := sw_aes_setkey (key_size ctx) (key ctx) in
    (MSEL_OK, for_loop 0 (data_len ctx / 16) (do_aes_block sw ctx) (dout ctx)).

(** ** The hardware driver

    The core is what the AES unit puts in its output register once its busy bit
    has cleared, given the control word, the key registers and the input
    register. *)

Section hardware.
Context (aes_core : Z → list Z → list Z → list Z).

Definition aes_ctrl (ctx : aes_driver_ctx_t) : Z :=
  let ctrl := 1 in
  let ctrl := if enc ctx then ctrl else ctrl .| (1 <<< 1) in
  if key_size ctx =? AES_256 then ctrl .| (1 <<< 3)
  else if key_size ctx =? AES_192 then ctrl .| (1 <<< 2)
  else ctrl.

(** [key_regs] is the content of the key registers before the call.  The loop
    [for(i = 0; i < data_len; i += 16)] has a turn for a last partial block too. *)
Definition arch_do_hw_aes (key_regs : list Z) (ctx : aes_driver_ctx_t) : msel_status * list Z :=
  let key_regs := msel_memcpy key_regs 0 (key ctx) 0 (Z.to_nat ((key_size ctx + 2) * 8)) in
  let ctrl := aes_ctrl ctx in
  (MSEL_OK, for_loop 0 ((data_len ctx + 15) / 16) (λ k out,
    let i := (16 * k)%nat in
    let blk := msel_memcpy (replicate 16 0) 0 (din ctx) i 16 in
    let res := aes_core ctrl key_regs blk in
    msel_memcpy out i res 0 16) (dout ctx)).
End hardware.

(** ** The library *)

Record aes_ctx_t := AesCtx { aes_algo : Z; aes_key : list Z }.

Definition aes_setkey (a : Z) (k : list Z) : aes_ctx_t := AesCtx a k.

Section library.
Context (svc_aes : aes_driver_ctx_t → msel_status * list Z).

Definition aes_ecb_encrypt (ctx : aes_ctx_t) (data_in data_out : list Z) : list Z :=
  let driver_ctx := AesDriverCtx true (aes_algo ctx) (aes_key ctx) data_in data_out 16 in
  (svc_aes driver_ctx).2.

Definition aes_ecb_decrypt (ctx : aes_ctx_t) (data_in data_out : list Z) : list Z :=
  let driver_ctx := AesDriverCtx false (aes_algo ctx) (aes_key ctx) data_in data_out 16 in
  (svc_aes driver_ctx).2.
End library.

(** ** Block loops *)

(** The [k]-th 16-byte block of a buffer. *)
Definition block_at (l : list Z) (k : nat) : list Z := take 16 (drop (16 * k) l).

Lemma block_at_ok l k : bytes_ok l → (16 * (k + 1) ≤ length l)%nat → block_ok (block_at l k).
Proof.
  intros Hb Hl. split; [|unfold block_at; auto with width].
  unfold block_at. rewrite length_take, length_drop. unfold AES_BLOCK_SIZE. lia.
Qed.

Lemma memcpy_block l k : (16 * (k + 1) ≤ length l)%nat →
  msel_memcpy (replicate 16 0) 0 l (16 * k) 16 = block_at l k.
Proof.
  intros Hl. rewrite msel_memcpy_blit by (rewrite ?length_replicate; lia).
  unfold blit. rewrite length_take, length_drop. rewrite (drop_ge (replicate 16 0)) by (rewrite length_replicate; lia).
  cbn [take app]. by rewrite app_nil_r.
Qed.

Lemma xor_block_ok x y : block_ok x → block_ok y → block_ok (xor_list x y).
Proof.
  intros [Hx Hbx] [Hy Hby]. split; [rewrite length_xor_list; lia|by apply bytes_ok_xor_list].
Qed.

(** A loop that fills the output buffer block by block. *)
Lemma concat_blocks_length (f : nat → list Z) n :
  (∀ k, (k < n)%nat → length (f k) = 16%nat) → length (concat (map f (seq 0 n))) = (16 * n)%nat.
Proof.
  induction n as [|n IH]; intros Hf; [done|].
  rewrite seq_S, map_app, concat_app, length_app, IH by (intros; apply Hf; lia).
  cbn [map concat Nat.add]. rewrite app_nil_r, Hf by lia. lia.
Qed.

Lemma block_write_loop (f : nat → list Z) (out : list Z) n :
  (16 * n ≤ length out)%nat → (∀ k, (k < n)%nat → length (f k) = 16%nat) →
  for_loop 0 n (λ k out, msel_memcpy out (16 * k) (f k) 0 16) out =
  concat (map f (seq 0 n)) ++ drop (16 * n) out.
Proof.
  intros Hout Hf. induction n as [|n IH]; [done|].
  rewrite for_loop_S_r, IH by (lia || auto with lia). cbn [Nat.add].
  rewrite seq_S, map_app, concat_app. cbn [map concat Nat.add].
  pose proof (concat_blocks_length f n ltac:(auto with lia)) as Hp. set (pre := concat _) in *.
  pose proof (Hf n ltac:(lia)) as Hfn.
  rewrite msel_memcpy_blit by (rewrite ?length_app, ?length_drop; lia).
  rewrite drop_0, (take_ge (f _)) by lia. unfold blit.
  rewrite take_app_le, (take_ge pre) by lia. rewrite drop_app_ge by lia.
  rewrite drop_drop, Hfn, Hp, app_nil_r, <- app_assoc. do 3 f_equal. lia.
Qed.

(** The same when each output block is a function of the input block. *)
Lemma block_loop (f : list Z → list Z) (inp out : list Z) n :
  (16 * n ≤ length inp)%nat → (16 * n ≤ length out)%nat →
  (∀ k, (k < n)%nat → length (f (block_at inp k)) = 16%nat) →
  for_loop 0 n (λ k out, msel_memcpy out (16 * k)
    (f (msel_memcpy (replicate 16 0) 0 inp (16 * k) 16)) 0 16) out =
  concat (map (λ k, f (block_at inp k)) (seq 0 n)) ++ drop (16 * n) out.
Proof.
  intros Hin Hout Hf. rewrite <- block_write_loop by done.
  apply for_loop_ext. intros k o Hk. by rewrite memcpy_block by lia.
Qed.

(** ** Correctness of the software driver *)

(** Electronic codebook mode over the first [n] blocks. *)
Definition ecb (f : list Z → list Z) (l : list Z) (n : nat) : list Z :=
  concat (map (λ k, f (block_at l k)) (seq 0 n)).

Definition aes_op (e : bool) (a : Z) (key d : list Z) : list Z :=
  if e then aes_enc a key d else aes_dec a key d.

Lemma aes_op_ok e a key d : key_ok a key → block_ok d → block_ok (aes_op e a key d).
Proof. destruct e; [apply aes_enc_ok|apply aes_dec_ok]. Qed.

(** A driver call with a supported key and whole blocks in both buffers. *)
Definition driver_ok (ctx : aes_driver_ctx_t) : Prop :=
  key_ok (key_size ctx) (key ctx) ∧ bytes_ok (din ctx) ∧ (data_len ctx mod 16 = 0)%nat ∧
  (data_len ctx ≤ length (din ctx) ∧ data_len ctx ≤ length (dout ctx))%nat.

Definition driver_result (ctx : aes_driver_ctx_t) : list Z :=
  ecb (aes_op (enc ctx) (key_size ctx) (key ctx)) (din ctx) (data_len ctx / 16)
  ++ drop (data_len ctx) (dout ctx).

Lemma blocks_fit ctx : driver_ok ctx → (16 * (data_len ctx / 16) = data_len ctx)%nat.
Proof. intros (_ & _ & Hm & _). pose proof (Nat.div_mod_eq (data_len ctx) 16). lia. Qed.

Lemma do_aes_block_eq ctx k out : driver_ok ctx → (k < data_len ctx / 16)%nat →
  do_aes_block (sw_aes_setkey (key_size ctx) (key ctx)) ctx k out =
  msel_memcpy out (16 * k) (aes_op (enc ctx) (key_size ctx) (key ctx)
    (msel_memcpy (replicate 16 0) 0 (din ctx) (16 * k) 16)) 0 16.
Proof.
  intros Hok Hk. pose proof (blocks_fit ctx Hok) as Hfit. destruct Hok as (Hkey & Hb & _ & Hl & _).
  unfold do_aes_block, aes_op. rewrite memcpy_block by lia.
  assert (block_ok (block_at (din ctx) k)) by (apply block_at_ok; [done|lia]).
  destruct (enc ctx); by rewrite ?sw_aes_enc, ?sw_aes_dec.
Qed.

Lemma msel_do_aes_ok ctx : driver_ok ctx → msel_do_aes ctx = (MSEL_OK, driver_result ctx).
Proof.
  intros Hok. pose proof (blocks_fit ctx Hok) as Hfit.
  pose proof Hok as (Hkey & Hb & Hm & Hl1 & Hl2). unfold msel_do_aes.
  destruct (Z.ltb_spec AES_256 (key_size ctx)) as [Hbig|_].
  { destruct Hkey as (Ha & _). unfold AES_256 in Hbig. lia. }
  rewrite Hm. cbn [negb Nat.eqb]. f_equal.
  erewrite for_loop_ext by (intros k out Hk; apply do_aes_block_eq; [done|lia]).
  rewrite block_loop; [unfold driver_result, ecb; by rewrite Hfit|lia|lia|].
  intros k Hk. apply aes_op_ok; [done|]. apply block_at_ok; [done|lia].
Qed.

(** C21: [msel_do_aes] accepts exactly key sizes up to [AES_256] and whole
    blocks: otherwise it returns [MSEL_EINVAL] and leaves the output alone; on a
    valid call it returns [MSEL_OK] and fills the output with the FIPS 197
    cipher (or inverse cipher) of every input block, in order, touching nothing
    after them. *)
Theorem msel_do_aes_correct ctx :
  (AES_256 < key_size ctx ∨ (data_len ctx mod 16 ≠ 0)%nat → msel_do_aes ctx = (MSEL_EINVAL, dout ctx))
  ∧ (driver_ok ctx → msel_do_aes ctx = (MSEL_OK, driver_result ctx)).
Proof.
  split; [|apply msel_do_aes_ok]. intros Hbad. unfold msel_do_aes.
  destruct (Z.ltb_spec AES_256 (key_size ctx)) as [|Hle]; [done|].
  destruct Hbad as [|Hm]; [lia|]. apply Nat.eqb_neq in Hm. by rewrite Hm.
Qed.

Definition sample_call : aes_driver_ctx_t :=
  AesDriverCtx true AES_128 fips_key (fips_block ++ fips_block) (replicate 40 0) 32.

Lemma sample_call_ok : driver_ok sample_call.
Proof.
  split; [apply fips_key_ok|]. split; [by apply bytes_okb_ok|]. split; [done|]. cbn. lia.
Qed.

Lemma msel_do_aes_correct_witness :
  msel_do_aes sample_call = (MSEL_OK, driver_result sample_call) ∧
  driver_result sample_call = fips_cipher ++ fips_cipher ++ replicate 8 0.
Proof.
  split; [exact (proj2 (msel_do_aes_correct sample_call) sample_call_ok)|].
  vm_compute. reflexivity.
Defined.

(** ** What the library relies on *)

Class AesService (svc : aes_driver_ctx_t → msel_status * list Z) : Prop := {
  aes_service : ∀ e a k d out, key_ok a k → block_ok d → length out = 16%nat →
    svc (AesDriverCtx e a k d out 16) = (MSEL_OK, aes_op e a k d)
}.

(** A one-block call of a driver that works block by block. *)
Lemma one_block e a k d out : block_ok d → length out = 16%nat → key_ok a k →
  driver_result (AesDriverCtx e a k d out 16) = aes_op e a k d.
Proof.
  intros Hd Ho Hk. unfold driver_result, ecb. cbn [data_len enc key_size key din dout].
  change (16 / 16)%nat with 1%nat. cbn [seq map concat].
  rewrite drop_ge by lia. rewrite !app_nil_r. unfold block_at. rewrite Nat.mul_0_r, drop_0.
  rewrite take_ge; [done|]. destruct Hd as [-> _]. unfold AES_BLOCK_SIZE. lia.
Qed.

#[export] Instance sw_aes_service : AesService msel_do_aes.
Proof.
  constructor. intros e a k d out Hk Hd Ho. rewrite msel_do_aes_ok.
  - by rewrite one_block.
  - destruct Hd as [Hl Hb]. unfold AES_BLOCK_SIZE in Hl.
    split; [done|]. split; [done|]. split; [done|]. cbn [data_len din dout]. lia.
Qed.

(** The hardware driver, for a core that performs the operation the control
    word selects: bit 1 decrypts, bit 2 selects 192-bit and bit 3 256-bit keys,
    and the key is read from the first registers. *)
Section hardware_correct.
Context (core : Z → list Z → list Z → list Z).

Definition core_algo (ctrl : Z) : Z :=
  if Z.testbit ctrl 3 then AES_256 else if Z.testbit ctrl 2 then AES_192 else AES_128.

Hypothesis core_spec : ∀ ctrl regs d, length regs = 32%nat → block_ok d →
  core ctrl regs d =
  aes_op (negb (Z.testbit ctrl 1)) (core_algo ctrl)
    (take (Z.to_nat ((core_algo ctrl + 2) * 8)) regs) d.

Lemma aes_ctrl_spec ctx : key_ok (key_size ctx) (key ctx) →
  negb (Z.testbit (aes_ctrl ctx) 1) = enc ctx ∧ core_algo (aes_ctrl ctx) = key_size ctx.
Proof.
  intros (Ha & _). unfold aes_ctrl, core_algo.
  destruct Ha as [->|[->| ->]]; by destruct (enc ctx).
Qed.

(** C22: with a core that implements the cipher its control word selects, the
    hardware driver gives the same output as the software driver on every valid
    call: the control bits and the key registers are set up correctly. *)
Theorem arch_do_hw_aes_agrees key_regs ctx :
  driver_ok ctx → length key_regs = 32%nat →
  arch_do_hw_aes core key_regs ctx = msel_do_aes ctx.
Proof.
  intros Hok Hr. rewrite msel_do_aes_ok by done. pose proof (blocks_fit ctx Hok) as Hfit.
  pose proof Hok as (Hkey & Hb & Hm & Hl1 & Hl2). unfold arch_do_hw_aes. f_equal.
  assert ((data_len ctx + 15) / 16 = data_len ctx / 16)%nat as ->.
  { pose proof (Nat.div_mod_eq (data_len ctx) 16). rewrite Hm in *.
    replace (data_len ctx + 15)%nat with (15 + data_len ctx / 16 * 16)%nat by lia. by rewrite Nat.div_add. }
  destruct (aes_ctrl_spec ctx Hkey) as [He Ha]. pose proof Hkey as (Hal & Hkl & Hkb).
  set (n := Z.to_nat ((key_size ctx + 2) * 8)).
  assert (4 * Fips.Nk_of (key_size ctx) = n ∧ n ≤ 32)%nat as [Hn Hn32].
  { unfold n, Fips.Nk_of. lia. }
  rewrite msel_memcpy_blit by lia. set (regs := blit _ _ _).
  assert (take n regs = take n (key ctx)) as Hregs.
  { unfold regs. rewrite drop_0. rewrite <- (blit_take 0 (take n (key ctx)) key_regs) at 2.
    - rewrite length_take. f_equal. lia.
    - rewrite length_take. lia. }
  assert (length regs = 32%nat) as Hrl.
  { unfold regs. rewrite blit_length; [done|]. rewrite drop_0, length_take. lia. }
  erewrite for_loop_ext.
  2: { intros k out Hk. rewrite memcpy_block, core_spec by (done || lia || by apply block_at_ok; [done|lia]).
       rewrite He, Ha. fold n. rewrite Hregs.
       assert (aes_op (enc ctx) (key_size ctx) (take n (key ctx)) (block_at (din ctx) k) =
               aes_op (enc ctx) (key_size ctx) (key ctx) (block_at (din ctx) k)) as ->.
       { unfold aes_op. destruct (enc ctx); [apply aes_enc_take|apply aes_dec_take]; lia. }
       rewrite <- memcpy_block by lia. reflexivity. }
  rewrite block_loop; [unfold driver_result, ecb; by rewrite Hfit|lia|lia|].
  intros k Hk. apply aes_op_ok; [done|]. apply block_at_ok; [done|lia].
Qed.
End hardware_correct.

(** A core with that behaviour, for the witness. *)
Definition model_core (ctrl : Z) (regs d : list Z) : list Z :=
  aes_op (negb (Z.testbit ctrl 1)) (core_algo ctrl)
    (take (Z.to_nat ((core_algo ctrl + 2) * 8)) regs) d.

Lemma arch_do_hw_aes_agrees_witness :
  arch_do_hw_aes model_core (replicate 32 0) sample_call = msel_do_aes sample_call.
Proof.
  apply (arch_do_hw_aes_agrees model_core (λ _ _ _ _ _, eq_refl) (replicate 32 0) sample_call);
    [apply sample_call_ok|done].
Defined.

(** ** The library calls *)

Section library_correct.
Context (svc : aes_driver_ctx_t → msel_status * list Z) `{!AesService svc}.

Lemma aes_ecb_encrypt_ok ctx d out :
  key_ok (aes_algo ctx) (aes_key ctx) → block_ok d → length out = 16%nat →
  aes_ecb_encrypt svc ctx d out = aes_enc (aes_algo ctx) (aes_key ctx) d.
Proof. intros. unfold aes_ecb_encrypt. by rewrite aes_service. Qed.

Lemma aes_ecb_decrypt_ok ctx d out :
  key_ok (aes_algo ctx) (aes_key ctx) → block_ok d → length out = 16%nat →
  aes_ecb_decrypt svc ctx d out = aes_dec (aes_algo ctx) (aes_key ctx) d.
Proof. intros. unfold aes_ecb_decrypt. by rewrite aes_service. Qed.

(** The library's [aes_ecb_decrypt] inverts its [aes_ecb_encrypt] through
    any AES service, software or hardware, also when the output overwrites the
    input buffer. *)
Theorem aes_ecb_roundtrip ctx d out :
  key_ok (aes_algo ctx) (aes_key ctx) → block_ok d → length out = 16%nat →
  let c := aes_ecb_encrypt svc ctx d out in
  aes_ecb_decrypt svc ctx c out = d ∧ aes_ecb_decrypt svc ctx c c = d ∧
  aes_ecb_encrypt svc ctx d d = c.
Proof.
  intros Hk Hd Ho. cbv zeta. rewrite aes_ecb_encrypt_ok by done.
  pose proof (aes_enc_ok _ _ _ Hk Hd) as He.
  rewrite !aes_ecb_decrypt_ok by (done || apply He).
  rewrite aes_ecb_encrypt_ok by (done || apply Hd). by rewrite aes_dec_enc.
Qed.
End library_correct.

Lemma aes_ecb_roundtrip_witness :
  let ctx := aes_setkey AES_128 fips_key in
  let c := aes_ecb_encrypt msel_do_aes ctx fips_block (replicate 16 0) in
  aes_ecb_decrypt msel_do_aes ctx c (replicate 16 0) = fips_block ∧
  aes_ecb_decrypt msel_do_aes ctx c c = fips_block ∧
  aes_ecb_encrypt msel_do_aes ctx fips_block fips_block = c.
Proof.
  exact (aes_ecb_roundtrip msel_do_aes (aes_setkey AES_128 fips_key) fips_block (replicate 16 0)
    fips_key_ok fips_block_ok eq_refl).
Defined.
