(* ===== verification/Xts.v ===== *)
(** * AES-XTS

    [aes_xts_setkey], [aes_xts_encrypt] and [aes_xts_decrypt] of
    lib/crypto/aes_xts.c over any AES service, against IEEE 1619: the tweak is
    the encrypted sequence number, doubled in GF(2^128) after every block. *)

From S2P Require Import Prelude Msel Words Stdc SwAes Fips197 AesDriver.

Local Open Scope Z_scope.
Local Open Scope orp_scope.

(** ** Operations *)

Definition AES_XTS_128 : Z := 0.
Definition AES_XTS_192 : Z := 1.
Definition AES_XTS_256 : Z := 2.

Record aes_xts_ctx_t := AesXtsCtx { xts_algo : Z; t_ctx : aes_ctx_t; e_ctx : aes_ctx_t }.

Definition aes_xts_setkey (ctx : aes_xts_ctx_t) (algo : Z) (kptr : list Z) : aes_xts_ctx_t :=
  let set subalgo subkey_size :=
    AesXtsCtx algo (aes_setkey subalgo (drop subkey_size kptr)) (aes_setkey subalgo (drop 0 kptr)) in
  if algo =? AES_XTS_128 then set AES_128 (128 / 8)%nat
  else if algo =? AES_XTS_256 then set AES_256 (256 / 8)%nat
  else AesXtsCtx algo (t_ctx ctx) (e_ctx ctx).

Definition gf_mulx_reduce : list Z := [0x00; 0x87].

(** The little-endian bytes of the sequence number. *)
Definition xts_tweak (sequence : Z) : list Z :=
  (for_loop 0 16 (λ j st, let '(T, seq) := st in (<[j := u8 seq]> T, seq >>> 8))
    (replicate 16 0, sequence)).1.

(** The doubling of the tweak: a left shift with carry through the bytes, then
    the reduction by the carry out of the last byte. *)
Definition shift_step (j : nat) (st : list Z * Z) : list Z * Z :=
  let '(T, Cin) := st in
  let Cout := get T j >>> 7 in
  (<[j := u8 ((get T j <<< 1) .| Cin)]> T, Cout).

Definition xts_double (T : list Z) : list Z :=
  let '(T, Cout) := for_loop 0 16 shift_step (T, 0) in
  <[0%nat := get T 0 ^^ get gf_mulx_reduce (Z.to_nat Cout)]> T.

(** [for(j...) x[j] = src[off + j] ^ T[j]] and its use on the output. *)
Definition xor_in (src : list Z) (off : nat) (T : list Z) : list Z :=
  for_loop 0 16 (λ j x, <[j := get src (off + j) ^^ get T j]> x) (replicate 16 0).
Definition xor_out (dst : list Z) (off : nat) (x T : list Z) : list Z :=
  for_loop 0 16 (λ j d, <[(off + j)%nat := get x j ^^ get T j]> d) dst.

Section xts.
Context (svc : aes_driver_ctx_t → msel_status * list Z).

Definition xts_block (crypt : list Z → list Z → list Z) (data_in : list Z) (i : nat)
    (st : list Z * list Z) : list Z * list Z :=
  let '(T, out) := st in
  let x := xor_in data_in (16 * i) T in
  let x := crypt x x in
  let out := xor_out out (16 * i) x T in
  (xts_double T, out).

Definition aes_xts_encrypt (ctx : aes_xts_ctx_t) (data_in : list Z) (block_count : nat)
    (sequence : Z) (data_out : list Z) : list Z :=
  let T := xts_tweak sequence in
  let T := aes_ecb_encrypt svc (t_ctx ctx) T T in
  (for_loop 0 block_count (xts_block (aes_ecb_encrypt svc (e_ctx ctx)) data_in) (T, data_out)).2.

Definition aes_xts_decrypt (ctx : aes_xts_ctx_t) (data_in : list Z) (block_count : nat)
    (sequence : Z) (data_out : list Z) : list Z :=
  let T := xts_tweak sequence in
  let T := aes_ecb_encrypt svc (t_ctx ctx) T T in
  (for_loop 0 block_count (xts_block (aes_ecb_decrypt svc (e_ctx ctx)) data_in) (T, data_out)).2.
End xts.

(** ** The doubling is multiplication by the primitive element *)

(** Multiplication by x in GF(2)[x] / (x^128 + x^7 + x^2 + x + 1). *)
Definition mulx (t : Z) : Z :=
  if Z.testbit (2 * t) 128 then (2 * t) ^^ (2 ^ 128 + 0x87) else 2 * t.

Lemma shift_byte_carry x c : is_u8 x → c = 0 ∨ c = 1 →
  u8 ((x <<< 1) .| c) = 2 * x + c - 256 * (x >>> 7) ∧ (x >>> 7 = 0 ∨ x >>> 7 = 1).
Proof.
  unfold is_u8. intros Hx Hc. rewrite Z.shiftr_div_pow2 by lia.
  rewrite lor_shiftl_add by (change (2 ^ 1) with 2; lia). unfold u8.
  change (2 ^ 1) with 2. change (2 ^ 7) with 128. change (2 ^ 8) with 256 in *.
  Z.div_mod_to_equations. lia.
Qed.

(** After [n] bytes: the value has been doubled, up to the carry still pending
    and the bytes not yet shifted. *)
Lemma shift_loop T n : length T = 16%nat → bytes_ok T → (n ≤ 16)%nat →
  let '(T', c) := for_loop 0 n shift_step (T, 0) in
  length T' = 16%nat ∧ bytes_ok T' ∧ (c = 0 ∨ c = 1) ∧
  (∀ i, (n ≤ i)%nat → get T' i = get T i) ∧
  le_val T' + c * 2 ^ (8 * Z.of_nat n) = le_val T + le_val (take n T).
Proof.
  intros Hl Hb Hn. induction n as [|n IH]; [cbn; auto 10 with lia|].
  specialize (IH ltac:(lia)). rewrite for_loop_S_r. cbn [Nat.add].
  destruct (for_loop 0 n shift_step (T, 0)) as [T' c].
  destruct IH as (Hl' & Hb' & Hc & Hrest & Hval). unfold shift_step.
  destruct (shift_byte_carry (get T' n) c) as [Hx Hc']; [auto with width|done|].
  rewrite length_insert. split; [done|]. split; [apply bytes_ok_insert; [done|apply u8_range]|].
  split; [done|]. split.
  { intros i Hi. rewrite get_insert_ne by lia. apply Hrest. lia. }
  rewrite le_val_insert, Hx by lia. rewrite (Hrest n) by lia.
  rewrite (take_S_r T n (get T n)) by (apply lookup_get; lia). rewrite le_val_app, length_take, Nat.min_l by lia.
  cbn [le_val]. replace (8 * Z.of_nat (S n)) with (8 * Z.of_nat n + 8) by lia.
  rewrite Z.pow_add_r by lia. change (2 ^ 8) with 256. nia.
Qed.

Lemma le_val_xor_head T b : (0 < length T)%nat → bytes_ok T → is_u8 b →
  le_val (<[0%nat := get T 0 ^^ b]> T) = le_val T ^^ b.
Proof.
  intros Hl Hb Hk. destruct T as [|x T]; [simpl in Hl; lia|]. cbn [insert list_insert].
  change (get (x :: T) 0) with x. cbn [le_val]. apply Forall_inv in Hb.
  pose proof (field_lxor (le_val T) x 0 b 8 ltac:(lia) Hb Hk) as H.
  rewrite Z.mul_0_l, Z.add_0_l, Z.lxor_0_r in H. by rewrite H.
Qed.

Lemma block_range T : block_ok T → 0 <= le_val T < 2 ^ 128.
Proof. intros [Hl Hb]. pose proof (le_val_range T Hb). by rewrite Hl in H. Qed.

(** The byte loop of the code doubles the tweak in GF(2^128). *)
Lemma xts_double_mulx T : block_ok T →
  block_ok (xts_double T) ∧ le_val (xts_double T) = mulx (le_val T).
Proof.
  intros [Hl Hb]. pose proof (shift_loop T 16 Hl Hb ltac:(lia)) as H.
  unfold xts_double. destruct (for_loop 0 16 shift_step (T, 0)) as [T' c].
  destruct H as (Hl' & Hb' & Hc & _ & Hv). rewrite (take_ge T) in Hv by (rewrite Hl; done).
  change (8 * Z.of_nat 16) with 128 in Hv.
  assert (is_u8 (get gf_mulx_reduce (Z.to_nat c))) as Hr by by destruct Hc as [-> | ->].
  split.
  { split; [by rewrite length_insert|]. apply bytes_ok_insert; [done|].
    apply is_u8_lxor; auto with width. }
  rewrite le_val_xor_head by (done || lia).
  pose proof (block_range T' (conj Hl' Hb')) as HT'.
  assert (2 * le_val T = c * 2 ^ 128 + le_val T') as Heq by lia.
  unfold mulx. rewrite Heq, testbit_field by lia. cbn [Z.ltb Z.compare Pos.compare Pos.compare_cont].
  rewrite Z.sub_diag. destruct Hc as [-> | ->]; cbn [Z.testbit Z.odd].
  - change (get gf_mulx_reduce (Z.to_nat 0)) with 0. rewrite Z.lxor_0_r. lia.
  - change (get gf_mulx_reduce (Z.to_nat 1)) with 135.
    pose proof (field_lxor 1 (le_val T') 1 135 128 ltac:(lia) HT' ltac:(lia)) as H.
    change (2 ^ 128 + 135) with (1 * 2 ^ 128 + 135). rewrite H, Z.lxor_nilpotent. lia.
Qed.

(** The tweak bytes of a sequence number. *)
Lemma xts_tweak_ok sequence : is_u64 sequence →
  block_ok (xts_tweak sequence) ∧ le_val (xts_tweak sequence) = sequence.
Proof.
  intros Hs. unfold xts_tweak.
  set (f := λ (j : nat) (st : list Z * Z), let '(T, seq) := st in (<[j := u8 seq]> T, seq >>> 8)).
  assert (∀ n, (n ≤ 16)%nat → let r := for_loop 0 n f (replicate 16 0, sequence) in
    length r.1 = 16%nat ∧ bytes_ok r.1 ∧ (∀ i, (n ≤ i)%nat → get r.1 i = 0) ∧
    r.2 = sequence / 2 ^ (8 * Z.of_nat n) ∧
    le_val r.1 = sequence mod 2 ^ (8 * Z.of_nat n)) as Hloop.
  { induction n as [|n IH]; intros Hn; cbv zeta.
    - cbn [for_loop foldl seq fst snd]. rewrite Z.mod_1_r. repeat split; try done.
      + apply bytes_ok_replicate. unfold is_u8; lia.
      + intros i _. unfold get. destruct (replicate 16 0 !! i) as [y|] eqn:E; [|done].
        apply lookup_replicate in E as [-> _]. done.
      + change (8 * Z.of_nat 0) with 0. by rewrite Z.div_1_r.
    - specialize (IH ltac:(lia)). cbv zeta in IH. rewrite for_loop_S_r. cbn [Nat.add].
      destruct (for_loop 0 n f (replicate 16 0, sequence)) as [T s]. cbn [fst snd f] in *.
      destruct IH as (Hl & Hb & Hz & Hs2 & Hv).
      replace (8 * Z.of_nat (S n)) with (8 * Z.of_nat n + 8) by lia.
      rewrite Z.pow_add_r by lia. rewrite length_insert. split; [done|].
      split; [apply bytes_ok_insert; [done|apply u8_range]|]. split.
      { intros i Hi. rewrite get_insert_ne by lia. apply Hz. lia. }
      rewrite Z.shiftr_div_pow2, Hs2, Zdiv_Zdiv by lia. split; [done|].
      rewrite le_val_insert, Hz, Hv by lia. unfold u8.
      rewrite Z.rem_mul_r by lia. lia. }
  destruct (Hloop 16%nat ltac:(lia)) as (Hl & Hb & _ & _ & Hv). split; [by split|].
  rewrite Hv. apply Z.mod_small. unfold is_u64 in Hs. lia.
Qed.

Lemma xts_double_eq T :
  xts_double T = let r := for_loop 0 16 shift_step (T, 0) in
    <[0%nat := get r.1 0 ^^ get gf_mulx_reduce (Z.to_nat r.2)]> r.1.
Proof. unfold xts_double. by destruct (for_loop 0 16 shift_step (T, 0)). Qed.

#[global] Opaque xts_double xts_tweak.

(** ** The block loops *)

Lemma xor_in_spec src k T : (16 * (k + 1) ≤ length src)%nat → length T = 16%nat →
  xor_in src (16 * k) T = xor_list (block_at src k) T.
Proof.
  intros Hs HT. assert (length (block_at src k) = 16%nat) as Hbl
    by (unfold block_at; rewrite length_take, length_drop; lia).
  assert (length (xor_list (block_at src k) T) = 16%nat) as Hl by (rewrite length_xor_list; lia).
  transitivity (msel_memcpy (replicate 16 0) 0 (xor_list (block_at src k) T) 0 16).
  - apply for_loop_ext. intros i x Hi. cbn [Nat.add]. f_equal.
    rewrite get_xor_list by lia. f_equal. unfold block_at, get.
    rewrite lookup_take, decide_True, lookup_drop by lia. done.
  - rewrite msel_memcpy_blit by (rewrite ?length_replicate; lia). unfold blit.
    rewrite drop_0, (take_ge (xor_list _ _)) by lia.
    rewrite (drop_ge (replicate 16 0)) by (rewrite length_replicate; lia). apply app_nil_r.
Qed.

Lemma xor_out_spec dst off x T : length x = 16%nat → length T = 16%nat →
  xor_out dst off x T = msel_memcpy dst off (xor_list x T) 0 16.
Proof.
  intros Hx HT. apply for_loop_ext. intros i d Hi. cbn [Nat.add]. f_equal.
  by rewrite get_xor_list by lia.
Qed.

(** The tweak of block [i]. *)
Definition tweak_at (T : list Z) (i : nat) : list Z := Nat.iter i xts_double T.

Lemma tweak_at_S T i : tweak_at T (S i) = xts_double (tweak_at T i).
Proof. unfold tweak_at. cbn [Nat.iter]. reflexivity. Qed.

Lemma tweak_at_ok T i : block_ok T →
  block_ok (tweak_at T i) ∧ le_val (tweak_at T i) = Nat.iter i mulx (le_val T).
Proof.
  intros HT. induction i as [|i [IHb IHv]]; [done|]. unfold tweak_at in *. cbn [Nat.iter].
  destruct (xts_double_mulx _ IHb) as [Hb Hv]. split; [exact Hb|].
  etransitivity; [exact Hv|]. by rewrite IHv.
Qed.

(** One block of XTS with the block function [f]: whiten, apply, whiten. *)
Definition xex (f : list Z → list Z) (T x : list Z) : list Z := xor_list (f (xor_list x T)) T.

Section loop.
Context (crypt : list Z → list Z → list Z) (f : list Z → list Z)
  (Hcrypt : ∀ x, block_ok x → crypt x x = f x) (Hf : ∀ x, block_ok x → block_ok (f x)).

Lemma xts_loop inp T out n : block_ok T → bytes_ok inp →
  (16 * n ≤ length inp)%nat → (16 * n ≤ length out)%nat →
  for_loop 0 n (xts_block crypt inp) (T, out) =
  (tweak_at T n,
   concat (map (λ k, xex f (tweak_at T k) (block_at inp k)) (seq 0 n)) ++ drop (16 * n) out).
Proof.
  intros HT Hin Hli Hlo.
  assert (∀ k, (k < n)%nat → block_ok (xex f (tweak_at T k) (block_at inp k))) as Hok.
  { intros k Hk. destruct (tweak_at_ok T k HT) as [Ht _]. apply xor_block_ok; [|done].
    apply Hf, xor_block_ok; [|done]. apply block_at_ok; [done|lia]. }
  rewrite <- block_write_loop; [|exact Hlo|intros k Hk; apply Hok; lia].
  clear Hok. revert Hli Hlo. induction n as [|n IH]; intros Hli Hlo; [done|].
  rewrite !for_loop_S_r, IH by lia. cbn [Nat.add]. unfold xts_block.
  destruct (tweak_at_ok T n HT) as [Ht _].
  assert (block_ok (xor_list (block_at inp n) (tweak_at T n))) as Hx
    by (apply xor_block_ok; [apply block_at_ok; [done|lia]|done]).
  destruct Ht as [Htl Htb]. rewrite xor_in_spec by (lia || exact Htl). rewrite Hcrypt by exact Hx.
  rewrite xor_out_spec by first [apply Hf, Hx | exact Htl].
  rewrite tweak_at_S. unfold xex. reflexivity.
Qed.
End loop.

(** ** The mode of operation *)

(** Every block whitened with its tweak. *)
Definition xts_spec (f : list Z → list Z) (T0 : list Z) (l : list Z) (n : nat) : list Z :=
  concat (map (λ k, xex f (tweak_at T0 k) (block_at l k)) (seq 0 n)).

Definition xts_key_ok (ctx : aes_xts_ctx_t) : Prop :=
  key_ok (aes_algo (t_ctx ctx)) (aes_key (t_ctx ctx)) ∧
  key_ok (aes_algo (e_ctx ctx)) (aes_key (e_ctx ctx)).

Definition xts_T0 (ctx : aes_xts_ctx_t) (sequence : Z) : list Z :=
  aes_enc (aes_algo (t_ctx ctx)) (aes_key (t_ctx ctx)) (xts_tweak sequence).

Section xts_correct.
Context (svc : aes_driver_ctx_t → msel_status * list Z) `{!AesService svc}.
Context (ctx : aes_xts_ctx_t) (sequence : Z) (inp out : list Z) (n : nat).
Context (Hkey : xts_key_ok ctx) (Hseq : is_u64 sequence) (Hbytes : bytes_ok inp)
  (Hin : (16 * n ≤ length inp)%nat) (Hout : (16 * n ≤ length out)%nat).

Lemma T0_ok : block_ok (xts_T0 ctx sequence) ∧
  aes_ecb_encrypt svc (t_ctx ctx) (xts_tweak sequence) (xts_tweak sequence) = xts_T0 ctx sequence.
Proof.
  destruct (xts_tweak_ok sequence Hseq) as [Ht _].
  destruct Hkey as [Hk _]. split; [by apply aes_enc_ok|].
  by rewrite aes_ecb_encrypt_ok by (done || apply Ht).
Qed.

Lemma aes_xts_encrypt_ok :
  aes_xts_encrypt svc ctx inp n sequence out =
  xts_spec (aes_enc (aes_algo (e_ctx ctx)) (aes_key (e_ctx ctx))) (xts_T0 ctx sequence) inp n
  ++ drop (16 * n) out.
Proof.
  destruct T0_ok as [HT0 HT]. destruct Hkey as [_ Hk]. unfold aes_xts_encrypt. rewrite HT.
  rewrite (xts_loop _ (aes_enc (aes_algo (e_ctx ctx)) (aes_key (e_ctx ctx)))).
  - unfold xts_spec. cbn [snd]. reflexivity.
  - intros x Hx. apply aes_ecb_encrypt_ok; [exact _|exact Hk|exact Hx|apply Hx].
  - intros x Hx. apply aes_enc_ok; [exact Hk|exact Hx].
  - exact HT0.
  - exact Hbytes.
  - exact Hin.
  - exact Hout.
Qed.

Lemma aes_xts_decrypt_ok :
  aes_xts_decrypt svc ctx inp n sequence out =
  xts_spec (aes_dec (aes_algo (e_ctx ctx)) (aes_key (e_ctx ctx))) (xts_T0 ctx sequence) inp n
  ++ drop (16 * n) out.
Proof.
  destruct T0_ok as [HT0 HT]. destruct Hkey as [_ Hk]. unfold aes_xts_decrypt. rewrite HT.
  rewrite (xts_loop _ (aes_dec (aes_algo (e_ctx ctx)) (aes_key (e_ctx ctx)))).
  - unfold xts_spec. cbn [snd]. reflexivity.
  - intros x Hx. apply aes_ecb_decrypt_ok; [exact _|exact Hk|exact Hx|apply Hx].
  - intros x Hx. apply aes_dec_ok; [exact Hk|exact Hx].
  - exact HT0.
  - exact Hbytes.
  - exact Hin.
  - exact Hout.
Qed.
End xts_correct.

(** XTS-AES of IEEE 1619 on whole blocks: the tweak of block [k] is the
    encrypted sequence number times the [k]-th power of the primitive element,
    as 16 little-endian bytes. *)
Definition ieee_xts (f enc_t : list Z → list Z) (sequence : Z) (l : list Z) (n : nat) : list Z :=
  let T0 := le_val (enc_t (le_bytes 16 sequence)) in
  concat (map (λ k, xex f (le_bytes 16 (Nat.iter k mulx T0)) (block_at l k)) (seq 0 n)).

Lemma xts_spec_ieee f ctx sequence l n : xts_key_ok ctx → is_u64 sequence →
  xts_spec f (xts_T0 ctx sequence) l n =
  ieee_xts f (aes_enc (aes_algo (t_ctx ctx)) (aes_key (t_ctx ctx))) sequence l n.
Proof.
  intros [Hk _] Hs. destruct (xts_tweak_ok sequence Hs) as [Ht Htv].
  unfold ieee_xts, xts_spec. cbv zeta. f_equal. apply map_ext. intros k. f_equal.
  assert (le_bytes 16 sequence = xts_tweak sequence) as ->.
  { rewrite <- Htv at 1. destruct Ht as [Hl Hb]. unfold AES_BLOCK_SIZE in Hl.
    rewrite <- Hl. by apply le_bytes_val. }
  fold (xts_T0 ctx sequence).
  destruct (tweak_at_ok (xts_T0 ctx sequence) k) as [[Hl Hb] Hv].
  { by apply aes_enc_ok. }
  rewrite <- Hv. unfold AES_BLOCK_SIZE in Hl. rewrite <- Hl at 1. by rewrite le_bytes_val.
Qed.

(** C5: [aes_xts_encrypt] and [aes_xts_decrypt] perform XTS-AES as IEEE 1619
    defines it on whole blocks, with the tweak key and the data key of the
    context, over any AES service: the byte-wise carry loop is the
    multiplication by x in GF(2^128). *)
Theorem aes_xts_ieee1619 svc `{!AesService svc} ctx sequence inp out n :
  xts_key_ok ctx → is_u64 sequence → bytes_ok inp →
  (16 * n ≤ length inp)%nat → (16 * n ≤ length out)%nat →
  let E := aes_enc (aes_algo (e_ctx ctx)) (aes_key (e_ctx ctx)) in
  let D := aes_dec (aes_algo (e_ctx ctx)) (aes_key (e_ctx ctx)) in
  let Et := aes_enc (aes_algo (t_ctx ctx)) (aes_key (t_ctx ctx)) in
  aes_xts_encrypt svc ctx inp n sequence out = ieee_xts E Et sequence inp n ++ drop (16 * n) out ∧
  aes_xts_decrypt svc ctx inp n sequence out = ieee_xts D Et sequence inp n ++ drop (16 * n) out.
Proof.
  intros Hk Hs Hb Hi Ho. cbv zeta. rewrite <- !xts_spec_ieee by assumption.
  split; [by apply aes_xts_encrypt_ok|by apply aes_xts_decrypt_ok].
Qed.

Lemma concat_block_at (f : nat → list Z) n k r :
  (∀ i, (i < n)%nat → length (f i) = 16%nat) → (k < n)%nat →
  block_at (concat (map f (seq 0 n)) ++ r) k = f k.
Proof.
  intros Hf Hk. replace n with (k + S (n - k - 1))%nat by lia.
  rewrite seq_app, map_app, concat_app. cbn [seq map concat Nat.add]. rewrite <- !app_assoc.
  unfold block_at. rewrite drop_app_ge; rewrite concat_blocks_length by (intros; apply Hf; lia); [|lia].
  rewrite Nat.sub_diag, drop_0, take_app_le by (rewrite Hf; lia). apply take_ge. rewrite Hf; lia.
Qed.

Lemma concat_blocks l n : (16 * n ≤ length l)%nat →
  concat (map (block_at l) (seq 0 n)) = take (16 * n) l.
Proof.
  induction n as [|n IH]; intros Hl; [by rewrite Nat.mul_0_r|].
  rewrite seq_S, map_app, concat_app, IH by lia. cbn [map concat Nat.add]. rewrite app_nil_r.
  unfold block_at. rewrite take_take_drop. f_equal. lia.
Qed.

Lemma xex_inverse f g T x : block_ok T → block_ok x →
  (∀ y, block_ok y → block_ok (f y)) → (∀ y, block_ok y → g (f y) = y) →
  xex g T (xex f T x) = x.
Proof.
  intros HT Hx Hf Hg. unfold xex. pose proof (xor_block_ok _ _ Hx HT) as Hxt.
  destruct (Hf _ Hxt) as [Hl _]. destruct HT as [HlT _], Hx as [Hlx _].
  rewrite xor_list_cancel by congruence. rewrite Hg by done. apply xor_list_cancel. congruence.
Qed.

(** C23: decrypting with [aes_xts_decrypt] what [aes_xts_encrypt] produced with
    the same context and sequence number gives back the plaintext blocks. *)
Theorem aes_xts_roundtrip svc `{!AesService svc} ctx sequence inp out out' n :
  xts_key_ok ctx → is_u64 sequence → bytes_ok inp → bytes_ok out →
  (16 * n ≤ length inp)%nat → (16 * n ≤ length out)%nat → (16 * n ≤ length out')%nat →
  aes_xts_decrypt svc ctx (aes_xts_encrypt svc ctx inp n sequence out) n sequence out' =
  take (16 * n) inp ++ drop (16 * n) out'.
Proof.
  intros Hk Hs Hb Hbo Hi Ho Ho'. rewrite aes_xts_encrypt_ok by done.
  destruct (T0_ok svc ctx sequence Hk Hs) as [HT0 _]. pose proof Hk as [_ Hke].
  set (E := aes_enc _ _). set (T0 := xts_T0 ctx sequence) in *.
  assert (∀ y, block_ok y → block_ok (E y)) as HE by (intros; by apply aes_enc_ok).
  assert (∀ k, (k < n)%nat → block_ok (xex E (tweak_at T0 k) (block_at inp k))) as Hok.
  { intros k Hkn. destruct (tweak_at_ok T0 k HT0) as [Ht _]. apply xor_block_ok; [|done].
    apply HE, xor_block_ok; [apply block_at_ok; [done|lia]|done]. }
  assert (length (xts_spec E T0 inp n) = (16 * n)%nat) as Hcl.
  { apply concat_blocks_length. intros k Hkn. by apply Hok. }
  rewrite aes_xts_decrypt_ok; [|exact _|done|done| |rewrite length_app; lia|done].
  - f_equal. rewrite <- concat_blocks by done. unfold xts_spec. f_equal. apply map_ext_in.
    intros k Hkn%in_seq. rewrite concat_block_at by (intros; try apply Hok; lia).
    destruct (tweak_at_ok T0 k HT0) as [Ht _]. apply xex_inverse; [done| |done|].
    + apply block_at_ok; [done|lia].
    + intros y Hy. by apply aes_dec_enc.
  - apply bytes_ok_app. split; [|auto with width]. unfold xts_spec, bytes_ok.
    apply Forall_concat, Forall_map, Forall_forall. intros k Hkn%list_elem_of_In%in_seq.
    apply Hok. lia.
Qed.

Definition sample_xts : aes_xts_ctx_t :=
  aes_xts_setkey (AesXtsCtx 0 (AesCtx 0 []) (AesCtx 0 [])) AES_XTS_128 (fips_key ++ rev fips_key).

Lemma sample_xts_ok : xts_key_ok sample_xts.
Proof.
  split; (split; [by left|]); (split; [vm_compute; lia|]); by apply bytes_okb_ok.
Qed.

Definition sample_sector : list Z := fips_block ++ fips_key ++ fips_block.

Lemma sample_sector_ok : bytes_ok sample_sector.
Proof. by apply bytes_okb_ok. Qed.

Lemma aes_xts_ieee1619_witness :
  aes_xts_encrypt msel_do_aes sample_xts sample_sector 3 7 (replicate 48 0) =
  ieee_xts (aes_enc (aes_algo (e_ctx sample_xts)) (aes_key (e_ctx sample_xts)))
    (aes_enc (aes_algo (t_ctx sample_xts)) (aes_key (t_ctx sample_xts))) 7 sample_sector 3
  ++ drop (16 * 3) (replicate 48 0).
Proof.
  refine (proj1 (aes_xts_ieee1619 msel_do_aes sample_xts 7 sample_sector (replicate 48 0) 3
    sample_xts_ok _ sample_sector_ok _ _)).
  - unfold is_u64. lia.
  - change (length sample_sector) with 48%nat. lia.
  - rewrite length_replicate. lia.
Defined.

Lemma aes_xts_roundtrip_witness :
  aes_xts_decrypt msel_do_aes sample_xts
    (aes_xts_encrypt msel_do_aes sample_xts sample_sector 3 7 (replicate 48 0)) 3 7 (replicate 48 1)
  = take (16 * 3) sample_sector ++ drop (16 * 3) (replicate 48 1).
Proof.
  refine (aes_xts_roundtrip msel_do_aes sample_xts 7 sample_sector (replicate 48 0)
    (replicate 48 1) 3 sample_xts_ok _ sample_sector_ok _ _ _ _).
  - unfold is_u64. lia.
  - apply bytes_ok_replicate. unfold is_u8. lia.
  - change (length sample_sector) with 48%nat. lia.
  - rewrite length_replicate. lia.
  - rewrite length_replicate. lia.
Defined.
