(* ===== verification/Gcm.v ===== *)
(** * AES-GCM

    [gcm_inc_ctr], [gf_mul], [gcm_ghash_add], [aes_gcm_setkey], [aes_gcm_aad],
    [aes_gcm_encrypt], [aes_gcm_decrypt] and [aes_gcm_final] of
    lib/crypto/aes_gcm.c over any AES service.  A buffer passed by pointer is a
    list; the output buffer is returned. *)

From S2P Require Import Prelude Msel Words Stdc SwAes Fips197 AesDriver Xts.

Local Open Scope Z_scope.
Local Open Scope orp_scope.

(** ** Operations *)

Definition AES_GCM_128 : Z := 0.
Definition AES_GCM_192 : Z := 1.
Definition AES_GCM_256 : Z := 2.

(** [for (i = 15, c = 1; i < AES_BLOCK_SIZE; i--)], ended by unsigned wrap. *)
Definition inc_step (k : nat) (st : list Z * Z) : list Z * Z :=
  let '(a, c) := st in
  let i := (15 - k)%nat in
  let a := <[i := u8 (get a i + c)]> a in
  (a, c .& (if get a i =? 0 then 1 else 0)).
Definition gcm_inc_ctr (a : list Z) : list Z := (for_loop 0 16 inc_step (a, 1)).1.

Definition gf_mul_reduce : list Z := [0x00; 0xe1].

(** [for (k...) x[k] ^= v[k]]. *)
Definition xor_into (x v : list Z) (n : nat) : list Z :=
  for_loop 0 n (λ k x, <[k := get x k ^^ get v k]> x) x.

(** The right shift of [v[1]] with its reduction. *)
Definition rshift_step (k : nat) (st : list Z * Z) : list Z * Z :=
  let '(v, Cin) := st in
  let Cout := get v k .& 1 in
  (<[k := (get v k >>> 1) .| u8 (Cin <<< 7)]> v, Cout).
Definition gf_shift (v : list Z) : list Z :=
  let '(v, Cin) := for_loop 0 16 rshift_step (v, 0) in
  <[0%nat := get v 0 ^^ get gf_mul_reduce (Z.to_nat Cin)]> v.

(** The body of the inner loop over the bits of [y[i]]; the state is
    [(x, v[1], t)]. *)
Definition gf_mul_bit (j : nat) (st : list Z * list Z * Z) : list Z * list Z * Z :=
  let '(x, v1, t) := st in
  let s := t >>> 7 in
  let t := u8 (t <<< 1) in
  let x := xor_into x (if s =? 0 then replicate 16 0 else v1) 16 in
  (x, gf_shift v1, t).

Definition gf_mul (x y : list Z) : list Z :=
  let v1 := msel_memcpy (replicate 16 0) 0 x 0 16 in
  let x := msel_memset x 0 0 16 in
  let '(x, _) := for_loop 0 16 (λ i st,
    let '(x, v1) := st in
    let '(x, v1, _) := for_loop 0 8 gf_mul_bit (x, v1, get y i) in
    (x, v1)) (x, v1) in
  x.

Record aes_gcm_ctx_t := AesGcmCtx {
  gcm_algo : Z;
  aad_len : Z;
  input_len : Z;
  tag : list Z;
  hkey : list Z;
  iv : list Z;
  civ : list Z;
  gcm_e_ctx : aes_ctx_t
}.

Definition set_tag (ctx : aes_gcm_ctx_t) (t : list Z) : aes_gcm_ctx_t :=
  AesGcmCtx (gcm_algo ctx) (aad_len ctx) (input_len ctx) t (hkey ctx) (iv ctx) (civ ctx) (gcm_e_ctx ctx).
Definition set_civ (ctx : aes_gcm_ctx_t) (c : list Z) : aes_gcm_ctx_t :=
  AesGcmCtx (gcm_algo ctx) (aad_len ctx) (input_len ctx) (tag ctx) (hkey ctx) (iv ctx) c (gcm_e_ctx ctx).
Definition add_aad_len (ctx : aes_gcm_ctx_t) (n : Z) : aes_gcm_ctx_t :=
  AesGcmCtx (gcm_algo ctx) (u64 (aad_len ctx + n)) (input_len ctx) (tag ctx) (hkey ctx) (iv ctx) (civ ctx)
    (gcm_e_ctx ctx).
Definition add_input_len (ctx : aes_gcm_ctx_t) (n : Z) : aes_gcm_ctx_t :=
  AesGcmCtx (gcm_algo ctx) (aad_len ctx) (u64 (input_len ctx + n)) (tag ctx) (hkey ctx) (iv ctx) (civ ctx)
    (gcm_e_ctx ctx).

Definition gcm_ghash_add (ctx : aes_gcm_ctx_t) (x : list Z) : aes_gcm_ctx_t :=
  set_tag ctx (gf_mul (xor_into (tag ctx) x 16) (hkey ctx)).

(** [bit_len] xored into the low bytes of the counter block, last byte first. *)
Definition xor_bit_len (b : list Z) (bit_len : Z) : list Z :=
  (for_loop 0 16 (λ k st,
    let '(b, n) := st in
    let i := (15 - k)%nat in
    (<[i := u8 (get b i ^^ n)]> b, n >>> 8)) (b, bit_len)).1.

(** The counter block of an IV that is not 12 bytes long. *)
Definition hash_iv (h ivp : list Z) (iv_len : nat) : list Z :=
  let bit_len := u32 (Z.of_nat iv_len <<< 3) in
  let b := for_loop 0 (iv_len / 16) (λ k b,
    gf_mul (xor_into b (drop (16 * k) ivp) 16) h) (replicate 16 0) in
  let rest := (iv_len mod 16)%nat in
  let b := if (rest =? 0)%nat then b
           else gf_mul (xor_into b (drop (16 * (iv_len / 16)) ivp) rest) h in
  gf_mul (xor_bit_len b bit_len) h.

Section gcm.
Context (svc : aes_driver_ctx_t → msel_status * list Z).

Definition aes_gcm_setkey (algo : Z) (key ivp : list Z) (iv_len : nat) : aes_gcm_ctx_t :=
  let zero := replicate 16 0 in
  let ctx := AesGcmCtx algo 0 0 zero zero zero zero (AesCtx 0 []) in
  if (algo =? AES_GCM_128) || (algo =? AES_GCM_192) || (algo =? AES_GCM_256) then
    let subalgo :=
      if algo =? AES_GCM_128 then AES_128 else if algo =? AES_GCM_192 then AES_192 else AES_256 in
    let e := aes_setkey subalgo key in
    let h := aes_ecb_encrypt svc e zero zero in
    let iv :=
      if (iv_len =? 12)%nat then upd (msel_memcpy zero 0 ivp 0 12) 15 1
      else hash_iv h ivp iv_len in
    AesGcmCtx algo 0 0 zero h iv (msel_memcpy zero 0 iv 0 16) e
  else ctx.

Definition aes_gcm_aad (ctx : aes_gcm_ctx_t) (data_in : list Z) (data_len : nat) : aes_gcm_ctx_t :=
  let ctx := add_aad_len ctx (Z.of_nat data_len) in
  let n := (data_len / 16)%nat in
  let ctx := for_loop 0 n (λ k ctx, gcm_ghash_add ctx (drop (16 * k) data_in)) ctx in
  let rest := (data_len mod 16)%nat in
  if (rest =? 0)%nat then ctx
  else
    let x := msel_memset (replicate 16 0) 0 0 16 in
    let x := msel_memcpy x 0 data_in (16 * n) rest in
    gcm_ghash_add ctx x.

(** One whole block of [aes_gcm_encrypt]. *)
Definition enc_block (data_in : list Z) (k : nat) (st : aes_gcm_ctx_t * list Z)
  : aes_gcm_ctx_t * list Z :=
  let '(ctx, out) := st in
  let ctx := set_civ ctx (gcm_inc_ctr (civ ctx)) in
  let x := aes_ecb_encrypt svc (gcm_e_ctx ctx) (civ ctx) (replicate 16 0) in
  let out := for_loop 0 16 (λ i out,
    <[(16 * k + i)%nat := get data_in (16 * k + i) ^^ get x i]> out) out in
  (gcm_ghash_add ctx (drop (16 * k) out), out).

Definition aes_gcm_encrypt (ctx : aes_gcm_ctx_t) (data_in : list Z) (data_len : nat)
    (data_out : list Z) : aes_gcm_ctx_t * list Z :=
  let ctx := add_input_len ctx (Z.of_nat data_len) in
  let n := (data_len / 16)%nat in
  let '(ctx, out) := for_loop 0 n (enc_block data_in) (ctx, data_out) in
  let rest := (data_len mod 16)%nat in
  if (rest =? 0)%nat then (ctx, out)
  else
    let ctx := set_civ ctx (gcm_inc_ctr (civ ctx)) in
    let x := aes_ecb_encrypt svc (gcm_e_ctx ctx) (civ ctx) (replicate 16 0) in
    let x := for_loop 0 rest (λ i x, <[i := get x i ^^ get data_in (16 * n + i)]> x) x in
    let x := for_loop rest (16 - rest) (λ i x, <[i := 0]> x) x in
    let ctx := gcm_ghash_add ctx x in
    (ctx, for_loop 0 rest (λ i out, <[(16 * n + i)%nat := get x i]> out) out).

Definition dec_block (data_in : list Z) (k : nat) (st : aes_gcm_ctx_t * list Z)
  : aes_gcm_ctx_t * list Z :=
  let '(ctx, out) := st in
  let ctx := set_civ ctx (gcm_inc_ctr (civ ctx)) in
  let x := aes_ecb_encrypt svc (gcm_e_ctx ctx) (civ ctx) (replicate 16 0) in
  let ctx := gcm_ghash_add ctx (drop (16 * k) data_in) in
  let out := for_loop 0 16 (λ i out,
    <[(16 * k + i)%nat := get x i ^^ get data_in (16 * k + i)]> out) out in
  (ctx, out).

Definition aes_gcm_decrypt (ctx : aes_gcm_ctx_t) (data_in : list Z) (data_len : nat)
    (data_out : list Z) : aes_gcm_ctx_t * list Z :=
  let ctx := add_input_len ctx (Z.of_nat data_len) in
  let n := (data_len / 16)%nat in
  let '(ctx, out) := for_loop 0 n (dec_block data_in) (ctx, data_out) in
  let rest := (data_len mod 16)%nat in
  if (rest =? 0)%nat then (ctx, out)
  else
    let ctx := set_civ ctx (gcm_inc_ctr (civ ctx)) in
    let x := for_loop 0 rest (λ i x, <[i := get data_in (16 * n + i)]> x) (replicate 16 0) in
    let x := for_loop rest (16 - rest) (λ i x, <[i := 0]> x) x in
    let ctx := gcm_ghash_add ctx x in
    let x := aes_ecb_encrypt svc (gcm_e_ctx ctx) (civ ctx) x in
    (ctx, for_loop 0 rest (λ i out, <[(16 * n + i)%nat := get data_in (16 * n + i) ^^ get x i]> out) out).

(** The length block: two 64-bit bit counts, most significant byte first. *)
Definition len_block (aad_len input_len : Z) : list Z :=
  let x := put_be64 0 (u64 (aad_len <<< 3)) (replicate 16 0) in
  put_be64 8 (u64 (input_len <<< 3)) x.

Definition aes_gcm_final (ctx : aes_gcm_ctx_t) : aes_gcm_ctx_t * list Z :=
  let x := len_block (aad_len ctx) (input_len ctx) in
  let ctx := gcm_ghash_add ctx x in
  let x := aes_ecb_encrypt svc (gcm_e_ctx ctx) (iv ctx) x in
  (ctx, for_loop 0 16 (λ i t, <[i := get (tag ctx) i ^^ get x i]> t) (replicate 16 0)).
End gcm.

(** ** The counter *)

Lemma inc_byte x c : is_u8 x → c = 0 ∨ c = 1 →
  ∃ d, (d = 0 ∨ d = 1) ∧ u8 (x + c) = x + c - 256 * d ∧
    c .& (if u8 (x + c) =? 0 then 1 else 0) = d.
Proof.
  unfold is_u8, u8. intros Hx Hc. exists ((x + c) / 2 ^ 8).
  split; [Z.div_mod_to_equations; lia|]. split; [Z.div_mod_to_equations; lia|].
  destruct Hc as [-> | ->].
  - rewrite Z.land_0_l, Z.add_0_r. Z.div_mod_to_equations; lia.
  - destruct (Z.eqb_spec ((x + 1) mod 2 ^ 8) 0); [rewrite Z.land_diag|rewrite Z.land_0_r];
      change (2 ^ 8) with 256 in *; Z.div_mod_to_equations; lia.
Qed.

Lemma inc_loop a n : block_ok a → (n ≤ 16)%nat →
  let '(a', c) := for_loop 0 n inc_step (a, 1) in
  block_ok a' ∧ (c = 0 ∨ c = 1) ∧
  be_val a' = be_val a + 1 - c * 2 ^ (8 * Z.of_nat n).
Proof.
  intros [Hl Hb] Hn. induction n as [|n IH]; [cbn; split; [done|]; split; [auto|lia]|].
  specialize (IH ltac:(lia)). rewrite for_loop_S_r. cbn [Nat.add].
  destruct (for_loop 0 n inc_step (a, 1)) as [a' c]. destruct IH as ([Hl' Hb'] & Hc & Hv).
  unfold inc_step. unfold AES_BLOCK_SIZE in Hl'.
  destruct (inc_byte (get a' (15 - n)) c) as (d & Hd & Hx & Hcd); [auto with width|done|].
  rewrite get_insert_eq by lia. rewrite Hcd. split; [|split; [done|]].
  - split; [by rewrite length_insert|]. apply bytes_ok_insert; [done|apply u8_range].
  - rewrite be_val_insert, Hx, Hv by lia. rewrite Hl'.
    replace (16 - 1 - (15 - n))%nat with n by lia.
    replace (8 * Z.of_nat (S n)) with (8 * Z.of_nat n + 8) by lia. rewrite Z.pow_add_r by lia.
    change (2 ^ 8) with 256. ring.
Qed.

(** [gcm_inc_ctr] adds one to the 128-bit big-endian counter, modulo 2^128. *)
Lemma gcm_inc_ctr_spec a : block_ok a →
  block_ok (gcm_inc_ctr a) ∧ be_val (gcm_inc_ctr a) = (be_val a + 1) mod 2 ^ 128.
Proof.
  intros Ha. pose proof (inc_loop a 16 Ha ltac:(lia)) as H. unfold gcm_inc_ctr.
  destruct (for_loop 0 16 inc_step (a, 1)) as [a' c]. destruct H as (Ha' & Hc & Hv).
  split; [done|]. cbn [fst]. change (8 * Z.of_nat 16) with 128 in Hv.
  pose proof (be_val_range a' ltac:(apply Ha')) as Hr. rewrite (proj1 Ha') in Hr.
  change (8 * Z.of_nat AES_BLOCK_SIZE) with 128 in Hr.
  apply (Z.mod_unique _ _ c); lia.
Qed.

(** ** The field

    GCM numbers the bits of a byte from the most significant one: reversing each
    byte turns a block into the little-endian polynomial that XTS uses, and the
    right shift of [gf_mul] into the doubling of XTS. *)

Definition rev8 (b : Z) : Z :=
  foldl (λ acc i, acc + (if Z.testbit b i then 2 ^ (7 - i) else 0)) 0 [0; 1; 2; 3; 4; 5; 6; 7].

(** The polynomial of a block. *)
Definition gcm_poly (l : list Z) : Z := le_val (map rev8 l).

Lemma rev8_range b : is_u8 b → is_u8 (rev8 b).
Proof.
  intros Hb. assert (((0 <=? rev8 b) && (rev8 b <? 256)) = true) as H.
  { apply (forall_byte (λ b, (0 <=? rev8 b) && (rev8 b <? 256))); [by vm_compute|done]. }
  bool_to_prop. unfold is_u8. lia.
Qed.

Lemma rev8_involutive b : is_u8 b → rev8 (rev8 b) = b.
Proof.
  intros. apply Z.eqb_eq. apply (forall_byte (λ b, rev8 (rev8 b) =? b)); [by vm_compute|done].
Qed.

Lemma rev8_testbit b i : is_u8 b → 0 <= i < 8 → Z.testbit (rev8 b) i = Z.testbit b (7 - i).
Proof.
  intros Hb Hi. apply eqb_prop.
  assert (forallb (λ i, eqb (Z.testbit (rev8 b) i) (Z.testbit b (7 - i))) [0; 1; 2; 3; 4; 5; 6; 7]
    = true) as H.
  { apply (forall_byte (λ b, forallb (λ i, eqb (Z.testbit (rev8 b) i) (Z.testbit b (7 - i)))
      [0; 1; 2; 3; 4; 5; 6; 7])); [by vm_compute|done]. }
  rewrite forallb_forall in H. apply H. simpl. lia.
Qed.

Lemma rev8_lxor a b : is_u8 a → is_u8 b → rev8 (a ^^ b) = rev8 a ^^ rev8 b.
Proof.
  intros Ha Hb. pose proof (is_u8_lxor _ _ Ha Hb) as Hab. apply Z.bits_inj'. intros i Hi.
  destruct (Z.lt_ge_cases i 8).
  - rewrite Z.lxor_spec, !rev8_testbit by (done || lia). by rewrite Z.lxor_spec.
  - rewrite !(testbit_above 8) by (try apply is_u8_lxor; try apply rev8_range; done). done.
Qed.

Lemma rev8_rshift x c : is_u8 x → c = 0 ∨ c = 1 →
  rev8 ((x >>> 1) .| u8 (c <<< 7)) = u8 ((rev8 x <<< 1) .| c) ∧
  x .& 1 = rev8 x >>> 7 ∧ is_u8 ((x >>> 1) .| u8 (c <<< 7)).
Proof.
  intros Hx Hc.
  pose (P c x := (rev8 ((x >>> 1) .| u8 (c <<< 7)) =? u8 ((rev8 x <<< 1) .| c)) &&
    (x .& 1 =? rev8 x >>> 7) && (0 <=? (x >>> 1) .| u8 (c <<< 7)) && ((x >>> 1) .| u8 (c <<< 7) <? 256)).
  assert (P c x = true) as H.
  { destruct Hc as [-> | ->]; apply (forall_byte _); try done; by vm_compute. }
  unfold P in H. bool_to_prop. unfold is_u8. lia.
Qed.

Lemma get_map_rev8 l i : get (map rev8 l) i = rev8 (get l i).
Proof. unfold get. rewrite list_lookup_fmap. by destruct (l !! i). Qed.

Lemma map_rev8_ok l : block_ok l → block_ok (map rev8 l).
Proof.
  intros [Hl Hb]. split; [by rewrite length_map|]. apply Forall_map.
  eapply Forall_impl; [done|]. apply rev8_range.
Qed.

Lemma map_insert_rev8 l i x : map rev8 (<[i := x]> l) = <[i := rev8 x]> (map rev8 l).
Proof. apply list_fmap_insert. Qed.

Lemma rshift_loop v n : block_ok v → (n ≤ 16)%nat →
  let r := for_loop 0 n rshift_step (v, 0) in
  block_ok r.1 ∧ (r.2 = 0 ∨ r.2 = 1) ∧
  for_loop 0 n shift_step (map rev8 v, 0) = (map rev8 r.1, r.2).
Proof.
  intros Hv Hn. cbv zeta. induction n as [|n IH]; [cbn; auto|].
  specialize (IH ltac:(lia)). rewrite !for_loop_S_r. cbn [Nat.add].
  destruct (for_loop 0 n rshift_step (v, 0)) as [v' c]. cbn [fst snd] in IH.
  destruct IH as ([Hl Hb] & Hc & ->). unfold rshift_step, shift_step. cbn [fst snd].
  destruct (rev8_rshift (get v' n) c) as (Hr & Hout & Hok); [auto with width|done|].
  rewrite map_insert_rev8, Hr, get_map_rev8, Hout. split; [|split; [|done]].
  - split; [by rewrite length_insert|]. by apply bytes_ok_insert.
  - rewrite <- Hout. assert (0 <= get v' n .& 1 < 2 ^ 1); [|lia].
    rewrite Z.land_comm. by apply land_bound_l.
Qed.

Lemma gf_shift_spec v : block_ok v →
  block_ok (gf_shift v) ∧ map rev8 (gf_shift v) = xts_double (map rev8 v).
Proof.
  intros Hv. destruct (rshift_loop v 16 Hv ltac:(lia)) as ([Hl Hb] & Hc & Hs).
  unfold gf_shift. rewrite xts_double_eq, Hs.
  destruct (for_loop 0 16 rshift_step (v, 0)) as [v' c]. cbn [fst snd] in *.
  assert (is_u8 (get gf_mul_reduce (Z.to_nat c)) ∧
    rev8 (get gf_mul_reduce (Z.to_nat c)) = get gf_mulx_reduce (Z.to_nat c)) as [Hr Hrev].
  { destruct Hc as [-> | ->]; split; try done; unfold is_u8; cbn; lia. }
  split.
  - split; [by rewrite length_insert|]. apply bytes_ok_insert; [done|]. apply is_u8_lxor; auto with width.
  - rewrite map_insert_rev8, rev8_lxor, Hrev, get_map_rev8 by auto with width. done.
Qed.

Lemma xor_into_spec x v n : (n ≤ length x)%nat → (n ≤ length v)%nat →
  xor_into x v n = xor_list (take n x) (take n v) ++ drop n x.
Proof.
  intros Hx Hv. unfold xor_into. induction n as [|n IH]; [done|].
  rewrite for_loop_S_r, IH by lia. cbn [Nat.add].
  destruct (lookup_lt_is_Some_2 x n) as [a Ha]; [lia|].
  destruct (lookup_lt_is_Some_2 v n) as [b Hb]; [lia|].
  rewrite (take_S_r _ _ _ Ha), (take_S_r _ _ _ Hb), (drop_S _ _ _ Ha).
  assert (length (xor_list (take n x) (take n v)) = n) as Hl
    by (rewrite length_xor_list; rewrite !length_take; lia).
  rewrite get_app_r by lia. rewrite insert_app_r_alt by lia. rewrite Hl, Nat.sub_diag.
  cbn [insert list_insert]. unfold get at 1. cbn [lookup list_lookup default from_option].
  unfold get. rewrite Hb. cbn [default from_option].
  unfold xor_list. rewrite zip_with_app by (rewrite !length_take; lia).
  rewrite <- app_assoc. done.
Qed.

Lemma xor_into_block x v : length x = 16%nat → (16 ≤ length v)%nat →
  xor_into x v 16 = xor_list x (take 16 v).
Proof.
  intros Hx Hv. rewrite xor_into_spec by lia. rewrite (take_ge x), (drop_ge x) by lia. apply app_nil_r.
Qed.

Lemma gcm_poly_xor a b : block_ok a → block_ok b →
  gcm_poly (xor_list a b) = gcm_poly a ^^ gcm_poly b.
Proof.
  intros [Ha Hba] [Hb Hbb]. unfold gcm_poly.
  assert (map rev8 (xor_list a b) = xor_list (map rev8 a) (map rev8 b)) as ->.
  { apply list_eq_get; [|intros i _].
    - rewrite length_map, !length_xor_list; rewrite ?length_map; congruence.
    - rewrite get_map_rev8, !get_xor_list by (rewrite ?length_map; congruence).
      rewrite !get_map_rev8. apply rev8_lxor; auto with width. }
  apply le_val_xor; [by apply map_rev8_ok..|rewrite !length_map; congruence].
Qed.

(** The product of the field, summed over the bits of the second factor. *)
Definition gf128_mul (a b : Z) : Z :=
  for_loop 0 128 (λ m acc, if Z.testbit b (Z.of_nat m) then acc ^^ Nat.iter m mulx a else acc) 0.

(** One bit of the multiplication, with the bit given. *)
Definition flat_step (y : list Z) (m : nat) (st : list Z * list Z) : list Z * list Z :=
  let '(x, v) := st in
  (xor_list x (if Z.testbit (gcm_poly y) (Z.of_nat m) then v else replicate 16 0), gf_shift v).

Lemma top_bit b j : is_u8 b → (j < 8)%nat →
  u8 (b <<< Z.of_nat j) >>> 7 = (if Z.testbit b (7 - Z.of_nat j) then 1 else 0).
Proof.
  intros Hb Hj. apply Z.bits_inj'. intros n Hn.
  unfold u8. rewrite Z.shiftr_spec by lia.
  destruct (decide (n = 0)) as [->|].
  - rewrite Z.mod_pow2_bits_low, Z.shiftl_spec by lia.
    replace (0 + 7 - Z.of_nat j) with (7 - Z.of_nat j) by lia. by destruct (Z.testbit b _).
  - rewrite Z.mod_pow2_bits_high by lia.
    destruct (Z.testbit b _); [|by rewrite Z.bits_0]. symmetry. apply (testbit_above 1); lia.
Qed.

Lemma shift_again b j : u8 (u8 (b <<< Z.of_nat j) <<< 1) = u8 (b <<< Z.of_nat (S j)).
Proof.
  unfold u8. rewrite !Z.shiftl_mul_pow2 by lia. rewrite Zmult_mod_idemp_l.
  rewrite <- Z.mul_assoc, <- Z.pow_add_r by lia. do 3 f_equal. lia.
Qed.

Lemma inner_loop y i x v n : block_ok y → (i < 16)%nat → length x = 16%nat → block_ok v → (n ≤ 8)%nat →
  let r := for_loop 0 n (λ j st, flat_step y (8 * i + j) st) (x, v) in
  length r.1 = 16%nat ∧ block_ok r.2 ∧
  for_loop 0 n gf_mul_bit (x, v, get y i) = (r.1, r.2, u8 (get y i <<< Z.of_nat n)).
Proof.
  intros [Hyl Hyb] Hi Hx Hv Hn. cbv zeta. pose proof (get_u8 y i Hyb) as Hyi.
  induction n as [|n IH]; [cbn; rewrite Z.shiftl_0_r, u8_id by done; done|].
  specialize (IH ltac:(lia)). rewrite !for_loop_S_r. cbn [Nat.add].
  destruct (for_loop 0 n _ (x, v)) as [x' v']. cbn [fst snd] in IH. destruct IH as (Hx' & Hv' & ->).
  unfold gf_mul_bit, flat_step. cbn [fst snd]. rewrite top_bit, shift_again by (done || lia).
  assert (Z.testbit (gcm_poly y) (Z.of_nat (8 * i + n)) = Z.testbit (get y i) (7 - Z.of_nat n)) as ->.
  { unfold gcm_poly. replace (Z.of_nat (8 * i + n)) with (8 * Z.of_nat i + Z.of_nat n) by lia.
    rewrite le_val_testbit, get_map_rev8, rev8_testbit; [done|done|lia| |lia].
    apply map_rev8_ok. by split. }
  destruct (Z.testbit (get y i) (7 - Z.of_nat n)); cbn [Z.eqb].
  - rewrite xor_into_block by (rewrite ?(proj1 Hv'); unfold AES_BLOCK_SIZE; lia).
    rewrite take_ge by (rewrite (proj1 Hv'); done).
    rewrite length_xor_list by (rewrite (proj1 Hv'); done). split; [done|]. split; [|done].
    by apply gf_shift_spec.
  - rewrite xor_into_block by (rewrite ?length_replicate; lia). rewrite take_ge by done.
    rewrite length_xor_list by (rewrite length_replicate; done). split; [done|]. split; [|done].
    by apply gf_shift_spec.
Qed.

Lemma outer_loop y x v n : block_ok y → (n ≤ 16)%nat → length x = 16%nat → block_ok v →
  let r := for_loop 0 n (λ i st, for_loop 0 8 (λ j st, flat_step y (8 * i + j) st) st) (x, v) in
  length r.1 = 16%nat ∧ block_ok r.2 ∧
  for_loop 0 n (λ i st, let '(x, v1) := st in
    let '(x, v1, _) := for_loop 0 8 gf_mul_bit (x, v1, get y i) in (x, v1)) (x, v) = r.
Proof.
  intros Hy Hn Hx Hv. cbv zeta. induction n as [|n IH]; [done|].
  specialize (IH ltac:(lia)). rewrite !(for_loop_S_r 0 n). cbn [Nat.add].
  destruct (for_loop 0 n (λ i st, for_loop 0 8 _ st) (x, v)) as [x' v']. cbn [fst snd] in IH.
  destruct IH as (Hx' & Hv' & ->).
  destruct (inner_loop y n x' v' 8 Hy ltac:(lia) Hx' Hv' ltac:(lia)) as (H1 & H2 & ->).
  revert H1 H2. by destruct (for_loop 0 8 (λ j st, flat_step y (8 * n + j) st) (x', v')).
Qed.

Lemma zero_block_poly : gcm_poly (replicate 16 0) = 0 ∧ block_ok (replicate 16 0).
Proof. split; [by vm_compute|]. split; [done|]. apply bytes_ok_replicate. unfold is_u8; lia. Qed.

Lemma flat_loop y v n : block_ok y → block_ok v →
  let r := for_loop 0 n (flat_step y) (replicate 16 0, v) in
  block_ok r.1 ∧ block_ok r.2 ∧ gcm_poly r.2 = Nat.iter n mulx (gcm_poly v) ∧
  gcm_poly r.1 = for_loop 0 n (λ m acc, if Z.testbit (gcm_poly y) (Z.of_nat m)
                   then acc ^^ Nat.iter m mulx (gcm_poly v) else acc) 0.
Proof.
  intros Hy Hv. cbv zeta. destruct zero_block_poly as [Hz0 Hzb].
  induction n as [|n IH]; [done|]. rewrite !for_loop_S_r. cbn [Nat.add].
  destruct (for_loop 0 n (flat_step y) _) as [x' v']. cbn [fst snd] in IH.
  destruct IH as (Hx' & Hv' & Hpv & Hpx). unfold flat_step. cbn [fst snd].
  destruct (gf_shift_spec v' Hv') as [Hs Hr].
  assert (block_ok (if Z.testbit (gcm_poly y) (Z.of_nat n) then v' else replicate 16 0)) as Hc
    by by destruct (Z.testbit _ _).
  split; [by apply xor_block_ok|]. split; [done|]. split.
  - unfold gcm_poly at 1. rewrite Hr. destruct (xts_double_mulx (map rev8 v')) as [_ ->];
      [by apply map_rev8_ok|]. fold (gcm_poly v'). by rewrite Hpv.
  - rewrite gcm_poly_xor by done. rewrite Hpx.
    destruct (Z.testbit (gcm_poly y) (Z.of_nat n)); [by rewrite Hpv|].
    by rewrite Hz0, Z.lxor_0_r.
Qed.

(** [gf_mul] is the multiplication of GF(2^128), for the bit order of GCM. *)
Lemma gf_mul_spec x y : block_ok x → block_ok y →
  block_ok (gf_mul x y) ∧ gcm_poly (gf_mul x y) = gf128_mul (gcm_poly x) (gcm_poly y).
Proof.
  intros Hx Hy. destruct zero_block_poly as [_ Hzb]. unfold gf_mul. pose proof (proj1 Hx) as Hxl.
  unfold AES_BLOCK_SIZE in Hxl.
  rewrite msel_memset_blit by lia. rewrite msel_memcpy_blit by (rewrite ?length_replicate; lia).
  assert (blit 0 (replicate 16 (u8 0)) x = replicate 16 0) as ->.
  { unfold blit. rewrite drop_ge by (rewrite length_replicate; lia). apply app_nil_r. }
  assert (blit 0 (take 16 (drop 0 x)) (replicate 16 0) = x) as ->.
  { rewrite drop_0, take_ge by lia. unfold blit. rewrite drop_ge by (rewrite length_replicate; lia).
    apply app_nil_r. }
  destruct (outer_loop y (replicate 16 0) x 16 Hy ltac:(lia) eq_refl Hx) as (_ & _ & ->).
  rewrite for_loop_nest. change (16 * 8)%nat with 128%nat.
  destruct (flat_loop y x 128 Hy Hx) as (H1 & _ & _ & H2).
  destruct (for_loop 0 128 (flat_step y) (replicate 16 0, x)) as [r v]. cbn [fst] in *. done.
Qed.

#[global] Opaque gf_mul gcm_inc_ctr.

(** ** Counter mode and GHASH *)

Definition ctr_at (c : list Z) (k : nat) : list Z := Nat.iter k gcm_inc_ctr c.

Lemma ctr_at_S c k : ctr_at c (S k) = gcm_inc_ctr (ctr_at c k).
Proof. reflexivity. Qed.

Lemma ctr_at_spec c k : block_ok c →
  block_ok (ctr_at c k) ∧ be_val (ctr_at c k) = (be_val c + Z.of_nat k) mod 2 ^ 128.
Proof.
  intros Hc. induction k as [|k [IHb IHv]].
  - split; [done|]. pose proof (be_val_range c ltac:(apply Hc)) as H.
    rewrite (proj1 Hc) in H. rewrite Z.add_0_r, Z.mod_small; done.
  - rewrite ctr_at_S. destruct (gcm_inc_ctr_spec _ IHb) as [H ->]. split; [done|].
    rewrite IHv, Zplus_mod_idemp_l. f_equal. lia.
Qed.

(** GHASH continued from [t]. *)
Definition ghash (h t : list Z) (bs : list (list Z)) : list Z :=
  foldl (λ t b, gf_mul (xor_list t b) h) t bs.

Lemma ghash_ok h t bs : block_ok h → block_ok t → Forall block_ok bs → block_ok (ghash h t bs).
Proof.
  intros Hh Ht Hbs. revert t Ht. induction Hbs as [|b bs Hb _ IH]; intros t Ht; [done|].
  apply IH, gf_mul_spec; [by apply xor_block_ok|done].
Qed.

Lemma ghash_snoc h t bs b : ghash h t (bs ++ [b]) = gf_mul (xor_list (ghash h t bs) b) h.
Proof. unfold ghash. by rewrite foldl_app. Qed.

(** In the field: Horner's rule over the polynomials of the blocks. *)
Lemma ghash_poly h t bs : block_ok h → block_ok t → Forall block_ok bs →
  gcm_poly (ghash h t bs) =
  foldl (λ Y X, gf128_mul (Y ^^ gcm_poly X) (gcm_poly h)) (gcm_poly t) bs.
Proof.
  intros Hh Ht Hbs. revert t Ht. induction Hbs as [|b bs Hb _ IH]; intros t Ht; [done|].
  cbn [ghash foldl]. destruct (gf_mul_spec (xor_list t b) h) as [Hok Heq]; [by apply xor_block_ok|done|].
  etransitivity; [by apply IH|]. by rewrite Heq, gcm_poly_xor.
Qed.

(** The blocks of a byte string, the last one padded with zeros. *)
Definition pad16 (l : list Z) : list Z := l ++ replicate ((16 - length l mod 16) mod 16) 0.
Definition blocks16 (l : list Z) : list (list Z) :=
  map (block_at (pad16 l)) (seq 0 ((length l + 15) / 16)).

Lemma div16 q r : (r < 16)%nat → ((16 * q + r) / 16 = q ∧ (16 * q + r) mod 16 = r)%nat.
Proof.
  intros. split; [symmetry; apply (Nat.div_unique _ _ _ r); lia|].
  symmetry. apply (Nat.mod_unique _ _ q); lia.
Qed.

Lemma blocks16_whole l n : length l = (16 * n)%nat → blocks16 l = map (block_at l) (seq 0 n).
Proof.
  intros Hl. unfold blocks16, pad16. rewrite Hl.
  destruct (div16 n 0) as [_ Hm]; [lia|]. destruct (div16 n 15) as [Hd _]; [lia|].
  rewrite Nat.add_0_r in Hm. rewrite Hm, Hd. change ((16 - 0) mod 16)%nat with 0%nat.
  cbn [replicate]. by rewrite app_nil_r.
Qed.

Lemma block_at_app_l l k i : (16 * (i + 1) ≤ length l)%nat → block_at (l ++ k) i = block_at l i.
Proof.
  intros. unfold block_at. rewrite drop_app_le by lia. rewrite take_app_le; [done|].
  rewrite length_drop. lia.
Qed.

Lemma blocks16_partial l n r : length l = (16 * n + r)%nat → (0 < r < 16)%nat →
  blocks16 l = map (block_at l) (seq 0 n) ++ [drop (16 * n) l ++ replicate (16 - r) 0].
Proof.
  intros Hl Hr. unfold blocks16, pad16. rewrite Hl.
  destruct (div16 n r) as [_ ->]; [lia|].
  replace (16 * n + r + 15)%nat with (16 * (S n) + (r - 1))%nat by lia.
  destruct (div16 (S n) (r - 1)) as [-> _]; [lia|]. rewrite (Nat.mod_small (16 - r)) by lia.
  rewrite seq_S, map_app. cbn [map Nat.add]. f_equal.
  - apply map_ext_in. intros i Hi%in_seq. apply block_at_app_l. lia.
  - f_equal. unfold block_at. rewrite drop_app_le by lia. apply take_ge.
    rewrite length_app, length_drop, length_replicate. lia.
Qed.

Lemma blocks16_ok l : bytes_ok l → Forall block_ok (blocks16 l).
Proof.
  intros Hb. apply Forall_map, Forall_forall. intros i Hi%list_elem_of_In%in_seq.
  assert (bytes_ok (pad16 l)) by (apply bytes_ok_app; split; [done|];
    apply bytes_ok_replicate; unfold is_u8; lia).
  apply block_at_ok; [done|]. unfold pad16. rewrite length_app, length_replicate.
  pose proof (Nat.div_mod_eq (length l) 16) as Hdm.
  set (q := (length l / 16)%nat) in *. set (r := (length l mod 16)%nat) in *.
  pose proof (Nat.mod_upper_bound (length l) 16 ltac:(lia)) as Hr. fold r in Hr.
  destruct (decide (r = 0)%nat) as [E|E].
  - replace (length l + 15)%nat with (16 * q + 15)%nat in Hi by lia.
    destruct (div16 q 15) as [Hd _]; [lia|]. lia.
  - replace (length l + 15)%nat with (16 * (S q) + (r - 1))%nat in Hi by lia.
    destruct (div16 (S q) (r - 1)) as [Hd _]; [lia|]. rewrite (Nat.mod_small (16 - r)) by lia. lia.
Qed.

(** ** Encryption and decryption *)

Definition gcm_ok (ctx : aes_gcm_ctx_t) : Prop :=
  key_ok (aes_algo (gcm_e_ctx ctx)) (aes_key (gcm_e_ctx ctx)) ∧
  block_ok (tag ctx) ∧ block_ok (hkey ctx) ∧ block_ok (iv ctx) ∧ block_ok (civ ctx).

Definition gcm_E (ctx : aes_gcm_ctx_t) : list Z → list Z :=
  aes_enc (aes_algo (gcm_e_ctx ctx)) (aes_key (gcm_e_ctx ctx)).

(** The key stream of [n] blocks after counter [c]. *)
Definition key_block (ctx : aes_gcm_ctx_t) (k : nat) : list Z := gcm_E ctx (ctr_at (civ ctx) (S k)).

(** The output bytes: the input xored with the key stream. *)
Definition gctr (ctx : aes_gcm_ctx_t) (p : list Z) : list Z :=
  xor_list p (take (length p) (concat (map (key_block ctx) (seq 0 ((length p + 15) / 16))))).

(** The context after [c] has been processed as ciphertext. *)
Definition gcm_after (ctx : aes_gcm_ctx_t) (c : list Z) : aes_gcm_ctx_t :=
  AesGcmCtx (gcm_algo ctx) (aad_len ctx) (u64 (input_len ctx + Z.of_nat (length c)))
    (ghash (hkey ctx) (tag ctx) (blocks16 c)) (hkey ctx) (iv ctx)
    (ctr_at (civ ctx) ((length c + 15) / 16)) (gcm_e_ctx ctx).

(** A context with another tag and counter. *)
Definition upd_ctx (ctx : aes_gcm_ctx_t) (t c : list Z) : aes_gcm_ctx_t :=
  set_civ (set_tag ctx t) c.

Ltac ctx_simpl := unfold upd_ctx, set_civ, set_tag, add_aad_len, add_input_len;
  cbn [gcm_algo aad_len input_len tag hkey iv civ gcm_e_ctx].

Section modes.
Context (svc : aes_driver_ctx_t → msel_status * list Z) `{!AesService svc}.
Context (ctx : aes_gcm_ctx_t) (Hctx : gcm_ok ctx).

Lemma key_block_ok k : block_ok (key_block ctx k).
Proof. destruct Hctx as (Hk & _ & _ & _ & Hc). apply aes_enc_ok; [done|]. by apply ctr_at_spec. Qed.

Lemma key_block_svc k out : length out = 16%nat →
  aes_ecb_encrypt svc (gcm_e_ctx ctx) (ctr_at (civ ctx) (S k)) out = key_block ctx k.
Proof.
  intros Ho. destruct Hctx as (Hk & _ & _ & _ & Hc).
  rewrite aes_ecb_encrypt_ok; [reflexivity|exact _|done|by apply ctr_at_spec|done].
Qed.

Lemma ghash_add_eq c (x : list Z) : length (tag c) = 16%nat → (16 ≤ length x)%nat →
  gcm_ghash_add c x = set_tag c (gf_mul (xor_list (tag c) (take 16 x)) (hkey c)).
Proof. intros. unfold gcm_ghash_add. by rewrite xor_into_block. Qed.

(** Block [k] xored with its key stream. *)
Definition ctr_block (p : list Z) (k : nat) : list Z := xor_list (block_at p k) (key_block ctx k).

Lemma ctr_block_ok p k : bytes_ok p → (16 * (k + 1) ≤ length p)%nat → block_ok (ctr_block p k).
Proof. intros. apply xor_block_ok; [by apply block_at_ok|apply key_block_ok]. Qed.

Lemma xor_write p out k (f : nat → Z) :
  (∀ i, (i < 16)%nat → f i = get (ctr_block p k) i) →
  for_loop 0 16 (λ i out, <[(16 * k + i)%nat := f i]> out) out =
  msel_memcpy out (16 * k) (ctr_block p k) 0 16.
Proof. intros Hf. apply for_loop_ext. intros i s Hi. by rewrite Hf by lia. Qed.

Lemma get_block_at (l : list Z) k i : (i < 16)%nat → get (block_at l k) i = get l (16 * k + i).
Proof. intros. unfold block_at, get. by rewrite lookup_take, decide_True, lookup_drop by lia. Qed.

Lemma get_ctr_block p k i : (16 * (k + 1) ≤ length p)%nat → (i < 16)%nat →
  get (ctr_block p k) i = get p (16 * k + i) ^^ get (key_block ctx k) i.
Proof.
  intros Hp Hi. unfold ctr_block. rewrite get_xor_list, get_block_at by
    (try lia; unfold block_at; rewrite length_take, length_drop, (proj1 (key_block_ok k));
     unfold AES_BLOCK_SIZE; lia).
  done.
Qed.

Lemma drop_written out k (c : list Z) : length c = 16%nat → (16 * (k + 1) ≤ length out)%nat →
  take 16 (drop (16 * k) (msel_memcpy out (16 * k) c 0 16)) = c.
Proof.
  intros Hc Ho. rewrite msel_memcpy_blit by lia. rewrite drop_0, (take_ge c) by lia. unfold blit.
  rewrite drop_app_ge by (rewrite length_take; lia).
  rewrite length_take, Nat.min_l, Nat.sub_diag, drop_0, take_app_le by lia. apply take_ge. lia.
Qed.

Lemma enc_loop p out n : bytes_ok p → (16 * n ≤ length p)%nat → (16 * n ≤ length out)%nat →
  for_loop 0 n (enc_block svc p) (ctx, out) =
  (upd_ctx ctx (ghash (hkey ctx) (tag ctx) (map (ctr_block p) (seq 0 n))) (ctr_at (civ ctx) n),
   for_loop 0 n (λ k out, msel_memcpy out (16 * k) (ctr_block p k) 0 16) out).
Proof.
  intros Hb Hp Ho. induction n as [|n IH]; [destruct ctx; reflexivity|].
  pose proof Hctx as (Hk & Ht & Hh & Hi & Hc).
  rewrite !(for_loop_S_r 0 n), IH by lia. cbn [Nat.add]. clear IH.
  set (o := for_loop 0 n _ out).
  assert (length o = length out) as Hol.
  { unfold o. rewrite block_write_loop; [|lia|].
    - rewrite length_app, length_drop, concat_blocks_length; [lia|].
      intros; apply ctr_block_ok; [done|lia].
    - intros; apply ctr_block_ok; [done|lia]. }
  set (t := ghash _ _ _).
  assert (block_ok t) as Htok.
  { apply ghash_ok; [done|done|]. apply Forall_map, Forall_forall.
    intros i Hin%list_elem_of_In%in_seq. apply ctr_block_ok; [done|lia]. }
  unfold enc_block, upd_ctx. cbn [set_civ set_tag civ gcm_e_ctx].
  rewrite <- ctr_at_S, key_block_svc by done.
  rewrite (xor_write p o n (λ i, get p (16 * n + i) ^^ get (key_block ctx n) i)).
  2: { intros i Hi16. symmetry. apply get_ctr_block; lia. }
  apply (f_equal2 pair); [|reflexivity].
  assert (length (ctr_block p n) = 16%nat) as Hcl by (apply ctr_block_ok; [done|lia]).
  rewrite ghash_add_eq; [|apply Htok|].
  - rewrite drop_written by lia. rewrite seq_S, map_app. cbn [map Nat.add]. rewrite ghash_snoc.
    ctx_simpl. reflexivity.
  - rewrite length_drop, msel_memcpy_blit by lia. rewrite drop_0, take_ge by lia.
    rewrite blit_length by lia. lia.
Qed.

Lemma dec_loop c out n : bytes_ok c → (16 * n ≤ length c)%nat → (16 * n ≤ length out)%nat →
  for_loop 0 n (dec_block svc c) (ctx, out) =
  (upd_ctx ctx (ghash (hkey ctx) (tag ctx) (map (block_at c) (seq 0 n))) (ctr_at (civ ctx) n),
   for_loop 0 n (λ k out, msel_memcpy out (16 * k) (ctr_block c k) 0 16) out).
Proof.
  intros Hb Hp Ho. induction n as [|n IH]; [destruct ctx; reflexivity|].
  pose proof Hctx as (Hk & Ht & Hh & Hi & Hc).
  rewrite !(for_loop_S_r 0 n), IH by lia. cbn [Nat.add]. clear IH.
  set (o := for_loop 0 n _ out). set (t := ghash _ _ _).
  assert (block_ok t) as Htok.
  { apply ghash_ok; [done|done|]. apply Forall_map, Forall_forall.
    intros i Hin%list_elem_of_In%in_seq. apply block_at_ok; [done|lia]. }
  unfold dec_block, upd_ctx. cbn [set_civ set_tag civ gcm_e_ctx].
  rewrite <- ctr_at_S, key_block_svc by done.
  rewrite (xor_write c o n (λ i, get (key_block ctx n) i ^^ get c (16 * n + i))).
  2: { intros i Hi16. rewrite Z.lxor_comm. symmetry. apply get_ctr_block; lia. }
  apply (f_equal2 pair); [|reflexivity].
  rewrite ghash_add_eq; [|apply Htok|rewrite length_drop; lia].
  rewrite seq_S, map_app. cbn [map Nat.add]. rewrite ghash_snoc. ctx_simpl. reflexivity.
Qed.

(** The key stream applied to whole blocks and to a partial one. *)
Lemma xor_list_app a b a' b' : length a = length a' →
  xor_list (a ++ b) (a' ++ b') = xor_list a a' ++ xor_list b b'.
Proof. intros. unfold xor_list. by apply zip_with_app. Qed.

Lemma xor_concat (f g : nat → list Z) n :
  (∀ k, (k < n)%nat → length (f k) = 16%nat) → (∀ k, (k < n)%nat → length (g k) = 16%nat) →
  xor_list (concat (map f (seq 0 n))) (concat (map g (seq 0 n))) =
  concat (map (λ k, xor_list (f k) (g k)) (seq 0 n)).
Proof.
  induction n as [|n IH]; intros Hf Hg; [done|].
  rewrite !seq_S, !map_app, !concat_app. cbn [map concat Nat.add]. rewrite !app_nil_r.
  rewrite xor_list_app, IH; [done|auto with lia..|].
  rewrite !concat_blocks_length; auto with lia.
Qed.

Lemma gctr_blocks p n r : length p = (16 * n + r)%nat → (r < 16)%nat →
  gctr ctx p = concat (map (ctr_block p) (seq 0 n)) ++
    xor_list (drop (16 * n) p) (take r (key_block ctx n)).
Proof.
  intros Hp Hr. unfold gctr.
  assert (∀ k, length (key_block ctx k) = 16%nat) as Hkl by (intros; apply key_block_ok).
  rewrite <- (take_drop (16 * n) p) at 1. rewrite <- concat_blocks by lia.
  assert (take (length p) (concat (map (key_block ctx) (seq 0 ((length p + 15) / 16)))) =
    concat (map (key_block ctx) (seq 0 n)) ++ take r (key_block ctx n)) as ->.
  { rewrite Hp. destruct (decide (r = 0)%nat) as [->|Hr0].
    - rewrite Nat.add_0_r, take_0, app_nil_r. destruct (div16 n 15) as [-> _]; [lia|].
      apply take_ge. rewrite concat_blocks_length by auto. lia.
    - replace (16 * n + r + 15)%nat with (16 * S n + (r - 1))%nat by lia.
      destruct (div16 (S n) (r - 1)) as [-> _]; [lia|].
      rewrite seq_S, map_app, concat_app. cbn [map concat Nat.add]. rewrite app_nil_r.
      rewrite take_app_ge by (rewrite concat_blocks_length by auto; lia).
      rewrite concat_blocks_length by auto. do 2 f_equal. lia. }
  assert (∀ k, (k < n)%nat → length (block_at p k) = 16%nat) as Hbl.
  { intros k Hk. unfold block_at. rewrite length_take, length_drop. lia. }
  rewrite xor_list_app by (rewrite !concat_blocks_length; auto).
  by rewrite xor_concat by auto.
Qed.

Lemma gctr_length p : length (gctr ctx p) = length p.
Proof.
  set (n := (length p / 16)%nat). set (r := (length p mod 16)%nat).
  assert (length p = 16 * n + r ∧ r < 16)%nat as [Hp Hr].
  { pose proof (Nat.div_mod_eq (length p) 16). pose proof (Nat.mod_upper_bound (length p) 16). lia. }
  rewrite (gctr_blocks p n r) by done.
  assert (∀ k, (k < n)%nat → length (ctr_block p k) = 16%nat) as Hc.
  { intros k Hk. unfold ctr_block. rewrite length_xor_list.
    - unfold block_at. rewrite length_take, length_drop. lia.
    - unfold block_at. rewrite length_take, length_drop, (proj1 (key_block_ok k)).
      unfold AES_BLOCK_SIZE. lia. }
  rewrite length_app, concat_blocks_length, length_xor_list by
    (try done; rewrite length_drop, length_take, (proj1 (key_block_ok n)); unfold AES_BLOCK_SIZE; lia).
  rewrite length_drop. lia.
Qed.

(** The blocks hashed when [p] has been encrypted. *)
Lemma gctr_blocks16 p n r : bytes_ok p → length p = (16 * n + r)%nat → (r < 16)%nat →
  blocks16 (gctr ctx p) = map (ctr_block p) (seq 0 n) ++
    (if (r =? 0)%nat then [] else
     [xor_list (drop (16 * n) p) (take r (key_block ctx n)) ++ replicate (16 - r) 0]).
Proof.
  intros Hb Hp Hr. pose proof (gctr_length p) as Hl. pose proof (gctr_blocks p n r Hp Hr) as Hg.
  assert (∀ k, (k < n)%nat → length (ctr_block p k) = 16%nat) as Hc
    by (intros; apply ctr_block_ok; [done|lia]).
  assert (map (block_at (gctr ctx p)) (seq 0 n) = map (ctr_block p) (seq 0 n)) as Hm.
  { apply map_ext_in. intros k Hk%in_seq. rewrite Hg. apply concat_block_at; [done|lia]. }
  destruct (Nat.eqb_spec r 0) as [->|Hr0].
  - rewrite app_nil_r, <- Hm. apply blocks16_whole. lia.
  - rewrite (blocks16_partial _ n r) by lia. rewrite Hm. do 2 f_equal. rewrite Hg.
    rewrite drop_app_ge; rewrite concat_blocks_length by done; [|lia].
    by rewrite Nat.sub_diag, drop_0.
Qed.
End modes.

Lemma gcm_ok_input_len ctx n : gcm_ok ctx → gcm_ok (add_input_len ctx n).
Proof. done. Qed.

(** Split a length into whole blocks and a rest. *)
Lemma split16 len : (len = 16 * (len / 16) + len mod 16 ∧ len mod 16 < 16)%nat.
Proof. pose proof (Nat.div_mod_eq len 16). pose proof (Nat.mod_upper_bound len 16). lia. Qed.

Lemma ceil16 n r : (r < 16)%nat →
  ((16 * n + r + 15) / 16 = if (r =? 0)%nat then n else S n)%nat.
Proof.
  intros Hr. destruct (Nat.eqb_spec r 0) as [->|].
  - rewrite Nat.add_0_r. by destruct (div16 n 15) as [-> _]; [lia|].
  - replace (16 * n + r + 15)%nat with (16 * S n + (r - 1))%nat by lia.
    by destruct (div16 (S n) (r - 1)) as [-> _]; [lia|].
Qed.

(** The zero fill of the rest of a block. *)
Lemma zero_fill x r : length x = 16%nat → (r ≤ 16)%nat →
  for_loop r (16 - r) (λ i x, <[i := 0]> x) x = take r x ++ replicate (16 - r) 0.
Proof.
  intros Hx Hr. rewrite <- (for_loop_shift r (16 - r) (λ i x, <[i := 0]> x)).
  pose proof (msel_memset_blit x r 0 (16 - r) ltac:(lia)) as H. unfold msel_memset in H.
  change (u8 0) with 0 in H. rewrite H. unfold blit.
  rewrite drop_ge by (rewrite length_replicate; lia). by rewrite app_nil_r.
Qed.

(** The rest of the output, after the whole blocks. *)
Lemma write_rest (cs : list Z) (t out : list Z) n r : length cs = (16 * n)%nat → length t = r →
  (16 * n + r ≤ length out)%nat →
  for_loop 0 r (λ i o, <[(16 * n + i)%nat := get t i]> o) (cs ++ drop (16 * n) out) =
  cs ++ t ++ drop (16 * n + r) out.
Proof.
  intros Hc Ht Ho. pose proof (msel_memcpy_blit (cs ++ drop (16 * n) out) (16 * n) t 0 r) as H.
  unfold msel_memcpy in H. cbn [Nat.add] in H. rewrite H by (rewrite ?length_app, ?length_drop; lia).
  rewrite drop_0, take_ge by lia. unfold blit. rewrite take_app_le, take_ge by lia.
  rewrite drop_app_ge, drop_drop by lia. do 3 f_equal. lia.
Qed.

Section totals.
Context (svc : aes_driver_ctx_t → msel_status * list Z) `{!AesService svc}.
Context (ctx : aes_gcm_ctx_t) (Hctx : gcm_ok ctx).

(** The context and the output after a message of [16 n + r] bytes. *)
Lemma gcm_after_split p n r : bytes_ok p → length p = (16 * n + r)%nat → (r < 16)%nat →
  gcm_after ctx (gctr ctx p) =
  AesGcmCtx (gcm_algo ctx) (aad_len ctx) (u64 (input_len ctx + Z.of_nat (length p)))
    (ghash (hkey ctx) (tag ctx) (map (ctr_block ctx p) (seq 0 n) ++
      (if (r =? 0)%nat then [] else
       [xor_list (drop (16 * n) p) (take r (key_block ctx n)) ++ replicate (16 - r) 0])))
    (hkey ctx) (iv ctx) (ctr_at (civ ctx) (if (r =? 0)%nat then n else S n)) (gcm_e_ctx ctx).
Proof.
  intros Hb Hp Hr. unfold gcm_after. rewrite (gctr_length ctx Hctx).
  rewrite (gctr_blocks16 ctx Hctx p n r) by done. rewrite Hp, ceil16 by done. reflexivity.
Qed.

Lemma tail_block p n r : length p = (16 * n + r)%nat → (0 < r < 16)%nat →
  for_loop r (16 - r) (λ i x, <[i := 0]> x)
    (for_loop 0 r (λ i x, <[i := get x i ^^ get p (16 * n + i)]> x) (key_block ctx n)) =
  xor_list (drop (16 * n) p) (take r (key_block ctx n)) ++ replicate (16 - r) 0.
Proof.
  intros Hp Hr. pose proof (proj1 (key_block_ok ctx Hctx n)) as Hkl. unfold AES_BLOCK_SIZE in Hkl.
  assert (for_loop 0 r (λ i x, <[i := get x i ^^ get p (16 * n + i)]> x) (key_block ctx n) =
    xor_into (key_block ctx n) (drop (16 * n) p) r) as ->.
  { apply for_loop_ext. intros i s Hi. by rewrite get_drop. }
  assert (length (drop (16 * n) p) = r) as Hd by (rewrite length_drop; lia).
  rewrite xor_into_spec by lia. rewrite (take_ge (drop _ p)) by lia.
  assert (length (xor_list (take r (key_block ctx n)) (drop (16 * n) p)) = r) as Hxl.
  { rewrite length_xor_list; rewrite length_take; lia. }
  rewrite zero_fill by (rewrite ?length_app, ?length_drop; lia). f_equal.
  rewrite take_app_le, take_ge by lia. apply xor_list_comm.
Qed.

Lemma aes_gcm_encrypt_ok p out : bytes_ok p → (length p ≤ length out)%nat →
  aes_gcm_encrypt svc ctx p (length p) out =
  (gcm_after ctx (gctr ctx p), gctr ctx p ++ drop (length p) out).
Proof.
  intros Hb Ho. destruct (split16 (length p)) as [Hp Hr]. unfold aes_gcm_encrypt.
  set (n := (length p / 16)%nat) in *. set (r := (length p mod 16)%nat) in *.
  pose proof (gcm_ok_input_len ctx (Z.of_nat (length p)) Hctx) as Hctx1.
  rewrite (enc_loop svc _ Hctx1) by (done || lia).
  rewrite block_write_loop by first [lia | intros; apply ctr_block_ok; [exact Hctx1|done|lia]].
  rewrite (gcm_after_split p n r) by done. rewrite (gctr_blocks ctx Hctx p n r) by done.
  change (ctr_block (add_input_len ctx (Z.of_nat (length p)))) with (ctr_block ctx).
  destruct (Nat.eqb_spec r 0) as [Hr0|Hr0].
  - rewrite Hr0, take_0, app_nil_r. rewrite Hp, Hr0, Nat.add_0_r.
    unfold xor_list. rewrite zip_with_nil_r, app_nil_r. ctx_simpl. reflexivity.
  - ctx_simpl. rewrite <- ctr_at_S, (key_block_svc svc ctx Hctx) by done.
    rewrite tail_block by (done || lia). set (t := xor_list _ _).
    assert (length t = r) as Ht.
    { unfold t. rewrite length_xor_list; rewrite length_drop, ?length_take,
        ?(proj1 (key_block_ok ctx Hctx n)); unfold AES_BLOCK_SIZE; lia. }
    set (g := ghash _ _ (map _ _)).
    assert (length g = 16%nat) as Hg.
    { apply ghash_ok; try apply Hctx. apply Forall_map, Forall_forall.
      intros k Hk%list_elem_of_In%in_seq. apply ctr_block_ok; [done|done|lia]. }
    rewrite ghash_add_eq by (cbn [tag]; rewrite ?length_app, ?length_replicate; lia).
    rewrite take_ge by (rewrite length_app, length_replicate; lia).
    rewrite ghash_snoc. apply (f_equal2 pair); [ctx_simpl; reflexivity|].
    erewrite for_loop_ext by (intros i o Hi; rewrite get_app_l by lia; reflexivity).
    rewrite write_rest; [by rewrite <- app_assoc, <- Hp|..|lia|lia].
    apply concat_blocks_length. intros k Hk. apply ctr_block_ok; [done|done|lia].
Qed.

Lemma dec_after_split c n r : length c = (16 * n + r)%nat → (r < 16)%nat →
  gcm_after ctx c =
  AesGcmCtx (gcm_algo ctx) (aad_len ctx) (u64 (input_len ctx + Z.of_nat (length c)))
    (ghash (hkey ctx) (tag ctx) (map (block_at c) (seq 0 n) ++
      (if (r =? 0)%nat then [] else [drop (16 * n) c ++ replicate (16 - r) 0])))
    (hkey ctx) (iv ctx) (ctr_at (civ ctx) (if (r =? 0)%nat then n else S n)) (gcm_e_ctx ctx).
Proof.
  intros Hc Hr. unfold gcm_after. rewrite Hc, ceil16 by done.
  destruct (Nat.eqb_spec r 0) as [->|].
  - rewrite app_nil_r, (blocks16_whole c n) by lia. reflexivity.
  - rewrite (blocks16_partial c n r) by lia. reflexivity.
Qed.

Lemma aes_gcm_decrypt_ok c out : bytes_ok c → (length c ≤ length out)%nat →
  aes_gcm_decrypt svc ctx c (length c) out =
  (gcm_after ctx c, gctr ctx c ++ drop (length c) out).
Proof.
  intros Hb Ho. destruct (split16 (length c)) as [Hp Hr]. unfold aes_gcm_decrypt.
  set (n := (length c / 16)%nat) in *. set (r := (length c mod 16)%nat) in *.
  pose proof (gcm_ok_input_len ctx (Z.of_nat (length c)) Hctx) as Hctx1.
  rewrite (dec_loop svc _ Hctx1) by (done || lia).
  rewrite block_write_loop by first [lia | intros; apply ctr_block_ok; [exact Hctx1|done|lia]].
  rewrite (dec_after_split c n r), (gctr_blocks ctx Hctx c n r) by done.
  change (ctr_block (add_input_len ctx (Z.of_nat (length c)))) with (ctr_block ctx).
  destruct (Nat.eqb_spec r 0) as [Hr0|Hr0].
  - rewrite Hr0, take_0, app_nil_r. rewrite Hp, Hr0, Nat.add_0_r.
    unfold xor_list. rewrite zip_with_nil_r, app_nil_r. ctx_simpl. reflexivity.
  - assert (length (drop (16 * n) c) = r) as Hd by (rewrite length_drop; lia).
    pose proof (proj1 (key_block_ok ctx Hctx n)) as Hkl. unfold AES_BLOCK_SIZE in Hkl.
    assert (for_loop 0 r (λ i x, <[i := get c (16 * n + i)]> x) (replicate 16 0) =
      drop (16 * n) c ++ replicate (16 - r) 0) as ->.
    { pose proof (msel_memcpy_blit (replicate 16 0) 0 c (16 * n) r) as H. unfold msel_memcpy in H.
      cbn [Nat.add] in H. rewrite H by (rewrite ?length_replicate; lia).
      rewrite take_ge by lia. unfold blit. rewrite Hd. cbn [Nat.add].
      by rewrite drop_replicate. }
    rewrite zero_fill by (rewrite ?length_app, ?length_replicate; lia).
    rewrite take_app_le, take_ge by lia. ctx_simpl. set (t := drop (16 * n) c) in *.
    set (g := ghash _ _ (map _ _)).
    assert (length g = 16%nat) as Hg.
    { apply ghash_ok; try apply Hctx. apply Forall_map, Forall_forall.
      intros k Hk%list_elem_of_In%in_seq. apply block_at_ok; [done|lia]. }
    rewrite ghash_add_eq by (cbn [tag]; rewrite ?length_app, ?length_replicate; lia).
    rewrite take_ge by (rewrite length_app, length_replicate; lia). ctx_simpl.
    rewrite <- ctr_at_S, (key_block_svc svc ctx Hctx) by (rewrite length_app, length_replicate; lia).
    rewrite ghash_snoc. apply (f_equal2 pair); [reflexivity|].
    assert (length (xor_list t (take r (key_block ctx n))) = r) as Hxl
      by (rewrite length_xor_list; rewrite ?length_take; lia).
    rewrite <- app_assoc, Hp.
    rewrite <- (write_rest _ (xor_list t (take r (key_block ctx n))) out n r); [|..|lia|lia].
    + apply for_loop_ext. intros i o Hi. rewrite get_xor_list by (rewrite length_take; lia).
      unfold t. rewrite get_drop. unfold get at 4. rewrite lookup_take, decide_True by lia. done.
    + apply concat_blocks_length. intros k Hk. apply ctr_block_ok; [done|done|lia].
Qed.
End totals.

(** ** Round trip *)

Lemma gctr_involutive ctx p : gcm_ok ctx → gctr ctx (gctr ctx p) = p.
Proof.
  intros Hctx. unfold gctr at 1. rewrite gctr_length by done. unfold gctr.
  apply xor_list_cancel. rewrite length_take, concat_blocks_length.
  - destruct (split16 (length p)) as [Hp Hr]. rewrite Hp at 3. rewrite ceil16 by done.
    destruct (Nat.eqb_spec (length p mod 16) 0); lia.
  - intros k _. apply key_block_ok, Hctx.
Qed.

Lemma gctr_bytes ctx p : gcm_ok ctx → bytes_ok p → bytes_ok (gctr ctx p).
Proof.
  intros Hctx Hp. apply bytes_ok_xor_list; [done|]. apply bytes_ok_take.
  apply Forall_concat, Forall_map, Forall_forall. intros k _. apply key_block_ok, Hctx.
Qed.

(** C24: decrypting with [aes_gcm_decrypt], from the same starting context, the
    ciphertext [aes_gcm_encrypt] produced gives back the message, of any length,
    and leaves the two contexts equal, so both sides compute the same tag. *)
Theorem aes_gcm_roundtrip svc `{!AesService svc} ctx p out out' :
  gcm_ok ctx → bytes_ok p → length out = length p → length out' = length p →
  let '(ctx1, c) := aes_gcm_encrypt svc ctx p (length p) out in
  aes_gcm_decrypt svc ctx c (length p) out' = (ctx1, p).
Proof.
  intros Hctx Hp Ho Ho'. rewrite aes_gcm_encrypt_ok by (done || lia).
  rewrite drop_ge, app_nil_r by lia. pose proof (gctr_length ctx Hctx p) as Hl.
  rewrite <- Hl, aes_gcm_decrypt_ok by (by apply gctr_bytes || lia || done).
  rewrite drop_ge, app_nil_r by lia. by rewrite gctr_involutive.
Qed.

(** ** Conformance with NIST SP 800-38D *)

(** The block whose polynomial is [v]. *)
Definition gcm_unpoly (v : Z) : list Z := map rev8 (le_bytes 16 v).

Lemma gcm_unpoly_poly b : block_ok b → gcm_unpoly (gcm_poly b) = b.
Proof.
  intros [Hl Hb]. unfold gcm_unpoly, gcm_poly. unfold AES_BLOCK_SIZE in Hl.
  replace 16%nat with (length (map rev8 b)) by (by rewrite length_map).
  rewrite le_bytes_val by (apply map_rev8_ok; by split). rewrite map_map.
  rewrite <- (map_id b) at 2. apply map_ext_Forall. eapply Forall_impl; [done|]. apply rev8_involutive.
Qed.

Module Nist.

(** [inc32] applied [k] times to the pre-counter block of a 96-bit IV. *)
Definition counter (iv : list Z) (k : nat) : list Z :=
  iv ++ rev (le_bytes 4 ((1 + Z.of_nat k) mod 2 ^ 32)).

(** Section 6.5: GCTR from the counter block that follows [J0]. *)
Definition GCTR (E : list Z → list Z) (iv p : list Z) : list Z :=
  xor_list p (take (length p)
    (concat (map (λ k, E (counter iv (S k))) (seq 0 ((length p + 15) / 16))))).

(** Section 6.4: GHASH, in the field. *)
Definition GHASH (h : Z) (bs : list (list Z)) : Z :=
  foldl (λ Y X, gf128_mul (Y ^^ gcm_poly X) h) 0 bs.

(** Section 7.1: authenticated encryption, with a 96-bit IV. *)
Definition GCM_AE (E : list Z → list Z) (iv A P : list Z) : list Z * list Z :=
  let H := E (replicate 16 0) in
  let C := GCTR E iv P in
  let lens := be64 (8 * Z.of_nat (length A)) ++ be64 (8 * Z.of_nat (length C)) in
  let S := GHASH (gcm_poly H) (blocks16 A ++ blocks16 C ++ [lens]) in
  (C, xor_list (gcm_unpoly S) (E (counter iv 0))).

End Nist.

Lemma be_val_rev_le n v : be_val (rev (le_bytes n v)) = le_val (le_bytes n v).
Proof. unfold be_val. by rewrite rev_involutive. Qed.

Lemma counter_ok ivp k : length ivp = 12%nat → bytes_ok ivp → block_ok (Nist.counter ivp k).
Proof.
  intros Hl Hb. unfold Nist.counter. split.
  - rewrite length_app, length_rev, le_bytes_length, Hl. done.
  - apply bytes_ok_app. split; [done|]. apply Forall_rev, le_bytes_ok.
Qed.

(** The 128-bit increment is [inc32] as long as the low word does not wrap. *)
Lemma ctr_at_counter ivp k : length ivp = 12%nat → bytes_ok ivp → 1 + Z.of_nat k < 2 ^ 32 →
  ctr_at (Nist.counter ivp 0) k = Nist.counter ivp k.
Proof.
  intros Hl Hb Hk. destruct (ctr_at_spec (Nist.counter ivp 0) k) as [Hok Hv];
    [by apply counter_ok|]. destruct (counter_ok ivp k Hl Hb) as [Hl2 Hb2].
  apply be_val_inj; [apply Hok|done|rewrite (proj1 Hok); done|]. rewrite Hv.
  pose proof (be_val_range ivp Hb) as Hr. rewrite Hl in Hr. change (8 * Z.of_nat 12) with 96 in Hr.
  unfold Nist.counter. rewrite !be_val_app, !length_rev, !le_bytes_length, !be_val_rev_le.
  rewrite !(Z.mod_small _ (2 ^ 32)) by lia.
  rewrite !le_val_bytes by (change (8 * Z.of_nat 4) with 32; lia).
  change (8 * Z.of_nat 4) with 32. rewrite Z.mod_small; lia.
Qed.

(** The whole-block loop of [aes_gcm_aad]. *)
Lemma aad_loop ctx A n : gcm_ok ctx → bytes_ok A → (16 * n ≤ length A)%nat →
  for_loop 0 n (λ k ctx, gcm_ghash_add ctx (drop (16 * k) A)) ctx =
  set_tag ctx (ghash (hkey ctx) (tag ctx) (map (block_at A) (seq 0 n))).
Proof.
  intros (Hk & Ht & Hh & Hi & Hc) HA Hl. induction n as [|n IH]; [destruct ctx; reflexivity|].
  rewrite for_loop_S_r, IH by lia. cbn [Nat.add]. set (t := ghash _ _ _).
  assert (block_ok t) as [Htl _].
  { apply ghash_ok; [done|done|]. apply Forall_map, Forall_forall.
    intros i Hin%list_elem_of_In%in_seq. apply block_at_ok; [done|lia]. }
  rewrite ghash_add_eq by (exact Htl || (rewrite length_drop; lia)).
  rewrite seq_S, map_app. cbn [map Nat.add]. rewrite ghash_snoc. ctx_simpl. reflexivity.
Qed.

Lemma aes_gcm_aad_ok ctx A : gcm_ok ctx → bytes_ok A →
  aes_gcm_aad ctx A (length A) =
  set_tag (add_aad_len ctx (Z.of_nat (length A))) (ghash (hkey ctx) (tag ctx) (blocks16 A)).
Proof.
  intros Hctx HA. destruct (split16 (length A)) as [Hp Hr]. unfold aes_gcm_aad.
  set (n := (length A / 16)%nat) in *. set (r := (length A mod 16)%nat) in *.
  rewrite aad_loop; [|exact Hctx|done|lia]. destruct (Nat.eqb_spec r 0) as [Hr0|Hr0].
  - rewrite (blocks16_whole A n) by lia. ctx_simpl. reflexivity.
  - assert (length (drop (16 * n) A) = r) as Hd by (rewrite length_drop; lia).
    change (msel_memset (replicate 16 0) 0 0 16) with (replicate 16 0).
    rewrite msel_memcpy_blit by (rewrite ?length_replicate; lia). rewrite (take_ge (drop _ A)) by lia.
    unfold blit. rewrite Hd, drop_replicate, take_0, app_nil_l. cbn [Nat.add].
    set (g := ghash _ _ _). assert (block_ok g) as [Hgl _].
    { apply ghash_ok; try apply Hctx. apply Forall_map, Forall_forall.
      intros k Hk%list_elem_of_In%in_seq. apply block_at_ok; [done|lia]. }
    rewrite ghash_add_eq; [|exact Hgl|rewrite length_app, length_replicate; lia].
    rewrite take_ge by (rewrite length_app, length_replicate; lia).
    rewrite (blocks16_partial A n r) by lia. rewrite ghash_snoc. ctx_simpl. reflexivity.
Qed.

Lemma gcm_setkey_ok svc `{!AesService svc} a key ivp : key_ok a key →
  length ivp = 12%nat → bytes_ok ivp →
  let zero := replicate 16 0 in
  aes_gcm_setkey svc a key ivp 12 =
  AesGcmCtx a 0 0 zero (aes_enc a key zero) (Nist.counter ivp 0) (Nist.counter ivp 0) (AesCtx a key).
Proof.
  intros Hk Hl Hb. cbv zeta. unfold aes_gcm_setkey. destruct zero_block_poly as [_ Hz].
  assert (upd (msel_memcpy (replicate 16 0) 0 ivp 0 12) 15 1 = Nist.counter ivp 0) as Hiv.
  { do 12 (destruct ivp as [|? ivp]; [exfalso; done|]). destruct ivp; [|exfalso; done]. reflexivity. }
  assert (msel_memcpy (replicate 16 0) 0 (Nist.counter ivp 0) 0 16 = Nist.counter ivp 0) as Hcp.
  { destruct (counter_ok ivp 0 Hl Hb) as [Hcl _]. unfold AES_BLOCK_SIZE in Hcl.
    rewrite msel_memcpy_blit by (rewrite ?length_replicate; lia). unfold blit.
    rewrite drop_0, (take_ge (Nist.counter ivp 0)) by lia. rewrite drop_ge by (rewrite length_replicate; lia). apply app_nil_r. }
  assert (aes_ecb_encrypt svc (aes_setkey a key) (replicate 16 0) (replicate 16 0) =
    aes_enc a key (replicate 16 0)) as Hh.
  { by rewrite aes_ecb_encrypt_ok. }
  destruct Hk as ([->|[->| ->]] & _);
    cbv [AES_GCM_128 AES_GCM_192 AES_GCM_256 AES_128 AES_192 AES_256 Z.eqb Pos.eqb orb Nat.eqb];
    rewrite Hh, Hiv, Hcp; reflexivity.
Qed.

(** An IV of another length: the counter block is a hash of it. *)
Lemma xor_into_prefix x v n : block_ok x → bytes_ok v → (n ≤ 16)%nat → (n ≤ length v)%nat → block_ok (xor_into x v n).
Proof.
  intros [Hx Bx] Bv Hn Hv. unfold AES_BLOCK_SIZE in *. rewrite xor_into_spec by lia. split.
  - rewrite length_app, length_xor_list; rewrite !length_take, ?length_drop; unfold AES_BLOCK_SIZE; lia.
  - apply Forall_app. split; [apply bytes_ok_xor_list; auto with width|by apply bytes_ok_drop].
Qed.

Lemma xor_bit_len_ok b n : block_ok b → block_ok (xor_bit_len b n).
Proof.
  intros Hb. unfold xor_bit_len. apply (for_loop_inv (λ st, block_ok st.1)); [done|].
  intros k [c m] _ [Hl Hc]. cbn [fst] in *. split; [by rewrite length_insert|]. apply bytes_ok_insert; auto with width.
Qed.

Lemma hash_iv_ok h ivp n : block_ok h → bytes_ok ivp → (n ≤ length ivp)%nat → block_ok (hash_iv h ivp n).
Proof.
  intros Hh Hb Hn. unfold hash_iv. destruct (split16 n) as [En Hr].
  set (b := for_loop 0 (n / 16) _ _). assert (block_ok b) as Hbk.
  { apply for_loop_inv; [apply zero_block_poly|]. intros i c Hi Hc. apply gf_mul_spec; [|done].
    apply xor_into_prefix; [done|auto with width|lia|]. rewrite length_drop. lia. }
  apply gf_mul_spec; [|done]. apply xor_bit_len_ok. destruct (Nat.eqb_spec (n mod 16) 0); [done|].
  apply gf_mul_spec; [|done]. apply xor_into_prefix; [done|auto with width|lia|]. rewrite length_drop. lia.
Qed.

Lemma gcm_setkey_hashed svc `{!AesService svc} a key ivp n : key_ok a key → bytes_ok ivp → (n ≤ length ivp)%nat →
  n ≠ 12%nat →
  let zero := replicate 16 0 in
  let h := aes_enc a key zero in
  let c := hash_iv h ivp n in
  aes_gcm_setkey svc a key ivp n = AesGcmCtx a 0 0 zero h c c (AesCtx a key) ∧ block_ok h ∧ block_ok c.
Proof.
  intros Hk Hb Hn Hne. cbv zeta. unfold aes_gcm_setkey. destruct zero_block_poly as [_ Hz].
  pose proof (aes_enc_ok a key _ Hk Hz) as Hh. pose proof (hash_iv_ok _ ivp n Hh Hb Hn) as Hc.
  assert (aes_ecb_encrypt svc (aes_setkey a key) (replicate 16 0) (replicate 16 0) =
    aes_enc a key (replicate 16 0)) as E by by rewrite aes_ecb_encrypt_ok.
  split; [|exact (conj Hh Hc)]. rewrite (proj2 (Nat.eqb_neq n 12) Hne).
  assert (∀ c, block_ok c → msel_memcpy (replicate 16 0) 0 c 0 16 = c) as Hcp.
  { clear. intros c [Hcl _]. unfold AES_BLOCK_SIZE in Hcl.
    rewrite msel_memcpy_blit by (rewrite ?length_replicate; lia). unfold blit.
    rewrite drop_0, (take_ge c) by lia. rewrite drop_ge by (rewrite length_replicate; lia). apply app_nil_r. }
  destruct Hk as ([->|[->| ->]] & _);
    cbv [AES_GCM_128 AES_GCM_192 AES_GCM_256 AES_128 AES_192 AES_256 Z.eqb Pos.eqb orb];
    rewrite E, (Hcp _ Hc); reflexivity.
Qed.

(** ** The whole message *)

(** Set up, hash the associated data, encrypt, finish: the ciphertext and the tag. *)
Definition gcm_seal svc (a : Z) (key ivp A P : list Z) : list Z * list Z :=
  let ctx := aes_gcm_setkey svc a key ivp 12 in
  let ctx := aes_gcm_aad ctx A (length A) in
  let '(ctx, C) := aes_gcm_encrypt svc ctx P (length P) (replicate (length P) 0) in
  (C, (aes_gcm_final svc ctx).2).

Lemma len_block_spec m n : 0 <= m < 2 ^ 32 → 0 <= n < 2 ^ 32 →
  len_block m n = be64 (8 * m) ++ be64 (8 * n).
Proof.
  intros Hm Hn. unfold len_block. rewrite !Z.shiftl_mul_pow2 by lia. change (2 ^ 3) with 8.
  rewrite !u64_id by (unfold is_u64; lia). rewrite (Z.mul_comm m), (Z.mul_comm n).
  rewrite (put_be64_spec 0) by (rewrite ?length_replicate; unfold is_u64; lia).
  assert (length (blit 0 (be64 (8 * m)) (replicate 16 0)) = 16%nat) as Hl by reflexivity.
  rewrite put_be64_spec by (rewrite ?Hl; unfold is_u64; lia). reflexivity.
Qed.

Lemma final_tag (t x : list Z) : length t = 16%nat → length x = 16%nat →
  for_loop 0 16 (λ i o, <[i := get t i ^^ get x i]> o) (replicate 16 0) = xor_list t x.
Proof.
  intros Ht Hx. transitivity (msel_memcpy (replicate 16 0) 0 (xor_list t x) 0 16).
  - apply for_loop_ext. intros i s Hi. cbn [Nat.add]. by rewrite get_xor_list by lia.
  - assert (length (xor_list t x) = 16%nat) by (rewrite length_xor_list; lia).
    rewrite msel_memcpy_blit by (rewrite ?length_replicate; lia). unfold blit.
    rewrite drop_0, (take_ge (xor_list t x)) by lia.
    rewrite drop_ge by (rewrite length_replicate; lia). apply app_nil_r.
Qed.

Lemma gcm_final_ok svc `{!AesService svc} ctx : gcm_ok ctx →
  0 <= aad_len ctx < 2 ^ 32 → 0 <= input_len ctx < 2 ^ 32 →
  (aes_gcm_final svc ctx).2 =
  xor_list (ghash (hkey ctx) (tag ctx)
    [be64 (8 * aad_len ctx) ++ be64 (8 * input_len ctx)]) (gcm_E ctx (iv ctx)).
Proof.
  intros Hctx Ha Hi. pose proof Hctx as (Hk & Ht & Hh & Hiv & Hc). unfold aes_gcm_final.
  rewrite len_block_spec by done. set (lb := be64 _ ++ be64 _).
  assert (block_ok lb) as Hlb.
  { split; [reflexivity|]. apply bytes_ok_app. split; apply be64_bytes. }
  rewrite ghash_add_eq by (apply Ht || (rewrite (proj1 Hlb); unfold AES_BLOCK_SIZE; lia)).
  rewrite (take_ge lb) by (rewrite (proj1 Hlb); done). ctx_simpl.
  rewrite (aes_ecb_encrypt_ok svc) by (apply Hk || apply Hiv || apply Hlb). fold (gcm_E ctx). cbn [snd].
  destruct (gf_mul_spec (xor_list (tag ctx) lb) (hkey ctx)) as [Hg _]; [by apply xor_block_ok|done|].
  apply final_tag; [apply Hg|]. by apply aes_enc_ok.
Qed.

(** The key stream of a context set up with a 96-bit IV. *)
Lemma gctr_nist ctx ivp P : length ivp = 12%nat → bytes_ok ivp → Z.of_nat (length P) < 2 ^ 32 →
  civ ctx = Nist.counter ivp 0 → gctr ctx P = Nist.GCTR (gcm_E ctx) ivp P.
Proof.
  intros Hil Hib HPl Hciv. unfold gctr, Nist.GCTR.
  apply (f_equal (λ l, xor_list P (take (length P) (concat l)))). apply map_ext_in.
  intros k Hin%in_seq. unfold key_block. rewrite Hciv. apply (f_equal (gcm_E ctx)).
  apply ctr_at_counter; [exact Hil|exact Hib|].
  destruct (split16 (length P)) as [Hp Hr]. rewrite Hp, ceil16 in Hin by exact Hr.
  destruct (length P mod 16 =? 0)%nat; lia.
Qed.

(** The hash of associated data, ciphertext and lengths, in the field. *)
Lemma ghash_nist H A C lens : block_ok H → bytes_ok A → bytes_ok C → block_ok lens →
  ghash H (ghash H (ghash H (replicate 16 0) (blocks16 A)) (blocks16 C)) [lens] =
  gcm_unpoly (Nist.GHASH (gcm_poly H) (blocks16 A ++ blocks16 C ++ [lens])).
Proof.
  intros HH HA HC Hlens. destruct zero_block_poly as [Hz0 Hz].
  assert (Forall block_ok (blocks16 A ++ blocks16 C ++ [lens])) as Hall.
  { apply Forall_app. split; [by apply blocks16_ok|]. apply Forall_app.
    split; [by apply blocks16_ok|]. by apply Forall_singleton. }
  unfold Nist.GHASH. rewrite <- Hz0, <- ghash_poly by assumption.
  rewrite gcm_unpoly_poly by (by apply ghash_ok). unfold ghash. by rewrite !foldl_app.
Qed.

Lemma lens_ok m n : block_ok (be64 m ++ be64 n).
Proof. split; [reflexivity|]. apply bytes_ok_app. split; apply be64_bytes. Qed.

(** C4: for a 96-bit IV, setting up a context, adding the associated data,
    encrypting and finishing gives the ciphertext and the tag of GCM-AE of NIST
    SP 800-38D, for messages and associated data of any length below 2^32
    bytes: the byte loops are the GHASH field arithmetic and the 128-bit counter
    never leaves the range where it agrees with the standard's 32-bit one. *)
Theorem gcm_seal_nist svc `{!AesService svc} a key ivp A P :
  key_ok a key → length ivp = 12%nat → bytes_ok ivp → bytes_ok A → bytes_ok P →
  Z.of_nat (length A) < 2 ^ 32 → Z.of_nat (length P) < 2 ^ 32 →
  gcm_seal svc a key ivp A P = Nist.GCM_AE (aes_enc a key) ivp A P.
Proof.
  intros Hk Hil Hib HA HP HAl HPl. unfold gcm_seal. rewrite gcm_setkey_ok by assumption.
  destruct zero_block_poly as [_ Hz]. pose proof (counter_ok ivp 0 Hil Hib) as Hc0.
  pose proof (aes_enc_ok a key _ Hk Hz) as HH. unfold Nist.GCM_AE.
  set (H := aes_enc a key (replicate 16 0)) in *. set (ctx0 := AesGcmCtx _ _ _ _ _ _ _ _).
  assert (gcm_ok ctx0) as Hok0 by exact (conj Hk (conj Hz (conj HH (conj Hc0 Hc0)))).
  rewrite aes_gcm_aad_ok by assumption.
  pose proof (ghash_ok H (replicate 16 0) (blocks16 A) HH Hz (blocks16_ok A HA)) as Hg1.
  set (ctx1 := set_tag _ _).
  assert (gcm_ok ctx1) as Hok1 by exact (conj Hk (conj Hg1 (conj HH (conj Hc0 Hc0)))).
  rewrite aes_gcm_encrypt_ok by (assumption || by rewrite length_replicate).
  rewrite drop_ge, app_nil_r by (by rewrite length_replicate).
  pose proof (gctr_nist ctx1 ivp P Hil Hib HPl eq_refl) as HC.
  change (gcm_E ctx1) with (aes_enc a key) in HC. rewrite <- HC.
  pose proof (gctr_bytes ctx1 P Hok1 HP) as HCb.
  pose proof (gctr_length ctx1 Hok1 P) as HCl. set (C := gctr ctx1 P) in *.
  pose proof (ghash_ok H _ (blocks16 C) HH Hg1 (blocks16_ok C HCb)) as Hg2.
  assert (gcm_ok (gcm_after ctx1 C)) as Hok2.
  { exact (conj Hk (conj Hg2 (conj HH (conj Hc0 (proj1 (ctr_at_spec _ _ Hc0)))))). }
  apply (f_equal2 pair); [reflexivity|]. rewrite gcm_final_ok; [|exact _|exact Hok2|..].
  - unfold gcm_after, ctx1, ctx0, gcm_E. ctx_simpl. cbn [aes_algo aes_key].
    rewrite !Z.add_0_l, !u64_id by (unfold is_u64; lia).
    f_equal. apply ghash_nist; [exact HH|exact HA|exact HCb|apply lens_ok].
  - unfold gcm_after, ctx1, ctx0. ctx_simpl. rewrite u64_id; unfold is_u64; lia.
  - unfold gcm_after, ctx1, ctx0. ctx_simpl. rewrite u64_id; unfold is_u64; lia.
Qed.

Definition sample_gcm : aes_gcm_ctx_t := aes_gcm_setkey msel_do_aes 0 fips_key (take 12 fips_block) 12.

Lemma sample_gcm_ok : gcm_ok sample_gcm.
Proof.
  unfold sample_gcm. rewrite gcm_setkey_ok;
    [|exact _|apply fips_key_ok|reflexivity|by apply bytes_okb_ok].
  destruct zero_block_poly as [_ Hz].
  pose proof (counter_ok (take 12 fips_block) 0 eq_refl ltac:(by apply bytes_okb_ok)) as Hc.
  exact (conj fips_key_ok (conj Hz (conj (aes_enc_ok 0 fips_key _ fips_key_ok Hz) (conj Hc Hc)))).
Qed.

Definition sample_msg : list Z := fips_block ++ [1; 2; 3].

Lemma sample_msg_ok : bytes_ok sample_msg.
Proof. by apply bytes_okb_ok. Qed.

Lemma aes_gcm_roundtrip_witness :
  let '(ctx1, c) := aes_gcm_encrypt msel_do_aes sample_gcm sample_msg (length sample_msg)
                      (replicate 19 0) in
  aes_gcm_decrypt msel_do_aes sample_gcm c (length sample_msg) (replicate 19 0) = (ctx1, sample_msg).
Proof.
  exact (aes_gcm_roundtrip msel_do_aes sample_gcm sample_msg (replicate 19 0) (replicate 19 0)
    sample_gcm_ok sample_msg_ok eq_refl eq_refl).
Defined.

Lemma gcm_seal_nist_witness :
  gcm_seal msel_do_aes 0 fips_key (take 12 fips_block) [9; 8; 7] sample_msg =
  Nist.GCM_AE (aes_enc 0 fips_key) (take 12 fips_block) [9; 8; 7] sample_msg.
Proof.
  apply (gcm_seal_nist msel_do_aes 0 fips_key (take 12 fips_block) [9; 8; 7] sample_msg);
    [apply fips_key_ok|reflexivity|by apply bytes_okb_ok|by apply bytes_okb_ok|apply sample_msg_ok
    |cbn; lia|cbn; lia].
Defined.

(** The counter of the code is 128 bits wide: past the low word it carries,
    where the standard's [inc32] would wrap.  This happens for IVs that are not
    96 bits long, whose counter block is a hash. *)
Lemma gcm_inc_ctr_carries :
  gcm_inc_ctr (replicate 12 0 ++ replicate 4 255) = replicate 11 0 ++ [1] ++ replicate 4 0.
Proof. vm_compute. reflexivity. Qed.
