(* ===== verification/Prng.v ===== *)
(** * The pseudo-random generator

    [prng_init] and [prng_output] of lib/crypto/prng.c over any AES service: the
    ANSI X9.31 generator with a counter as its date/time vector.  The 64-bit
    words [v] and [dt] are passed to AES as memory, so the byte order of the
    target is a parameter. *)

From S2P Require Import Prelude Msel Words Stdc SwAes Fips197 AesDriver.

Local Open Scope Z_scope.
Local Open Scope orp_scope.

(** ** Operations *)

Record prng_ctx_t := PrngCtx { prng_aes : aes_ctx_t; v : Z * Z; dt : Z * Z }.

Definition prng_init (algo : Z) (k : list Z) (v_lo v_hi : Z) : prng_ctx_t :=
  PrngCtx (aes_setkey algo k) (v_lo, v_hi) (1, 0).

Section prng.
Context (svc : aes_driver_ctx_t → msel_status * list Z) (big_endian : bool).

(** A pair of 64-bit words as 16 bytes of memory, and back. *)
Definition word_mem (x : Z) : list Z :=
  if big_endian then rev (le_bytes 8 x) else le_bytes 8 x.
Definition pair_mem (p : Z * Z) : list Z := word_mem p.1 ++ word_mem p.2.
Definition mem_word (l : list Z) : Z := if big_endian then be_val l else le_val l.
Definition mem_pair (l : list Z) : Z * Z := (mem_word (take 8 l), mem_word (take 8 (drop 8 l))).

Definition prng_output (ctx : prng_ctx_t) (data_out : list Z) : prng_ctx_t * list Z :=
  let t := pair_mem (0, 0) in
  let I := mem_pair (aes_ecb_encrypt svc (prng_aes ctx) (pair_mem (dt ctx)) t) in
  let dt0 := u64 ((dt ctx).1 + 1) in
  let dt1 := u64 ((dt ctx).2 + (if dt0 =? 0 then 1 else 0)) in
  let t := (I.1 ^^ (v ctx).1, I.2 ^^ (v ctx).2) in
  let data_out := aes_ecb_encrypt svc (prng_aes ctx) (pair_mem t) data_out in
  let R := mem_pair data_out in
  let t := (R.1 ^^ I.1, R.2 ^^ I.2) in
  let v := mem_pair (aes_ecb_encrypt svc (prng_aes ctx) (pair_mem t) (pair_mem (v ctx))) in
  (PrngCtx (prng_aes ctx) v (dt0, dt1), data_out).
End prng.

(** ** Memory round trips *)

Section memory.
Context (big_endian : bool).

Lemma word_mem_ok x : length (word_mem big_endian x) = 8%nat ∧ bytes_ok (word_mem big_endian x).
Proof.
  unfold word_mem. destruct big_endian; rewrite ?length_rev, le_bytes_length.
  - split; [done|]. apply Forall_rev, le_bytes_ok.
  - split; [done|]. apply le_bytes_ok.
Qed.

Lemma pair_mem_ok p : block_ok (pair_mem big_endian p).
Proof.
  destruct p as [x y]. destruct (word_mem_ok x) as [Hx Hbx], (word_mem_ok y) as [Hy Hby].
  split; [unfold pair_mem; cbn [fst snd]; rewrite length_app, Hx, Hy; done|].
  apply bytes_ok_app. done.
Qed.

Lemma mem_word_mem x : is_u64 x → mem_word big_endian (word_mem big_endian x) = x.
Proof.
  intros Hx. unfold mem_word, word_mem, is_u64 in *.
  destruct big_endian; [unfold be_val; rewrite rev_involutive|]; by apply le_val_bytes.
Qed.

Lemma word_mem_word l : length l = 8%nat → bytes_ok l →
  word_mem big_endian (mem_word big_endian l) = l ∧ is_u64 (mem_word big_endian l).
Proof.
  intros Hl Hb. unfold word_mem, mem_word, be_val, is_u64.
  assert (length (rev l) = 8%nat ∧ bytes_ok (rev l)) as [Hrl Hrb].
  { split; [by rewrite length_rev|by apply Forall_rev]. }
  destruct big_endian.
  - split; [|pose proof (le_val_range (rev l) Hrb) as H; by rewrite Hrl in H].
    rewrite <- Hrl, le_bytes_val by done. apply rev_involutive.
  - split; [|pose proof (le_val_range l Hb) as H; by rewrite Hl in H].
    rewrite <- Hl at 1. by apply le_bytes_val.
Qed.

Lemma pair_mem_pair l : block_ok l → pair_mem big_endian (mem_pair big_endian l) = l.
Proof.
  intros [Hl Hb]. unfold AES_BLOCK_SIZE in Hl. unfold pair_mem, mem_pair. cbn [fst snd].
  destruct (word_mem_word (take 8 l)) as [-> _]; [rewrite length_take; lia|auto with width|].
  destruct (word_mem_word (take 8 (drop 8 l))) as [-> _];
    [rewrite length_take, length_drop; lia|auto with width|].
  rewrite (take_ge (drop 8 l)) by (rewrite length_drop; lia). apply take_drop.
Qed.

Lemma word_mem_xor x y : is_u64 x → is_u64 y →
  word_mem big_endian (x ^^ y) = xor_list (word_mem big_endian x) (word_mem big_endian y).
Proof.
  intros Hx Hy.
  assert (le_bytes 8 (x ^^ y) = xor_list (le_bytes 8 x) (le_bytes 8 y)) as He.
  { pose proof (le_bytes_ok 8 x) as Hbx. pose proof (le_bytes_ok 8 y) as Hby.
    pose proof (le_bytes_length 8 x) as Hlx. pose proof (le_bytes_length 8 y) as Hly.
    apply le_val_inj; [apply le_bytes_ok|by apply bytes_ok_xor_list|..].
    - rewrite le_bytes_length, length_xor_list; congruence.
    - rewrite le_val_xor by congruence. unfold is_u64 in *.
      rewrite (le_val_bytes 8 (x ^^ y)) by (apply (lxor_bound 64); [lia|exact Hx|exact Hy]).
      by rewrite !le_val_bytes. }
  unfold word_mem. rewrite He. destruct big_endian; [|done].
  apply list_eq_get; [rewrite length_rev, !length_xor_list; rewrite ?length_rev, !le_bytes_length; done|].
  intros i Hi. rewrite length_rev, length_xor_list, le_bytes_length in Hi by (by rewrite !le_bytes_length).
  do 8 (destruct i as [|i]; [reflexivity|]). lia.
Qed.
End memory.

(** ** The generator *)

(** One step of ANSI X9.31 on blocks: intermediate value, output, next seed. *)
Definition x931_step (E : list Z → list Z) (DT V : list Z) : list Z * list Z :=
  let I := E DT in
  let R := E (xor_list I V) in
  (R, E (xor_list R I)).

(** The counter as an integer. *)
Definition dt_val (p : Z * Z) : Z := p.1 + 2 ^ 64 * p.2.

Definition prng_ok (ctx : prng_ctx_t) : Prop :=
  key_ok (aes_algo (prng_aes ctx)) (aes_key (prng_aes ctx)) ∧
  (is_u64 (v ctx).1 ∧ is_u64 (v ctx).2) ∧ (is_u64 (dt ctx).1 ∧ is_u64 (dt ctx).2).

Section generator.
Context (svc : aes_driver_ctx_t → msel_status * list Z) `{!AesService svc} (be : bool).

Lemma pair_xor p q : is_u64 p.1 → is_u64 p.2 → is_u64 q.1 → is_u64 q.2 →
  pair_mem be (p.1 ^^ q.1, p.2 ^^ q.2) = xor_list (pair_mem be p) (pair_mem be q).
Proof.
  intros. unfold pair_mem. cbn [fst snd]. rewrite !word_mem_xor by done.
  unfold xor_list. symmetry. apply zip_with_app.
  by rewrite !(proj1 (word_mem_ok _ _)).
Qed.

Lemma mem_pair_ok l : block_ok l → is_u64 (mem_pair be l).1 ∧ is_u64 (mem_pair be l).2.
Proof.
  intros [Hl Hb]. unfold AES_BLOCK_SIZE in Hl. unfold mem_pair. cbn [fst snd]. split.
  - apply word_mem_word; [rewrite length_take; lia|auto with width].
  - apply word_mem_word; [rewrite length_take, length_drop; lia|auto with width].
Qed.

Lemma prng_output_ok ctx out : prng_ok ctx → length out = 16%nat →
  let E := aes_enc (aes_algo (prng_aes ctx)) (aes_key (prng_aes ctx)) in
  let r := prng_output svc be ctx out in
  let s := x931_step E (pair_mem be (dt ctx)) (pair_mem be (v ctx)) in
  r.2 = s.1 ∧ pair_mem be (v r.1) = s.2 ∧ dt_val (dt r.1) = (dt_val (dt ctx) + 1) mod 2 ^ 128 ∧
  prng_aes r.1 = prng_aes ctx ∧ prng_ok r.1.
Proof.
  intros (Hk & (Hv0 & Hv1) & Hd0 & Hd1) Ho. cbv zeta. unfold prng_output, x931_step.
  set (E := aes_enc _ _).
  assert (∀ x o, block_ok x → length o = 16%nat → aes_ecb_encrypt svc (prng_aes ctx) x o = E x) as HE
    by (intros x o Hx Hxo; apply aes_ecb_encrypt_ok; [exact _|exact Hk|exact Hx|exact Hxo]).
  assert (∀ x, block_ok x → block_ok (E x)) as HEok by (intros x Hx; apply aes_enc_ok; [exact Hk|exact Hx]).
  assert (∀ p, length (pair_mem be p) = 16%nat) as Hpl by (intros; apply pair_mem_ok).
  rewrite !HE by first [apply pair_mem_ok | apply Hpl | exact Ho].
  pose proof (HEok _ (pair_mem_ok be (dt ctx))) as HI. set (I := E (pair_mem be (dt ctx))) in *.
  destruct (mem_pair_ok I HI) as [HI0 HI1].
  rewrite (pair_xor (mem_pair be I) (v ctx)), pair_mem_pair by assumption.
  assert (block_ok (xor_list I (pair_mem be (v ctx)))) as Hx.
  { rewrite <- (pair_mem_pair be I HI), <- pair_xor by assumption. apply pair_mem_ok. }
  pose proof (HEok _ Hx) as HR. set (R := E (xor_list I _)) in *. destruct (mem_pair_ok R HR) as [HR0 HR1].
  rewrite (pair_xor (mem_pair be R) (mem_pair be I)), !pair_mem_pair by assumption.
  assert (block_ok (xor_list R I)) as Hx2.
  { rewrite <- (pair_mem_pair be R HR), <- (pair_mem_pair be I HI), <- pair_xor by assumption.
    apply pair_mem_ok. }
  pose proof (HEok _ Hx2) as HV. cbn [fst snd v dt prng_aes].
  split; [reflexivity|]. split; [by apply pair_mem_pair|]. split; [|split; [reflexivity|]].
  - clear -Hd0 Hd1. unfold dt_val, is_u64, u64 in *. cbn [fst snd].
    destruct (dt ctx) as [a b]; cbn [fst snd] in *.
    destruct (Z.eqb_spec ((a + 1) mod 2 ^ 64) 0); Z.div_mod_to_equations; lia.
  - split; [exact Hk|]. split; [by apply mem_pair_ok|]. split; apply u64_range.
Qed.
End generator.

(** The generator run [n] times, and its [n]-th output. *)
Definition prng_run svc be (n : nat) (ctx : prng_ctx_t) : prng_ctx_t :=
  Nat.iter n (λ c, (prng_output svc be c (replicate 16 0)).1) ctx.

Lemma prng_run_S svc be n ctx :
  prng_run svc be (S n) ctx = (prng_output svc be (prng_run svc be n ctx) (replicate 16 0)).1.
Proof. unfold prng_run. cbn [Nat.iter]. reflexivity. Qed.

(** The date/time block that holds the integer [m], and the seed after [n] steps
    of the standard. *)
Definition dt_block (be : bool) (m : Z) : list Z := pair_mem be (m mod 2 ^ 64, m / 2 ^ 64).
Fixpoint x931_seed (E : list Z → list Z) (be : bool) (n : nat) (V0 : list Z) : list Z :=
  match n with
  | O => V0
  | S n => (x931_step E (dt_block be (1 + Z.of_nat n)) (x931_seed E be n V0)).2
  end.

Section stream.
Context (svc : aes_driver_ctx_t → msel_status * list Z) `{!AesService svc} (be : bool).
Context (algo : Z) (k : list Z) (v_lo v_hi : Z).
Context (Hk : key_ok algo k) (Hlo : is_u64 v_lo) (Hhi : is_u64 v_hi).

Lemma dt_val_pair p m : is_u64 p.1 → is_u64 p.2 → dt_val p = m → pair_mem be p = dt_block be m.
Proof.
  intros H1 H2 <-. unfold dt_block, dt_val, is_u64 in *. destruct p as [a b]. cbn [fst snd] in *.
  f_equal. f_equal; Z.div_mod_to_equations; lia.
Qed.

(** The [n]-th output block of the standard, and the state before it. *)
Definition x931_out (n : nat) : list Z :=
  (x931_step (aes_enc algo k) (dt_block be (1 + Z.of_nat n))
     (x931_seed (aes_enc algo k) be n (pair_mem be (v_lo, v_hi)))).1.
Definition prng_at (n : nat) (ctx : prng_ctx_t) : Prop :=
  prng_ok ctx ∧ prng_aes ctx = AesCtx algo k ∧ dt_val (dt ctx) = 1 + Z.of_nat n ∧
  pair_mem be (v ctx) = x931_seed (aes_enc algo k) be n (pair_mem be (v_lo, v_hi)).

Lemma prng_at_init : prng_at 0 (prng_init algo k v_lo v_hi).
Proof.
  split; [|split; [reflexivity|split; reflexivity]].
  split; [exact Hk|]. split; [exact (conj Hlo Hhi)|]. cbn. unfold is_u64. lia.
Qed.

Lemma prng_at_step n ctx out : Z.of_nat n < 2 ^ 128 - 2 → prng_at n ctx → length out = 16%nat →
  prng_at (S n) (prng_output svc be ctx out).1 ∧ (prng_output svc be ctx out).2 = x931_out n.
Proof.
  intros Hn (Hok & Haes & Hdt & Hv) Ho.
  destruct (prng_output_ok svc be ctx out Hok Ho) as (Hr & Hv' & Hdt' & Ha' & Hok').
  destruct Hok as (_ & _ & Hd0 & Hd1). rewrite (dt_val_pair (dt ctx) (1 + Z.of_nat n)) in Hr, Hv' by assumption.
  rewrite Haes, Hv in Hr, Hv'. rewrite Haes in Ha'. split; [|exact Hr]. split; [exact Hok'|]. split; [exact Ha'|].
  split; [rewrite Hdt', Hdt, Z.mod_small; lia|]. exact Hv'.
Qed.

Lemma x931_step_ok DT V : block_ok DT → block_ok V →
  let s := x931_step (aes_enc algo k) DT V in block_ok s.1 ∧ block_ok s.2.
Proof.
  intros HD HV. pose proof (aes_enc_ok algo k _ Hk HD) as HI. pose proof (aes_enc_ok algo k _ Hk (xor_block_ok _ _ HI HV)) as HR.
  exact (conj HR (aes_enc_ok algo k _ Hk (xor_block_ok _ _ HR HI))).
Qed.

Lemma x931_seed_ok n : block_ok (x931_seed (aes_enc algo k) be n (pair_mem be (v_lo, v_hi))).
Proof.
  induction n as [|n IH]; [apply pair_mem_ok|].
  exact (proj2 (x931_step_ok _ _ (pair_mem_ok be _) IH)).
Qed.

Lemma x931_out_ok n : block_ok (x931_out n).
Proof. exact (proj1 (x931_step_ok _ _ (pair_mem_ok be _) (x931_seed_ok n))). Qed.

Lemma prng_run_ok n : Z.of_nat n < 2 ^ 128 - 1 → prng_at n (prng_run svc be n (prng_init algo k v_lo v_hi)).
Proof.
  induction n as [|n IH]; intros Hn; [exact prng_at_init|].
  rewrite prng_run_S. apply prng_at_step; [lia|apply IH; lia|reflexivity].
Qed.

(** C25: the [n]-th output of a generator started by [prng_init] is the [n]-th
    output of ANSI X9.31 with the integers 1, 2, 3, ... as date/time vectors,
    for either byte order of the target. *)
Theorem prng_stream_x931 n out : Z.of_nat n < 2 ^ 128 - 1 → length out = 16%nat →
  (prng_output svc be (prng_run svc be n (prng_init algo k v_lo v_hi)) out).2 =
  (x931_step (aes_enc algo k) (dt_block be (1 + Z.of_nat n))
     (x931_seed (aes_enc algo k) be n (pair_mem be (v_lo, v_hi)))).1.
Proof.
  intros Hn Ho. destruct (prng_run_ok n Hn) as (Hok & Haes & Hdt & Hv).
  set (ctx := prng_run svc be n _) in *.
  destruct (prng_output_ok svc be ctx out Hok Ho) as (Hr & _). rewrite Hr, Haes, Hv.
  cbn [aes_algo aes_key]. destruct Hok as (_ & _ & Hd0 & Hd1).
  rewrite (dt_val_pair (dt ctx) (1 + Z.of_nat n)) by assumption. reflexivity.
Qed.

(** The encrypted date/time vector never repeats in the first 2^128 - 1
    outputs of a generator. *)
Theorem prng_no_repeat i j : (i < j)%nat → Z.of_nat j < 2 ^ 128 - 1 →
  let E := aes_enc algo k in
  let at_ n := pair_mem be (dt (prng_run svc be n (prng_init algo k v_lo v_hi))) in
  E (at_ i) ≠ E (at_ j).
Proof.
  intros Hij Hj. cbv zeta. intros Heq. apply (f_equal (aes_dec algo k)) in Heq.
  rewrite !aes_dec_enc in Heq by (exact Hk || apply pair_mem_ok).
  destruct (prng_run_ok i ltac:(lia)) as ((_ & _ & Hi0 & Hi1) & _ & Hdi & _).
  destruct (prng_run_ok j ltac:(lia)) as ((_ & _ & Hj0 & Hj1) & _ & Hdj & _).
  set (p := dt (prng_run svc be i _)) in *. set (q := dt (prng_run svc be j _)) in *.
  clearbody p q. assert (p = q); [|subst; lia].
  apply (f_equal (mem_pair be)) in Heq. destruct p as [a b], q as [a' b']. cbn [fst snd] in *.
  unfold mem_pair, pair_mem in Heq. cbn [fst snd] in Heq.
  assert (∀ x y, take 8 (word_mem be x ++ word_mem be y) = word_mem be x ∧
                 take 8 (drop 8 (word_mem be x ++ word_mem be y)) = word_mem be y) as Hsp.
  { intros x y. destruct (word_mem_ok be x) as [Hx _], (word_mem_ok be y) as [Hy _].
    rewrite take_app_le, drop_app_ge, Hx, Nat.sub_diag, drop_0 by lia.
    split; apply take_ge; lia. }
  destruct (Hsp a b) as [E1 E2], (Hsp a' b') as [E3 E4]. rewrite E1, E2, E3, E4 in Heq.
  rewrite !mem_word_mem in Heq by assumption. congruence.
Qed.
End stream.

Lemma prng_stream_x931_witness :
  (prng_output msel_do_aes true (prng_run msel_do_aes true 1 (prng_init 0 fips_key 5 6))
     (replicate 16 0)).2 =
  (x931_step (aes_enc 0 fips_key) (dt_block true (1 + Z.of_nat 1))
     (x931_seed (aes_enc 0 fips_key) true 1 (pair_mem true (5, 6)))).1.
Proof.
  refine (prng_stream_x931 msel_do_aes true 0 fips_key 5 6 fips_key_ok _ _ 1 (replicate 16 0) _ eq_refl);
    unfold is_u64; lia.
Defined.

Lemma prng_no_repeat_witness :
  aes_enc 0 fips_key (pair_mem true (dt (prng_run msel_do_aes true 0 (prng_init 0 fips_key 5 6)))) ≠
  aes_enc 0 fips_key (pair_mem true (dt (prng_run msel_do_aes true 1 (prng_init 0 fips_key 5 6)))).
Proof.
  refine (prng_no_repeat msel_do_aes true 0 fips_key 5 6 fips_key_ok _ _ 0 1 _ _); unfold is_u64; lia.
Defined.
