(* ===== verification/SwSha.v ===== *)
(** * The software SHA-256 core

    [c8to32], [c32to8] and [sha256_transform] of driver/swcrypto/sw_sha.c,
    [msel_do_sha] of driver/sha_driver.c, the compression function of FIPS
    180-4, and the theorem that the code computes it.  The code interleaves the
    message schedule with the rounds; the standard computes it first. *)

From S2P Require Import Prelude Words.

Local Open Scope Z_scope.
Local Open Scope orp_scope.

(** ** Operations *)

Definition c8to32 (iv8 : list Z) : list Z :=
  for_loop 0 8 (λ k iv32,
    let i := (4 * k)%nat in
    <[(i / 4)%nat := (get iv8 i <<< 24) .| (get iv8 (i + 1) <<< 16)
                     .| (get iv8 (i + 2) <<< 8) .| get iv8 (i + 3)]> iv32)
    (replicate 8 0).

Definition c32to8 (iv32 : list Z) : list Z :=
  for_loop 0 8 (λ k iv8,
    let i := (4 * k)%nat in
    let iv8 := upd iv8 i (u8 (get iv32 (i / 4) >>> 24)) in
    let iv8 := upd iv8 (i + 1) (u8 (get iv32 (i / 4) >>> 16)) in
    let iv8 := upd iv8 (i + 2) (u8 (get iv32 (i / 4) >>> 8)) in
    upd iv8 (i + 3) (u8 (get iv32 (i / 4))))
    (replicate 32 0).

Definition Ch (x y z : Z) : Z := (x .& y) ^^ (not32 x .& z).
Definition Maj (x y z : Z) : Z := (x .& (y ^^ z)) ^^ (y .& z).
Definition ROTR32 (x y : Z) : Z := (x >>> y) .| u32 (x <<< (32 - y)).
Definition S0_32 (x : Z) : Z := ROTR32 x 2 ^^ ROTR32 x 13 ^^ ROTR32 x 22.
Definition S1_32 (x : Z) : Z := ROTR32 x 6 ^^ ROTR32 x 11 ^^ ROTR32 x 25.
Definition s0_32 (x : Z) : Z := ROTR32 x 7 ^^ ROTR32 x 18 ^^ (x >>> 3).
Definition s1_32 (x : Z) : Z := ROTR32 x 17 ^^ ROTR32 x 19 ^^ (x >>> 10).

(** The table, a row of four per line of the source. *)
Definition sha256_K : list Z := concat
  [[0x428a2f98; 0x71374491; 0xb5c0fbcf; 0xe9b5dba5];
   [0x3956c25b; 0x59f111f1; 0x923f82a4; 0xab1c5ed5];
   [0xd807aa98; 0x12835b01; 0x243185be; 0x550c7dc3];
   [0x72be5d74; 0x80deb1fe; 0x9bdc06a7; 0xc19bf174];
   [0xe49b69c1; 0xefbe4786; 0x0fc19dc6; 0x240ca1cc];
   [0x2de92c6f; 0x4a7484aa; 0x5cb0a9dc; 0x76f988da];
   [0x983e5152; 0xa831c66d; 0xb00327c8; 0xbf597fc7];
   [0xc6e00bf3; 0xd5a79147; 0x06ca6351; 0x14292967];
   [0x27b70a85; 0x2e1b2138; 0x4d2c6dfc; 0x53380d13];
   [0x650a7354; 0x766a0abb; 0x81c2c92e; 0x92722c85];
   [0xa2bfe8a1; 0xa81a664b; 0xc24b8b70; 0xc76c51a3];
   [0xd192e819; 0xd6990624; 0xf40e3585; 0x106aa070];
   [0x19a4c116; 0x1e376c08; 0x2748774c; 0x34b0bcb5];
   [0x391c0cb3; 0x4ed8aa4a; 0x5b9cca4f; 0x682e6ff3];
   [0x748f82ee; 0x78a5636f; 0x84c87814; 0x8cc70208];
   [0x90befffa; 0xa4506ceb; 0xbef9a3f7; 0xc67178f2]].

(** The eight working variables. *)
Record sha_vars := ShaVars { va : Z; vb : Z; vc : Z; vd : Z; ve : Z; vf : Z; vg : Z; vh : Z }.

(** One iteration of the main loop: the round, then the word 16 ahead. *)
Definition sha_step (i : nat) (st : sha_vars * list Z) : sha_vars * list Z :=
  let '(ShaVars a b c d e f g h, W) := st in
  let T1 := u32 (h + S1_32 e + Ch e f g + get sha256_K i + get W i) in
  let T2 := u32 (S0_32 a + Maj a b c) in
  let h := g in
  let g := f in
  let f := e in
  let e := u32 (d + T1) in
  let d := c in
  let c := b in
  let b := a in
  let a := u32 (T1 + T2) in
  let W := upd W (i + 16) (u32 (s1_32 (get W (i + 16 - 2)) + get W (i + 16 - 7)
             + s0_32 (get W (i + 16 - 15)) + get W (i + 16 - 16))) in
  (ShaVars a b c d e f g h, W).

Definition load_block (bptr : list Z) : list Z :=
  for_loop 0 16 (λ i W,
    upd W i ((get bptr (4 * i + 0) <<< 24) .| (get bptr (4 * i + 1) <<< 16)
             .| (get bptr (4 * i + 2) <<< 8) .| (get bptr (4 * i + 3) <<< 0)))
    (replicate 80 0).

Definition sha256_transform (iv bptr : list Z) : list Z :=
  let vars := ShaVars (get iv 0) (get iv 1) (get iv 2) (get iv 3)
                      (get iv 4) (get iv 5) (get iv 6) (get iv 7) in
  let W := load_block bptr in
  let '(ShaVars a b c d e f g h, _) := for_loop 0 64 sha_step (vars, W) in
  [u32 (get iv 0 + a); u32 (get iv 1 + b); u32 (get iv 2 + c); u32 (get iv 3 + d);
   u32 (get iv 4 + e); u32 (get iv 5 + f); u32 (get iv 6 + g); u32 (get iv 7 + h)].

(** [sha_data_t] and the driver entry point (software build). *)
Record sha_data_t := ShaData { sd_iv : list Z; sd_din : list Z }.

Definition msel_do_sha (data : sha_data_t) : sha_data_t :=
  let iv32 := c8to32 (sd_iv data) in
  let iv32 := sha256_transform iv32 (sd_din data) in
  ShaData (c32to8 iv32) (sd_din data).

(** ** FIPS 180-4 *)

Module Fips180.

Definition SHR (n x : Z) : Z := x >>> n.
Definition ROTR (n x : Z) : Z := (x >>> n) .| u32 (x <<< (32 - n)).
Definition ChF (x y z : Z) : Z := (x .& y) ^^ (not32 x .& z).
Definition MajF (x y z : Z) : Z := (x .& y) ^^ (x .& z) ^^ (y .& z).
Definition Sigma0 (x : Z) : Z := ROTR 2 x ^^ ROTR 13 x ^^ ROTR 22 x.
Definition Sigma1 (x : Z) : Z := ROTR 6 x ^^ ROTR 11 x ^^ ROTR 25 x.
Definition sigma0 (x : Z) : Z := ROTR 7 x ^^ ROTR 18 x ^^ SHR 3 x.
Definition sigma1 (x : Z) : Z := ROTR 17 x ^^ ROTR 19 x ^^ SHR 10 x.

(** Section 4.2.2: the constants are the first 32 bits of the fractional parts
    of the cube roots of the first 64 primes: [k] is the constant of [p] when
    [j * 2^32 + k] is the integer cube root of [p * 2^96] for some [j]. *)
Definition primes : list Z :=
  filter (λ p, Forall (λ d, p mod Z.of_nat d ≠ 0) (seq 2 (Z.to_nat p - 2)))
    (map Z.of_nat (seq 2 310)).
Definition is_cube_frac (p k : Z) : bool :=
  existsb (λ j, let r := j * 2 ^ 32 + k in
     (r * r * r <=? p * 2 ^ 96) && (p * 2 ^ 96 <? (r + 1) * (r + 1) * (r + 1)))
    [1; 2; 3; 4; 5; 6].

(** Section 6.2.2, step 1: the message schedule. *)
Fixpoint schedule (n : nat) (W : list Z) : list Z :=
  match n with
  | O => W
  | S n =>
      let t := length W in
      schedule n (W ++ [u32 (sigma1 (get W (t - 2)) + get W (t - 7)
                           + sigma0 (get W (t - 15)) + get W (t - 16))])
  end.

(** Steps 2 to 4. *)
Definition round (K W : list Z) (t : nat) (v : sha_vars) : sha_vars :=
  let T1 := u32 (vh v + Sigma1 (ve v) + ChF (ve v) (vf v) (vg v) + get K t + get W t) in
  let T2 := u32 (Sigma0 (va v) + MajF (va v) (vb v) (vc v)) in
  ShaVars (u32 (T1 + T2)) (va v) (vb v) (vc v) (u32 (vd v + T1)) (ve v) (vf v) (vg v).

Definition vars_of (H : list Z) : sha_vars :=
  ShaVars (get H 0) (get H 1) (get H 2) (get H 3) (get H 4) (get H 5) (get H 6) (get H 7).
Definition to_list (v : sha_vars) : list Z := [va v; vb v; vc v; vd v; ve v; vf v; vg v; vh v].

(** The sixteen words of a 64-byte block. *)
Definition words (M : list Z) : list Z :=
  map (λ i, be_val (take 4 (drop (4 * i) M))) (seq 0 16).

Definition compress (H M : list Z) : list Z :=
  let W := schedule 48 (words M) in
  let v := for_loop 0 64 (round sha256_K W) (vars_of H) in
  zip_with (λ h x, u32 (h + x)) H (to_list v).

End Fips180.

(** ** The code computes the compression function *)

(** The 64 constants of the table are those of the standard. *)
Lemma sha256_K_correct :
  length Fips180.primes = 64%nat ∧ length sha256_K = 64%nat ∧
  ∀ i, (i < 64)%nat → Fips180.is_cube_frac (get Fips180.primes i) (get sha256_K i) = true.
Proof.
  split; [by vm_compute|]. split; [done|]. intros i Hi.
  assert (forallb (λ i, Fips180.is_cube_frac (get Fips180.primes i) (get sha256_K i)) (seq 0 64)
    = true) as H by by vm_compute.
  rewrite forallb_forall in H. apply H, in_seq. lia.
Qed.

Lemma Maj_spec x y z : Maj x y z = Fips180.MajF x y z.
Proof. unfold Maj, Fips180.MajF. xor_solve. Qed.

Definition sched_word (S : list Z) (t : nat) : Z :=
  u32 (Fips180.sigma1 (get S (t - 2)) + get S (t - 7)
       + Fips180.sigma0 (get S (t - 15)) + get S (t - 16)).

Lemma schedule_length n W : length (Fips180.schedule n W) = (length W + n)%nat.
Proof.
  revert W. induction n as [|n IH]; intros W; [simpl; lia|].
  cbn [Fips180.schedule]. rewrite IH, length_app. simpl. lia.
Qed.

Lemma schedule_prefix n W t : (t < length W)%nat → get (Fips180.schedule n W) t = get W t.
Proof.
  revert W. induction n as [|n IH]; intros W Ht; [done|].
  cbn [Fips180.schedule]. rewrite IH by (rewrite length_app; lia). by rewrite get_app_l.
Qed.

(** Every word of the schedule after the first sixteen satisfies the recurrence. *)
Lemma schedule_rec n W t : (16 ≤ length W)%nat → (length W ≤ t < length W + n)%nat →
  get (Fips180.schedule n W) t = sched_word (Fips180.schedule n W) t.
Proof.
  revert W. induction n as [|n IH]; intros W HW Ht; [lia|].
  cbn [Fips180.schedule]. set (W' := W ++ [_]).
  assert (length W' = S (length W)) as Hl by (unfold W'; rewrite length_app; simpl; lia).
  destruct (decide (t = length W)) as [->|]; [|apply IH; lia].
  unfold sched_word. rewrite !schedule_prefix by lia. unfold W'.
  rewrite (get_app_r W _ (length W)) by lia. rewrite Nat.sub_diag, !get_app_l by lia. done.
Qed.

Lemma words_get M i : (i < 16)%nat → length M = 64%nat → bytes_ok M →
  get (Fips180.words M) i =
  be32 (get M (4 * i)) (get M (4 * i + 1)) (get M (4 * i + 2)) (get M (4 * i + 3)).
Proof.
  intros Hi Hl Hb. unfold Fips180.words.
  rewrite <- be_val_be32 by by apply get_u8.
  transitivity (be_val (take 4 (drop (4 * i) M))).
  { unfold get. by rewrite list_lookup_fmap, lookup_seq_lt. }
  f_equal. apply list_eq_get; [rewrite length_take, length_drop; cbn [length]; lia|].
  intros k Hk. rewrite length_take, length_drop in Hk.
  unfold get at 1. rewrite lookup_take, decide_True, lookup_drop by lia.
  do 4 (destruct k as [|k]; [rewrite ?Nat.add_0_r; done|]). lia.
Qed.

Lemma for_loop_fill n m (f : nat → Z) (l : list Z) : (n ≤ length l)%nat → (m ≤ n)%nat →
  let r := for_loop 0 m (λ i W, upd W i (f i)) l in
  length r = length l ∧ ∀ i, (i < m)%nat → get r i = f i.
Proof.
  intros Hl Hm. cbv zeta. induction m as [|m IH]; [split; [done|lia]|].
  destruct IH as [IHl IHg]; [lia|]. rewrite for_loop_S_r, length_insert. split; [done|].
  intros i Hi. destruct (decide (i = m)) as [->|].
  - rewrite get_insert_eq by lia. done.
  - rewrite get_insert_ne by lia. apply IHg. lia.
Qed.

Lemma load_block_spec M : length M = 64%nat → bytes_ok M →
  length (load_block M) = 80%nat ∧
  ∀ i, (i < 16)%nat → get (load_block M) i = get (Fips180.words M) i.
Proof.
  intros Hl Hb. destruct (for_loop_fill 16 16 (λ i, (get M (4 * i + 0) <<< 24)
    .| (get M (4 * i + 1) <<< 16) .| (get M (4 * i + 2) <<< 8) .| (get M (4 * i + 3) <<< 0))
    (replicate 80 0)) as [H1 H2]; [rewrite length_replicate; lia|done|].
  split; [exact H1|]. intros i Hi. rewrite words_get by done.
  etransitivity; [by apply H2|]. by rewrite Nat.add_0_r, Z.shiftl_0_r.
Qed.

(** The invariant of the main loop: the variables are those of the standard's
    rounds over the full schedule, and the code's array holds the schedule up to
    16 words ahead. *)
Lemma sha_loop_inv S i st : (i ≤ 64)%nat → length st.2 = 80%nat →
  (∀ t, (16 ≤ t < 80)%nat → get S t = sched_word S t) →
  (∀ t, (t < 16)%nat → get st.2 t = get S t) →
  let r := for_loop 0 i sha_step st in
  r.1 = for_loop 0 i (Fips180.round sha256_K S) st.1 ∧ length r.2 = 80%nat ∧
  ∀ t, (t < i + 16)%nat → get r.2 t = get S t.
Proof.
  intros Hi Hl Hrec Hst. cbv zeta. induction i as [|i IH]; [by repeat split|].
  destruct IH as (IHv & IHl & IHw); [lia|]. rewrite !for_loop_S_r. cbn [Nat.add].
  destruct (for_loop 0 i sha_step st) as [[a b c d e f g h] W]. cbn [fst snd] in *.
  rewrite <- IHv. unfold sha_step, Fips180.round. cbn [fst snd va vb vc vd ve vf vg vh].
  rewrite Maj_spec. split; [by rewrite (IHw i) by lia|]. rewrite length_insert. split; [done|].
  intros t Ht. destruct (decide (t = i + 16)%nat) as [->|].
  - rewrite get_insert_eq, Hrec by lia. unfold sched_word. by rewrite !IHw by lia.
  - rewrite get_insert_ne by lia. apply IHw. lia.
Qed.

Definition hash_ok (H : list Z) : Prop := length H = 8%nat ∧ words_ok H.
Definition sha_block_ok (M : list Z) : Prop := length M = 64%nat ∧ bytes_ok M.

Ltac destruct_hash H := do 8 (destruct H as [|? H]; [exfalso; done|]); destruct H; [|exfalso; done].

Lemma schedule_add n m W :
  Fips180.schedule (n + m) W = Fips180.schedule m (Fips180.schedule n W).
Proof. revert W. induction n as [|n IH]; intros W; [done|]. apply IH. Qed.

(** The rounds read only the first 64 words of the schedule. *)
Lemma rounds_schedule H M : length (Fips180.words M) = 16%nat →
  for_loop 0 64 (Fips180.round sha256_K (Fips180.schedule 48 (Fips180.words M))) H =
  for_loop 0 64 (Fips180.round sha256_K (Fips180.schedule (48 + 16) (Fips180.words M))) H.
Proof.
  intros Hl. apply for_loop_ext. intros i v Hi. unfold Fips180.round.
  rewrite schedule_add, (schedule_prefix 16 (Fips180.schedule 48 _) i); [reflexivity|].
  rewrite schedule_length. lia.
Qed.

Lemma transform_rounds H M : sha_block_ok M →
  (for_loop 0 64 sha_step (Fips180.vars_of H, load_block M)).1 =
  for_loop 0 64 (Fips180.round sha256_K (Fips180.schedule 48 (Fips180.words M)))
    (Fips180.vars_of H).
Proof.
  intros [Hl Hb].
  assert (length (Fips180.words M) = 16%nat) as Hw
    by (unfold Fips180.words; by rewrite length_map, length_seq).
  destruct (load_block_spec M Hl Hb) as [Hbl Hbg]. rewrite rounds_schedule by done.
  apply (sha_loop_inv _ 64 (Fips180.vars_of H, load_block M)); [lia|exact Hbl|..].
  - intros t Ht. apply schedule_rec; lia.
  - intros t Ht. cbn [snd]. rewrite Hbg, schedule_prefix by lia. done.
Qed.

Lemma sha256_transform_spec H M : length H = 8%nat → sha_block_ok M →
  sha256_transform H M = Fips180.compress H M.
Proof.
  intros HH HM. unfold sha256_transform, Fips180.compress. fold (Fips180.vars_of H).
  rewrite <- (transform_rounds H M HM).
  destruct (for_loop 0 64 sha_step _) as [[a b c d e f g h] W].
  destruct_hash H. reflexivity.
Qed.

(** ** The driver: the chaining value travels as 32 bytes *)

Definition word_bytes (x : Z) : list Z := [byte3 x; byte2 x; byte1 x; byte0 x].
Definition digest (H : list Z) : list Z := concat (map word_bytes H).

Lemma c32to8_digest H : length H = 8%nat → c32to8 H = digest H.
Proof. intros HH. destruct_hash H. reflexivity. Qed.

Lemma c8to32_digest H : hash_ok H → c8to32 (digest H) = H.
Proof.
  intros [HH Hw]. destruct_hash H. unfold words_ok in Hw. decompose_Forall_hyps.
  repeat match goal with H : is_u32 ?x |- _ => apply be32_eta in H end.
  cbv [c8to32 digest word_bytes map concat app for_loop foldl seq get lookup list_lookup default
       from_option id replicate insert list_insert Nat.mul Nat.add Nat.div Nat.divmod fst].
  unfold be32 in *. congruence.
Qed.

Lemma digest_ok H : length (digest H) = (4 * length H)%nat ∧ bytes_ok (digest H).
Proof.
  induction H as [|x H [IHl IHb]]; [by split; [|constructor]|].
  cbn. split; [unfold digest in IHl; lia|]. repeat apply Forall_cons_2; try apply u8_range. apply IHb.
Qed.

Lemma compress_ok H M : length H = 8%nat → hash_ok (Fips180.compress H M).
Proof.
  intros HH. unfold Fips180.compress. set (v := for_loop _ _ _ _). destruct v as [a b c d e f g h].
  destruct_hash H. split; [done|]. cbn.
  do 8 (refine (Forall_cons_2 _ _ _ _ _); [apply u32_range|]). apply Forall_nil_2.
Qed.

(** What the SHA service promises to its clients: one compression step on the
    32-byte chaining value, the input block unchanged. *)
Class ShaCore (svc : sha_data_t → sha_data_t) : Prop := {
  sha_core_step : ∀ H M, hash_ok H → sha_block_ok M →
    svc (ShaData (digest H) M) = ShaData (digest (Fips180.compress H M)) M
}.

#[export] Instance sw_sha_core : ShaCore msel_do_sha.
Proof.
  constructor. intros H M HH HM. unfold msel_do_sha. cbn [sd_iv sd_din].
  rewrite c8to32_digest by done. rewrite sha256_transform_spec by (apply HH || done).
  rewrite c32to8_digest; [done|]. apply compress_ok, HH.
Qed.

(** The software SHA driver ([c8to32], [sha256_transform], [c32to8])
    performs the FIPS 180-4 compression function on the chaining value stored
    big-endian in [data->iv], for every chaining value and input block. *)
Theorem msel_do_sha_fips180 H M : hash_ok H → sha_block_ok M →
  msel_do_sha (ShaData (digest H) M) = ShaData (digest (Fips180.compress H M)) M.
Proof. apply sha_core_step. Qed.

Definition abc_block : list Z := [97; 98; 99; 128] ++ replicate 59 0 ++ [24].
Definition sha_H0 : list Z :=
  [0x6a09e667; 0xbb67ae85; 0x3c6ef372; 0xa54ff53a; 0x510e527f; 0x9b05688c; 0x1f83d9ab; 0x5be0cd19].

Lemma sha_H0_ok : hash_ok sha_H0.
Proof. split; [done|]. by apply words_okb_ok. Qed.

Lemma abc_block_ok : sha_block_ok abc_block.
Proof. split; [done|]. by apply bytes_okb_ok. Qed.

Lemma abc_compress :
  Fips180.compress sha_H0 abc_block =
    [0xba7816bf; 0x8f01cfea; 0x414140de; 0x5dae2223; 0xb00361a3; 0x96177a9c; 0xb410ff61; 0xf20015ad].
Proof. by vm_compute. Qed.

Lemma msel_do_sha_fips180_witness :
  msel_do_sha (ShaData (digest sha_H0) abc_block) =
    ShaData (digest (Fips180.compress sha_H0 abc_block)) abc_block.
Proof. exact (msel_do_sha_fips180 sha_H0 abc_block sha_H0_ok abc_block_ok). Defined.
