(* ===== verification/Sha2.v ===== *)
(** * SHA-256 hashing

    [sha2_update], [sha2_final] and [sha256_hash] of lib/crypto/sha2.c over the
    SHA service, and SHA-256 of FIPS 180-4.  The hash is the standard's for
    every message whose length modulo 64 is not between 49 and 55; for those
    lengths [sha2_final] overwrites the end of the message, and the theorems
    below say exactly what is hashed instead. *)

From S2P Require Import Prelude Words Stdc SwSha.

Local Open Scope Z_scope.
Local Open Scope orp_scope.

Definition SHA256_INPUT_SIZE : nat := 64.
Definition SHA256_HASH_SIZE : nat := 32.

Definition sha2_iv : list Z :=
  [0x6a; 0x09; 0xe6; 0x67; 0xbb; 0x67; 0xae; 0x85;
   0x3c; 0x6e; 0xf3; 0x72; 0xa5; 0x4f; 0xf5; 0x3a;
   0x51; 0x0e; 0x52; 0x7f; 0x9b; 0x05; 0x68; 0x8c;
   0x1f; 0x83; 0xd9; 0xab; 0x5b; 0xe0; 0xcd; 0x19].

Record sha2_ctx_t := Sha2Ctx { pos : nat; Nl : Z; Nh : Z; data : sha_data_t }.

Definition set_din (d : sha_data_t) (din : list Z) : sha_data_t := ShaData (sd_iv d) din.

(** ** Operations *)

Section hash.
Context (svc_sha : sha_data_t → sha_data_t).

(** One iteration of the loop of [sha2_update]: [ncpy] bytes of [bptr]. *)
Definition update_step (ctx : sha2_ctx_t) (bptr : list Z) (ncpy : nat) : sha2_ctx_t :=
  let data := set_din (data ctx) (msel_memcpy (sd_din (data ctx)) (pos ctx) bptr 0 ncpy) in
  let pos := (pos ctx + ncpy)%nat in
  let Ntmp := u64 (Nl ctx + u32 (Z.of_nat ncpy <<< 3)) in
  let Nh := u64 (Nh ctx + (if Ntmp <? Nl ctx then 1 else 0)) in
  let Nl := Ntmp in
  if (pos =? SHA256_INPUT_SIZE)%nat then Sha2Ctx 0 Nl Nh (svc_sha data)
  else Sha2Ctx pos Nl Nh data.

Fixpoint update_loop (fuel : nat) (ctx : sha2_ctx_t) (bptr : list Z) (len : nat)
  : option sha2_ctx_t :=
  match len, fuel with
  | O, _ => Some ctx
  | _, O => None
  | _, S fuel =>
      let ncpy := (SHA256_INPUT_SIZE - pos ctx)%nat in
      let ncpy := if (len <? ncpy)%nat then len else ncpy in
      update_loop fuel (update_step ctx bptr ncpy) (drop ncpy bptr) (len - ncpy)
  end.

Definition sha2_update (ctx : sha2_ctx_t) (buf : list Z) (len : nat) : option sha2_ctx_t :=
  update_loop len ctx buf len.

Definition sha2_final (ctx : sha2_ctx_t) : list Z :=
  let d := data ctx in
  let d := set_din d (<[pos ctx := 0x80]> (sd_din d)) in
  let p := (pos ctx + 1)%nat in
  let '(d, p) :=
    if (SHA256_INPUT_SIZE - 8 <? p)%nat then
      let d := set_din d (msel_memset (sd_din d) p 0 (SHA256_INPUT_SIZE - p)) in
      (svc_sha d, 0%nat)
    else (d, p) in
  let d := set_din d (msel_memset (sd_din d) p 0 (SHA256_INPUT_SIZE - p)) in
  let d := set_din d (put_be64 (SHA256_INPUT_SIZE - 15) (Nh ctx) (sd_din d)) in
  let d := set_din d (put_be64 (SHA256_INPUT_SIZE - 8) (Nl ctx) (sd_din d)) in
  let d := svc_sha d in
  take SHA256_HASH_SIZE (sd_iv d).

Definition sha256_hash (inp : list Z) (len : nat) : option (list Z) :=
  let ctx := Sha2Ctx 0 0 0 (ShaData (replicate 32 0) (replicate SHA256_INPUT_SIZE 0)) in
  let iv := msel_memcpy (sd_iv (data ctx)) 0 sha2_iv 0 32 in
  let ctx := Sha2Ctx (pos ctx) (Nl ctx) (Nh ctx) (ShaData iv (sd_din (data ctx))) in
  ctx ← sha2_update ctx inp len;
  Some (sha2_final ctx).

End hash.

(** ** FIPS 180-4, sections 5 and 6.2 *)

(** The first [n] 64-byte blocks of a byte string. *)
Definition chunks (n : nat) (l : list Z) : list (list Z) :=
  map (λ i, take 64 (drop (64 * i) l)) (seq 0 n).

(** The chaining value after the whole blocks of [l]. *)
Definition absorb (l : list Z) : list Z :=
  foldl Fips180.compress sha_H0 (chunks (length l / 64) l).

(** Section 5.1.1: a one bit, zeros, and the length in bits on 64 bits. *)
Definition pad (m : list Z) : list Z :=
  let l := Z.of_nat (length m) in
  m ++ 0x80 :: replicate (Z.to_nat ((55 - l) mod 64)) 0 ++ be64 (8 * l).

Definition SHA256 (m : list Z) : list Z := digest (absorb (pad m)).

(** Section 5.3.3: the initial hash value is the first 32 bits of the fractional
    parts of the square roots of the first eight primes. *)
Definition is_sqrt_frac (p k : Z) : bool :=
  existsb (λ j, let r := j * 2 ^ 32 + k in
    (r * r <=? p * 2 ^ 64) && (p * 2 ^ 64 <? (r + 1) * (r + 1))) [1; 2; 3; 4].

Lemma sha_H0_correct :
  digest sha_H0 = sha2_iv ∧
  ∀ i, (i < 8)%nat → is_sqrt_frac (get Fips180.primes i) (get sha_H0 i) = true.
Proof.
  split; [by vm_compute|]. intros i Hi.
  assert (forallb (λ i, is_sqrt_frac (get Fips180.primes i) (get sha_H0 i)) (seq 0 8) = true)
    as H by by vm_compute.
  rewrite forallb_forall in H. apply H, in_seq. lia.
Qed.

(** ** Absorbing blocks *)

Lemma div64 q r : (r < 64)%nat → ((64 * q + r) / 64 = q)%nat.
Proof. intros. symmetry. apply (Nat.div_unique _ _ _ r); lia. Qed.

Lemma chunks_app n l k : (64 * n ≤ length l)%nat → chunks n (l ++ k) = chunks n l.
Proof.
  intros Hn. apply map_ext_in. intros i Hi%in_seq.
  rewrite drop_app_le, take_app_le; [done|rewrite length_drop; lia|lia].
Qed.

(** Appending to a string of [64 q + r] bytes what completes the block. *)
Lemma absorb_block p t : (length p mod 64 + length t = 64)%nat →
  absorb (p ++ t) =
  Fips180.compress (absorb p) (drop (64 * (length p / 64)) p ++ t).
Proof.
  intros Ht. unfold absorb. set (q := (length p / 64)%nat).
  pose proof (Nat.div_mod_eq (length p) 64) as Hdm. fold q in Hdm.
  assert (length (p ++ t) / 64 = S q)%nat as ->.
  { rewrite length_app. replace (length p + length t)%nat with (64 * S q + 0)%nat by lia.
    apply div64. lia. }
  unfold chunks at 1. rewrite seq_S, map_app, foldl_app. cbn [map foldl Nat.add].
  fold (chunks q (p ++ t)). rewrite chunks_app by lia. f_equal.
  rewrite drop_app_le by lia. apply take_ge. rewrite length_app, length_drop. lia.
Qed.

(** Appending without completing a block changes nothing. *)
Lemma absorb_partial p t : (length p mod 64 + length t < 64)%nat → absorb (p ++ t) = absorb p.
Proof.
  intros Ht. unfold absorb. pose proof (Nat.div_mod_eq (length p) 64) as Hdm.
  set (q := (length p / 64)%nat) in *. rewrite length_app.
  replace (length p + length t)%nat with (64 * q + (length p mod 64 + length t))%nat by lia.
  rewrite div64 by lia. by rewrite chunks_app by lia.
Qed.

Lemma absorb_ok l : hash_ok (absorb l).
Proof.
  unfold absorb. generalize (chunks (length l / 64) l) as bs.
  intros bs. assert (hash_ok sha_H0) as H0 by apply sha_H0_ok. revert H0. generalize sha_H0.
  induction bs as [|b bs IH]; intros H HH; [done|]. apply IH, compress_ok, HH.
Qed.

(** ** Correctness over any SHA service *)

(** The context after the bytes [p]: whole blocks are absorbed, the rest waits
    at the start of [din]. *)
Record ctx_rel (ctx : sha2_ctx_t) (p : list Z) : Prop := CtxRel {
  rel_pos : pos ctx = (length p mod 64)%nat;
  rel_Nl : Nl ctx = 8 * Z.of_nat (length p);
  rel_Nh : Nh ctx = 0;
  rel_iv : sd_iv (data ctx) = digest (absorb p);
  rel_din : length (sd_din (data ctx)) = 64%nat;
  rel_bytes : bytes_ok (sd_din (data ctx));
  rel_rest : take (pos ctx) (sd_din (data ctx)) = drop (64 * (length p / 64)) p
}.

Lemma mod64_add (p : list Z) c : (length p mod 64 + c < 64)%nat →
  ((length p + c) mod 64 = length p mod 64 + c)%nat ∧
  ((length p + c) / 64 = length p / 64)%nat.
Proof.
  intros. pose proof (Nat.div_mod_eq (length p) 64).
  replace (length p + c)%nat with (64 * (length p / 64) + (length p mod 64 + c))%nat by lia.
  rewrite div64 by lia. split; [|done]. symmetry. apply (Nat.mod_unique _ _ (length p / 64)); lia.
Qed.

Lemma mod64_full (p : list Z) c : (length p mod 64 + c = 64)%nat →
  ((length p + c) mod 64 = 0)%nat ∧ (64 * ((length p + c) / 64) = length p + c)%nat.
Proof.
  intros. pose proof (Nat.div_mod_eq (length p) 64).
  replace (length p + c)%nat with (64 * (S (length p / 64)) + 0)%nat by lia.
  rewrite div64 by lia. split; [|lia]. symmetry. apply (Nat.mod_unique _ _ (S (length p / 64))); lia.
Qed.

Section correct.
Context (svc_sha : sha_data_t → sha_data_t) `{!ShaCore svc_sha}.

(** The data words after copying [c] behind the pending bytes. *)
Lemma update_data ctx p c bptr : ctx_rel ctx p → c = take (length c) bptr →
  (length p mod 64 + length c ≤ 64)%nat → bytes_ok bptr → (length c ≤ length bptr)%nat →
  msel_memcpy (sd_din (data ctx)) (pos ctx) bptr 0 (length c) = blit (pos ctx) c (sd_din (data ctx)).
Proof.
  intros [Hp _ _ _ Hd _ _] Hc Hle Hb Hl. rewrite msel_memcpy_blit by lia.
  by rewrite drop_0, <- Hc.
Qed.

Lemma update_step_rel ctx p c bptr : ctx_rel ctx p → c = take (length c) bptr →
  (length p mod 64 + length c ≤ 64)%nat → bytes_ok bptr → (length c ≤ length bptr)%nat →
  8 * Z.of_nat (length p + length c) < 2 ^ 64 →
  ctx_rel (update_step svc_sha ctx bptr (length c)) (p ++ c).
Proof.
  intros Hrel Hc Hle Hb Hl Hbound. pose proof (update_data _ _ _ _ Hrel Hc Hle Hb Hl) as Hdat.
  destruct Hrel as [Hp HNl HNh Hiv Hd Hdb Hrest]. unfold update_step. rewrite Hdat, HNl, HNh.
  assert (bytes_ok c) as Hcb by (rewrite Hc; by apply bytes_ok_take).
  assert (u32 (Z.of_nat (length c) <<< 3) = 8 * Z.of_nat (length c)) as ->.
  { rewrite Z.shiftl_mul_pow2 by lia. rewrite u32_id; [lia|unfold is_u32; lia]. }
  rewrite u64_id by (unfold is_u64; lia).
  destruct (Z.ltb_spec (8 * Z.of_nat (length p) + 8 * Z.of_nat (length c)) (8 * Z.of_nat (length p)));
    [lia|].
  pose proof (blit_take (pos ctx) c (sd_din (data ctx)) ltac:(lia)) as Hbt. rewrite Hrest in Hbt.
  pose proof (blit_length (pos ctx) c (sd_din (data ctx)) ltac:(lia)) as Hbl.
  pose proof (bytes_ok_blit (pos ctx) c (sd_din (data ctx)) Hcb Hdb) as Hbb.
  set (din := blit _ _ _) in *.
  unfold SHA256_INPUT_SIZE. destruct (Nat.eqb_spec (pos ctx + length c) 64) as [Hfull|Hpart].
  - destruct (mod64_full p (length c)) as [Hm Hq]; [lia|].
    rewrite Hfull, take_ge in Hbt by lia. unfold set_din. rewrite Hiv.
    rewrite sha_core_step by first [apply absorb_ok | split; [lia|done]].
    constructor; cbn [pos Nl Nh data sd_iv sd_din]; rewrite ?length_app; try done; try lia.
    + rewrite Hbt. by rewrite absorb_block by lia.
    + rewrite Hq. rewrite drop_ge by (rewrite length_app; lia). done.
  - destruct (mod64_add p (length c)) as [Hm Hq]; [lia|].
    constructor; cbn [pos Nl Nh data sd_iv sd_din set_din]; rewrite ?length_app; try done; try lia.
    + rewrite absorb_partial by lia. done.
    + rewrite Hq, Hbt, drop_app_le; [done|]. pose proof (Nat.div_mod_eq (length p) 64). lia.
Qed.

Lemma update_loop_rel fuel ctx p bptr len : ctx_rel ctx p → (len ≤ fuel)%nat →
  (len ≤ length bptr)%nat → bytes_ok bptr → 8 * Z.of_nat (length p + len) < 2 ^ 64 →
  ∃ ctx', update_loop svc_sha fuel ctx bptr len = Some ctx' ∧ ctx_rel ctx' (p ++ take len bptr).
Proof.
  revert ctx p bptr len. induction fuel as [|fuel IH]; intros ctx p bptr len Hrel Hf Hl Hb Hn.
  { assert (len = 0%nat) as -> by lia. exists ctx. by rewrite take_0, app_nil_r. }
  destruct len as [|len']; [exists ctx; by rewrite take_0, app_nil_r|]. set (len := S len') in *.
  cbn [update_loop]. fold len. pose proof (rel_pos _ _ Hrel) as Hp.
  pose proof (Nat.mod_upper_bound (length p) 64 ltac:(lia)) as Hm.
  unfold SHA256_INPUT_SIZE.
  set (ncpy := if (len <? 64 - pos ctx)%nat then len else (64 - pos ctx)%nat).
  assert (1 ≤ ncpy ≤ len ∧ pos ctx + ncpy ≤ 64)%nat as [Hn1 Hn2].
  { unfold ncpy. destruct (Nat.ltb_spec len (64 - pos ctx)); lia. }
  set (c := take ncpy bptr).
  assert (length c = ncpy) as Hc by (unfold c; rewrite length_take; lia).
  pose proof (update_step_rel ctx p c bptr Hrel) as Hstep. rewrite Hc in Hstep.
  specialize (Hstep eq_refl ltac:(lia) Hb ltac:(lia) ltac:(lia)).
  destruct (IH _ (p ++ c) (drop ncpy bptr) (len - ncpy)%nat Hstep) as (ctx' & Hrun & Hrel');
    [lia|rewrite length_drop; lia|auto with width|rewrite length_app; lia|].
  exists ctx'. split; [exact Hrun|]. rewrite <- app_assoc in Hrel'. unfold c in Hrel'.
  rewrite take_take_drop in Hrel'. by replace (ncpy + (len - ncpy))%nat with len in Hrel' by lia.
Qed.

(** The block that ends with the marker and zeros. *)
Definition marked (rest : list Z) : list Z := rest ++ 0x80 :: replicate (63 - length rest) 0.

Lemma mark_block ctx p : ctx_rel ctx p →
  msel_memset (<[pos ctx := 0x80]> (sd_din (data ctx))) (pos ctx + 1) 0 (64 - (pos ctx + 1)) =
  marked (take (pos ctx) (sd_din (data ctx))) ∧ length (take (pos ctx) (sd_din (data ctx))) = pos ctx
  ∧ (pos ctx < 64)%nat.
Proof.
  intros [Hp _ _ _ Hd _ _]. pose proof (Nat.mod_upper_bound (length p) 64 ltac:(lia)).
  set (din := sd_din (data ctx)) in *. set (r := pos ctx) in *.
  assert (length (take r din) = r) as Hr by (rewrite length_take; lia).
  split; [|split; [done|lia]]. rewrite msel_memset_blit by (rewrite length_insert; lia).
  unfold blit, marked. rewrite Hr, length_replicate.
  rewrite (drop_ge _ (r + 1 + _)) by (rewrite length_insert; lia). rewrite app_nil_r.
  rewrite insert_take_drop by lia.
  replace (take (r + 1) (take r din ++ 128 :: drop (S r) din)) with (take r din ++ [128]).
  - rewrite <- app_assoc. cbn [app]. do 3 f_equal. lia.
  - rewrite take_app_ge by lia. rewrite Hr. f_equal. by replace (r + 1 - r)%nat with 1%nat by lia.
Qed.

(** The last block as [sha2_final] builds it from the pending bytes: the high
    counter word is written one byte late, over bytes 49 to 56. *)
Definition last_block (rest : list Z) (N : Z) : list Z :=
  if (length rest <=? 48)%nat then rest ++ 0x80 :: replicate (55 - length rest) 0 ++ be64 N
  else take 49 rest ++ replicate 7 0 ++ be64 N.

Lemma put_counters rest N : (length rest ≤ 55)%nat → is_u64 N →
  put_be64 56 N (put_be64 49 0 (marked rest)) = last_block rest N.
Proof.
  intros Hr HN. assert (length (marked rest) = 64%nat) as Hm.
  { unfold marked. rewrite length_app. cbn [length]. rewrite length_replicate. lia. }
  rewrite (put_be64_spec 49) by (done || lia). change (be64 0) with (replicate 8 0).
  rewrite put_be64_spec by (rewrite ?blit_length; rewrite ?length_replicate; done || lia).
  unfold blit at 1. rewrite be64_length.
  rewrite (drop_ge _ (56 + 8)) by (rewrite blit_length; rewrite ?length_replicate; lia).
  rewrite app_nil_r. unfold last_block, blit. rewrite length_replicate.
  rewrite !take_app, !length_take, Hm, take_take, length_replicate.
  change (56 `min` 49)%nat with 49%nat. change (56 - 49 `min` 64)%nat with 7%nat.
  rewrite take_replicate. change (7 `min` 8)%nat with 7%nat. change (7 - 8)%nat with 0%nat.
  rewrite take_0, app_nil_r. unfold marked. destruct (Nat.leb_spec (length rest) 48) as [H|H].
  - rewrite take_app_ge by lia. rewrite <- !app_assoc. f_equal.
    destruct (49 - length rest)%nat as [|k] eqn:E; [lia|]. cbn [take app]. f_equal.
    rewrite take_replicate, app_assoc, <- replicate_add. do 2 f_equal. lia.
  - rewrite take_app_le by lia. by rewrite <- app_assoc.
Qed.

Lemma put_counters_zero N : is_u64 N →
  put_be64 56 N (put_be64 49 0 (replicate 64 0)) = replicate 56 0 ++ be64 N.
Proof.
  intros HN. rewrite (put_be64_spec 49), put_be64_spec; [reflexivity|done..|simpl; lia|done].
Qed.

Lemma marked_ok rest : (length rest < 64)%nat → bytes_ok rest → sha_block_ok (marked rest).
Proof.
  intros Hl Hb. unfold marked. split.
  - rewrite length_app. cbn [length]. rewrite length_replicate. lia.
  - apply bytes_ok_app. split; [done|]. apply Forall_cons_2; [unfold is_u8; lia|].
    apply bytes_ok_replicate. unfold is_u8; lia.
Qed.

Lemma last_block_ok rest N : (length rest ≤ 55)%nat → bytes_ok rest → sha_block_ok (last_block rest N).
Proof.
  intros Hl Hb. unfold last_block. pose proof (be64_bytes N).
  assert (∀ n, bytes_ok (replicate n 0)) by (intros; apply bytes_ok_replicate; unfold is_u8; lia).
  destruct (Nat.leb_spec (length rest) 48); split.
  - rewrite length_app. cbn [length]. rewrite length_app, length_replicate, be64_length. lia.
  - apply bytes_ok_app. split; [done|]. apply Forall_cons_2; [unfold is_u8; lia|].
    by apply bytes_ok_app.
  - rewrite !length_app, length_take, length_replicate, be64_length. lia.
  - rewrite !bytes_ok_app. auto with width.
Qed.

Lemma zero_block_ok N : sha_block_ok (replicate 56 0 ++ be64 N).
Proof.
  split; [done|]. apply bytes_ok_app. split; [|apply be64_bytes].
  apply bytes_ok_replicate. unfold is_u8; lia.
Qed.

Lemma take_digest H : length H = 8%nat → take SHA256_HASH_SIZE (digest H) = digest H.
Proof. intros HH. apply take_ge. destruct (digest_ok H) as [-> _]. unfold SHA256_HASH_SIZE. lia. Qed.

(** What [sha2_final] outputs, on both of its branches. *)
Lemma sha2_final_rel ctx p : ctx_rel ctx p → bytes_ok p → 8 * Z.of_nat (length p) < 2 ^ 64 →
  let rest := drop (64 * (length p / 64)) p in
  let N := 8 * Z.of_nat (length p) in
  sha2_final svc_sha ctx =
  if (length rest <=? 55)%nat then digest (Fips180.compress (absorb p) (last_block rest N))
  else digest (Fips180.compress (Fips180.compress (absorb p) (marked rest))
                 (replicate 56 0 ++ be64 N)).
Proof.
  intros Hrel Hp HN. cbv zeta. destruct (mark_block ctx p Hrel) as (Hmark & Hlen & Hlt).
  destruct Hrel as [Hpos HNl HNh Hiv Hd Hdb Hrest]. rewrite Hrest in Hmark, Hlen.
  set (rest := drop _ p) in *. set (N := 8 * Z.of_nat (length p)) in *.
  assert (is_u64 N) as HNu by (unfold is_u64, N; lia).
  assert (bytes_ok rest) as Hrb by (unfold rest; auto with width).
  unfold sha2_final, SHA256_INPUT_SIZE, set_din. cbn [sd_din sd_iv].
  rewrite HNl, HNh, Hiv, Hlen. change (64 - 8)%nat with 56%nat. change (64 - 15)%nat with 49%nat.
  destruct (Nat.ltb_spec 56 (pos ctx + 1)) as [Hbig|Hsmall]; cbn [sd_din sd_iv];
    destruct (Nat.leb_spec (pos ctx) 55); try lia; rewrite Hmark.
  - rewrite sha_core_step by first [apply absorb_ok | apply marked_ok; [lia|done]].
    cbn [sd_din sd_iv]. destruct (marked_ok rest) as [Hml _]; [lia|done|].
    rewrite msel_memset_blit by lia.
    unfold blit. rewrite drop_ge by (rewrite length_replicate; lia).
    change (take 0 (marked rest) ++ replicate (64 - 0) (u8 0) ++ []) with (replicate 64 0).
    rewrite put_counters_zero by done.
    rewrite sha_core_step by first [apply compress_ok, absorb_ok | apply zero_block_ok].
    apply take_digest, compress_ok, compress_ok, absorb_ok.
  - rewrite put_counters by (done || lia).
    rewrite sha_core_step by first [apply absorb_ok | apply last_block_ok; [lia|done]].
    apply take_digest, compress_ok, absorb_ok.
Qed.

Lemma ctx_init :
  ctx_rel (Sha2Ctx 0 0 0 (ShaData (msel_memcpy (replicate 32 0) 0 sha2_iv 0 32)
                                  (replicate SHA256_INPUT_SIZE 0))) [].
Proof.
  constructor; cbn [pos Nl Nh data sd_iv sd_din]; try done.
  apply bytes_ok_replicate. unfold is_u8; lia.
Qed.

Lemma sha256_hash_run m len : bytes_ok m → (len ≤ length m)%nat → Z.of_nat len < 2 ^ 32 →
  ∃ ctx, sha256_hash svc_sha m len = Some (sha2_final svc_sha ctx) ∧ ctx_rel ctx (take len m).
Proof.
  intros Hb Hl Hn. destruct (update_loop_rel len _ [] m len ctx_init) as (ctx & Hrun & Hrel);
    [done|done|done|simpl; lia|].
  exists ctx. split; [|exact Hrel]. unfold sha256_hash, sha2_update. cbn [data pos Nl Nh sd_iv sd_din].
  by rewrite Hrun.
Qed.

(** The padding of the standard, block by block. *)
Lemma SHA256_small p : (length p mod 64 ≤ 55)%nat →
  SHA256 p = digest (Fips180.compress (absorb p) (drop (64 * (length p / 64)) p ++
    0x80 :: replicate (55 - length p mod 64) 0 ++ be64 (8 * Z.of_nat (length p)))).
Proof.
  intros Hr. unfold SHA256, pad.
  assert (Z.to_nat ((55 - Z.of_nat (length p)) mod 64) = (55 - length p mod 64)%nat) as ->.
  { rewrite <- (Nat2Z.id (55 - _)). f_equal. symmetry.
    apply (Z.mod_unique _ _ (- Z.of_nat (length p / 64))); [lia|].
    pose proof (Nat.div_mod_eq (length p) 64). lia. }
  rewrite absorb_block; [done|]. cbn [length]. rewrite length_app, length_replicate, be64_length. lia.
Qed.

Lemma SHA256_large p : (55 < length p mod 64)%nat →
  SHA256 p = digest (Fips180.compress (Fips180.compress (absorb p)
    (marked (drop (64 * (length p / 64)) p))) (replicate 56 0 ++ be64 (8 * Z.of_nat (length p)))).
Proof.
  intros Hr. unfold SHA256, pad. set (r := (length p mod 64)%nat) in *.
  pose proof (Nat.mod_upper_bound (length p) 64 ltac:(lia)) as Hm. fold r in Hm.
  pose proof (Nat.div_mod_eq (length p) 64) as Hdm. fold r in Hdm.
  assert (Z.to_nat ((55 - Z.of_nat (length p)) mod 64) = (63 - r) + 56)%nat as ->.
  { rewrite <- (Nat2Z.id (63 - r + 56)). f_equal. symmetry.
    apply (Z.mod_unique _ _ (- Z.of_nat (length p / 64) - 1)); lia. }
  rewrite replicate_add, <- app_assoc.
  set (z := replicate (63 - r) 0). set (blk := replicate 56 0 ++ be64 _).
  replace (p ++ 128 :: z ++ blk) with ((p ++ 128 :: z) ++ blk) by (rewrite <- app_assoc; done).
  assert (length (p ++ 128 :: z) = (64 * S (length p / 64))%nat) as Hl.
  { unfold z. rewrite length_app. cbn [length]. rewrite length_replicate. lia. }
  rewrite absorb_block.
  2: { rewrite Hl, (Nat.mul_comm 64), Nat.Div0.mod_mul. done. }
  rewrite drop_ge by (rewrite Hl, (Nat.mul_comm 64), Nat.div_mul; lia).
  rewrite absorb_block by (fold r; unfold z; cbn [length]; rewrite length_replicate; lia).
  unfold marked. rewrite length_drop.
  replace (63 - (length p - 64 * (length p / 64)))%nat with (63 - r)%nat by lia. reflexivity.
Qed.

(** The length of the pending bytes. *)
Lemma rest_length (p : list Z) : length (drop (64 * (length p / 64)) p) = (length p mod 64)%nat.
Proof. rewrite length_drop. pose proof (Nat.div_mod_eq (length p) 64). lia. Qed.

Lemma sha256_hash_ok m len : bytes_ok m → (len ≤ length m)%nat → Z.of_nat len < 2 ^ 32 →
  ¬ (49 ≤ len mod 64 ≤ 55)%nat →
  sha256_hash svc_sha m len = Some (SHA256 (take len m)).
Proof.
  intros Hb Hl Hn Hlen. destruct (sha256_hash_run m len) as (ctx & -> & Hrel); [done|done|done|].
  assert (length (take len m) = len) as Htl by (rewrite length_take; lia).
  rewrite <- Htl in Hlen, Hn. assert (bytes_ok (take len m)) as Hp by auto with width.
  set (p := take len m) in *. clearbody p.
  f_equal. rewrite (sha2_final_rel ctx p) by (done || lia).
  rewrite rest_length. destruct (Nat.leb_spec (length p mod 64) 55) as [Hs|Hs].
  - unfold last_block. rewrite rest_length, SHA256_small by done.
    destruct (Nat.leb_spec (length p mod 64) 48); [done|lia].
  - by rewrite SHA256_large.
Qed.

(** C3: [sha256_hash] computes SHA-256 as FIPS 180-4 defines it, over any SHA
    service that implements the compression function, for every message shorter
    than 2^32 bytes whose length modulo 64 is not between 49 and 55. *)
Theorem sha256_hash_fips180 m : bytes_ok m → Z.of_nat (length m) < 2 ^ 32 →
  ¬ (49 ≤ length m mod 64 ≤ 55)%nat →
  sha256_hash svc_sha m (length m) = Some (SHA256 m).
Proof. intros Hb Hn Hlen. rewrite sha256_hash_ok by (done || lia). by rewrite take_ge. Qed.

(** C26: for the other lengths the tail is lost: when the length modulo 64 is
    between 49 and 55, two messages of that length that agree on all bytes but
    those from offset 49 of the last block have the same [sha256_hash]. *)
Theorem sha256_hash_ignores_tail m m' : bytes_ok m → bytes_ok m' →
  Z.of_nat (length m) < 2 ^ 32 → length m' = length m → (49 ≤ length m mod 64 ≤ 55)%nat →
  take (64 * (length m / 64) + 49) m = take (64 * (length m / 64) + 49) m' →
  sha256_hash svc_sha m (length m) = sha256_hash svc_sha m' (length m').
Proof.
  intros Hb Hb' Hn Hl Hr Heq. set (q := (64 * (length m / 64))%nat) in *.
  pose proof (Nat.div_mod_eq (length m) 64) as Hdm. fold q in Hdm.
  destruct (sha256_hash_run m (length m)) as (ctx & -> & Hrel); [done|done|done|].
  destruct (sha256_hash_run m' (length m')) as (ctx' & -> & Hrel'); [done|done|lia|].
  rewrite take_ge in Hrel, Hrel' by done. f_equal.
  rewrite (sha2_final_rel ctx m), (sha2_final_rel ctx' m') by (done || lia).
  rewrite !rest_length, Hl. fold q. destruct (Nat.leb_spec (length m mod 64) 55); [|lia].
  assert (length (drop q m) = (length m mod 64)%nat) as Hr1 by (rewrite length_drop; lia).
  assert (length (drop q m') = (length m mod 64)%nat) as Hr2 by (rewrite length_drop; lia).
  unfold last_block. rewrite Hr1, Hr2. destruct (Nat.leb_spec (length m mod 64) 48); [lia|].
  assert (absorb m = absorb m') as ->; [|assert (take 49 (drop q m) = take 49 (drop q m')) as ->; [|done]].
  - rewrite <- (take_drop q m), <- (take_drop q m').
    assert (∀ l : list Z, length l = length m → (length (take q l) mod 64 = 0)%nat) as Hq.
    { intros l Hll. rewrite length_take, Nat.min_l by lia. unfold q.
      rewrite Nat.mul_comm. apply Nat.Div0.mod_mul. }
    rewrite !absorb_partial by (rewrite !Hq; lia). f_equal.
    apply (f_equal (take q)) in Heq. rewrite !take_take in Heq.
    by replace (q `min` (q + 49))%nat with q in Heq by lia.
  - apply (f_equal (drop q)) in Heq. rewrite !skipn_firstn_comm in Heq.
    by replace (q + 49 - q)%nat with 49%nat in Heq by lia.
Qed.

End correct.

Definition abc : list Z := [97; 98; 99].

Lemma sha256_hash_fips180_witness :
  sha256_hash msel_do_sha abc 3 = Some (SHA256 abc) ∧
  SHA256 abc = digest
    [0xba7816bf; 0x8f01cfea; 0x414140de; 0x5dae2223; 0xb00361a3; 0x96177a9c; 0xb410ff61; 0xf20015ad].
Proof.
  split; [|by vm_compute].
  apply (sha256_hash_fips180 msel_do_sha abc); [by apply bytes_okb_ok|simpl; lia|].
  vm_compute. lia.
Defined.

(** Two 50-byte messages that differ in their last byte collide. *)
Lemma sha256_hash_ignores_tail_witness :
  sha256_hash msel_do_sha (replicate 49 7 ++ [1]) 50 =
  sha256_hash msel_do_sha (replicate 49 7 ++ [2]) 50.
Proof.
  apply (sha256_hash_ignores_tail msel_do_sha (replicate 49 7 ++ [1]) (replicate 49 7 ++ [2]));
    [by apply bytes_okb_ok|by apply bytes_okb_ok|simpl; lia|done|vm_compute; lia|done].
Defined.
