(* ===== verification/Kdf.v ===== *)
(** * Key derivation

    [kdf_getkey] of lib/crypto/kdf.c over any SHA service: three hashes mixed
    into a seed, a table of iterated hashes, and sixteen data-dependent mixing
    steps.  The table buffer comes from the allocator: it is an argument, [None]
    when the allocator had no memory and otherwise with arbitrary content. *)

From S2P Require Import Prelude Words Stdc SwSha Sha2.

Local Open Scope Z_scope.
Local Open Scope orp_scope.

Definition KDF_NUM_ITER : nat := 16.
Definition SHA256_OUTPUT_LEN : nat := 32.

(** ** Operations *)

Section kdf.
Context (svc_sha : sha_data_t → sha_data_t).

(** [sha256_hash(in, len, &dst[off])]. *)
Definition hash_to (dst : list Z) (off : nat) (inp : list Z) (len : nat) : option (list Z) :=
  h ← sha256_hash svc_sha inp len;
  Some (msel_memcpy dst off h 0 SHA256_OUTPUT_LEN).

(** [for (i = 0; i < 32; i++) table[i] ^= table[32+i] ^ table[64+i]]. *)
Definition mix_inputs (table : list Z) : list Z :=
  for_loop 0 SHA256_OUTPUT_LEN (λ i t,
    upd t (0 * 32 + i) (get t (0 * 32 + i) ^^ (get t (1 * 32 + i) ^^ get t (2 * 32 + i)))) table.

(** Rows 1 to 15 of the table, each the hash of the row before. *)
Fixpoint fill_table (n i : nat) (table : list Z) : option (list Z) :=
  match n with
  | O => Some table
  | S n =>
      table ← hash_to table (i * 32) (drop ((i - 1) * 32) table) 32;
      fill_table n (S i) table
  end.

(** The mixing steps on [curr]. *)
Definition mix_idx (curr : list Z) : nat :=
  Z.to_nat ((get curr 1 .| get curr 0) .& (Z.of_nat KDF_NUM_ITER - 1)).
Fixpoint mix_out (n : nat) (table curr : list Z) : option (list Z) :=
  match n with
  | O => Some curr
  | S n =>
      curr ← hash_to curr 0 curr 32;
      let idx := mix_idx curr in
      let curr := for_loop 0 SHA256_OUTPUT_LEN (λ j c,
        <[j := get c j ^^ get table (idx * 32 + j)]> c) curr in
      mix_out n table curr
  end.

(** The derived key, and the table as it is handed back to the allocator.  The
    result of msel_malloc is not checked: without memory the hashes go through
    the null pointer, and there is no result. *)
Definition kdf_getkey (malloced : option (list Z)) (master : list Z) (l_master : nat) (protocol : list Z) (l_protocol : nat)
    (nonce out : list Z) : option (list Z * list Z) :=
  table0 ← malloced;
  table ← hash_to table0 (0 * 32) master l_master;
  table ← hash_to table (1 * 32) protocol l_protocol;
  table ← hash_to table (2 * 32) nonce 32;
  let table := mix_inputs table in
  table ← fill_table (KDF_NUM_ITER - 1) 1 table;
  let curr := msel_memcpy (replicate 32 0) 0 table ((KDF_NUM_ITER - 1) * 32) 32 in
  curr ← mix_out KDF_NUM_ITER table curr;
  let out := msel_memcpy out 0 curr 0 32 in
  Some (out, msel_memset table 0 0 (KDF_NUM_ITER * 32)).
End kdf.

(** ** Specification *)

Definition kdf_table (t0 : list Z) (i : nat) : list Z := Nat.iter i SHA256 t0.
Definition kdf_step (t0 cur : list Z) : list Z :=
  let c := SHA256 cur in xor_list c (kdf_table t0 (mix_idx c)).
Definition kdf_spec (master protocol nonce : list Z) : list Z :=
  let t0 := xor_list (SHA256 master) (xor_list (SHA256 protocol) (SHA256 nonce)) in
  Nat.iter 16 (kdf_step t0) (kdf_table t0 15).

(** ** Rows of the table *)

Definition row (T : list Z) (i : nat) : list Z := take 32 (drop (32 * i) T).

Lemma row_length T i : (32 * (i + 1) ≤ length T)%nat → length (row T i) = 32%nat.
Proof. intros. unfold row. rewrite length_take, length_drop. lia. Qed.

Lemma get_row T i j : (j < 32)%nat → get (row T i) j = get T (32 * i + j).
Proof. intros. unfold row, get. by rewrite lookup_take, decide_True, lookup_drop by lia. Qed.

Lemma row_write T i j h : length h = 32%nat →
  (32 * (i + 1) ≤ length T)%nat → (32 * (j + 1) ≤ length T)%nat →
  length (msel_memcpy T (32 * i) h 0 32) = length T ∧
  row (msel_memcpy T (32 * i) h 0 32) j = if decide (j = i) then h else row T j.
Proof.
  intros Hh Hi Hj. rewrite msel_memcpy_blit, drop_0, (take_ge h) by lia.
  split; [apply blit_length; lia|]. unfold row, blit.
  destruct (decide (j = i)) as [->|Hne]; [|destruct (decide (j < i)%nat)].
  - rewrite drop_app_ge by (rewrite length_take; lia).
    rewrite length_take, Nat.min_l, Nat.sub_diag, drop_0, take_app_le by lia. apply take_ge. lia.
  - rewrite drop_app_le, take_app_le by (rewrite ?length_drop, length_take; lia).
    rewrite skipn_firstn_comm, take_take. f_equal. lia.
  - rewrite app_assoc, drop_app_ge by (rewrite length_app, length_take; lia).
    rewrite length_app, length_take, drop_drop. f_equal. f_equal. lia.
Qed.

(** [h] written as row [i]. *)
Definition put (T : list Z) (i : nat) (h : list Z) : list Z := msel_memcpy T (32 * i) h 0 32.

Lemma put_length T i h : length (put T i h) = length T.
Proof.
  unfold put, msel_memcpy. apply (for_loop_inv (λ d, length d = length T)); [done|].
  intros j d _ Hd. by rewrite length_insert.
Qed.

Lemma row_put T i j h : length h = 32%nat →
  (32 * (i + 1) ≤ length T)%nat → (32 * (j + 1) ≤ length T)%nat →
  row (put T i h) j = if decide (j = i) then h else row T j.
Proof. intros. by apply row_write. Qed.

Lemma SHA256_ok m : length (SHA256 m) = 32%nat ∧ bytes_ok (SHA256 m).
Proof.
  unfold SHA256. destruct (digest_ok (absorb (pad m))) as [Hl Hb]. split; [|done].
  rewrite Hl, (proj1 (absorb_ok _)). done.
Qed.
#[global] Opaque SHA256.

(** ** Correctness *)

Section correct.
Context (svc_sha : sha_data_t → sha_data_t) `{!ShaCore svc_sha}.

Lemma hash_to_ok dst off inp len : bytes_ok inp → (len ≤ length inp)%nat → Z.of_nat len < 2 ^ 32 →
  ¬ (49 ≤ len mod 64 ≤ 55)%nat →
  hash_to svc_sha dst off inp len = Some (msel_memcpy dst off (SHA256 (take len inp)) 0 32).
Proof. intros. unfold hash_to. by rewrite sha256_hash_ok. Qed.

Lemma hash32_ok dst off inp : bytes_ok inp → (32 ≤ length inp)%nat →
  hash_to svc_sha dst off inp 32 = Some (msel_memcpy dst off (SHA256 (take 32 inp)) 0 32).
Proof. intros. apply hash_to_ok; try done. change (32 mod 64)%nat with 32%nat. lia. Qed.

Lemma bytes_ok_memcpy dst off src n : bytes_ok dst → bytes_ok src →
  bytes_ok (msel_memcpy dst off src 0 n).
Proof.
  intros Hd Hs. unfold msel_memcpy. apply for_loop_inv; [done|]. intros i d _ Hd'.
  apply bytes_ok_insert; [done|auto with width].
Qed.

(** The table after [n] rows. *)
Lemma fill_table_ok n i T t0 : bytes_ok T → length T = 512%nat → (1 ≤ i)%nat → (i + n ≤ 16)%nat →
  (∀ j, (j < i)%nat → row T j = kdf_table t0 j) →
  ∃ T', fill_table svc_sha n i T = Some T' ∧ bytes_ok T' ∧ length T' = 512%nat ∧
    ∀ j, (j < i + n)%nat → row T' j = kdf_table t0 j.
Proof.
  revert i T. induction n as [|n IH]; intros i T Hb Hl Hi Hn Hrows.
  { exists T. rewrite Nat.add_0_r. done. }
  cbn [fill_table]. rewrite hash32_ok by (auto with width || (rewrite length_drop; lia)).
  cbn [mbind option_bind]. rewrite (Nat.mul_comm (i - 1) 32), (Nat.mul_comm i 32).
  fold (row T (i - 1)). rewrite Hrows by lia. set (h := SHA256 _).
  destruct (SHA256_ok (kdf_table t0 (i - 1))) as [Hhl Hhb]. fold h in Hhl, Hhb.
  destruct (IH (S i) (msel_memcpy T (32 * i) h 0 32)) as (T' & HT' & Hb' & Hl' & Hr').
  - by apply bytes_ok_memcpy.
  - destruct (row_write T i i h) as [-> _]; [done|lia|lia|done].
  - lia.
  - lia.
  - intros j Hj. destruct (row_write T i j h) as [_ ->]; [done|lia|lia|].
    destruct (decide (j = i)) as [->|]; [|apply Hrows; lia].
    unfold h. destruct i as [|i]; [lia|]. rewrite Nat.sub_succ, Nat.sub_0_r. done.
  - exists T'. split; [done|]. split; [done|]. split; [done|]. intros j Hj. apply Hr'. lia.
Qed.

Lemma mix_idx_lt c : (mix_idx c < 16)%nat.
Proof.
  unfold mix_idx. change (Z.of_nat KDF_NUM_ITER - 1) with 15. rewrite Z.land_comm.
  pose proof (land_bound_l 4 ltac:(lia) 15 (get c 1 .| get c 0) ltac:(lia)). lia.
Qed.

Lemma xor_row c T i : length c = 32%nat → (32 * (i + 1) ≤ length T)%nat →
  for_loop 0 32 (λ j c, <[j := get c j ^^ get T (i * 32 + j)]> c) c = xor_list c (row T i).
Proof.
  intros Hc HT. rewrite (Nat.mul_comm i 32). pose proof (row_length T i HT) as Hr.
  assert (∀ n, (n ≤ 32)%nat → for_loop 0 n (λ j c, <[j := get c j ^^ get T (32 * i + j)]> c) c =
    xor_list (take n c) (take n (row T i)) ++ drop n c) as H.
  { induction n as [|n IH]; intros Hn; [done|]. rewrite for_loop_S_r, IH by lia. cbn [Nat.add].
    destruct (lookup_lt_is_Some_2 c n) as [a Ha]; [lia|].
    destruct (lookup_lt_is_Some_2 (row T i) n) as [b Hb]; [lia|].
    rewrite (take_S_r _ _ _ Ha), (take_S_r _ _ _ Hb), (drop_S _ _ _ Ha).
    assert (length (xor_list (take n c) (take n (row T i))) = n) as Hl
      by (rewrite length_xor_list; rewrite !length_take; lia).
    rewrite get_app_r, insert_app_r_alt, Hl, Nat.sub_diag by lia.
    rewrite <- (get_row T i n) by lia. unfold get at 2. rewrite Hb.
    cbn [insert list_insert get lookup list_lookup default from_option].
    unfold xor_list. rewrite zip_with_app by (rewrite !length_take; lia).
    by rewrite <- app_assoc. }
  rewrite H by lia. rewrite !take_ge, drop_ge by lia. apply app_nil_r.
Qed.

Lemma memcpy_all dst (h : list Z) n : length dst = n → length h = n → msel_memcpy dst 0 h 0 n = h.
Proof.
  intros Hd Hh. rewrite msel_memcpy_blit by lia. rewrite drop_0, take_ge by lia. unfold blit.
  rewrite drop_ge by lia. apply app_nil_r.
Qed.

Lemma mix_out_ok n T t0 cur : bytes_ok T → length T = 512%nat →
  (∀ j, (j < 16)%nat → row T j = kdf_table t0 j) → length cur = 32%nat → bytes_ok cur →
  mix_out svc_sha n T cur = Some (Nat.iter n (kdf_step t0) cur) ∧
  length (Nat.iter n (kdf_step t0) cur) = 32%nat.
Proof.
  intros HT Hl Hrows. revert cur. induction n as [|n IH]; intros cur Hc Hb; [done|].
  cbn [mix_out]. rewrite hash32_ok by (done || lia). cbn [mbind option_bind].
  destruct (SHA256_ok (take 32 cur)) as [Hsl Hsb]. rewrite (memcpy_all cur) by (done || lia).
  rewrite (take_ge cur) in * by lia. pose proof (mix_idx_lt (SHA256 cur)) as Hidx.
  unfold SHA256_OUTPUT_LEN. rewrite xor_row, Hrows by lia.
  change (xor_list (SHA256 cur) _) with (kdf_step t0 cur).
  assert (length (kdf_step t0 cur) = 32%nat ∧ bytes_ok (kdf_step t0 cur)) as [Hkl Hkb].
  { unfold kdf_step. rewrite <- Hrows by done. split.
    - rewrite length_xor_list; rewrite ?row_length; lia.
    - apply bytes_ok_xor_list; [done|]. unfold row. auto with width. }
  destruct (IH _ Hkl Hkb) as [-> H]. rewrite Nat.iter_succ_r. done.
Qed.
Lemma mix_inputs_ok T : length T = 512%nat →
  let X := xor_list (row T 0) (xor_list (row T 1) (row T 2)) in
  mix_inputs T = msel_memcpy T (32 * 0) X 0 32 ∧ length X = 32%nat.
Proof.
  intros Hl X. pose proof (row_length T 0 ltac:(lia)) as H0. pose proof (row_length T 1 ltac:(lia)) as H1.
  pose proof (row_length T 2 ltac:(lia)) as H2.
  assert (length (xor_list (row T 1) (row T 2)) = 32%nat) as H12 by (rewrite length_xor_list; lia).
  assert (length X = 32%nat) as HX by (unfold X; rewrite length_xor_list; lia). split; [|done].
  assert (∀ n, (n ≤ 32)%nat → for_loop 0 n (λ i t, upd t (0 * 32 + i)
    (get t (0 * 32 + i) ^^ (get t (1 * 32 + i) ^^ get t (2 * 32 + i)))) T = blit 0 (take n X) T) as H.
  { induction n as [|n IH]; intros Hn; [unfold blit; cbn; by rewrite drop_0|].
    rewrite for_loop_S_r, IH by lia. cbn [Nat.add Nat.mul].
    assert (∀ m, (n ≤ m)%nat → get (blit 0 (take n X) T) m = get T m) as Hg.
    { intros m Hm. unfold blit. rewrite take_0, app_nil_l. cbn [Nat.add].
      rewrite get_app_r, length_take, Nat.min_l, get_drop by (rewrite ?length_take; lia). f_equal. lia. }
    rewrite !Hg by lia. destruct (lookup_lt_is_Some_2 X n) as [x Hx]; [lia|].
    rewrite (take_S_r _ _ _ Hx). rewrite <- blit_snoc by (rewrite length_take; lia).
    rewrite length_take, Nat.min_l by lia. cbn [Nat.add]. f_equal.
    assert (get X n = x) as <- by (unfold get; by rewrite Hx). unfold X.
    rewrite !get_xor_list by lia. rewrite !get_row by lia. reflexivity. }
  unfold mix_inputs, SHA256_OUTPUT_LEN. rewrite H by lia.
  rewrite msel_memcpy_blit by lia. by rewrite drop_0.
Qed.

Definition sha_len_ok (m : list Z) : Prop :=
  bytes_ok m ∧ Z.of_nat (length m) < 2 ^ 32 ∧ ¬ (49 ≤ length m mod 64 ≤ 55)%nat.

(** The table once the inputs are mixed: row 0 is the seed. *)
Lemma kdf_seed T h1 h2 h3 : length T = 512%nat → bytes_ok T →
  (length h1 = 32 ∧ length h2 = 32 ∧ length h3 = 32)%nat →
  bytes_ok h1 → bytes_ok h2 → bytes_ok h3 →
  let T3 := put (put (put T 0 h1) 1 h2) 2 h3 in
  bytes_ok (mix_inputs T3) ∧ length (mix_inputs T3) = 512%nat ∧
  row (mix_inputs T3) 0 = xor_list h1 (xor_list h2 h3).
Proof.
  intros Hl Hb (L1 & L2 & L3) B1 B2 B3 T3.
  assert (length T3 = 512%nat) as HT3 by (unfold T3; by rewrite !put_length).
  assert (bytes_ok T3) as Hb3 by (unfold T3, put; auto using bytes_ok_memcpy).
  destruct (mix_inputs_ok T3 HT3) as [-> HX]. set (X := xor_list (row T3 0) _) in *.
  fold (put T3 0 X). split; [|split; [by rewrite put_length|]].
  - apply bytes_ok_memcpy; [done|]. unfold X, row. auto 10 with width.
  - rewrite row_put by lia. cbn [decide]. unfold X, T3.
    rewrite !row_put by (rewrite ?put_length; lia). reflexivity.
Qed.

Lemma kdf_table_0 t0 : kdf_table t0 0 = t0.
Proof. reflexivity. Qed.

(** The mixing steps and the clean-up on a filled table. *)
Lemma kdf_finish T t0 out : length T = 512%nat → bytes_ok T →
  (∀ j, (j < 16)%nat → row T j = kdf_table t0 j) → length out = 32%nat →
  (curr ← mix_out svc_sha KDF_NUM_ITER T
     (msel_memcpy (replicate 32 0) 0 T ((KDF_NUM_ITER - 1) * 32) 32);
   Some (msel_memcpy out 0 curr 0 32, msel_memset T 0 0 (KDF_NUM_ITER * 32))) =
  Some (Nat.iter 16 (kdf_step t0) (kdf_table t0 15), replicate 512 0).
Proof.
  intros HlT HbT HrT Ho.
  assert (msel_memcpy (replicate 32 0) 0 T ((KDF_NUM_ITER - 1) * 32) 32 = kdf_table t0 15) as ->.
  { change ((KDF_NUM_ITER - 1) * 32)%nat with 480%nat.
    rewrite msel_memcpy_blit by (rewrite ?length_replicate; lia). rewrite <- HrT by lia.
    unfold blit, row. rewrite length_take, length_drop, HlT.
    rewrite (drop_ge (replicate 32 0)) by (rewrite length_replicate; lia). apply app_nil_r. }
  assert (length (kdf_table t0 15) = 32%nat ∧ bytes_ok (kdf_table t0 15)) as [Hkl Hkb].
  { rewrite <- HrT by lia. split; [apply row_length; lia|unfold row; auto with width]. }
  destruct (mix_out_ok 16 T t0 (kdf_table t0 15)) as [Hmix Hml]; [done|done|done|done|done|].
  change KDF_NUM_ITER with 16%nat. rewrite Hmix.
  generalize dependent (Nat.iter 16 (kdf_step t0) (kdf_table t0 15)). intros K _ HK.
  rewrite some_bind, memcpy_all by done.
  rewrite msel_memset_blit by lia. unfold blit.
  rewrite drop_ge by (rewrite length_replicate; lia). rewrite app_nil_r, take_0, app_nil_l. reflexivity.
Qed.

(** The calls in order, given the three hashes. *)
Lemma kdf_getkey_phases table0 master l_master protocol l_protocol nonce out h1 h2 h3 :
  hash_to svc_sha table0 (0 * 32) master l_master = Some (msel_memcpy table0 (0 * 32) h1 0 32) →
  (∀ T, hash_to svc_sha T (1 * 32) protocol l_protocol = Some (msel_memcpy T (1 * 32) h2 0 32)) →
  (∀ T, hash_to svc_sha T (2 * 32) nonce 32 = Some (msel_memcpy T (2 * 32) h3 0 32)) →
  length table0 = 512%nat → bytes_ok table0 → length out = 32%nat →
  (length h1 = 32 ∧ length h2 = 32 ∧ length h3 = 32)%nat → bytes_ok h1 → bytes_ok h2 → bytes_ok h3 →
  kdf_getkey svc_sha (Some table0) master l_master protocol l_protocol nonce out =
  let t0 := xor_list h1 (xor_list h2 h3) in
  Some (Nat.iter 16 (kdf_step t0) (kdf_table t0 15), replicate 512 0).
Proof.
  intros H1 H2 H3 Ht Hbt Ho Hh B1 B2 B3. unfold kdf_getkey.
  rewrite some_bind, H1, some_bind, H2, some_bind, H3, some_bind. cbv zeta.
  destruct (kdf_seed table0 _ _ _ Ht Hbt Hh B1 B2 B3) as (Hb & Hl & Hr).
  change (msel_memcpy (msel_memcpy (msel_memcpy table0 _ _ _ _) _ _ _ _) _ _ _ _)
    with (put (put (put table0 0 h1) 1 h2) 2 h3).
  cbv zeta. revert Hb Hl Hr.
  generalize (mix_inputs (put (put (put table0 0 h1) 1 h2) 2 h3)), (xor_list h1 (xor_list h2 h3)).
  intros T0 t0 Hb Hl Hr.
  destruct (fill_table_ok 15 1 T0 t0 Hb Hl) as (T & HT & HbT & HlT & HrT);
    [lia|lia|intros j Hj; replace j with 0%nat by lia; by rewrite kdf_table_0|].
  change (fill_table svc_sha (KDF_NUM_ITER - 1)) with (fill_table svc_sha 15). rewrite HT, some_bind.
  exact (kdf_finish T t0 out HlT HbT HrT Ho).
Qed.

(** The derived key is 32 bytes. *)
Definition hash_ok (l : list Z) : Prop := length l = 32%nat ∧ bytes_ok l.

Lemma hash_ok_xor a b : hash_ok a → hash_ok b → hash_ok (xor_list a b).
Proof. intros [Ha Ba] [Hb Bb]. split; [rewrite length_xor_list; lia|by apply bytes_ok_xor_list]. Qed.

Lemma kdf_spec_ok master protocol nonce : hash_ok (kdf_spec master protocol nonce).
Proof.
  unfold kdf_spec. set (t0 := xor_list _ _). assert (hash_ok t0) as H0 by (repeat apply hash_ok_xor; apply SHA256_ok).
  assert (∀ i, hash_ok (kdf_table t0 i)) as Ht by (intros [|i]; [exact H0|apply SHA256_ok]). clearbody t0.
  generalize (Ht 15%nat). generalize (kdf_table t0 15). generalize 16%nat.
  intros n. induction n as [|n IH]; intros c Hc; [done|]. cbn [Nat.iter]. apply hash_ok_xor; [apply SHA256_ok|apply Ht].
Qed.

(** [kdf_getkey] derives the specified function of the three inputs through
    any SHA service, whatever the allocated table held before, reads the table
    in bounds, and hands the table back to the allocator all zero. *)
Lemma kdf_getkey_ok table0 master protocol nonce out :
  length table0 = 512%nat → bytes_ok table0 → sha_len_ok master → sha_len_ok protocol →
  length nonce = 32%nat → bytes_ok nonce → length out = 32%nat →
  kdf_getkey svc_sha (Some table0) master (length master) protocol (length protocol) nonce out =
  Some (kdf_spec master protocol nonce, replicate 512 0).
Proof.
  intros Ht Hbt (Bm & Nm & Lm) (Bp & Np & Lp) Hn Bn Ho. unfold kdf_spec.
  destruct (SHA256_ok master) as [L1 B1], (SHA256_ok protocol) as [L2 B2], (SHA256_ok nonce) as [L3 B3].
  eapply kdf_getkey_phases; [rewrite hash_to_ok by (done || lia); by rewrite take_ge by lia
    |intros T; rewrite hash_to_ok by (done || lia); by rewrite take_ge by lia
    |intros T; rewrite hash32_ok by (done || lia); by rewrite take_ge by lia
    |assumption..|done|assumption|assumption|assumption].
Qed.
End correct.
