(* ===== verification/Prime521.v ===== *)
(** * The field of E-521

    The modulus p = 2^521 - 1 of driver/swcrypto/ed521.c is prime, by the
    Lucas-Lehmer test, and powers modulo p obey Fermat's little theorem; these
    are what [mp_modinv] and [mp_modsqrt], which only raise to fixed powers,
    rely on.  The number [ED521_D] is not a square modulo p, which makes the
    addition law of the curve complete. *)

From Stdlib Require Import Znumtheory Zpow_facts Permutation.
From S2P Require Import Prelude.

Local Open Scope Z_scope.

(** ** Fermat's little theorem *)

Section fermat.
Context (p : Z) (Hp : prime p).

Definition residues : list Z := map Z.of_nat (seq 1 (Z.to_nat (p - 1))).
Definition product (l : list Z) : Z := foldr Z.mul 1 l.

Lemma elem_residues x : In x residues ↔ 1 <= x < p.
Proof.
  unfold residues. rewrite in_map_iff. pose proof (prime_ge_2 p Hp) as Hp2. split.
  - intros (n & <- & Hn). apply in_seq in Hn. lia.
  - intros Hx. exists (Z.to_nat x). split; [lia|]. apply in_seq. lia.
Qed.

Lemma prime_mult_mod a b : (a * b) mod p = 0 → a mod p = 0 ∨ b mod p = 0.
Proof.
  intros H. pose proof (prime_ge_2 p Hp) as Hp2. apply Z.mod_divide in H; [|lia].
  destruct (prime_mult p Hp a b H) as [D|D]; [left|right]; apply Z.mod_divide; done || lia.
Qed.

Lemma sub_mod_0 a b : a mod p = b mod p ↔ (a - b) mod p = 0.
Proof.
  pose proof (prime_ge_2 p Hp) as Hp2. split; intros H.
  - by rewrite Zminus_mod, H, Z.sub_diag, Z.mod_0_l by lia.
  - replace a with (b + (a - b)) by lia. rewrite Z.add_mod, H, Z.add_0_r, Z.mod_mod by lia. done.
Qed.

Lemma mul_cancel_mod a b c : c mod p ≠ 0 → (a * c) mod p = (b * c) mod p → a mod p = b mod p.
Proof.
  rewrite !sub_mod_0. intros Hc H. replace (a * c - b * c) with ((a - b) * c) in H by lia.
  by destruct (prime_mult_mod _ _ H).
Qed.

Lemma product_nonzero l : (∀ x, In x l → x mod p ≠ 0) → product l mod p ≠ 0.
Proof.
  pose proof (prime_ge_2 p Hp) as Hp2. induction l as [|x l IH]; intros Hl; unfold product; cbn [foldr].
  - rewrite Z.mod_1_l; lia.
  - intros E. destruct (prime_mult_mod _ _ E) as [E'|E'].
    + by apply (Hl x (or_introl eq_refl)).
    + apply IH; [|done]. intros y Hy. apply Hl. by right.
Qed.

Lemma product_map_mul a l : product (map (λ x, (a * x) mod p) l) mod p = (a ^ Z.of_nat (length l) * product l) mod p.
Proof.
  pose proof (prime_ge_2 p Hp) as Hp2. induction l as [|x l IH]; [done|]. cbn [map length].
  unfold product in *. cbn [foldr]. rewrite Z.mul_mod, IH, Z.mod_mod, <- Z.mul_mod by lia.
  rewrite Nat2Z.inj_succ, Z.pow_succ_r by lia. f_equal. ring.
Qed.

Lemma product_perm l l' : Permutation l l' → product l = product l'.
Proof. unfold product. induction 1; cbn [foldr]; lia. Qed.

Lemma residues_perm a : a mod p ≠ 0 → Permutation (map (λ x, (a * x) mod p) residues) residues.
Proof.
  intros Ha. pose proof (prime_ge_2 p Hp) as Hp2. apply NoDup_Permutation_bis.
  - apply NoDup_ListNoDup, NoDup_fmap_2_strong.
    + intros x y Hx Hy E. rewrite list_elem_of_In, elem_residues in Hx, Hy.
      apply (mul_cancel_mod x y a) in Ha; [|by rewrite !(Z.mul_comm _ a)].
      by rewrite !Z.mod_small in Ha by lia.
    + apply NoDup_fmap_2; [intros ???; lia|]. apply NoDup_ListNoDup, seq_NoDup.
  - by rewrite length_map.
  - intros y (x & <- & Hx)%in_map_iff. apply elem_residues in Hx. apply elem_residues.
    pose proof (Z.mod_pos_bound (a * x) p ltac:(lia)). assert ((a * x) mod p ≠ 0); [|lia].
    intros E. destruct (prime_mult_mod _ _ E) as [E'|E']; [done|]. rewrite Z.mod_small in E' by lia. lia.
Qed.

Theorem fermat_little a : a mod p ≠ 0 → (a ^ (p - 1)) mod p = 1.
Proof.
  intros Ha. pose proof (prime_ge_2 p Hp) as Hp2.
  transitivity (1 mod p); [|apply Z.mod_1_l; lia]. apply (mul_cancel_mod _ _ (product residues)).
  - apply product_nonzero. intros x Hx%elem_residues. rewrite Z.mod_small; lia.
  - rewrite Z.mul_1_l. transitivity (product (map (λ x, (a * x) mod p) residues) mod p).
    + rewrite product_map_mul. assert (Z.of_nat (length residues) = p - 1) as ->; [|done].
      unfold residues. rewrite length_map, length_seq. lia.
    + by rewrite (product_perm _ _ (residues_perm a Ha)).
Qed.
End fermat.

(** ** The Lucas-Lehmer test

    The pair [(a, b)] stands for a + b sqrt 3; [pw n] is (2 + sqrt 3)^n. *)

Definition pmul (u v : Z * Z) : Z * Z := (u.1 * v.1 + 3 * (u.2 * v.2), u.1 * v.2 + u.2 * v.1).
Fixpoint pw (n : nat) : Z * Z :=
  match n with O => (1, 0) | S n => pmul (2, 1) (pw n) end.

Lemma pw_add m n : pw (m + n) = pmul (pw m) (pw n).
Proof.
  induction m as [|m IH]; cbn [Nat.add pw]; [|rewrite IH]; unfold pmul; cbn [fst snd]; f_equal; try ring;
  destruct (pw n); cbn [fst snd]; f_equal; ring.
Qed.

Lemma pw_norm n : (pw n).1 * (pw n).1 - 3 * ((pw n).2 * (pw n).2) = 1.
Proof. induction n as [|n IH]; [done|]. cbn [pw]. unfold pmul. cbn [fst snd]. lia. Qed.

Lemma pw_double n : 2 * (pw (2 * n)).1 = (2 * (pw n).1) * (2 * (pw n).1) - 2.
Proof.
  replace (2 * n)%nat with (n + n)%nat by lia. rewrite pw_add. unfold pmul. cbn [fst].
  pose proof (pw_norm n). lia.
Qed.

(** The residues of the test, with the reduction that the form of the modulus
    allows. *)
Definition fold_mersenne (k x : Z) : Z := Z.land x (Z.ones k) + Z.shiftr x k.
Fixpoint lucas (k : Z) (n : nat) (s : Z) : Z :=
  match n with O => s | S n => lucas k n (fold_mersenne k (fold_mersenne k (Z.square s)) - 2) end.

Lemma fold_mersenne_divide k x : 0 <= k → (2 ^ k - 1 | fold_mersenne k x - x).
Proof.
  intros Hk. unfold fold_mersenne. rewrite Z.land_ones, Z.shiftr_div_pow2 by done.
  exists (- (x / 2 ^ k)). pose proof (Z.div_mod x (2 ^ k) ltac:(apply Z.pow_nonzero; lia)). lia.
Qed.

Section lucas.
Context (n : nat) (q : Z).
Let k : Z := Z.of_nat n + 2.
Context (Hq : 1 < q) (Hqq : q * q <= 2 ^ k - 1) (HqM : (q | 2 ^ k - 1)).

Lemma lucas_pw m j s : (q | s - 2 * (pw j).1) → (q | lucas k m s - 2 * (pw (j * 2 ^ m)).1).
Proof.
  revert j s. induction m as [|m IH]; intros j s Hs; cbn [lucas].
  - by rewrite Nat.pow_0_r, Nat.mul_1_r.
  - replace (j * 2 ^ S m)%nat with ((2 * j) * 2 ^ m)%nat by (cbn [Nat.pow]; lia). apply IH.
    rewrite pw_double, Z.square_spec.
    set (f := fold_mersenne k). assert (∀ x, (q | f x - x)) as Hf.
    { intros x. etransitivity; [exact HqM|]. apply fold_mersenne_divide. lia. }
    replace (f (f (s * s)) - 2 - (2 * (pw j).1 * (2 * (pw j).1) - 2))
      with ((f (f (s * s)) - f (s * s)) + ((f (s * s) - s * s) + (s - 2 * (pw j).1) * (s + 2 * (pw j).1))) by lia.
    apply Z.divide_add_r; [apply Hf|]. apply Z.divide_add_r; [apply Hf|]. by apply Z.divide_mul_l.
Qed.

Lemma q_odd : ~ (q | 2).
Proof.
  intros H. assert (q = 2) as ->.
  { apply Z.divide_pos_le in H as ?; lia. }
  destruct HqM as [z Hz]. replace k with (1 + (k - 1)) in Hz by lia. rewrite Z.pow_add_r in Hz by lia. lia.
Qed.

Definition cong (u v : Z * Z) : Prop := (q | u.1 - v.1) ∧ (q | u.2 - v.2).

Lemma cong_unit u c v d : cong u (c, 0) → cong v (d, 0) → cong (pmul u v) (c * d, 0).
Proof.
  intros [[a Ha] [b Hb]] [[a' Ha'] [b' Hb']]. destruct u as [u1 u2], v as [v1 v2]. cbn [fst snd] in *.
  unfold pmul. split; cbn [fst snd].
  - exists (a * v1 + c * a' + 3 * (b * v2)). replace v1 with (d + a' * q) by lia.
    replace u1 with (c + a * q) by lia. replace u2 with (b * q) by lia. ring.
  - exists (u1 * b' + b * v1). replace u2 with (b * q) by lia. replace v2 with (b' * q) by lia. ring.
Qed.

Lemma cong_pow j c m : cong (pw j) (c, 0) → cong (pw (j * m)) (c ^ Z.of_nat m, 0).
Proof.
  intros Hj. induction m as [|m IH].
  - rewrite Nat.mul_0_r. split; cbn; by exists 0.
  - rewrite Nat.mul_succ_r, Nat.add_comm, pw_add, Nat2Z.inj_succ, Z.pow_succ_r by lia. by apply cong_unit.
Qed.

(** Equal powers divide out. *)
Lemma cong_sub i d : cong (pw (i + d)) (pw i) → cong (pw d) (1, 0).
Proof.
  rewrite pw_add. unfold pmul, cong. pose proof (pw_norm i) as Hn.
  destruct (pw i) as [A B], (pw d) as [C D]. cbn [fst snd] in *. intros [[a Ha] [b Hb]]. split.
  - exists (A * a - 3 * B * b). replace (C - 1) with (C * 1 - 1) by lia. rewrite <- Hn.
    replace ((A * a - 3 * B * b) * q) with (A * (a * q) - 3 * B * (b * q)) by ring. rewrite <- Ha, <- Hb. ring.
  - exists (A * b - B * a). replace (D - 0) with (D * 1) by lia. rewrite <- Hn.
    replace ((A * b - B * a) * q) with (A * (b * q) - B * (a * q)) by ring. rewrite <- Ha, <- Hb. ring.
Qed.

Context (Htest : lucas k n 4 mod (2 ^ k - 1) = 0).

Lemma half_cycle : cong (pw (2 ^ (n + 1))) (-1, 0).
Proof.
  assert (q | 2 * (pw (2 ^ n)).1) as H.
  { assert (q | lucas k n 4) as Hl.
    { etransitivity; [exact HqM|]. apply Z.mod_divide; [|done]. lia. }
    pose proof (lucas_pw n 1 4 ltac:(by exists 0)) as H'. rewrite Nat.mul_1_l in H'.
    replace (2 * (pw (2 ^ n)).1) with (lucas k n 4 - (lucas k n 4 - 2 * (pw (2 ^ n)).1)) by lia.
    by apply Z.divide_sub_r. }
  apply Gauss in H; [|apply rel_prime_sym, prime_rel_prime; [apply prime_2|]].
  2:{ intros H2. destruct HqM as [z Hz], H2 as [y Hy]. subst q.
      replace k with (1 + (k - 1)) in Hz by lia. rewrite Z.pow_add_r in Hz by lia. lia. }
  rewrite Nat.pow_add_r. replace (2 ^ n * 2 ^ 1)%nat with (2 ^ n + 2 ^ n)%nat by (cbn; lia). rewrite pw_add.
  pose proof (pw_norm (2 ^ n)) as Hn. destruct (pw (2 ^ n)) as [A B]. unfold pmul, cong. cbn [fst snd] in *.
  destruct H as [a ->]. split.
  - exists (2 * a * a * q). lia.
  - exists (2 * a * B). ring.
Qed.

(** No smaller power is one. *)
Lemma no_cycle d : (0 < d)%nat → Z.of_nat d < 2 ^ k → ~ cong (pw d) (1, 0).
Proof.
  intros Hd Hlt Hc.
  assert (∃ j m, d = (2 ^ j * (2 * m + 1))%nat) as (j & m & ->).
  { clear -Hd. induction d as [d IH] using lt_wf_ind. destruct (Nat.Even_or_Odd d) as [[e ->]|[m ->]].
    - destruct (IH e) as (j & m & ->); [lia..|]. exists (S j), m. cbn [Nat.pow]. lia.
    - exists 0%nat, m. rewrite Nat.pow_0_r. lia. }
  assert (j ≤ n + 1)%nat as Hj.
  { apply Nat.nlt_ge. intros Hgt. assert (2 ^ k <= 2 ^ Z.of_nat j) by (apply Z.pow_le_mono_r; lia).
    rewrite Nat2Z.inj_mul, Nat2Z.inj_pow in Hlt. nia. }
  pose proof (cong_pow _ _ (2 ^ (n + 1 - j)) Hc) as H1.
  pose proof (cong_pow _ _ (2 * m + 1) half_cycle) as H2.
  replace (2 ^ j * (2 * m + 1) * 2 ^ (n + 1 - j))%nat with (2 ^ (n + 1) * (2 * m + 1))%nat in H1.
  2:{ replace (n + 1)%nat with (j + (n + 1 - j))%nat at 1 by lia. rewrite Nat.pow_add_r. lia. }
  rewrite Z.pow_1_l in H1 by lia.
  replace (Z.of_nat (2 * m + 1)) with (2 * Z.of_nat m + 1) in H2 by lia.
  rewrite Z.pow_add_r, Z.pow_mul_r, Z.pow_1_r in H2 by lia. change ((-1) ^ 2) with 1 in H2.
  rewrite Z.pow_1_l in H2 by lia. destruct H1 as [[a Ha] _], H2 as [[b Hb] _]. cbn [fst snd] in *.
  apply q_odd. exists (b - a). lia.
Qed.

Lemma lucas_absurd : False.
Proof.
  set (N := (2 ^ (n + 2))%nat). assert (Z.of_nat N = 2 ^ k) as EN.
  { unfold N. rewrite Nat2Z.inj_pow. unfold k. f_equal. lia. }
  set (f := λ i, ((pw i).1 mod q, (pw i).2 mod q)). set (r := map Z.of_nat (seq 0 (Z.to_nat q))).
  assert (length (map f (seq 0 N)) ≤ length (list_prod r r))%nat as Hl.
  { apply NoDup_incl_length.
    - apply NoDup_ListNoDup, NoDup_fmap_2_strong; [|apply NoDup_ListNoDup, seq_NoDup].
      enough (∀ i j, (i < j < N)%nat → f i ≠ f j) as Hf.
      { intros i j Hi Hj E. rewrite list_elem_of_In, in_seq in Hi, Hj.
        destruct (Nat.lt_trichotomy i j) as [H|[H|H]]; [exfalso|done|exfalso].
        - apply (Hf i j); [lia|done].
        - apply (Hf j i); [lia|done]. }
      intros i j Hij E. unfold f in E. injection E as E1 E2.
      apply (no_cycle (j - i)); [lia|lia|]. apply (cong_sub i). replace (i + (j - i))%nat with j by lia.
      split; apply Z.mod_divide; try lia.
      + by rewrite Zminus_mod, E1, Z.sub_diag, Z.mod_0_l by lia.
      + by rewrite Zminus_mod, E2, Z.sub_diag, Z.mod_0_l by lia.
    - intros [a b] (i & E & Hi)%in_map_iff. unfold f in E. injection E as <- <-.
      apply in_prod; apply in_map_iff; eexists; (split; [apply Z2Nat.id|apply in_seq]);
        pose proof (Z.mod_pos_bound (pw i).1 q ltac:(lia)); pose proof (Z.mod_pos_bound (pw i).2 q ltac:(lia)); lia. }
  rewrite length_map, length_seq, length_prod in Hl. unfold r in Hl. rewrite length_map, length_seq in Hl. nia.
Qed.
End lucas.

Theorem lucas_lehmer n : let M := 2 ^ (Z.of_nat n + 2) - 1 in
  lucas (Z.of_nat n + 2) n 4 mod M = 0 → prime M.
Proof.
  intros M Htest. assert (4 <= 2 ^ (Z.of_nat n + 2)) by (change 4 with (2 ^ 2); apply Z.pow_le_mono_r; lia).
  destruct (prime_dec M) as [Hp|Hp]; [done|exfalso].
  apply not_prime_divide in Hp as (d & Hd & c & Hc); [|lia].
  assert (∃ q, 1 < q ∧ q * q <= M ∧ (q | M)) as (q & Hq & Hqq & HqM).
  { destruct (Z.le_gt_cases (d * d) M) as [Hle|Hgt].
    - exists d. split; [lia|]. split; [done|]. by exists c.
    - exists c. split; [nia|]. split; [nia|]. exists d. lia. }
  by apply (lucas_absurd n q).
Qed.

Theorem p521_prime : prime (2 ^ 521 - 1).
Proof. apply (lucas_lehmer 519). vm_compute. reflexivity. Qed.

(** ** A number that is not a square *)

Fixpoint squares (k : Z) (n : nat) (s : Z) : Z :=
  match n with O => s | S n => squares k n (fold_mersenne k (fold_mersenne k (Z.square s))) end.

Lemma squares_mod k n s : 0 < k → squares k n s mod (2 ^ k - 1) = (s ^ (2 ^ Z.of_nat n)) mod (2 ^ k - 1).
Proof.
  intros Hk. revert s. induction n as [|n IH]; intros s; cbn [squares].
  - change (Z.of_nat 0) with 0. by rewrite Z.pow_0_r, Z.pow_1_r.
  - rewrite IH. clear IH. rewrite Nat2Z.inj_succ, (Z.pow_succ_r 2), Z.pow_mul_r, Z.pow_2_r by lia.
    assert (2 <= 2 ^ k) as H2 by (change 2 with (2 ^ 1) at 1; apply Z.pow_le_mono_r; lia).
    destruct (decide (k = 1)) as [-> | Hk1]; [by rewrite !Z.mod_1_r|].
    assert (4 <= 2 ^ k) as H4 by (change 4 with (2 ^ 2); apply Z.pow_le_mono_r; lia).
    set (M := 2 ^ k - 1) in *. assert (0 < M) as HM by lia.
    rewrite (Zpower_mod _ _ M), (Zpower_mod (s * s)) by lia. do 2 f_equal.
    assert (∀ x, fold_mersenne k x mod M = x mod M) as Hf.
    { intros x. destruct (fold_mersenne_divide k x) as [z Hz]; [lia|]. fold M in Hz.
      replace (fold_mersenne k x) with (x + z * M) by lia. by rewrite Z.mod_add by lia. }
    by rewrite !Hf, Z.square_spec.
Qed.

(** x^(p+1) = x^2 modulo p. *)
Lemma fermat_square p r : prime p → (r ^ (p + 1)) mod p = (r * r) mod p.
Proof.
  intros Hp. pose proof (prime_ge_2 p Hp) as Hp2.
  replace (p + 1) with ((p - 1) + 2) by lia. rewrite Z.pow_add_r, Z.pow_2_r by lia.
  destruct (decide (r mod p = 0)) as [E|E].
  - assert ((r * r) mod p = 0) as E2 by (rewrite Z.mul_mod, E by lia; apply Z.mod_0_l; lia).
    rewrite Z.mul_mod, E2, Z.mul_0_r by lia. apply Z.mod_0_l. lia.
  - by rewrite Z.mul_mod, (fermat_little p Hp r E), Z.mul_1_l, Z.mod_mod by lia.
Qed.

Lemma squares_D : squares 521 520 (-376014) mod (2 ^ 521 - 1) = 376014.
Proof. vm_compute. reflexivity. Qed.

Lemma square_fixed p d e r : prime p → 0 <= e → p + 1 = 2 * e →
  (r * r) mod p = d mod p → (d ^ e) mod p = d mod p.
Proof.
  intros Hp He Ee E. pose proof (prime_ge_2 p Hp) as Hp2. pose proof (fermat_square p r Hp) as H.
  rewrite Ee, Z.pow_mul_r, Z.pow_2_r, Zpower_mod, E, <- Zpower_mod in H by lia. done.
Qed.

Theorem D_nonsquare r : (r * r) mod (2 ^ 521 - 1) ≠ (-376014) mod (2 ^ 521 - 1).
Proof.
  intros E. assert (2 ^ 521 - 1 + 1 = 2 * 2 ^ Z.of_nat 520) as Ee by (vm_compute; reflexivity).
  pose proof (square_fixed _ _ _ _ p521_prime (Z.pow_nonneg 2 _ ltac:(lia)) Ee E) as H.
  rewrite <- (squares_mod 521 520 (-376014) eq_refl), squares_D in H.
  vm_compute in H. discriminate H.
Qed.
