(* ===== verification/Ed521.v ===== *)
(** * Software E-521

    driver/swcrypto/ed521.c: multi-precision arithmetic modulo p = 2^521 - 1 on
    seventeen 32-bit limbs, the points of the Edwards curve
    x^2 + y^2 = 1 + d x^2 y^2 with d = -376014 in projective coordinates, and
    the scalar ladder; and the software build of driver/ecc_driver.c on top.
    Every routine writes the limbs of its destination in order and reads limb
    [i] of its operands before it writes limb [i], so the routines are functions
    of the operands' values and may be called with a destination that is also an
    operand. *)

From Stdlib Require Import Znumtheory.
From S2P Require Import Prelude Words Msel Prime521.

Local Open Scope Z_scope.
Local Open Scope orp_scope.

Definition ED521_LIMBS : nat := 17.
Definition ED521_D : Z := -376014.

Definition ED521_P : list Z := replicate 16 0xffffffff ++ [0x000001ff].

(** The base point and its order. *)
Definition ED521_Gx : list Z :=
  [0x2f19ba6c; 0x302a940a; 0x364838aa; 0x59d0fb13; 0x8fc99c60; 0xae949d56; 0xc72434b1; 0xf6ecc5cc; 0xc6203913;
   0x8bf3c9c0; 0xc6c818ec; 0xbfd9f42f; 0x6b2878a3; 0xf90cb229; 0x648b189d; 0x2cb45c48; 0x00000075].
Definition ED521_Gy : Z := 0xc.
Definition ED521_order : list Z :=
  [0xf5180d6b; 0x40ea2435; 0x9a8f1f45; 0xfbd8c456; 0x7ec53f04; 0x36b8af5e; 0x46fc85f7; 0x15b6c647; 0xfffffffd]
  ++ replicate 7 0xffffffff ++ [0x0000007f].

(** ** Multi-precision arithmetic *)

Definition make_mp (inp : list Z) (size : nat) : list Z :=
  map (λ i,
    (get inp (size - 4 * i - 4) <<< 24) .| (get inp (size - 4 * i - 3) <<< 16)
    .| (get inp (size - 4 * i - 2) <<< 8) .| get inp (size - 4 * i - 1)) (seq 0 ED521_LIMBS).

Definition from_mp (out inp : list Z) (size : nat) : list Z :=
  for_loop 0 ED521_LIMBS (λ i out,
    let out := upd out (size - 4 * i - 4) (u8 (get inp i >>> 24)) in
    let out := upd out (size - 4 * i - 3) (u8 (get inp i >>> 16)) in
    let out := upd out (size - 4 * i - 2) (u8 (get inp i >>> 8)) in
    upd out (size - 4 * i - 1) (u8 (get inp i))) out.

Definition mp_set (s : list Z) : list Z := map (get s) (seq 0 ED521_LIMBS).
Definition mp_set_ui (s : Z) : list Z := s :: replicate (ED521_LIMBS - 1) 0.

Definition mp_cmp (a b : list Z) : Z :=
  let ret := for_loop 0 ED521_LIMBS (λ i ret, ret + (if get a i =? get b i then 0 else 1)) 0 in
  if ret =? 0 then 0 else -1.
Definition mp_cmp_ui (a : list Z) (b : Z) : Z :=
  let ret := for_loop 1 (ED521_LIMBS - 1) (λ i ret, ret + (if get a i =? 0 then 0 else 1))
    (if get a 0 =? b then 0 else 1) in
  if ret =? 0 then 0 else -1.

(** The state of the loops below: the limbs written so far and the 64-bit
    accumulator [v]. *)
Definition add_step (a b : list Z) (i : nat) (st : list Z * Z) : list Z * Z :=
  let '(d, v) := st in
  let v := u64 (v + get a i + get b i) in
  (d ++ [u32 v], v >>> 32).
Definition mp_add (a b : list Z) : list Z := (for_loop 0 ED521_LIMBS (add_step a b) ([], 0)).1.

Definition add_ui_step (a : list Z) (i : nat) (st : list Z * Z) : list Z * Z :=
  let '(d, v) := st in
  let v := u64 (v + get a i) in
  (d ++ [u32 v], v >>> 32).
Definition mp_add_ui (a : list Z) (b : Z) : list Z := (for_loop 0 ED521_LIMBS (add_ui_step a) ([], b)).1.

Definition sub_step (a b : list Z) (i : nat) (st : list Z * Z) : list Z * Z :=
  let '(d, v) := st in
  let v := u64 (get a i - get b i - (v .& 1)) in
  (d ++ [u32 v], v >>> 32).
Definition mp_sub (a b : list Z) : list Z := (for_loop 0 ED521_LIMBS (sub_step a b) ([], 0)).1.

Definition sub_ui_step (a : list Z) (i : nat) (st : list Z * Z) : list Z * Z :=
  let '(d, v) := st in
  let v := v >>> 32 in
  let v := u64 (get a i - (v .& 1)) in
  (d ++ [u32 v], v).
Definition mp_sub_ui (a : list Z) (b : Z) : list Z :=
  let v := u64 (get a 0 - b) in
  (for_loop 1 (ED521_LIMBS - 1) (sub_ui_step a) ([u32 v], v)).1.

(** [v = d[ED521_LIMBS - 1] >> 9; d[ED521_LIMBS - 1] &= 0x1ff]. *)
Definition top_bits (d : list Z) : Z := get d (ED521_LIMBS - 1) >>> 9.
Definition mask_top (d : list Z) : list Z := upd d (ED521_LIMBS - 1) (get d (ED521_LIMBS - 1) .& 0x1ff).

Definition mp_modadd (a b : list Z) : list Z :=
  let d := mp_add a b in
  mp_add_ui (mask_top d) (top_bits d).
Definition mp_modsub (a b : list Z) : list Z :=
  let d := mp_sub a b in
  mp_sub_ui (mask_top d) (top_bits d .& 1).

Definition mul2_step (a : list Z) (i : nat) (st : list Z * Z) : list Z * Z :=
  let '(d, c) := st in
  let v := get a i in
  (d ++ [u32 (u32 (v <<< 1) + c)], v >>> 31).
Definition mp_modmul2 (a : list Z) : list Z :=
  mask_top (for_loop 0 ED521_LIMBS (mul2_step a) ([], get a (ED521_LIMBS - 1) >>> 8)).1.

(** One row of the product: [tmp += a[i] * b << 32 i]. *)
Definition mul_step (a b : list Z) (i j : nat) (st : list Z * Z) : list Z * Z :=
  let '(tmp, v) := st in
  let v := u64 (get a i * get b j + v + get tmp (i + j)) in
  (upd tmp (i + j) (u32 v), v >>> 32).
Definition mul_row (a b : list Z) (i : nat) (tmp : list Z) : list Z :=
  let '(tmp, v) := for_loop 0 ED521_LIMBS (mul_step a b i) (tmp, 0) in
  upd tmp (i + ED521_LIMBS) (u32 v).

(** The product, 34 limbs. *)
Definition mul_tmp (a b : list Z) : list Z :=
  for_loop 0 ED521_LIMBS (mul_row a b) (replicate (ED521_LIMBS * 2) 0).

(** [d[i] = (tmp[j] >> 9) + (tmp[j + 1] << (32 - 9))] with [j = i + 16]. *)
Definition high_limb (tmp : list Z) (i : nat) : Z :=
  u32 ((get tmp (i + 16) >>> 9) + u32 (get tmp (i + 16 + 1) <<< (32 - 9))).

Definition mp_modmul (a b : list Z) : list Z :=
  let tmp := mul_tmp a b in
  let d := map (high_limb tmp) (seq 0 ED521_LIMBS) in
  mp_modadd d (mask_top tmp).

Definition mp_modsqrt (a : list Z) : list Z :=
  for_loop 1 519 (λ _ r1, mp_modmul r1 r1) (mp_set a).

Definition inv_step (_ : nat) (st : list Z * list Z) : list Z * list Z :=
  let '(d, t) := st in
  let t := mp_modmul t t in
  (mp_modmul d t, t).
Definition mp_modinv (a : list Z) : list Z :=
  let t := mp_set a in
  let d := mp_set a in
  let t := mp_modmul t t in
  (for_loop 2 519 inv_step (d, t)).1.

(** ** Points *)

Record ec_point_t := EcPoint { px : list Z; py : list Z; pz : list Z }.

Definition point_set (a : ec_point_t) : ec_point_t :=
  EcPoint (mp_set (px a)) (mp_set (py a)) (mp_set (pz a)).

Definition point_make_affine (a : ec_point_t) : ec_point_t * Z :=
  let t := mp_modinv (pz a) in
  let d := EcPoint (mp_modmul (px a) t) (mp_modmul (py a) t) (mp_modmul (pz a) t) in
  (d, mp_cmp_ui (pz d) 1).

Definition point_uncompress (x : list Z) (y_sign : Z) : ec_point_t * Z :=
  let p_x := mp_set x in
  let p_z := mp_modmul p_x p_x in
  let t := mp_set_ui 376014 in
  let t := mp_modmul t p_z in
  let t := mp_add_ui t 1 in
  let p_y := mp_modinv t in
  let t := mp_modmul t p_y in
  let ret := if negb (mp_cmp_ui t 1 =? 0) then -1 else 0 in
  let t := mp_set_ui 1 in
  let t := mp_modsub t p_z in
  let t := mp_modmul t p_y in
  let p_y := mp_modsqrt t in
  let p_z := mp_modmul p_y p_y in
  let ret := if negb (mp_cmp p_z t =? 0) then -1 else ret in
  let p_y := if negb (get p_y 0 .& 1 =? y_sign) then mp_sub ED521_P p_y else p_y in
  (EcPoint p_x p_y (mp_set_ui 1), ret).

(** The compressed point: x, the sign of y, and the status. *)
Definition point_compress (p : ec_point_t) : list Z * Z * Z :=
  let '(p, ret) := point_make_affine p in
  (mp_set (px p), get (py p) 0 .& 1, ret).

Definition point_double (a : ec_point_t) : ec_point_t :=
  let R1 := mp_set (px a) in
  let R2 := mp_set (py a) in
  let R3 := mp_set (pz a) in
  let R4 := mp_modmul R1 R1 in
  let R1 := mp_modadd R1 R2 in
  let R1 := mp_modmul R1 R1 in
  let R2 := mp_modmul R2 R2 in
  let R3 := mp_modmul R3 R3 in
  let R3 := mp_modmul2 R3 in
  let R4 := mp_modadd R2 R4 in
  let R2 := mp_modmul2 R2 in
  let R2 := mp_modsub R4 R2 in
  let R1 := mp_modsub R1 R4 in
  let R2 := mp_modmul R2 R4 in
  let R3 := mp_modsub R4 R3 in
  let R1 := mp_modmul R1 R3 in
  let R3 := mp_modmul R3 R4 in
  EcPoint R1 R2 R3.

Definition curve_d : list Z :=
  u32 (get ED521_P 0 + ED521_D) :: map (get ED521_P) (seq 1 (ED521_LIMBS - 1)).

Definition point_add (a b : ec_point_t) : ec_point_t :=
  let R4 := mp_set (px b) in
  let R5 := mp_set (py b) in
  let R7 := mp_set (pz b) in
  let R1 := mp_set (px a) in
  let R2 := mp_set (py a) in
  let R3 := mp_set (pz a) in
  let R3 := mp_modmul R3 R7 in
  let R7 := mp_modadd R1 R2 in
  let R8 := mp_modadd R4 R5 in
  let R1 := mp_modmul R1 R4 in
  let R2 := mp_modmul R2 R5 in
  let R7 := mp_modmul R7 R8 in
  let R7 := mp_modsub R7 R1 in
  let R7 := mp_modsub R7 R2 in
  let R7 := mp_modmul R7 R3 in
  let R8 := mp_modmul R1 R2 in
  let R4 := curve_d in
  let R8 := mp_modmul R8 R4 in
  let R2 := mp_modsub R2 R1 in
  let R2 := mp_modmul R2 R3 in
  let R3 := mp_modmul R3 R3 in
  let R1 := mp_modsub R3 R8 in
  let R3 := mp_modadd R3 R8 in
  let R2 := mp_modmul R2 R3 in
  let R3 := mp_modmul R3 R1 in
  let R1 := mp_modmul R1 R7 in
  EcPoint R1 R2 R3.

(** One bit of the ladder: [b = v >> 31; point_add(p[b ^ 1], p[0], p[1]);
    point_double(p[b], p[b]); v <<= 1]. *)
Definition ladder_bit (st : ec_point_t * ec_point_t * Z) : ec_point_t * ec_point_t * Z :=
  let '(p0, p1, v) := st in
  let b := v >>> 31 in
  let sum := point_add p0 p1 in
  let '(p0, p1) := if b =? 0 then (point_double p0, sum) else (sum, point_double p1) in
  (p0, p1, u32 (v <<< 1)).

Definition ladder_limb (s : list Z) (i : nat) (p : ec_point_t * ec_point_t) : ec_point_t * ec_point_t :=
  (for_loop 0 32 (λ _, ladder_bit) (p, get s i)).1.

(** [for(i = ED521_LIMBS - 1; i >= 0; i--)]. *)
Definition point_scalar (a : ec_point_t) (s : list Z) : ec_point_t :=
  (for_down ED521_LIMBS (λ k, ladder_limb s (k - 1))
     (EcPoint (mp_set_ui 0) (mp_set_ui 1) (mp_set_ui 1), point_set a)).1.

(** ** The ECC driver *)

Record ecc_ctx_t := EccCtx { scalar : list Z; point : list Z }.

Definition ECC_SCALAR_LEN : nat := 128.
Definition ECC_POINT_LEN : nat := 128.

Definition msel_ecc_mul (ctx : ecc_ctx_t) : msel_status * ecc_ctx_t :=
  let s := make_mp (scalar ctx) ECC_SCALAR_LEN in
  let compressed := make_mp (point ctx) ECC_POINT_LEN in
  let y_sign := get (point ctx) 0 .& 0x01 in
  let '(inp, _) := point_uncompress compressed y_sign in
  let out := point_scalar inp s in
  let '(compressed, y_sign, _) := point_compress out in
  let pt := upd (point ctx) 0 (get (point ctx) 0 .& 0xfe) in
  let pt := upd pt 0 (get pt 0 .| y_sign) in
  (MSEL_OK, EccCtx (scalar ctx) (from_mp pt compressed ECC_POINT_LEN)).

(** ** Values

    [vsum X n] is the number with the limbs [X 0], ..., [X (n - 1)]. *)

Fixpoint vsum (X : nat → Z) (n : nat) : Z :=
  match n with O => 0 | S n => vsum X n + X n * 2 ^ (32 * Z.of_nat n) end.

Definition mp_val (l : list Z) : Z := vsum (get l) ED521_LIMBS.
Definition mp_ok (l : list Z) : Prop := length l = ED521_LIMBS ∧ words_ok l.

Abbreviation p521 := (2 ^ 521 - 1).

Lemma vsum_0 X : vsum X 0 = 0.
Proof. reflexivity. Qed.

Lemma vsum_S X n : vsum X (S n) = vsum X n + X n * 2 ^ (32 * Z.of_nat n).
Proof. reflexivity. Qed.

Lemma vsum_ext X Y n : (∀ i, (i < n)%nat → X i = Y i) → vsum X n = vsum Y n.
Proof.
  induction n as [|n IH]; intros H; [done|]. cbn [vsum]. rewrite IH by (intros; apply H; lia).
  by rewrite H by lia.
Qed.

Lemma vsum_lin X Y a b n : vsum (λ i, a * X i + b * Y i) n = a * vsum X n + b * vsum Y n.
Proof. induction n as [|n IH]; cbn [vsum]; [lia|]. rewrite IH. ring. Qed.

Lemma vsum_range X n : (∀ i, (i < n)%nat → is_u32 (X i)) → 0 <= vsum X n < 2 ^ (32 * Z.of_nat n).
Proof.
  induction n as [|n IH]; intros H; [done|]. cbn [vsum].
  assert (0 <= vsum X n < 2 ^ (32 * Z.of_nat n)) as IH' by (apply IH; intros; apply H; lia).
  specialize (H n ltac:(lia)). unfold is_u32 in H.
  replace (32 * Z.of_nat (S n)) with (32 * Z.of_nat n + 32) by lia. rewrite Z.pow_add_r by lia. nia.
Qed.

Lemma vsum_split X n m :
  vsum X (n + m) = vsum X n + 2 ^ (32 * Z.of_nat n) * vsum (λ i, X (n + i)%nat) m.
Proof.
  induction m as [|m IH]; [rewrite Nat.add_0_r; cbn [vsum]; lia|].
  rewrite Nat.add_succ_r. cbn [vsum]. rewrite IH.
  replace (32 * Z.of_nat (n + m)) with (32 * Z.of_nat n + 32 * Z.of_nat m) by lia.
  rewrite Z.pow_add_r by lia. ring.
Qed.

Lemma vsum_insert l k x n : (k < n)%nat → (k < length l)%nat →
  vsum (get (<[k := x]> l)) n = vsum (get l) n + (x - get l k) * 2 ^ (32 * Z.of_nat k).
Proof.
  induction n as [|n IH]; intros Hk Hl; [lia|]. cbn [vsum]. destruct (decide (k = n)) as [->|Hne].
  - rewrite get_insert_eq by done.
    rewrite (vsum_ext (get (<[n := x]> l)) (get l)); [ring|]. intros i Hi. apply get_insert_ne. lia.
  - rewrite IH, get_insert_ne by lia. ring.
Qed.

Lemma vsum_snoc d x : vsum (get (d ++ [x])) (S (length d)) = vsum (get d) (length d) + x * 2 ^ (32 * Z.of_nat (length d)).
Proof.
  cbn [vsum]. rewrite get_app_r, Nat.sub_diag by lia. f_equal. apply vsum_ext.
  intros i Hi. by apply get_app_l.
Qed.

Lemma mp_ok_get l i : mp_ok l → is_u32 (get l i).
Proof. intros [_ H]. auto with width. Qed.

Lemma mp_val_range l : mp_ok l → 0 <= mp_val l < 2 ^ 544.
Proof. intros H. apply (vsum_range (get l) 17). intros. by apply mp_ok_get. Qed.

Lemma words_ok_snoc d x : words_ok d → is_u32 x → words_ok (d ++ [x]).
Proof. intros. apply Forall_app. split; [done|]. by constructor. Qed.

(** A loop that writes limb [i] from the exact integer [X i + c], where [c] is
    the carry of the limb before, possibly negative. *)
Section carry.
Context {S : Type} (f : nat → list Z * S → list Z * S) (X : nat → Z) (R : Z → S → Prop).
Context (Hf : ∀ i d s c, (i < 17)%nat → R c s →
  ∃ s', f i (d, s) = (d ++ [(X i + c) mod 2 ^ 32], s') ∧ R ((X i + c) / 2 ^ 32) s').

Lemma carry_loop_from k n d0 c0 s0 K : (k + n ≤ 17)%nat → R c0 s0 → length d0 = k → words_ok d0 →
  vsum (get d0) k + c0 * 2 ^ (32 * Z.of_nat k) = K + vsum X k →
  ∃ d s c, for_loop k n f (d0, s0) = (d, s) ∧ R c s ∧ length d = (k + n)%nat ∧ words_ok d ∧
  vsum (get d) (k + n) + c * 2 ^ (32 * Z.of_nat (k + n)) = K + vsum X (k + n).
Proof.
  intros Hn H0 Hl0 Hw0 HK. induction n as [|n IH].
  { exists d0, s0, c0. by rewrite Nat.add_0_r. }
  destruct IH as (d & s & c & E & HR & Hl & Hw & Hv); [lia|].
  rewrite for_loop_S_r, E. destruct (Hf (k + n) d s c) as (s' & -> & HR'); [lia|done|].
  eexists _, _, _. split; [done|]. split; [exact HR'|]. split; [rewrite length_app; cbn; lia|].
  split; [apply words_ok_snoc; [done|apply Z.mod_pos_bound; lia]|]. rewrite Nat.add_succ_r.
  set (x := X (k + n)%nat + c) in *.
  assert (vsum (get (d ++ [x mod 2 ^ 32])) (Datatypes.S (k + n)) =
    vsum (get d) (k + n) + x mod 2 ^ 32 * 2 ^ (32 * Z.of_nat (k + n))) as -> by (rewrite <- Hl; apply vsum_snoc).
  cbn [vsum]. replace (32 * Z.of_nat (Datatypes.S (k + n))) with (32 * Z.of_nat (k + n) + 32) by lia.
  rewrite Z.pow_add_r by lia. pose proof (Z.div_mod x (2 ^ 32) ltac:(lia)) as Hdm.
  set (q := x / 2 ^ 32) in *. set (r := x mod 2 ^ 32) in *. unfold x in Hdm.
  set (B := 2 ^ (32 * Z.of_nat (k + n))) in *. nia.
Qed.

Lemma carry_loop n c0 s0 : (n ≤ 17)%nat → R c0 s0 →
  ∃ d s c, for_loop 0 n f ([], s0) = (d, s) ∧ R c s ∧ length d = n ∧ words_ok d ∧
  vsum (get d) n + c * 2 ^ (32 * Z.of_nat n) = c0 + vsum X n.
Proof.
  intros Hn H0. apply (carry_loop_from 0 n [] c0 s0 c0); [lia|done|done|by constructor|]. cbn. lia.
Qed.
End carry.

(** An operand: its first seventeen limbs are words. *)
Definition limbs (l : list Z) : Prop := ∀ i, (i < 17)%nat → is_u32 (get l i).

Lemma mp_ok_limbs l : mp_ok l → limbs l.
Proof. intros H i _. by apply mp_ok_get. Qed.

Lemma limbs_range l : limbs l → 0 <= mp_val l < 2 ^ 544.
Proof. intros H. by apply (vsum_range (get l) 17). Qed.

Lemma shiftr32 v : v >>> 32 = v / 2 ^ 32.
Proof. apply Z.shiftr_div_pow2. lia. Qed.

Lemma u32_u64 t : u32 (u64 t) = t mod 2 ^ 32.
Proof.
  unfold u32, u64. change (2 ^ 64) with (2 ^ 32 * 2 ^ 32). rewrite Z.rem_mul_r by lia.
  rewrite (Z.mul_comm (2 ^ 32) (t / 2 ^ 32 mod 2 ^ 32)), Z.mod_add by lia. by rewrite Z.mod_mod by lia.
Qed.

(** The borrow that [mp_sub] reads from the accumulator. *)
Lemma borrow_bit t : - 2 ^ 32 <= t < 2 ^ 32 → (u64 t >>> 32) .& 1 = - (t / 2 ^ 32).
Proof.
  intros Ht. rewrite shiftr32. change 1 with (Z.ones 1). rewrite Z.land_ones by lia. unfold u64.
  destruct (Z.lt_ge_cases t 0).
  - rewrite <- (Z.mod_add t 1) by lia. rewrite (Z.mod_small (t + 1 * 2 ^ 64)) by lia.
    replace (t + 1 * 2 ^ 64) with (t + 2 ^ 32 + (2 ^ 32 - 1) * 2 ^ 32) by lia. rewrite Z.div_add by lia.
    rewrite (Z.div_small (t + 2 ^ 32)) by lia. replace t with (t + 2 ^ 32 + (-1) * 2 ^ 32) by lia.
    rewrite Z.div_add by lia. rewrite (Z.div_small (t + 2 ^ 32)) by lia. done.
  - rewrite (Z.mod_small t), !Z.div_small by lia. done.
Qed.

Section routines.
Context (a : list Z) (Ha : limbs a).

Ltac mp_finish c := change ED521_LIMBS with 17%nat in *; cbn [fst]; split; [done|]; exists c;
  unfold mp_val; change ED521_LIMBS with 17%nat; change (2 ^ 544) with (2 ^ (32 * Z.of_nat 17)).

Lemma mp_add_ok b : limbs b →
  mp_ok (mp_add a b) ∧ ∃ c, 0 <= c ∧ mp_val (mp_add a b) + c * 2 ^ 544 = mp_val a + mp_val b.
Proof.
  intros Hb. unfold mp_add, ED521_LIMBS.
  destruct (carry_loop (add_step a b) (λ i, get a i + get b i) (λ c v, v = c ∧ 0 <= c <= 1))
    with (n := 17%nat) (c0 := 0) (s0 := 0) as (d & s & c & -> & [_ Hc] & Hl & Hw & Hv); [|lia|lia|].
  { intros i d v c Hi [-> Hc]. specialize (Ha i Hi). specialize (Hb i Hi). unfold is_u32 in *. unfold add_step.
    assert (u64 (c + get a i + get b i) = get a i + get b i + c) as ->
      by (rewrite u64_id; [lia|unfold is_u64; lia]).
    eexists. unfold u32. split; [done|]. rewrite shiftr32. split; [done|]. split; [apply Z.div_pos; lia|].
    apply Z.lt_succ_r, Z.div_lt_upper_bound; lia. }
  mp_finish c. split; [lia|]. rewrite Hv.
  rewrite (vsum_ext _ (λ i, 1 * get a i + 1 * get b i)) by (intros; lia). rewrite vsum_lin. lia.
Qed.

Lemma mp_add_ui_ok b : is_u32 b →
  mp_ok (mp_add_ui a b) ∧ ∃ c, 0 <= c ∧ mp_val (mp_add_ui a b) + c * 2 ^ 544 = mp_val a + b.
Proof.
  intros Hb. unfold mp_add_ui, ED521_LIMBS.
  destruct (carry_loop (add_ui_step a) (get a) (λ c v, v = c ∧ is_u32 c))
    with (n := 17%nat) (c0 := b) (s0 := b) as (d & s & c & -> & [_ Hc] & Hl & Hw & Hv); [|lia|done|].
  { intros i d v c Hi [-> Hc]. specialize (Ha i Hi). unfold is_u32 in *. unfold add_ui_step.
    assert (u64 (c + get a i) = get a i + c) as -> by (rewrite u64_id; [lia|unfold is_u64; lia]).
    eexists. unfold u32. split; [done|]. rewrite shiftr32. split; [done|]. split; [apply Z.div_pos; lia|].
    apply Z.div_lt_upper_bound; lia. }
  unfold is_u32 in Hc. mp_finish c. split; [lia|]. rewrite Hv. lia.
Qed.

Lemma mp_sub_ok b : limbs b →
  mp_ok (mp_sub a b) ∧ ∃ c, mp_val (mp_sub a b) + c * 2 ^ 544 = mp_val a - mp_val b.
Proof.
  intros Hb. unfold mp_sub, ED521_LIMBS.
  destruct (carry_loop (sub_step a b) (λ i, get a i - get b i) (λ c v, v .& 1 = - c ∧ -1 <= c <= 0))
    with (n := 17%nat) (c0 := 0) (s0 := 0) as (d & s & c & -> & _ & Hl & Hw & Hv); [|lia|done|].
  { intros i d v c Hi [Hv Hc]. specialize (Ha i Hi). specialize (Hb i Hi). unfold is_u32 in *. unfold sub_step.
    rewrite Hv, u32_u64. replace (get a i - get b i - - c) with (get a i - get b i + c) by lia.
    eexists. split; [done|]. split; [apply borrow_bit; lia|]. split; [apply Z.div_le_lower_bound; lia|].
    apply Z.lt_succ_r, Z.div_lt_upper_bound; lia. }
  mp_finish c. rewrite Hv.
  rewrite (vsum_ext _ (λ i, 1 * get a i + (-1) * get b i)) by (intros; lia). rewrite vsum_lin. lia.
Qed.

Lemma mp_sub_ui_ok b : is_u32 b →
  mp_ok (mp_sub_ui a b) ∧ ∃ c, mp_val (mp_sub_ui a b) + c * 2 ^ 544 = mp_val a - b.
Proof.
  intros Hb. unfold mp_sub_ui. change (ED521_LIMBS - 1)%nat with 16%nat.
  pose proof (Ha 0%nat ltac:(lia)) as H0. unfold is_u32 in Hb, H0. set (t0 := get a 0 - b).
  destruct (carry_loop_from (sub_ui_step a) (get a)
    (λ c v, ∃ t, - 2 ^ 32 <= t < 2 ^ 32 ∧ v = u64 t ∧ c = t / 2 ^ 32))
    with (k := 1%nat) (n := 16%nat) (d0 := [u32 (u64 t0)]) (c0 := t0 / 2 ^ 32) (s0 := u64 t0) (K := - b)
    as (d & s & c & -> & _ & Hl & Hw & Hv).
  - intros i d v c Hi (t & Ht & -> & ->). specialize (Ha i Hi). unfold is_u32 in *. unfold sub_ui_step.
    assert (-1 <= t / 2 ^ 32 <= 0).
    { split; [apply Z.div_le_lower_bound; lia|]. apply Z.lt_succ_r, Z.div_lt_upper_bound; lia. }
    rewrite borrow_bit, u32_u64 by done.
    replace (get a i - - (t / 2 ^ 32)) with (get a i + t / 2 ^ 32) by lia. eexists. split; [done|].
    exists (get a i + t / 2 ^ 32). split; [lia|done].
  - lia.
  - exists t0. split; [unfold t0; lia|done].
  - done.
  - constructor; [apply u32_range|constructor].
  - cbn [vsum]. change (get [u32 (u64 t0)] 0) with (u32 (u64 t0)). rewrite u32_u64.
    change (32 * Z.of_nat 1) with 32. change (32 * Z.of_nat 0) with 0.
    pose proof (Z.div_mod t0 (2 ^ 32) ltac:(lia)). rewrite Z.pow_0_r. unfold t0 in *. lia.
  - change (1 + 16)%nat with 17%nat in *. mp_finish c. rewrite Hv. lia.
Qed.

Lemma mul2_ok c0 : 0 <= c0 <= 1 → ∃ d s c, for_loop 0 ED521_LIMBS (mul2_step a) ([], c0) = (d, s) ∧
  mp_ok d ∧ mp_val d + c * 2 ^ 544 = 2 * mp_val a + c0.
Proof.
  intros Hc0. unfold ED521_LIMBS.
  destruct (carry_loop (mul2_step a) (λ i, 2 * get a i) (λ c v, v = c ∧ 0 <= c <= 1))
    with (n := 17%nat) (c0 := c0) (s0 := c0) as (d & s & c & -> & _ & Hl & Hw & Hv); [|lia|done|].
  { intros i d v c Hi [-> Hc]. specialize (Ha i Hi). unfold is_u32 in *. unfold mul2_step.
    exists (get a i >>> 31). split.
    - unfold u32. rewrite Z.shiftl_mul_pow2, Zplus_mod_idemp_l by lia. do 4 f_equal. lia.
    - rewrite Z.shiftr_div_pow2 by lia. assert ((2 * get a i + c) / 2 ^ 32 = get a i / 2 ^ 31) as ->.
      { replace (2 ^ 32) with (2 * 2 ^ 31) by lia. rewrite <- Z.div_div by lia. f_equal.
        rewrite Z.mul_comm, Z.div_add_l by lia. rewrite (Z.div_small c) by lia. lia. }
      split; [done|]. split; [apply Z.div_pos; lia|]. apply Z.lt_succ_r, Z.div_lt_upper_bound; lia. }
  exists d, s, c. split; [done|]. split; [done|].
  unfold mp_val. change ED521_LIMBS with 17%nat. change (2 ^ 544) with (2 ^ (32 * Z.of_nat 17)). rewrite Hv.
  rewrite (vsum_ext _ (λ i, 2 * get a i + 0 * get a i)) by (intros; lia). rewrite vsum_lin. lia.
Qed.

(** Bit 521 and up, and the bits below. *)
Lemma top_bits_ok : top_bits a = mp_val a / 2 ^ 521 ∧ limbs (mask_top a) ∧
  ((17 ≤ length a)%nat → mp_val (mask_top a) = mp_val a mod 2 ^ 521).
Proof.
  assert (mp_val a = vsum (get a) 16 + get a 16 * 2 ^ 512) as E by exact (vsum_S (get a) 16).
  pose proof (vsum_range (get a) 16 ltac:(intros; apply Ha; lia)) as Hr. change (32 * Z.of_nat 16) with 512 in Hr.
  pose proof (Ha 16%nat ltac:(lia)) as H16. unfold is_u32 in H16. unfold top_bits, mask_top.
  change (ED521_LIMBS - 1)%nat with 16%nat. change 0x1ff with (Z.ones 9).
  rewrite Z.land_ones, Z.shiftr_div_pow2 by lia.
  pose proof (Z.div_mod (get a 16) (2 ^ 9) ltac:(lia)) as Hdm.
  pose proof (Z.mod_pos_bound (get a 16) (2 ^ 9) ltac:(lia)) as Hm.
  set (q := get a 16 / 2 ^ 9) in *. set (r := get a 16 mod 2 ^ 9) in *.
  assert (mp_val a = q * 2 ^ 521 + (vsum (get a) 16 + r * 2 ^ 512)) as E2 by lia.
  assert (0 <= vsum (get a) 16 + r * 2 ^ 512 < 2 ^ 521) as Hlow by lia.
  split; [rewrite E2, Z.div_add_l, (Z.div_small (_ + _)) by lia; lia|]. split.
  - intros i Hi. destruct (decide (i = 16)%nat) as [->|Hne].
    + destruct (decide (16 < length a)%nat).
      * rewrite get_insert_eq by done. unfold is_u32. lia.
      * rewrite get_oob; [unfold is_u32; lia|]. rewrite length_insert. lia.
    + rewrite get_insert_ne by lia. by apply Ha.
  - intros Hl.
    assert (mp_val (<[16%nat := r]> a) = mp_val a + (r - get a 16) * 2 ^ 512) as ->
      by exact (vsum_insert a 16 r 17 ltac:(lia) ltac:(lia)).
    replace (mp_val a mod 2 ^ 521) with (vsum (get a) 16 + r * 2 ^ 512); [lia|].
    rewrite E2, (Z.add_comm (q * 2 ^ 521)), Z.mod_add by lia. symmetry. by apply Z.mod_small.
Qed.
End routines.

(** ** Arithmetic modulo p

    [a ≡ b] modulo p, with [a] and [b] integers. *)

Definition eqm (a b : Z) : Prop := a mod p521 = b mod p521.
Infix "≡p" := eqm (at level 70, no associativity) : orp_scope.

#[export] Instance eqm_equiv : Equivalence eqm.
Proof. split; unfold eqm; congruence. Qed.
#[export] Instance eqm_add : Proper (eqm ==> eqm ==> eqm) Z.add.
Proof. intros a a' Ha b b' Hb. unfold eqm in *. rewrite Z.add_mod, Ha, Hb, <- Z.add_mod by done. done. Qed.
#[export] Instance eqm_sub : Proper (eqm ==> eqm ==> eqm) Z.sub.
Proof. intros a a' Ha b b' Hb. unfold eqm in *. rewrite Zminus_mod, Ha, Hb, <- Zminus_mod. done. Qed.
#[export] Instance eqm_mul : Proper (eqm ==> eqm ==> eqm) Z.mul.
Proof. intros a a' Ha b b' Hb. unfold eqm in *. rewrite Z.mul_mod, Ha, Hb, <- Z.mul_mod by done. done. Qed.

Lemma eqm_intro a b k : a = b + k * p521 → a ≡p b.
Proof. intros ->. unfold eqm. by rewrite Z.mod_add. Qed.

(** A number of at most 521 bits, and one that may also be 2^521. *)
Definition reduced (l : list Z) : Prop := mp_ok l ∧ mp_val l < 2 ^ 521.
Definition weak (l : list Z) : Prop := limbs l ∧ mp_val l <= 2 ^ 521.

Lemma reduced_weak l : reduced l → weak l.
Proof. intros [H1 H2]. split; [by apply mp_ok_limbs|lia]. Qed.

Lemma reduced_pos l : reduced l → 0 <= mp_val l.
Proof. intros [H _]. apply mp_val_range in H. lia. Qed.

Lemma split521 k y : 0 <= y < 2 ^ 521 →
  (k * 2 ^ 521 + y) / 2 ^ 521 = k ∧ (k * 2 ^ 521 + y) mod 2 ^ 521 = y.
Proof.
  intros Hy. rewrite Z.div_add_l, Z.div_small, (Z.add_comm (k * _)), Z.mod_add, Z.mod_small by lia. split; [lia|done].
Qed.

(** Folding the bits above 521 back, as [mp_modadd] does. *)
Lemma fold_top d : mp_ok d → mp_val d <= 2 ^ 522 - 2 →
  reduced (mp_add_ui (mask_top d) (top_bits d)) ∧ mp_val (mp_add_ui (mask_top d) (top_bits d)) ≡p mp_val d.
Proof.
  intros Hd Hb. pose proof (mp_val_range d Hd) as Hr.
  destruct (top_bits_ok d (mp_ok_limbs d Hd)) as (Et & Hm & Em). specialize (Em ltac:(rewrite (proj1 Hd); done)).
  pose proof (Z.div_mod (mp_val d) (2 ^ 521) ltac:(lia)) as Hdm.
  pose proof (Z.mod_pos_bound (mp_val d) (2 ^ 521) ltac:(lia)) as Hmb.
  assert (0 <= top_bits d <= 1) as Ht.
  { rewrite Et. split; [apply Z.div_pos; lia|]. apply Z.lt_succ_r, Z.div_lt_upper_bound; lia. }
  destruct (mp_add_ui_ok (mask_top d) Hm (top_bits d)) as (Hok & c & Hc & Ec); [unfold is_u32; lia|].
  pose proof (mp_val_range _ Hok) as Hr2. rewrite Em in Ec. rewrite <- Et in Hdm.
  set (v := mp_val (mp_add_ui _ _)) in *. set (lo := mp_val d mod 2 ^ 521) in *.
  assert (c = 0) as -> by lia. split; [split; [done|fold v; lia]|].
  apply (eqm_intro _ _ (- top_bits d)). lia.
Qed.

Lemma mp_modadd_ok a b : limbs a → limbs b → mp_val a + mp_val b <= 2 ^ 522 - 2 →
  reduced (mp_modadd a b) ∧ mp_val (mp_modadd a b) ≡p mp_val a + mp_val b.
Proof.
  intros Ha Hb Hs. destruct (mp_add_ok a Ha b Hb) as (Hok & c & Hc & Ec).
  pose proof (mp_val_range _ Hok). assert (c = 0) as -> by lia.
  destruct (fold_top (mp_add a b) Hok) as [H1 H2]; [lia|]. split; [exact H1|].
  unfold mp_modadd. rewrite H2. apply (eqm_intro _ _ 0). lia.
Qed.

Lemma mp_modadd_red a b : reduced a → reduced b →
  reduced (mp_modadd a b) ∧ mp_val (mp_modadd a b) ≡p mp_val a + mp_val b.
Proof.
  intros [Ha Ha'] [Hb Hb']. apply mp_modadd_ok; [by apply mp_ok_limbs..|]. lia.
Qed.

Lemma mp_modsub_red a b : reduced a → reduced b →
  reduced (mp_modsub a b) ∧ mp_val (mp_modsub a b) ≡p mp_val a - mp_val b.
Proof.
  intros [Ha Ha'] [Hb Hb']. unfold mp_modsub.
  destruct (mp_sub_ok a (mp_ok_limbs a Ha) b (mp_ok_limbs b Hb)) as (Hd & c & Ec).
  pose proof (mp_val_range _ Hd) as Hr. pose proof (mp_val_range _ Ha). pose proof (mp_val_range _ Hb).
  set (d := mp_sub a b) in *.
  destruct (top_bits_ok d (mp_ok_limbs d Hd)) as (Et & Hm & Em). specialize (Em ltac:(rewrite (proj1 Hd); done)).
  pose proof (Z.div_mod (mp_val d) (2 ^ 521) ltac:(lia)) as Hdm.
  pose proof (Z.mod_pos_bound (mp_val d) (2 ^ 521) ltac:(lia)) as Hmb.
  change 1 with (Z.ones 1). rewrite Z.land_ones by lia. change (2 ^ 1) with 2.
  assert ((0 <= mp_val a - mp_val b ∧ top_bits d mod 2 = 0 ∧ mp_val d mod 2 ^ 521 = mp_val a - mp_val b) ∨
    (mp_val a - mp_val b < 0 ∧ top_bits d mod 2 = 1 ∧ mp_val d mod 2 ^ 521 = mp_val a - mp_val b + 2 ^ 521)) as Hcase.
  { rewrite Et. destruct (Z.lt_ge_cases (mp_val a - mp_val b) 0) as [Hlt|Hge]; [right|left].
    - assert (c = -1) as -> by lia. replace (mp_val d) with ((2 ^ 23 - 1) * 2 ^ 521 + (mp_val a - mp_val b + 2 ^ 521)) by lia.
      destruct (split521 (2 ^ 23 - 1) (mp_val a - mp_val b + 2 ^ 521)) as [-> ->]; [lia|]. done.
    - assert (c = 0) as -> by lia. replace (mp_val d) with (mp_val a - mp_val b) by lia.
      destruct (split521 0 (mp_val a - mp_val b)) as [E1 E2]; [lia|]. rewrite Z.mul_0_l, Z.add_0_l in E1, E2.
      rewrite E1, E2. done. }
  destruct (mp_sub_ui_ok (mask_top d) Hm (top_bits d mod 2)) as (Hok & k & Ek); [unfold is_u32; lia|].
  pose proof (mp_val_range _ Hok) as Hr2. rewrite Em in Ek. set (v := mp_val (mp_sub_ui _ _)) in *.
  destruct Hcase as [(H1 & H2 & H3)|(H1 & H2 & H3)]; rewrite H2, H3 in Ek; assert (k = 0) as -> by lia.
  - split; [split; [done|fold v; lia]|]. apply (eqm_intro _ _ 0). lia.
  - split; [split; [done|fold v; lia]|]. apply (eqm_intro _ _ 1). lia.
Qed.

Lemma mp_modmul2_red a : reduced a → reduced (mp_modmul2 a) ∧ mp_val (mp_modmul2 a) ≡p 2 * mp_val a.
Proof.
  intros [Ha Ha']. pose proof (mp_val_range _ Ha) as Hr. unfold mp_modmul2. change (ED521_LIMBS - 1)%nat with 16%nat.
  assert (get a 16 >>> 8 = mp_val a / 2 ^ 520) as Ec.
  { rewrite Z.shiftr_div_pow2 by lia. assert (mp_val a = vsum (get a) 16 + get a 16 * 2 ^ 512) as -> by exact (vsum_S (get a) 16).
    pose proof (vsum_range (get a) 16 ltac:(intros; by apply mp_ok_get)) as Hv. change (32 * Z.of_nat 16) with 512 in Hv.
    replace (2 ^ 520) with (2 ^ 512 * 2 ^ 8) by lia. rewrite <- Z.div_div by lia.
    by rewrite Z.div_add, (Z.div_small (vsum (get a) 16)) by lia. }
  assert (0 <= mp_val a / 2 ^ 520 <= 1) as Hc.
  { split; [apply Z.div_pos; lia|]. apply Z.lt_succ_r, Z.div_lt_upper_bound; lia. }
  rewrite Ec. destruct (mul2_ok a (mp_ok_limbs a Ha) _ Hc) as (d & s & c & -> & Hd & Hv). cbn [fst].
  pose proof (mp_val_range _ Hd) as Hrd. assert (c = 0) as -> by lia.
  destruct (top_bits_ok d (mp_ok_limbs d Hd)) as (_ & Hm & Em). specialize (Em ltac:(rewrite (proj1 Hd); done)).
  pose proof (Z.div_mod (mp_val a) (2 ^ 520) ltac:(lia)) as Hdm.
  pose proof (Z.mod_pos_bound (mp_val a) (2 ^ 520) ltac:(lia)) as Hmb.
  set (t := mp_val a / 2 ^ 520) in *. set (r := mp_val a mod 2 ^ 520) in *.
  assert (mp_val d mod 2 ^ 521 = 2 * r + t) as Ed.
  { replace (mp_val d) with (2 * r + t + t * 2 ^ 521) by lia. rewrite Z.mod_add by lia. apply Z.mod_small.
    split; [lia|]. lia. }
  split; [split; [split; [unfold mask_top; rewrite length_insert; apply Hd|]|rewrite Em, Ed; lia]|].
  - unfold mask_top. apply words_ok_insert; [apply Hd|].
    apply (land_bound_r 32); [lia|]. done.
  - rewrite Em, Ed. apply (eqm_intro _ _ (- t)). lia.
Qed.

#[local] Opaque vsum.

(** ** Products *)

Lemma mul_inner a b i tmp n : limbs a → limbs b → (i < 17)%nat → (n ≤ 17)%nat →
  length tmp = 34%nat → words_ok tmp →
  ∃ t v, for_loop 0 n (mul_step a b i) (tmp, 0) = (t, v) ∧ length t = 34%nat ∧ words_ok t ∧ is_u32 v ∧
  (∀ k, (i + n ≤ k)%nat → get t k = get tmp k) ∧
  vsum (get t) 34 + v * 2 ^ (32 * Z.of_nat (i + n)) =
  vsum (get tmp) 34 + get a i * vsum (get b) n * 2 ^ (32 * Z.of_nat i).
Proof.
  intros Ha Hb Hi Hn Hl Hw. induction n as [|n IH].
  { exists tmp, 0. repeat split; try done. rewrite vsum_0. lia. }
  destruct IH as (t & v & E & Hlt & Hwt & Hv & Hsame & Hval); [lia|].
  rewrite for_loop_S_r, E. cbn [Nat.add]. unfold mul_step.
  pose proof (Ha i Hi) as Hai. pose proof (Hb n ltac:(lia)) as Hbn. pose proof (get_u32 t (i + n) Hwt) as Ht.
  unfold is_u32 in Hai, Hbn, Ht, Hv.
  assert (0 <= get a i * get b n <= (2 ^ 32 - 1) * (2 ^ 32 - 1)) as Hab by nia.
  rewrite u64_id by (unfold is_u64; lia). set (w := get a i * get b n + v + get t (i + n)) in *.
  eexists _, _. split; [done|]. split; [by rewrite length_insert|].
  split; [apply words_ok_insert; [done|apply u32_range]|]. rewrite shiftr32.
  split; [split; [apply Z.div_pos; lia|apply Z.div_lt_upper_bound; lia]|].
  split; [intros k Hk; rewrite get_insert_ne by lia; apply Hsame; lia|].
  rewrite vsum_insert by lia. rewrite (vsum_S (get b) n). replace (i + S n)%nat with (S (i + n)) by lia.
  replace (32 * Z.of_nat (S (i + n))) with (32 * Z.of_nat (i + n) + 32) by lia.
  rewrite Z.pow_add_r by lia. pose proof (Z.div_mod w (2 ^ 32) ltac:(lia)) as Hdm. unfold u32.
  set (q := w / 2 ^ 32) in *. set (r := w mod 2 ^ 32) in *. unfold w in Hdm.
  replace (32 * Z.of_nat (i + n)) with (32 * Z.of_nat i + 32 * Z.of_nat n) in * by lia.
  rewrite Z.pow_add_r in * by lia. set (B := 2 ^ (32 * Z.of_nat i)) in *. set (C := 2 ^ (32 * Z.of_nat n)) in *.
  assert (r = get a i * get b n + v + get t (i + n) - 2 ^ 32 * q) as -> by lia.
  transitivity (vsum (get t) 34 + v * (B * C) + get a i * get b n * B * C); [ring|]. rewrite Hval. ring.
Qed.

Lemma mul_row_ok a b i tmp : limbs a → limbs b → (i < 17)%nat → length tmp = 34%nat → words_ok tmp →
  (∀ k, (i + 17 ≤ k)%nat → get tmp k = 0) →
  length (mul_row a b i tmp) = 34%nat ∧ words_ok (mul_row a b i tmp) ∧
  (∀ k, (S i + 17 ≤ k)%nat → get (mul_row a b i tmp) k = 0) ∧
  vsum (get (mul_row a b i tmp)) 34 = vsum (get tmp) 34 + get a i * mp_val b * 2 ^ (32 * Z.of_nat i).
Proof.
  intros Ha Hb Hi Hl Hw H0. unfold mul_row. change ED521_LIMBS with 17%nat.
  destruct (mul_inner a b i tmp 17 Ha Hb Hi) as (t & v & -> & Hlt & Hwt & Hv & Hsame & Hval); [lia|done|done|].
  rewrite u32_id by done. split; [by rewrite length_insert|]. split; [by apply words_ok_insert|].
  split; [intros k Hk; rewrite get_insert_ne, Hsame by lia; apply H0; lia|].
  rewrite vsum_insert, Hsame, H0 by lia. unfold mp_val. change ED521_LIMBS with 17%nat. lia.
Qed.

(** The schoolbook product. *)
Lemma mul_full a b : limbs a → limbs b →
  length (mul_tmp a b) = 34%nat ∧ words_ok (mul_tmp a b) ∧ vsum (get (mul_tmp a b)) 34 = mp_val a * mp_val b.
Proof.
  intros Ha Hb.
  assert (∀ n, (n ≤ 17)%nat → let t := for_loop 0 n (mul_row a b) (replicate 34 0) in
    length t = 34%nat ∧ words_ok t ∧ (∀ k, (n + 17 ≤ k)%nat → get t k = 0) ∧
    vsum (get t) 34 = vsum (get a) n * mp_val b) as H.
  { induction n as [|n IH]; intros Hn t.
    - split; [done|]. split; [apply Forall_replicate; done|].
      assert (∀ k, get t k = 0) as Hz.
      { intros k. unfold t, get. rewrite for_loop_0. destruct (replicate 34 0 !! k) as [x|] eqn:E; [|done].
        by apply lookup_replicate in E as [-> _]. }
      split; [done|]. rewrite (vsum_ext _ (λ i, 0 * get a i + 0 * get a i)) by (intros; rewrite Hz; lia).
      rewrite vsum_lin, vsum_0. lia.
    - destruct IH as (H1 & H2 & H3 & H4); [lia|]. unfold t. rewrite for_loop_S_r. cbn [Nat.add].
      destruct (mul_row_ok a b n _ Ha Hb ltac:(lia) H1 H2 H3) as (G1 & G2 & G3 & G4).
      split; [done|]. split; [done|]. split; [done|]. rewrite G4, H4, (vsum_S (get a) n). ring. }
  destruct (H 17%nat ltac:(lia)) as (H1 & H2 & _ & H3).
  split; [exact H1|]. split; [exact H2|exact H3].
Qed.

(** The high part: bits 521 and up of the product. *)
Lemma high_limb_eq tmp i : words_ok tmp →
  high_limb tmp i = get tmp (i + 16) / 2 ^ 9 + get tmp (i + 17) mod 2 ^ 9 * 2 ^ 23.
Proof.
  intros Hw. unfold high_limb. replace (i + 16 + 1)%nat with (i + 17)%nat by lia.
  pose proof (get_u32 tmp (i + 16) Hw) as H1. pose proof (get_u32 tmp (i + 17) Hw) as H2. unfold is_u32 in *.
  rewrite Z.shiftr_div_pow2, Z.shiftl_mul_pow2 by lia. change (32 - 9) with 23.
  assert (u32 (get tmp (i + 17) * 2 ^ 23) = get tmp (i + 17) mod 2 ^ 9 * 2 ^ 23) as ->.
  { unfold u32. change (2 ^ 32) with (2 ^ 9 * 2 ^ 23). by rewrite Z.mul_mod_distr_r by lia. }
  pose proof (Z.mod_pos_bound (get tmp (i + 17)) (2 ^ 9) ltac:(lia)).
  assert (0 <= get tmp (i + 16) / 2 ^ 9 < 2 ^ 23).
  { split; [apply Z.div_pos; lia|apply Z.div_lt_upper_bound; lia]. }
  apply u32_id. unfold is_u32. lia.
Qed.

Lemma mp_val_ext d X : (∀ i, (i < 17)%nat → get d i = X i) → mp_val d = vsum X 17.
Proof. exact (vsum_ext (get d) X 17). Qed.

Lemma high_sum tmp n : words_ok tmp →
  2 ^ 9 * vsum (high_limb tmp) n + get tmp 16 mod 2 ^ 9 =
  vsum (λ i, get tmp (16 + i)) n + get tmp (n + 16) mod 2 ^ 9 * 2 ^ (32 * Z.of_nat n).
Proof.
  intros Hw. induction n as [|n IH]; [rewrite !vsum_0; cbn [Nat.add]; lia|].
  rewrite !vsum_S. rewrite high_limb_eq by done. replace (S n + 16)%nat with (n + 17)%nat by lia.
  replace (16 + n)%nat with (n + 16)%nat by lia.
  replace (32 * Z.of_nat (S n)) with (32 * Z.of_nat n + 32) by lia. rewrite Z.pow_add_r by lia.
  pose proof (Z.div_mod (get tmp (n + 16)) (2 ^ 9) ltac:(lia)) as Hdm.
  set (q := get tmp (n + 16) / 2 ^ 9) in *. set (r := get tmp (n + 16) mod 2 ^ 9) in *.
  set (B := 2 ^ (32 * Z.of_nat n)) in *. set (g := get tmp (n + 17) mod 2 ^ 9) in *. nia.
Qed.

Lemma get_map_seq (f : nat → Z) n i : (i < n)%nat → get (map f (seq 0 n)) i = f i.
Proof. intros Hi. unfold get. rewrite list_lookup_fmap, lookup_seq_lt by done. done. Qed.

(** A product below 2^1056 is its high part times 2^521 plus its low 521 bits. *)
Lemma high_low_split tmp : words_ok tmp → vsum (get tmp) 34 < 2 ^ 1056 →
  vsum (get tmp) 34 = vsum (high_limb tmp) 17 * 2 ^ 521 + mp_val tmp mod 2 ^ 521.
Proof.
  intros Hw Hb. pose proof (high_sum tmp 17 Hw) as Hh. pose proof (vsum_split (get tmp) 16 18) as Hs.
  pose proof (vsum_S (λ i, get tmp (16 + i)) 17) as H18. cbv beta in H18.
  pose proof (vsum_range (get tmp) 16 ltac:(intros; auto with width)) as R16.
  pose proof (vsum_range (λ i, get tmp (16 + i)) 17 ltac:(intros; cbv beta; auto with width)) as R17.
  assert (mp_val tmp = vsum (get tmp) 16 + get tmp 16 * 2 ^ 512) as Ev by exact (vsum_S (get tmp) 16).
  pose proof (get_u32 tmp 33 Hw) as H33. unfold is_u32 in H33.
  pose proof (Z.div_mod (get tmp 16) (2 ^ 9) ltac:(lia)) as Hdm.
  pose proof (Z.mod_pos_bound (get tmp 16) (2 ^ 9) ltac:(lia)) as Hmb.
  change (16 + 18)%nat with 34%nat in Hs. change (16 + 17)%nat with 33%nat in *. change (17 + 16)%nat with 33%nat in *.
  change (32 * Z.of_nat 16) with 512 in *. change (32 * Z.of_nat 17) with 544 in *.
  set (V := vsum (get tmp) 34) in *. set (D := vsum (high_limb tmp) 17) in *. set (L := vsum (get tmp) 16) in *.
  set (U := vsum _ 17) in *. set (W := vsum _ 18) in *.
  set (r := get tmp 16 mod 2 ^ 9) in *. set (q := get tmp 16 / 2 ^ 9) in *.
  assert (get tmp 33 = 0) as E33 by lia. rewrite E33 in *. rewrite Z.mod_0_l in Hh by lia.
  replace (mp_val tmp) with (q * 2 ^ 521 + (L + r * 2 ^ 512)) by lia.
  destruct (split521 q (L + r * 2 ^ 512)) as [_ ->]; [lia|]. lia.
Qed.

Lemma fold_bound D lo : 0 <= D → 0 <= lo < 2 ^ 521 → D * 2 ^ 521 + lo <= 2 ^ 521 * 2 ^ 521 →
  D + lo <= 2 ^ 522 - 2.
Proof.
  replace (2 ^ 522) with (2 * 2 ^ 521) by lia. assert (2 <= 2 ^ 521) as HN by lia.
  generalize dependent (2 ^ 521). intros N HN HD Hlo H. assert (D <= N) by nia.
  destruct (Z.eq_dec D N) as [->|]; [|lia]. nia.
Qed.

Lemma mp_modmul_core a b tmp d : weak a → weak b → length tmp = 34%nat → words_ok tmp →
  vsum (get tmp) 34 = mp_val a * mp_val b → (∀ i, (i < 17)%nat → get d i = high_limb tmp i) →
  reduced (mp_modadd d (mask_top tmp)) ∧ mp_val (mp_modadd d (mask_top tmp)) ≡p mp_val a * mp_val b.
Proof.
  intros [Ha Ha'] [Hb Hb'] Hl Hw Hv Hd.
  pose proof (limbs_range a Ha) as Ra. pose proof (limbs_range b Hb) as Rb.
  assert (limbs tmp) as Hlt by (intros i _; auto with width).
  assert (limbs d) as Hld by (intros i Hi; rewrite Hd by exact Hi; apply u32_range).
  destruct (top_bits_ok tmp Hlt) as (_ & Hm & Em). specialize (Em ltac:(rewrite Hl; lia)).
  assert (0 <= mp_val a * mp_val b <= 2 ^ 521 * 2 ^ 521) as Hprod.
  { split; [apply Z.mul_nonneg_nonneg; lia|apply Z.mul_le_mono_nonneg; lia]. }
  assert (mp_val a * mp_val b = mp_val d * 2 ^ 521 + mp_val tmp mod 2 ^ 521) as Hsplit.
  { rewrite (mp_val_ext d (high_limb tmp) Hd), <- Hv. apply high_low_split; [exact Hw|]. rewrite Hv. lia. }
  pose proof (Z.mod_pos_bound (mp_val tmp) (2 ^ 521) ltac:(lia)) as Hmb.
  pose proof (limbs_range d Hld) as Rd. rewrite <- Em in Hsplit, Hmb.
  destruct (mp_modadd_ok d (mask_top tmp) Hld Hm) as [H1 H2].
  { apply fold_bound; [lia|lia|]. rewrite <- Hsplit. lia. }
  split; [exact H1|]. etransitivity; [exact H2|].
  apply (eqm_intro (mp_val d + mp_val (mask_top tmp)) (mp_val a * mp_val b) (- mp_val d)). rewrite Hsplit. ring.
Qed.

Lemma mp_modmul_ok a b : weak a → weak b →
  reduced (mp_modmul a b) ∧ mp_val (mp_modmul a b) ≡p mp_val a * mp_val b.
Proof.
  intros Ha Hb. destruct (mul_full a b (proj1 Ha) (proj1 Hb)) as (Hl & Hw & Hv).
  unfold mp_modmul. apply (mp_modmul_core a b _ _ Ha Hb Hl Hw Hv). intros i Hi. by apply get_map_seq.
Qed.

#[local] Opaque mp_modmul mp_modadd mp_modsub mp_modmul2.

(** ** Representatives

    [rep l v]: the limbs [l] hold a representative of [v] modulo p. *)
Definition rep (l : list Z) (v : Z) : Prop := reduced l ∧ mp_val l ≡p v.

Section rep.
Context (a b : list Z) (x y : Z) (Ha : rep a x) (Hb : rep b y).

Lemma rep_mul : rep (mp_modmul a b) (x * y).
Proof.
  destruct (mp_modmul_ok a b) as [H1 H2]; [apply reduced_weak, Ha|apply reduced_weak, Hb|].
  split; [done|]. etransitivity; [exact H2|]. apply eqm_mul; [apply Ha|apply Hb].
Qed.
Lemma rep_add : rep (mp_modadd a b) (x + y).
Proof.
  destruct (mp_modadd_red a b) as [H1 H2]; [apply Ha|apply Hb|].
  split; [done|]. etransitivity; [exact H2|]. apply eqm_add; [apply Ha|apply Hb].
Qed.
Lemma rep_sub : rep (mp_modsub a b) (x - y).
Proof.
  destruct (mp_modsub_red a b) as [H1 H2]; [apply Ha|apply Hb|].
  split; [done|]. etransitivity; [exact H2|]. apply eqm_sub; [apply Ha|apply Hb].
Qed.
Lemma rep_mul2 : rep (mp_modmul2 a) (2 * x).
Proof.
  destruct (mp_modmul2_red a) as [H1 H2]; [apply Ha|].
  split; [done|]. etransitivity; [exact H2|]. apply eqm_mul; [reflexivity|apply Ha].
Qed.

Lemma mp_set_id : length a = 17%nat → mp_set a = a.
Proof.
  intros Hl. apply list_eq_get; [unfold mp_set; rewrite length_map, length_seq; unfold ED521_LIMBS; lia|].
  intros i Hi. unfold mp_set in *. rewrite length_map, length_seq in Hi. by apply get_map_seq.
Qed.
Lemma rep_set : rep (mp_set a) x.
Proof. rewrite mp_set_id; [exact Ha|]. apply Ha. Qed.
End rep.

Lemma rep_eqm a x y : rep a x → x ≡p y → rep a y.
Proof. intros [H1 H2] H. split; [done|]. by etransitivity. Qed.

Lemma rep_set_ui s : is_u32 s → rep (mp_set_ui s) s ∧ mp_val (mp_set_ui s) = s.
Proof.
  intros Hs. assert (mp_val (mp_set_ui s) = s) as E.
  { unfold mp_val. change ED521_LIMBS with (1 + 16)%nat. rewrite vsum_split.
    rewrite (vsum_ext (λ i, get (mp_set_ui s) (1 + i)) (λ i, 0 * get [] i + 0 * get [] i)).
    - rewrite vsum_lin, (vsum_S (get (mp_set_ui s)) 0), vsum_0. change (get (mp_set_ui s) 0) with s.
      change (32 * Z.of_nat 0) with 0. rewrite Z.pow_0_r. lia.
    - intros i Hi. rewrite !Z.mul_0_l. change (get (mp_set_ui s) (1 + i)) with (get (replicate 16 0) i).
      unfold get. destruct (replicate 16 0 !! i) as [z|] eqn:Ez; [|done]. by apply lookup_replicate in Ez as [-> _]. }
  split; [|done]. split; [split|].
  - split; [done|]. constructor; [done|]. apply Forall_replicate. done.
  - rewrite E. unfold is_u32 in Hs. lia.
  - by rewrite E.
Qed.

Lemma curve_d_rep : rep curve_d ED521_D.
Proof.
  split; [split; [split; [done|]|]|].
  - apply words_okb_ok. vm_compute. reflexivity.
  - vm_compute. reflexivity.
  - vm_compute. reflexivity.
Qed.

(** ** Powers *)

Lemma pow_square x k : 0 <= k → x ^ (2 ^ k) * x ^ (2 ^ k) = x ^ (2 ^ (k + 1)).
Proof.
  intros Hk. rewrite <- Z.pow_add_r by (apply Z.pow_nonneg; lia). f_equal. rewrite Z.pow_add_r by lia. lia.
Qed.

(** The square root candidate is a^((p + 1) / 4). *)
Lemma mp_modsqrt_rep a x : rep a x → rep (mp_modsqrt a) (x ^ (2 ^ 519)).
Proof.
  intros Ha. unfold mp_modsqrt.
  apply (for_loop_ind (λ i r, rep r (x ^ (2 ^ (Z.of_nat i - 1)))) 1 519).
  - change (Z.of_nat 1 - 1) with 0. rewrite Z.pow_0_r, Z.pow_1_r. by apply rep_set.
  - intros i r Hi Hr. replace (Z.of_nat (S i) - 1) with (Z.of_nat i - 1 + 1) by lia.
    rewrite <- pow_square by lia. by apply rep_mul.
Qed.

(** The inverse is a^(p - 2), also of 2^521. *)
Definition wrep (l : list Z) (v : Z) : Prop := weak l ∧ mp_val l ≡p v.

Lemma rep_wrep l v : rep l v → wrep l v.
Proof. intros [H1 H2]. split; [by apply reduced_weak|done]. Qed.

Lemma wrep_mul a b x y : wrep a x → wrep b y → rep (mp_modmul a b) (x * y).
Proof.
  intros [Ha Ea] [Hb Eb]. destruct (mp_modmul_ok a b Ha Hb) as [H1 H2].
  split; [done|]. etransitivity; [exact H2|]. by apply eqm_mul.
Qed.

Lemma inv_steps_wrep a x n : wrep a x →
  let st := for_loop 2 n inv_step (a, mp_modmul a a) in
  wrep st.1 (x ^ (2 ^ Z.of_nat (2 + n) - 3)) ∧ rep st.2 (x ^ (2 ^ (Z.of_nat (2 + n) - 1))).
Proof.
  intros Ha. apply (for_loop_ind (λ i (st : list Z * list Z), wrep st.1 (x ^ (2 ^ Z.of_nat i - 3)) ∧
    rep st.2 (x ^ (2 ^ (Z.of_nat i - 1)))) 2 n).
  - cbn [fst snd]. change (2 ^ Z.of_nat 2 - 3) with 1. change (2 ^ (Z.of_nat 2 - 1)) with 2.
    rewrite Z.pow_1_r, Z.pow_2_r. split; [exact Ha|]. by apply wrep_mul.
  - intros i [d t] Hi [Hd Ht]. unfold inv_step. cbn [fst snd] in *.
    assert (4 <= 2 ^ Z.of_nat i) by (change 4 with (2 ^ 2); apply Z.pow_le_mono_r; lia).
    assert (rep (mp_modmul t t) (x ^ (2 ^ Z.of_nat i))) as Ht'.
    { replace (Z.of_nat i) with (Z.of_nat i - 1 + 1) by lia. rewrite <- pow_square by lia. by apply rep_mul. }
    replace (Z.of_nat (S i) - 1) with (Z.of_nat i) by lia. split; [|done].
    replace (2 ^ Z.of_nat (S i) - 3) with (2 ^ Z.of_nat i - 3 + 2 ^ Z.of_nat i)
      by (replace (Z.of_nat (S i)) with (Z.of_nat i + 1) by lia; rewrite Z.pow_add_r by lia; lia).
    rewrite Z.pow_add_r by lia. apply rep_wrep. apply wrep_mul; [done|by apply rep_wrep].
Qed.

Lemma inv_steps_rep a x n : wrep a x →
  rep (for_loop 2 (S n) inv_step (a, mp_modmul a a)).1 (x ^ (2 ^ Z.of_nat (2 + S n) - 3)).
Proof.
  intros Ha. split; [|apply (inv_steps_wrep a x (S n) Ha)].
  rewrite for_loop_S_r. destruct (inv_steps_wrep a x n Ha) as [Hd Ht].
  set (st := for_loop 2 n _ _) in *. destruct st as [d t]. unfold inv_step. cbn [fst snd] in *.
  apply mp_modmul_ok; [apply Hd|]. apply reduced_weak. apply mp_modmul_ok; apply reduced_weak, Ht.
Qed.

Lemma mp_modinv_wrep a x : length a = 17%nat → wrep a x → rep (mp_modinv a) (x ^ (p521 - 2)).
Proof.
  intros Hl Ha. unfold mp_modinv. cbv zeta. rewrite (mp_set_id a Hl).
  exact (inv_steps_rep a x 518 Ha).
Qed.

Lemma mp_modinv_rep a x : rep a x → rep (mp_modinv a) (x ^ (p521 - 2)).
Proof. intros H. apply mp_modinv_wrep; [apply H|by apply rep_wrep]. Qed.

(** ** The curve *)

Definition on_curve (x y : Z) : Prop := x * x + y * y ≡p 1 + ED521_D * (x * x) * (y * y).

(** A projective point that stands for the affine point [(x, y)]. *)
Record is_affine (P : ec_point_t) (x y : Z) : Prop := IsAffine {
  aff_x : rep (px P) (x * mp_val (pz P));
  aff_y : rep (py P) (y * mp_val (pz P));
  aff_z : reduced (pz P);
  aff_inv : ∃ zi, mp_val (pz P) * zi ≡p 1;
}.

(** The affine addition law, with both denominators invertible. *)
Record affine_add (x1 y1 x2 y2 x3 y3 : Z) : Prop := AffineAdd {
  add_den : ∃ u w, (1 + ED521_D * x1 * x2 * y1 * y2) * u ≡p 1 ∧ (1 - ED521_D * x1 * x2 * y1 * y2) * w ≡p 1;
  add_x : x3 * (1 + ED521_D * x1 * x2 * y1 * y2) ≡p x1 * y2 + y1 * x2;
  add_y : y3 * (1 - ED521_D * x1 * x2 * y1 * y2) ≡p y1 * y2 - x1 * x2;
}.

Lemma rep_refl a : reduced a → rep a (mp_val a).
Proof. done. Qed.

(** The representative a computation yields, read off the computation. *)
Ltac rep_solve := repeat lazymatch goal with
  | |- rep (mp_modmul _ _) _ => apply rep_mul
  | |- rep (mp_modadd _ _) _ => apply rep_add
  | |- rep (mp_modsub _ _) _ => apply rep_sub
  | |- rep (mp_modmul2 _) _ => apply rep_mul2
  | |- rep (mp_set _) _ => apply rep_set
  | |- rep curve_d _ => apply curve_d_rep
  | H : rep ?l _ |- rep ?l _ => exact H
  end.

(** A coordinate that equals its target up to a polynomial identity. *)
Lemma eqm_eq a b : a = b → a ≡p b.
Proof. by intros ->. Qed.
Ltac eqm_ring := apply eqm_eq; ring.

Lemma point_add_affine a b x1 y1 x2 y2 x3 y3 :
  is_affine a x1 y1 → is_affine b x2 y2 → affine_add x1 y1 x2 y2 x3 y3 → is_affine (point_add a b) x3 y3.
Proof.
  intros [Xa Ya Za (ia & Ia)] [Xb Yb Zb (ib & Ib)] [(u & w & Hu & Hw) Hx Hy].
  set (Z1 := mp_val (pz a)) in *. set (Z2 := mp_val (pz b)) in *. set (A := Z1 * Z2).
  set (ee := ED521_D * x1 * x2 * y1 * y2) in *.
  assert (rep (pz a) Z1) as Ra by done. assert (rep (pz b) Z2) as Rb by done.
  assert (rep (px (point_add a b)) (A * A * (1 - ee) * (A * A * (x1 * y2 + y1 * x2)))) as RX.
  { eapply rep_eqm; [unfold point_add; cbn [px]; rep_solve|]. unfold ee, A. eqm_ring. }
  assert (rep (py (point_add a b)) (A * A * (1 + ee) * (A * A * (y1 * y2 - x1 * x2)))) as RY.
  { eapply rep_eqm; [unfold point_add; cbn [py]; rep_solve|]. unfold ee, A. eqm_ring. }
  assert (rep (pz (point_add a b)) (A * A * (1 - ee) * (A * A * (1 + ee)))) as RZ.
  { eapply rep_eqm; [unfold point_add; cbn [pz]; rep_solve|]. unfold ee, A. eqm_ring. }
  split.
  - eapply rep_eqm; [exact RX|]. rewrite (proj2 RZ), <- Hx. eqm_ring.
  - eapply rep_eqm; [exact RY|]. rewrite (proj2 RZ), <- Hy. eqm_ring.
  - apply RZ.
  - exists (ia * ia * ia * ia * (ib * ib * ib * ib) * (u * w)). rewrite (proj2 RZ).
    transitivity ((Z1 * ia) * (Z1 * ia) * (Z1 * ia) * (Z1 * ia) * ((Z2 * ib) * (Z2 * ib) * (Z2 * ib) * (Z2 * ib))
      * ((1 + ee) * u * ((1 - ee) * w))); [unfold A; eqm_ring|].
    rewrite Ia, Ib, Hu, Hw. reflexivity.
Qed.

Lemma point_double_affine a x y x3 y3 : is_affine a x y → on_curve x y →
  affine_add x y x y x3 y3 → is_affine (point_double a) x3 y3.
Proof.
  intros [Xa Ya Za (ia & Ia)] Hc [(u & w & Hu & Hw) Hx Hy].
  set (Z1 := mp_val (pz a)) in *. assert (rep (pz a) Z1) as Ra by done.
  set (ee := ED521_D * x * x * y * y) in *. set (C := x * x + y * y).
  assert (C ≡p 1 + ee) as HC by (etransitivity; [exact Hc|]; unfold ee; eqm_ring).
  assert (rep (px (point_double a)) (Z1 * Z1 * Z1 * Z1 * ((C - 2) * (2 * x * y)))) as RX.
  { eapply rep_eqm; [unfold point_double; cbn [px]; rep_solve|]. unfold C. eqm_ring. }
  assert (rep (py (point_double a)) (Z1 * Z1 * Z1 * Z1 * ((x * x - y * y) * C))) as RY.
  { eapply rep_eqm; [unfold point_double; cbn [py]; rep_solve|]. unfold C. eqm_ring. }
  assert (rep (pz (point_double a)) (Z1 * Z1 * Z1 * Z1 * ((C - 2) * C))) as RZ.
  { eapply rep_eqm; [unfold point_double; cbn [pz]; rep_solve|]. unfold C. eqm_ring. }
  split.
  - eapply rep_eqm; [exact RX|]. rewrite (proj2 RZ), HC.
    transitivity (Z1 * Z1 * Z1 * Z1 * ((1 + ee - 2) * (x * y + y * x))); [eqm_ring|]. rewrite <- Hx. eqm_ring.
  - eapply rep_eqm; [exact RY|]. rewrite (proj2 RZ), HC.
    transitivity (Z1 * Z1 * Z1 * Z1 * ((0 - (y * y - x * x)) * (1 + ee))); [eqm_ring|]. rewrite <- Hy. eqm_ring.
  - apply RZ.
  - exists (ia * ia * ia * ia * ((0 - w) * u)). rewrite (proj2 RZ), HC.
    transitivity ((Z1 * ia) * (Z1 * ia) * (Z1 * ia) * (Z1 * ia) * (((1 + ee) * u) * ((1 - ee) * w))); [eqm_ring|].
    rewrite Ia, Hu, Hw. reflexivity.
Qed.

(** ** The field *)

#[export] Instance eqm_dec a b : Decision (a ≡p b) := decide (a mod p521 = b mod p521).

#[export] Instance eqm_pow : Proper (eqm ==> eq ==> eqm) Z.pow.
Proof.
  intros a b Hab n ? <-. destruct n as [|n|n]; [reflexivity| |reflexivity].
  unfold eqm in *. rewrite (Zpow_facts.Zpower_mod a), (Zpow_facts.Zpower_mod b), Hab by done. reflexivity.
Qed.

Lemma eqm_0 a b : a ≡p b ↔ a - b ≡p 0.
Proof. apply (sub_mod_0 p521 p521_prime). Qed.

Lemma eqm_mul_0 a b : a * b ≡p 0 → a ≡p 0 ∨ b ≡p 0.
Proof. apply (prime_mult_mod p521 p521_prime). Qed.

Lemma pow_pred x n : 0 < n → x * x ^ (n - 1) = x ^ n.
Proof. intros Hn. rewrite <- Z.pow_succ_r by lia. f_equal. lia. Qed.

(** [x ^ (p - 2)], what [mp_modinv] computes, is the inverse. *)
Lemma eqm_inverse x : ~ x ≡p 0 → x * x ^ (p521 - 2) ≡p 1.
Proof.
  intros Hx. replace (p521 - 2) with (p521 - 1 - 1) by lia. rewrite pow_pred by lia.
  exact (fermat_little p521 p521_prime x Hx).
Qed.

Lemma eqm_cancel a b c : ~ c ≡p 0 → a * c ≡p b * c → a ≡p b.
Proof. exact (mul_cancel_mod p521 p521_prime a b c). Qed.

Lemma eqm_unit a b : a * b ≡p 1 → ~ a ≡p 0.
Proof. intros H E. rewrite E, Z.mul_0_l in H. discriminate H. Qed.

(** ** Completeness of the addition law *)

Lemma ED521_D_nonsquare a b : a * a ≡p ED521_D * (b * b) → b ≡p 0.
Proof.
  intros H. destruct (decide (b ≡p 0)) as [E|E]; [exact E|exfalso].
  apply (D_nonsquare (a * b ^ (p521 - 2))). change (-376014) with ED521_D.
  set (i := b ^ (p521 - 2)). assert (b * i ≡p 1) as Hi by apply (eqm_inverse b E). clearbody i.
  change (a * i * (a * i) ≡p ED521_D). transitivity (a * a * (i * i)); [eqm_ring|]. rewrite H.
  transitivity (ED521_D * ((b * i) * (b * i))); [eqm_ring|]. rewrite Hi. eqm_ring.
Qed.

Section complete.
Context (x1 y1 x2 y2 : Z) (H1 : on_curve x1 y1) (H2 : on_curve x2 y2).
Let e := ED521_D * x1 * x2 * y1 * y2.

(** With e^2 = 1, both (x1 + e y1)^2 and (x1 - e y1)^2 are d times a square. *)
Lemma near_square s : s * s ≡p 1 → e ≡p s →
  (x1 + s * y1) * (x1 + s * y1) ≡p ED521_D * ((x1 * y1 * (x2 + y2)) * (x1 * y1 * (x2 + y2))).
Proof.
  intros Hs He. unfold on_curve in *.
  transitivity (x1 * x1 + s * s * (y1 * y1) + 2 * s * (x1 * y1)); [eqm_ring|]. rewrite Hs, <- He.
  transitivity (ED521_D * (x1 * x1) * (y1 * y1) * (x2 * x2 + y2 * y2) + 2 * e * (x1 * y1)); [|unfold e; eqm_ring].
  rewrite H2. apply eqm_add; [|reflexivity].
  transitivity (ED521_D * (x1 * x1) * (y1 * y1) + e * e); [|unfold e; eqm_ring].
  rewrite He, Hs, Z.mul_1_l, H1. eqm_ring.
Qed.
End complete.

Lemma on_curve_neg x y : on_curve x y → on_curve x (- y).
Proof. unfold on_curve. rewrite !Z.mul_opp_opp. done. Qed.

Lemma no_exception x1 y1 x2 y2 s : on_curve x1 y1 → on_curve x2 y2 → s * s ≡p 1 →
  ~ ED521_D * x1 * x2 * y1 * y2 ≡p s.
Proof.
  intros H1 H2 Hs He.
  assert (~ (x1 * y1 ≡p 0 ∨ x2 ≡p 0)) as Hz.
  { intros Hor. apply (eqm_unit s s Hs). rewrite <- He. destruct Hor as [E|E].
    - transitivity (ED521_D * x2 * y2 * (x1 * y1)); [eqm_ring|]. by rewrite E, Z.mul_0_r.
    - transitivity (ED521_D * x1 * y1 * y2 * x2); [eqm_ring|]. by rewrite E, Z.mul_0_r. }
  assert (x1 * y1 * (x2 + y2) ≡p 0) as Ep.
  { apply (ED521_D_nonsquare _ _ (near_square x1 y1 x2 y2 H1 H2 s Hs He)). }
  assert (x1 * y1 * (x2 + - y2) ≡p 0) as Em.
  { apply (ED521_D_nonsquare (x1 + (0 - s) * y1)), near_square; [done|by apply on_curve_neg| |].
    - transitivity (s * s); [eqm_ring|done].
    - rewrite <- He. eqm_ring. }
  apply Hz. destruct (eqm_mul_0 _ _ Ep) as [E|Ep']; [by left|]. destruct (eqm_mul_0 _ _ Em) as [E|Em']; [by left|].
  right. assert (2 * x2 ≡p 0) as E2.
  { transitivity (x2 + y2 + (x2 + - y2)); [eqm_ring|]. by rewrite Ep', Em'. }
  by destruct (eqm_mul_0 _ _ E2).
Qed.

(** The law applies to any two points of the curve, and its result is on the
    curve. *)
Lemma affine_add_den x1 y1 x2 y2 : on_curve x1 y1 → on_curve x2 y2 →
  ∃ u w, (1 + ED521_D * x1 * x2 * y1 * y2) * u ≡p 1 ∧ (1 - ED521_D * x1 * x2 * y1 * y2) * w ≡p 1.
Proof.
  intros H1 H2. set (e := ED521_D * x1 * x2 * y1 * y2). eexists _, _. split; apply eqm_inverse; intros E.
  - apply (no_exception x1 y1 x2 y2 (-1) H1 H2); [reflexivity|]. fold e.
    transitivity (1 + e + -1); [eqm_ring|]. rewrite E. reflexivity.
  - apply (no_exception x1 y1 x2 y2 1 H1 H2); [reflexivity|]. fold e.
    transitivity (1 - (1 - e)); [eqm_ring|]. rewrite E. reflexivity.
Qed.

Lemma on_curve_sum x1 y1 x2 y2 :
  let e := ED521_D * x1 * x2 * y1 * y2 in
  let n1 := x1 * y2 + y1 * x2 in let n2 := y1 * y2 - x1 * x2 in
  on_curve x1 y1 → on_curve x2 y2 →
  n1 * n1 * ((1 - e) * (1 - e)) + n2 * n2 * ((1 + e) * (1 + e))
    ≡p (1 + e) * (1 + e) * ((1 - e) * (1 - e)) + ED521_D * (n1 * n1) * (n2 * n2).
Proof.
  intros e n1 n2 H1 H2. unfold on_curve in *. apply eqm_0.
  set (s1 := x1 * x1 + y1 * y1) in *. set (s2 := x2 * x2 + y2 * y2) in *.
  set (u1 := ED521_D * (x1 * x1) * (y1 * y1)) in *. set (u2 := ED521_D * (x2 * x2) * (y2 * y2)) in *.
  transitivity (s1 * s2 * (1 + u1 * u2) - (1 - u1 * u2) * (1 - u1 * u2) - u1 * (s2 * s2) - u2 * (s1 * s1));
    [unfold s1, s2, u1, u2, n1, n2, e; eqm_ring|].
  rewrite H1, H2. eqm_ring.
Qed.

Lemma affine_add_curve x1 y1 x2 y2 x3 y3 : on_curve x1 y1 → on_curve x2 y2 →
  affine_add x1 y1 x2 y2 x3 y3 → on_curve x3 y3.
Proof.
  intros H1 H2 [(u & w & Hu & Hw) Hx Hy]. pose proof (on_curve_sum x1 y1 x2 y2 H1 H2) as Hs. cbv zeta in Hs.
  rewrite <- Hx, <- Hy in Hs. set (e := ED521_D * x1 * x2 * y1 * y2) in *. unfold on_curve.
  assert (~ (1 + e) * (1 - e) ≡p 0) as Hne.
  { intros E. destruct (eqm_mul_0 _ _ E) as [E'|E']; [exact (eqm_unit _ _ Hu E')|exact (eqm_unit _ _ Hw E')]. }
  apply (eqm_cancel _ _ ((1 + e) * (1 - e)) Hne), (eqm_cancel _ _ ((1 + e) * (1 - e)) Hne).
  etransitivity; [|etransitivity; [exact Hs|]]; eqm_ring.
Qed.

Lemma affine_add_total x1 y1 x2 y2 : on_curve x1 y1 → on_curve x2 y2 →
  ∃ x3 y3, on_curve x3 y3 ∧ affine_add x1 y1 x2 y2 x3 y3.
Proof.
  intros H1 H2. destruct (affine_add_den x1 y1 x2 y2 H1 H2) as (u & w & Hu & Hw).
  set (e := ED521_D * x1 * x2 * y1 * y2) in *.
  assert (affine_add x1 y1 x2 y2 ((x1 * y2 + y1 * x2) * u) ((y1 * y2 - x1 * x2) * w)) as Ha.
  { split; fold e; [by exists u, w| |].
    - transitivity ((x1 * y2 + y1 * x2) * ((1 + e) * u)); [eqm_ring|]. rewrite Hu. eqm_ring.
    - transitivity ((y1 * y2 - x1 * x2) * ((1 - e) * w)); [eqm_ring|]. rewrite Hw. eqm_ring. }
  eexists _, _. split; [|exact Ha]. by apply (affine_add_curve x1 y1 x2 y2).
Qed.

(** The interface to the theory of the curve: a monoid whose elements map to
    curve points so that its operation satisfies the equations of the addition
    law.  Curve.v shows that the points of the curve are one. *)
Class CurveGroup {G : Type} (op : G → G → G) (zero : G) (coords : G → Z * Z) : Prop := {
  grp_assoc : ∀ a b c, op a (op b c) = op (op a b) c;
  grp_zero_l : ∀ a, op zero a = a;
  grp_zero_r : ∀ a, op a zero = a;
  grp_origin : coords zero = (0, 1);
  grp_curve : ∀ a, on_curve (coords a).1 (coords a).2;
  grp_x : ∀ a b, let '(x1, y1) := coords a in let '(x2, y2) := coords b in
    (coords (op a b)).1 * (1 + ED521_D * x1 * x2 * y1 * y2) ≡p x1 * y2 + y1 * x2;
  grp_y : ∀ a b, let '(x1, y1) := coords a in let '(x2, y2) := coords b in
    (coords (op a b)).2 * (1 - ED521_D * x1 * x2 * y1 * y2) ≡p y1 * y2 - x1 * x2;
}.

Lemma grp_add {G} op zero coords {HG : @CurveGroup G op zero coords} a b :
  affine_add (coords a).1 (coords a).2 (coords b).1 (coords b).2 (coords (op a b)).1 (coords (op a b)).2.
Proof.
  pose proof (grp_x a b) as Hx. pose proof (grp_y a b) as Hy.
  pose proof (affine_add_den _ _ _ _ (grp_curve a) (grp_curve b)) as Hd.
  destruct (coords a) as [x1 y1], (coords b) as [x2 y2]. by split.
Qed.

Section ladder.
Context {G : Type} (op : G → G → G) (zero : G) (coords : G → Z * Z) {HG : CurveGroup op zero coords}.

Fixpoint multiple (n : nat) (g : G) : G :=
  match n with O => zero | S n => op g (multiple n g) end.

Lemma multiple_add n m g : op (multiple n g) (multiple m g) = multiple (n + m) g.
Proof.
  induction n as [|n IH]; cbn [multiple Nat.add]; [apply grp_zero_l|]. by rewrite <- grp_assoc, IH.
Qed.

(** The point stands for [n * g]. *)
Definition stands (g : G) (P : ec_point_t) (n : Z) : Prop :=
  0 <= n ∧ is_affine P (coords (multiple (Z.to_nat n) g)).1 (coords (multiple (Z.to_nat n) g)).2.

Lemma stands_add g P Q n m : stands g P n → stands g Q m → stands g (point_add P Q) (n + m).
Proof.
  intros [Hn HP] [Hm HQ]. split; [lia|]. eapply point_add_affine; [exact HP|exact HQ|].
  rewrite Z2Nat.inj_add by lia. rewrite <- multiple_add. by apply (grp_add op zero coords).
Qed.

Lemma stands_double g P n : stands g P n → stands g (point_double P) (2 * n).
Proof.
  intros [Hn HP]. split; [lia|]. eapply point_double_affine; [exact HP|apply grp_curve|].
  replace (2 * n) with (n + n) by lia. rewrite Z2Nat.inj_add by lia. rewrite <- multiple_add. by apply (grp_add op zero coords).
Qed.

(** The bit that the ladder reads. *)
Lemma ladder_bit_value s j : is_u32 s → (j < 32)%nat →
  s / 2 ^ (32 - Z.of_nat (S j)) = 2 * (s / 2 ^ (32 - Z.of_nat j)) + (u32 (s * 2 ^ Z.of_nat j) / 2 ^ 31).
Proof.
  intros Hs Hj. set (w := 32 - Z.of_nat (S j)). replace (32 - Z.of_nat j) with (w + 1) by (unfold w; lia).
  assert (0 <= w <= 31) as Hw by (unfold w; lia). assert (Z.of_nat j = 31 - w) as -> by (unfold w; lia).
  rewrite Z.pow_add_r by lia. change (2 ^ 1) with 2. unfold u32.
  assert (0 < 2 ^ w ∧ 0 < 2 ^ (31 - w)) as [H1 H2] by (split; apply Z.pow_pos_nonneg; lia).
  assert (2 ^ 31 = 2 ^ w * 2 ^ (31 - w)) as H31 by (rewrite <- Z.pow_add_r by lia; f_equal; lia).
  replace (2 ^ 32) with ((2 ^ w * 2) * 2 ^ (31 - w)) by lia. rewrite H31.
  rewrite Z.mul_mod_distr_r, Z.div_mul_cancel_r by lia.
  pose proof (Z.div_mod s (2 ^ w * 2) ltac:(lia)) as Hdm.
  set (q := s / (2 ^ w * 2)) in *. set (r := s mod (2 ^ w * 2)) in *. rewrite Hdm at 1.
  replace (2 ^ w * 2 * q + r) with (2 * q * 2 ^ w + r) by ring. by rewrite Z.div_add_l by lia.
Qed.

Definition ladder_at (g : G) (p : ec_point_t * ec_point_t) (k : Z) : Prop :=
  stands g p.1 k ∧ stands g p.2 (k + 1).

Lemma ladder_limb_ok g s i p k : is_u32 (get s i) → ladder_at g p k →
  ladder_at g (ladder_limb s i p) (k * 2 ^ 32 + get s i).
Proof.
  intros Hs Hp. unfold ladder_limb. set (v := get s i) in *.
  enough (let st := for_loop 0 32 (λ _, ladder_bit) (p, v) in
    st.2 = u32 (v * 2 ^ Z.of_nat 32) ∧ ladder_at g st.1 (k * 2 ^ Z.of_nat 32 + v / 2 ^ (32 - Z.of_nat 32))) as [_ H].
  { change (Z.of_nat 32) with 32 in H. rewrite Z.sub_diag, Z.pow_0_r, Z.div_1_r in H. exact H. }
  apply (for_loop_ind (λ j (st : ec_point_t * ec_point_t * Z), st.2 = u32 (v * 2 ^ Z.of_nat j) ∧
    ladder_at g st.1 (k * 2 ^ Z.of_nat j + v / 2 ^ (32 - Z.of_nat j))) 0 32).
  - cbn [fst snd]. change (Z.of_nat 0) with 0. rewrite Z.pow_0_r, !Z.mul_1_r. unfold is_u32 in Hs.
    rewrite u32_id, Z.div_small by (done || lia). by rewrite Z.add_0_r.
  - intros j [[p0 p1] w] Hj [Hw [H0 H1]]. cbn [fst snd] in *. subst w. unfold ladder_bit.
    pose proof (ladder_bit_value v j Hs ltac:(lia)) as Hb. rewrite Z.shiftr_div_pow2 by lia.
    set (K := k * 2 ^ Z.of_nat j + v / 2 ^ (32 - Z.of_nat j)) in *.
    pose proof (u32_range (v * 2 ^ Z.of_nat j)) as Hr. unfold is_u32 in Hr.
    assert (0 <= u32 (v * 2 ^ Z.of_nat j) / 2 ^ 31 <= 1) as Hbit.
    { split; [apply Z.div_pos; lia|]. apply Z.lt_succ_r, Z.div_lt_upper_bound; lia. }
    set (b := u32 (v * 2 ^ Z.of_nat j) / 2 ^ 31) in *.
    assert (k * 2 ^ Z.of_nat (S j) + v / 2 ^ (32 - Z.of_nat (S j)) = 2 * K + b) as ->.
    { rewrite Hb. replace (Z.of_nat (S j)) with (Z.of_nat j + 1) by lia. rewrite Z.pow_add_r by lia. unfold K. lia. }
    assert (u32 (u32 (v * 2 ^ Z.of_nat j) <<< 1) = u32 (v * 2 ^ Z.of_nat (S j))) as Ew.
    { rewrite Z.shiftl_mul_pow2 by lia. unfold u32. rewrite Zmult_mod_idemp_l. f_equal.
      replace (Z.of_nat (S j)) with (Z.of_nat j + 1) by lia. rewrite Z.pow_add_r by lia. lia. }
    pose proof (stands_add g p0 p1 K (K + 1) H0 H1) as Hsum.
    destruct (Z.eqb_spec b 0) as [E|E]; cbn [fst snd]; (split; [exact Ew|]); split; cbn [fst snd].
    + replace (2 * K + b) with (2 * K) by lia. by apply stands_double.
    + replace (2 * K + b + 1) with (K + (K + 1)) by lia. done.
    + replace (2 * K + b) with (K + (K + 1)) by lia. done.
    + replace (2 * K + b + 1) with (2 * (K + 1)) by lia. by apply stands_double.
Qed.

Lemma ladder_down g s n p k : (∀ i, (i < n)%nat → is_u32 (get s i)) → ladder_at g p k →
  ladder_at g (for_down n (λ k, ladder_limb s (k - 1)) p) (k * 2 ^ (32 * Z.of_nat n) + vsum (get s) n).
Proof.
  revert p k. induction n as [|n IH]; intros p k Hs Hp.
  { cbn [for_down]. rewrite vsum_0. change (32 * Z.of_nat 0) with 0. rewrite Z.pow_0_r, Z.mul_1_r, Z.add_0_r. done. }
  rewrite for_down_S. cbn [Nat.sub]. rewrite Nat.sub_0_r.
  pose proof (ladder_limb_ok g s n p k (Hs n ltac:(lia)) Hp) as Hp'.
  apply (IH _ _ ltac:(intros; apply Hs; lia)) in Hp'. rewrite vsum_S.
  replace (32 * Z.of_nat (S n)) with (32 + 32 * Z.of_nat n) by lia. rewrite Z.pow_add_r by lia.
  replace (k * (2 ^ 32 * 2 ^ (32 * Z.of_nat n)) + (vsum (get s) n + get s n * 2 ^ (32 * Z.of_nat n)))
    with ((k * 2 ^ 32 + get s n) * 2 ^ (32 * Z.of_nat n) + vsum (get s) n) by ring. done.
Qed.

Lemma point_set_affine a x y : is_affine a x y → is_affine (point_set a) x y.
Proof.
  intros [HX HY HZ HI]. unfold point_set. rewrite !mp_set_id by (apply HX || apply HY || apply HZ).
  by destruct a.
Qed.

Lemma point_scalar_stands a s g : is_affine a (coords g).1 (coords g).2 → limbs s →
  stands g (point_scalar a s) (mp_val s).
Proof.
  intros Ha Hs. unfold point_scalar.
  pose proof (ladder_down g s 17 (EcPoint (mp_set_ui 0) (mp_set_ui 1) (mp_set_ui 1), point_set a) 0 Hs) as H.
  rewrite Z.mul_0_l, Z.add_0_l in H. apply H. clear H. split; cbn [fst snd].
  - split; [done|]. change (Z.to_nat 0) with 0%nat. cbn [multiple]. rewrite grp_origin. cbn [fst snd].
    destruct (rep_set_ui 0) as [R0 _]; [done|]. destruct (rep_set_ui 1) as [R1 E1]; [done|]. split; cbn [px py pz].
    + by rewrite E1.
    + by rewrite E1.
    + apply R1.
    + exists 1. by rewrite E1.
  - split; [done|]. change (Z.to_nat (0 + 1)) with 1%nat. cbn [multiple]. rewrite grp_zero_r.
    by apply point_set_affine.
Qed.
End ladder.

(** ** Comparison and uniqueness of representatives *)

Lemma vsum_inj X Y n : (∀ i, (i < n)%nat → is_u32 (X i)) → (∀ i, (i < n)%nat → is_u32 (Y i)) →
  vsum X n = vsum Y n → ∀ i, (i < n)%nat → X i = Y i.
Proof.
  induction n as [|n IH]; intros HX HY E i Hi; [lia|]. rewrite !vsum_S in E.
  pose proof (vsum_range X n (λ i H, HX i ltac:(lia))) as RX.
  pose proof (vsum_range Y n (λ i H, HY i ltac:(lia))) as RY.
  set (B := 2 ^ (32 * Z.of_nat n)) in *. assert (X n = Y n) as En by nia.
  destruct (decide (i = n)) as [-> | Hne]; [done|]. apply IH; [intros; apply HX; lia|intros; apply HY; lia| |lia].
  rewrite En in E. lia.
Qed.

Lemma count_zero (P : nat → bool) n k r0 : 0 <= r0 →
  let r := for_loop k n (λ i r, r + (if P i then 0 else 1)) r0 in
  r0 <= r ∧ (r = r0 ↔ ∀ i, (k ≤ i < k + n)%nat → P i = true).
Proof.
  intros H0. induction n as [|n [Hr IH]]; cbv zeta in *.
  { split; [cbn; lia|]. split; [intros _ i Hi; lia|done]. }
  rewrite for_loop_S_r. set (r := for_loop k n _ r0) in *. split; [destruct (P (k + n)%nat); lia|]. split.
  - intros E i Hi. destruct (P (k + n)%nat) eqn:EP; [|lia].
    destruct (decide (i = (k + n)%nat)) as [-> | Hne]; [done|]. apply IH; lia.
  - intros H. rewrite (H (k + n)%nat) by lia. rewrite Z.add_0_r. apply IH. intros; apply H; lia.
Qed.

Lemma mp_cmp_ok a b : limbs a → limbs b → mp_cmp a b = if mp_val a =? mp_val b then 0 else -1.
Proof.
  intros Ha Hb. unfold mp_cmp.
  destruct (count_zero (λ i, get a i =? get b i) ED521_LIMBS 0 0 ltac:(lia)) as [Hr H]. cbv zeta in *.
  set (r := for_loop 0 ED521_LIMBS _ 0) in *. clearbody r.
  destruct (Z.eqb_spec r 0) as [E|E], (Z.eqb_spec (mp_val a) (mp_val b)) as [V|V]; try done; exfalso.
  - apply V, vsum_ext. intros i Hi. apply Z.eqb_eq, H; [done|]. unfold ED521_LIMBS in *. lia.
  - apply E, H. intros i Hi. apply Z.eqb_eq. revert i Hi.
    enough (∀ i, (i < 17)%nat → get a i = get b i) as G by (unfold ED521_LIMBS; intros; apply G; lia).
    by apply vsum_inj.
Qed.

Lemma mp_cmp_zero a b : limbs a → limbs b → mp_cmp a b = 0 ↔ mp_val a = mp_val b.
Proof. intros Ha Hb. rewrite mp_cmp_ok by done. destruct (Z.eqb_spec (mp_val a) (mp_val b)); done. Qed.

Lemma mp_cmp_ui_as_cmp a b : mp_cmp_ui a b = mp_cmp a (mp_set_ui b).
Proof.
  unfold mp_cmp_ui, mp_cmp, ED521_LIMBS. change (17 - 1)%nat with 16%nat.
  change (for_loop 0 17) with (@for_loop Z 0 (S 16)). rewrite (for_loop_S_l 0 16). cbv beta.
  change (0 + (if get a 0 =? get (mp_set_ui b) 0 then 0 else 1)) with (if get a 0 =? b then 0 else 1).
  rewrite (for_loop_ext 1 16 _ (λ i ret, ret + (if get a i =? get (mp_set_ui b) i then 0 else 1))); [done|].
  intros i r Hi. destruct i as [|i]; [lia|].
  assert (get (mp_set_ui b) (S i) = 0) as ->; [|done].
  change (get (mp_set_ui b) (S i)) with (get (replicate 16 0) i). unfold get.
  destruct (replicate 16 0 !! i) as [z|] eqn:Ez; [|done]. by apply lookup_replicate in Ez as [-> _].
Qed.

Lemma mp_cmp_ui_ok a b : limbs a → is_u32 b → mp_cmp_ui a b = if mp_val a =? b then 0 else -1.
Proof.
  intros Ha Hb. rewrite mp_cmp_ui_as_cmp. destruct (rep_set_ui b Hb) as [[[Hr _] _] E].
  rewrite mp_cmp_ok by (done || by apply mp_ok_limbs). by rewrite E.
Qed.

(** ** Compressed points *)

Lemma land_one a : a .& 1 = a mod 2.
Proof. exact (Z.land_ones a 1 ltac:(lia)). Qed.

Lemma mp_parity l : get l 0 .& 1 = mp_val l mod 2.
Proof.
  unfold mp_val. change ED521_LIMBS with (1 + 16)%nat. rewrite vsum_split, (vsum_S _ 0), vsum_0.
  change (32 * Z.of_nat 1) with (1 + 31). rewrite (Z.pow_add_r 2 1 31) by lia.
  change (32 * Z.of_nat 0) with 0. rewrite Z.pow_0_r, Z.mul_1_r, Z.add_0_l.
  generalize (vsum (λ i, get l (1 + i)) 16). intros r. change 1 with (Z.ones 1) at 1. rewrite Z.land_ones by lia.
  replace (get l 0 + 2 ^ 1 * 2 ^ 31 * r) with (get l 0 + (2 ^ 31 * r) * 2) by ring. by rewrite Z.mod_add.
Qed.

Lemma ED521_P_ok : mp_ok ED521_P ∧ mp_val ED521_P = p521.
Proof. split; [split; [done|apply words_okb_ok]|]; vm_compute; reflexivity. Qed.

(** [P - y], the other root. *)
Lemma negate_ok y : reduced y → reduced (mp_sub ED521_P y) ∧ mp_val (mp_sub ED521_P y) = p521 - mp_val y.
Proof.
  intros Hy. destruct ED521_P_ok as [HP EP]. pose proof (reduced_pos y Hy). destruct Hy as [Hy Hy'].
  destruct (mp_sub_ok ED521_P (mp_ok_limbs _ HP) y (mp_ok_limbs y Hy)) as (Hok & c & Ec).
  pose proof (mp_val_range _ Hok) as Hr. rewrite EP in Ec. set (v := mp_val (mp_sub ED521_P y)) in *.
  assert (c = 0) as -> by lia. split; [|lia]. split; [done|]. fold v. lia.
Qed.

Definition choose_sign (y : list Z) (y_sign : Z) : list Z :=
  if negb (get y 0 .& 1 =? y_sign) then mp_sub ED521_P y else y.

Lemma choose_sign_ok y y_sign : reduced y → 0 <= y_sign <= 1 →
  reduced (choose_sign y y_sign) ∧ get (choose_sign y y_sign) 0 .& 1 = y_sign ∧
  mp_val (choose_sign y y_sign) * mp_val (choose_sign y y_sign) ≡p mp_val y * mp_val y.
Proof.
  intros Hy Hs. unfold choose_sign. destruct (Z.eqb_spec (get y 0 .& 1) y_sign) as [E|E]; cbn [negb]; [done|].
  destruct (negate_ok y Hy) as [Hn Ev]. split; [done|]. split.
  - rewrite mp_parity in *. rewrite Ev. clear -E Hs. Z.div_mod_to_equations; lia.
  - rewrite Ev. set (Y := mp_val y). apply (eqm_intro _ _ (p521 - 2 * Y)). ring.
Qed.

(** Whatever its operands, a routine stores seventeen 32-bit limbs. *)
Lemma mp_add_ui_words a b : mp_ok (mp_add_ui a b).
Proof.
  unfold mp_add_ui.
  apply (for_loop_ind (λ n st, length st.1 = n ∧ words_ok st.1) 0 ED521_LIMBS); [by split; [|constructor]|].
  intros n [d v] _ [Hd Hw]. cbn [fst add_ui_step] in *. rewrite length_app. cbn [length]. split; [lia|].
  apply words_ok_snoc; [done|apply u32_range].
Qed.

#[local] Opaque mp_modinv mp_modsqrt mp_sub mp_add_ui mp_cmp mp_cmp_ui.

Lemma add_one t v : rep t v → mp_ok (mp_add_ui t 1) ∧ wrep (mp_add_ui t 1) (1 + v).
Proof.
  intros [Ht Et]. destruct (mp_add_ui_ok t (mp_ok_limbs t (proj1 Ht)) 1 ltac:(done)) as (Hok & c & Hc & Ec).
  pose proof (mp_val_range _ Hok). pose proof (reduced_pos t Ht). destruct Ht as [Ht Ht'].
  assert (c = 0) as -> by lia. split; [done|]. split.
  - split; [by apply mp_ok_limbs|lia].
  - transitivity (1 + mp_val t); [apply (eqm_intro _ _ 0); lia|]. by apply eqm_add.
Qed.

Section uncompress.
Context (x : list Z) (Hx : reduced x).
Let X := mp_val x.

(** The denominator 1 + 376014 x^2, and what the routine computes from it. *)
Definition unc_den : list Z := mp_add_ui (mp_modmul (mp_set_ui 376014) (mp_modmul (mp_set x) (mp_set x))) 1.
Definition unc_square : list Z :=
  mp_modmul (mp_modsub (mp_set_ui 1) (mp_modmul (mp_set x) (mp_set x))) (mp_modinv unc_den).

Lemma point_uncompress_eq y_sign : point_uncompress x y_sign =
  (EcPoint (mp_set x) (choose_sign (mp_modsqrt unc_square) y_sign) (mp_set_ui 1),
   if negb (mp_cmp (mp_modmul (mp_modsqrt unc_square) (mp_modsqrt unc_square)) unc_square =? 0) then -1
   else if negb (mp_cmp_ui (mp_modmul unc_den (mp_modinv unc_den)) 1 =? 0) then -1 else 0).
Proof. unfold point_uncompress, choose_sign, unc_square, unc_den. cbv zeta. reflexivity. Qed.

Lemma square_rep : rep (mp_modmul (mp_set x) (mp_set x)) (X * X).
Proof. apply rep_mul; apply rep_set; done. Qed.

Lemma unc_den_ok : mp_ok unc_den ∧ wrep unc_den (1 + 376014 * (X * X)).
Proof.
  unfold unc_den. apply add_one. apply rep_mul; [apply (rep_set_ui 376014); done|apply square_rep].
Qed.

Lemma unc_inv_rep : rep (mp_modinv unc_den) ((1 + 376014 * (X * X)) ^ (p521 - 2)).
Proof. destruct unc_den_ok as [Hl Hd]. apply mp_modinv_wrep; [apply Hl|done]. Qed.

Lemma unc_square_rep : rep unc_square ((1 - X * X) * mp_val (mp_modinv unc_den)).
Proof.
  apply rep_mul; [apply rep_sub; [apply (rep_set_ui 1); done|apply square_rep]|].
  apply rep_refl, unc_inv_rep.
Qed.
End uncompress.

(** A representative other than zero's is unique. *)
Lemma reduced_unique a b : reduced a → reduced b → mp_val a ≡p mp_val b → ~ mp_val a ≡p 0 → mp_val a = mp_val b.
Proof.
  intros Ha Hb E Hne. pose proof (reduced_pos a Ha). pose proof (reduced_pos b Hb).
  destruct Ha as [_ Ha], Hb as [_ Hb]. unfold eqm in *. set (u := mp_val a) in *. set (v := mp_val b) in *.
  assert (∀ w, 0 <= w < 2 ^ 521 → w mod p521 ≠ 0 mod p521 → w mod p521 = w) as Hs.
  { intros w Hw Hw0. destruct (decide (w = p521)) as [-> | Hwp]; [by rewrite Z.mod_same in Hw0|].
    apply Z.mod_small. lia. }
  rewrite Hs in E by (done || lia). rewrite Hs in E; [done|lia|]. rewrite <- E.
  intros E0. apply Hne. rewrite Hs by (done || lia). done.
Qed.

Lemma reduced_one a : reduced a → mp_val a ≡p 1 → mp_val a = 1.
Proof.
  intros Ha E. destruct (rep_set_ui 1 ltac:(done)) as [[Hr _] E1].
  rewrite <- E1. apply reduced_unique; [done|done|by rewrite E1|]. intros E0. rewrite E0 in E. discriminate E.
Qed.

Lemma mp_inj a b : mp_ok a → mp_ok b → mp_val a = mp_val b → a = b.
Proof.
  intros [La Ha] [Lb Hb] E. apply list_eq_get; [congruence|]. intros i Hi. rewrite La in Hi. revert i Hi.
  apply vsum_inj; [intros; auto with width..|exact E].
Qed.

Lemma vsum_zero tmp n : length tmp = n → words_ok tmp → vsum (get tmp) n = 0 → tmp = replicate n 0.
Proof.
  intros Hl Hw E. apply list_eq_get; [by rewrite length_replicate|]. intros i Hi. rewrite Hl in Hi.
  assert (get (replicate n 0) i = 0) as ->.
  { unfold get. by rewrite lookup_replicate_2. }
  apply (vsum_inj (get tmp) (λ _, 0) n); [intros; auto with width|intros; unfold is_u32; lia| |done].
  rewrite E. clear. induction n as [|n IH]; [by rewrite vsum_0|]. by rewrite vsum_S, <- IH.
Qed.

#[local] Transparent mp_modmul mp_modsub mp_modadd mp_modsqrt.

Lemma mp_modmul_unfold a b : mp_modmul a b =
  mp_modadd (map (high_limb (mul_tmp a b)) (seq 0 ED521_LIMBS)) (mask_top (mul_tmp a b)).
Proof. reflexivity. Qed.

Lemma mp_modmul_words a b : mp_ok (mp_modmul a b).
Proof. rewrite mp_modmul_unfold. apply mp_add_ui_words. Qed.

Lemma mp_modadd_zero :
  mp_modadd (map (high_limb (replicate 34 0)) (seq 0 ED521_LIMBS)) (mask_top (replicate 34 0)) = replicate 17 0.
Proof. vm_compute. reflexivity. Qed.

Lemma mp_modsub_same : mp_modsub (mp_set_ui 1) (mp_set_ui 1) = replicate 17 0.
Proof. vm_compute. reflexivity. Qed.

#[local] Opaque mp_modmul mp_modsub mp_modadd.

(** A product that is exactly zero has the limbs of zero. *)
Lemma mp_modmul_zero a b : limbs a → limbs b → mp_val a * mp_val b = 0 → mp_modmul a b = replicate 17 0.
Proof.
  intros Ha Hb E. destruct (mul_full a b Ha Hb) as (Hl & Hw & Hv). rewrite E in Hv.
  rewrite mp_modmul_unfold. rewrite (vsum_zero _ 34 Hl Hw Hv). exact mp_modadd_zero.
Qed.

Lemma zero_limbs : limbs (replicate 17 0) ∧ mp_val (replicate 17 0) = 0 ∧ reduced (replicate 17 0).
Proof.
  assert (mp_ok (replicate 17 0)) as H by (split; [done|apply Forall_replicate; done]).
  assert (mp_val (replicate 17 0) = 0) as E by (vm_compute; reflexivity).
  split; [by apply mp_ok_limbs|]. split; [done|]. split; [done|]. rewrite E. reflexivity.
Qed.

Lemma mp_modsqrt_zero : mp_modsqrt (replicate 17 0) = replicate 17 0.
Proof.
  destruct zero_limbs as (Hz & Ez & _). unfold mp_modsqrt. rewrite mp_set_id by done.
  apply for_loop_inv; [done|]. intros i r _ ->. apply mp_modmul_zero; [done..|]. by rewrite Ez.
Qed.

#[local] Opaque mp_modsqrt.

(** ** Decompression finds the point exactly when there is one *)

Lemma unc_den_nonzero X : ~ 1 + 376014 * (X * X) ≡p 0.
Proof.
  intros E. assert (X ≡p 0) as H0.
  { apply (ED521_D_nonsquare 1). transitivity (1 + 376014 * (X * X) + ED521_D * (X * X)).
    - unfold ED521_D. eqm_ring.
    - rewrite E. eqm_ring. }
  rewrite H0 in E. discriminate E.
Qed.

Lemma curve_square X Y I : (1 + 376014 * (X * X)) * I ≡p 1 → on_curve X Y ↔ Y * Y ≡p (1 - X * X) * I.
Proof.
  intros HI. set (E := 1 + 376014 * (X * X)) in *. unfold on_curve.
  assert (on_curve X Y ↔ Y * Y * E ≡p 1 - X * X) as Heq.
  { unfold on_curve. rewrite eqm_0, (eqm_0 (Y * Y * E)).
    replace (Y * Y * E - (1 - X * X)) with (X * X + Y * Y - (1 + ED521_D * (X * X) * (Y * Y)))
      by (unfold E, ED521_D; ring). done. }
  fold (on_curve X Y). rewrite Heq. split; intros H.
  - rewrite <- H. transitivity (Y * Y * (E * I)); [rewrite HI; eqm_ring|eqm_ring].
  - rewrite H. transitivity ((1 - X * X) * (E * I)); [eqm_ring|rewrite HI; eqm_ring].
Qed.

Lemma sqrt_of_square t y : y * y ≡p t → t ^ (2 ^ 519) * t ^ (2 ^ 519) ≡p t.
Proof.
  intros H. rewrite pow_square by lia. change (519 + 1) with 520.
  assert (p521 + 1 = 2 * 2 ^ 520) as Ee by (vm_compute; reflexivity).
  exact (square_fixed p521 t (2 ^ 520) y p521_prime (Z.pow_nonneg 2 520 ltac:(lia)) Ee H).
Qed.

Lemma is_u32_1 : is_u32 1.
Proof. done. Qed.

Lemma inverse_check d i v : wrep d v → reduced i → v * mp_val i ≡p 1 → mp_cmp_ui (mp_modmul d i) 1 = 0.
Proof.
  intros Hd Hi E. destruct (wrep_mul _ _ _ _ Hd (rep_wrep _ _ (rep_refl _ Hi))) as [Hr Er].
  rewrite (mp_cmp_ui_ok _ 1 (mp_ok_limbs _ (proj1 Hr)) is_u32_1).
  rewrite (reduced_one _ Hr); [reflexivity|]. etransitivity; [exact Er|exact E].
Qed.

Section uncompress_spec.
Context (x : list Z) (Hx : reduced x).
Let X := mp_val x.
Let I := mp_val (mp_modinv (unc_den x)).
Let T := mp_val (unc_square x).
Let R := mp_modsqrt (unc_square x).

Lemma unc_inverse : (1 + 376014 * (X * X)) * I ≡p 1.
Proof.
  unfold I. rewrite (proj2 (unc_inv_rep x Hx)). apply eqm_inverse, unc_den_nonzero.
Qed.

(** The check of the inverse always succeeds. *)
Lemma unc_check : mp_cmp_ui (mp_modmul (unc_den x) (mp_modinv (unc_den x))) 1 = 0.
Proof.
  apply (inverse_check _ _ _ (proj2 (unc_den_ok x Hx)) (proj1 (unc_inv_rep x Hx))). exact unc_inverse.
Qed.

Lemma root_reduced : reduced R ∧ rep (mp_modmul R R) (T ^ (2 ^ 519) * T ^ (2 ^ 519)) ∧ mp_val R * mp_val R ≡p T ^ (2 ^ 519) * T ^ (2 ^ 519).
Proof.
  pose proof (mp_modsqrt_rep _ _ (rep_refl _ (proj1 (unc_square_rep x Hx)))) as Hr.
  fold R T in Hr. split; [apply Hr|]. split; [by apply rep_mul|]. by apply eqm_mul; apply Hr.
Qed.

Lemma root_check : mp_cmp (mp_modmul R R) (unc_square x) = 0 ↔ mp_val (mp_modmul R R) = T.
Proof.
  destruct root_reduced as (_ & [Hz _] & _). pose proof (unc_square_rep x Hx) as [Ht _].
  exact (mp_cmp_zero _ _ (mp_ok_limbs _ (proj1 Hz)) (mp_ok_limbs _ (proj1 Ht))).
Qed.

(** When x^2 = 1 everything is exactly zero. *)
Lemma unc_square_zero : T ≡p 0 → unc_square x = replicate 17 0.
Proof.
  intros HT. pose proof (square_rep x Hx) as [Hz Ez]. fold X in Ez.
  assert (X * X ≡p 1) as EX.
  { assert (1 - X * X ≡p 0) as E.
    { transitivity ((1 - X * X) * I * (1 + 376014 * (X * X))).
      - transitivity ((1 - X * X) * ((1 + 376014 * (X * X)) * I)); [rewrite unc_inverse; eqm_ring|eqm_ring].
      - transitivity (T * (1 + 376014 * (X * X))); [|rewrite HT; reflexivity].
        apply eqm_mul; [symmetry; exact (proj2 (unc_square_rep x Hx))|reflexivity]. }
    symmetry. apply eqm_0. exact E. }
  destruct (rep_set_ui 1 is_u32_1) as [[H1 _] E1].
  assert (mp_modmul (mp_set x) (mp_set x) = mp_set_ui 1) as Es.
  { apply mp_inj; [exact (proj1 Hz)|exact (proj1 H1)|]. rewrite E1. apply reduced_one; [exact Hz|].
    etransitivity; [exact Ez|exact EX]. }
  unfold unc_square. rewrite Es, mp_modsub_same. destruct zero_limbs as (L0 & E0 & _).
  apply mp_modmul_zero; [exact L0|exact (mp_ok_limbs _ (proj1 (proj1 (unc_inv_rep x Hx))))|].
  rewrite E0. reflexivity.
Qed.

Lemma root_found y : on_curve X y → mp_val (mp_modmul R R) = T.
Proof.
  intros Hy. apply (curve_square X y I unc_inverse) in Hy.
  assert (y * y ≡p T) as Hy' by (etransitivity; [exact Hy|]; symmetry; exact (proj2 (unc_square_rep x Hx))).
  destruct (decide (T ≡p 0)) as [H0|H0].
  - unfold R, T. rewrite (unc_square_zero H0), mp_modsqrt_zero. destruct zero_limbs as (L0 & E0 & _).
    rewrite mp_modmul_zero; [reflexivity|exact L0|exact L0|]. rewrite E0. reflexivity.
  - destruct root_reduced as (_ & [Hz Ez] & _).
    assert (mp_val (mp_modmul R R) ≡p T) as E by (etransitivity; [exact Ez|exact (sqrt_of_square T y Hy')]).
    apply reduced_unique; [exact Hz|exact (proj1 (unc_square_rep x Hx))|exact E|].
    intros E0. apply H0. etransitivity; [symmetry; exact E|exact E0].
Qed.
End uncompress_spec.

(** ** Conversions *)

Lemma make_mp_get l size i : (i < 17)%nat →
  get (make_mp l size) i = be32 (get l (size - 4 * i - 4)) (get l (size - 4 * i - 3)) (get l (size - 4 * i - 2)) (get l (size - 4 * i - 1)).
Proof. intros Hi. unfold make_mp, ED521_LIMBS. by rewrite get_map_seq. Qed.

Lemma make_mp_ok l size : bytes_ok l → mp_ok (make_mp l size).
Proof.
  intros Hl. split; [unfold make_mp; by rewrite length_map, length_seq|].
  apply Forall_forall. intros w Hw. unfold make_mp in Hw. apply list_elem_of_In, in_map_iff in Hw as (i & <- & _).
  apply be32_range; auto with width.
Qed.

Section from_mp.
Context (out l : list Z) (size : nat) (Hlen : length out = size) (Hsize : (68 ≤ size)%nat) (Hl : mp_ok l).

Lemma from_mp_ok : bytes_ok out → length (from_mp out l size) = size ∧ bytes_ok (from_mp out l size) ∧
  (∀ k, (k < size - 68)%nat → get (from_mp out l size) k = get out k) ∧
  (∀ i, (i < 17)%nat → ∀ r, (r < 4)%nat →
    get (from_mp out l size) (size - 4 * i - (4 - r)) = u8 (get l i >>> (24 - 8 * Z.of_nat r))).
Proof.
  intros Hb. unfold from_mp, ED521_LIMBS.
  enough (let o := for_loop 0 17 _ out in length o = size ∧ bytes_ok o ∧
    (∀ k, (k < size - 4 * (0 + 17))%nat → get o k = get out k) ∧
    (∀ i, (i < 0 + 17)%nat → ∀ r, (r < 4)%nat →
      get o (size - 4 * i - (4 - r)) = u8 (get l i >>> (24 - 8 * Z.of_nat r)))) as H by exact H.
  apply (for_loop_ind (λ n o, length o = size ∧ bytes_ok o ∧
    (∀ k, (k < size - 4 * n)%nat → get o k = get out k) ∧
    (∀ i, (i < n)%nat → ∀ r, (r < 4)%nat →
      get o (size - 4 * i - (4 - r)) = u8 (get l i >>> (24 - 8 * Z.of_nat r)))) 0 17).
  { split; [done|]. split; [done|]. split; [done|]. intros; lia. }
  intros n o Hn (Ho & Hbo & Hlow & Hhigh). cbv zeta. repeat split.
  - by rewrite !length_insert.
  - repeat apply bytes_ok_insert; auto with width.
  - intros k Hk. rewrite !get_insert_ne by lia. apply Hlow. lia.
  - intros i Hi r Hr. destruct (decide (i = n)) as [-> | Hne].
    + destruct r as [|[|[|[|r]]]]; [..|lia]; cbn [Nat.sub];
        repeat first [rewrite get_insert_eq by (rewrite ?length_insert; lia) | rewrite get_insert_ne by lia];
        cbn; rewrite ?Z.shiftr_0_r; reflexivity.
    + rewrite !get_insert_ne by lia. apply Hhigh; lia.
Qed.

Lemma make_from_mp : bytes_ok out → make_mp (from_mp out l size) size = l.
Proof.
  intros Hb. destruct (from_mp_ok Hb) as (Ho & Hbo & _ & Hhigh).
  apply list_eq_get; [unfold make_mp; rewrite length_map, length_seq; symmetry; apply Hl|].
  unfold make_mp. rewrite length_map, length_seq. fold (make_mp (from_mp out l size) size). intros i Hi.
  rewrite make_mp_get by done.
  pose proof (Hhigh i Hi 0%nat ltac:(lia)) as E0. pose proof (Hhigh i Hi 1%nat ltac:(lia)) as E1.
  pose proof (Hhigh i Hi 2%nat ltac:(lia)) as E2. pose proof (Hhigh i Hi 3%nat ltac:(lia)) as E3.
  cbn [Nat.sub] in E0, E1, E2, E3. rewrite E0, E1, E2, E3. apply be32_eta. by apply mp_ok_get.
Qed.
End from_mp.

(** ** Compression *)

Lemma is_affine_z_nonzero P x y : is_affine P x y → ~ mp_val (pz P) ≡p 0.
Proof. intros [_ _ _ [zi Hi]]. by apply (eqm_unit _ zi). Qed.

Lemma point_compress_ok P x y : is_affine P x y →
  ∃ cx cy, rep cx x ∧ rep cy y ∧ point_compress P = (cx, get cy 0 .& 1, 0).
Proof.
  intros HP. pose proof (is_affine_z_nonzero P x y HP) as Hz. destruct HP as [HX HY HZ _].
  pose proof (mp_modinv_rep _ _ (rep_refl _ HZ)) as Hi. set (Z1 := mp_val (pz P)) in *.
  set (t := mp_modinv (pz P)) in *. assert (Z1 * mp_val t ≡p 1) as Ht.
  { rewrite (proj2 Hi). exact (eqm_inverse Z1 Hz). }
  pose proof (rep_refl _ (proj1 Hi)) as Rt.
  exists (mp_modmul (px P) t), (mp_modmul (py P) t).
  assert (rep (mp_modmul (px P) t) x) as RX.
  { eapply rep_eqm; [apply rep_mul; [exact HX|exact Rt]|].
    transitivity (x * (Z1 * mp_val t)); [eqm_ring|]. rewrite Ht. eqm_ring. }
  split; [exact RX|]. split.
  { eapply rep_eqm; [apply rep_mul; [exact HY|exact Rt]|].
    transitivity (y * (Z1 * mp_val t)); [eqm_ring|]. rewrite Ht. eqm_ring. }
  unfold point_compress, point_make_affine. fold t. cbn [px py pz].
  rewrite (inverse_check (pz P) t Z1 (rep_wrep _ _ (rep_refl _ HZ)) (proj1 Hi) Ht).
  rewrite mp_set_id by exact (proj1 (proj1 (proj1 RX))). reflexivity.
Qed.

(** The parity of the representative that the routines produce. *)
Lemma rep_parity l y : rep l y → get l 0 .& 1 = (y mod p521) mod 2 ∨ y ≡p 0.
Proof.
  intros [Hl E]. destruct (decide (y ≡p 0)) as [H0|H0]; [by right|left].
  rewrite mp_parity. f_equal. unfold eqm in *. rewrite <- E. symmetry. apply Z.mod_small.
  pose proof (reduced_pos l Hl) as Hp. destruct Hl as [_ Hl]. set (v := mp_val l) in *.
  destruct (decide (v = p521)) as [Ev|Ev]; [|lia]. exfalso. apply H0. rewrite <- E, Ev. vm_compute. reflexivity.
Qed.

(** Two roots with the same parity agree. *)
Lemma same_root a y s : reduced a → mp_val a * mp_val a ≡p y * y → get a 0 .& 1 = s →
  s = (y mod p521) mod 2 ∨ y ≡p 0 → mp_val a ≡p y.
Proof.
  intros Ha E Hs Hy. assert ((mp_val a - y) * (mp_val a + y) ≡p 0) as H.
  { transitivity (mp_val a * mp_val a - y * y); [eqm_ring|]. rewrite E. eqm_ring. }
  destruct (eqm_mul_0 _ _ H) as [H'|H']; [by apply eqm_0|].
  destruct (decide (y ≡p 0)) as [H0|H0].
  { rewrite H0 in *. rewrite Z.add_0_r in H'. exact H'. }
  destruct Hy as [Hy|Hy]; [|done]. exfalso.
  destruct (rep_parity a (- y)) as [Hp|Hp].
  - split; [exact Ha|]. apply eqm_0. rewrite Z.sub_opp_r. exact H'.
  - rewrite Hs, Hy in Hp. unfold eqm in H0. rewrite Z.mod_0_l in H0 by done.
    rewrite Z_mod_nz_opp_full in Hp by exact H0. pose proof (Z.mod_pos_bound y p521 ltac:(done)) as Hb.
    set (v := y mod p521) in *. clear -Hp. assert (p521 mod 2 = 1) as Hodd by (vm_compute; reflexivity).
    rewrite Zminus_mod, Hodd in Hp. Z.div_mod_to_equations; lia.
  - apply H0. transitivity (0 - - y); [eqm_ring|]. rewrite Hp. reflexivity.
Qed.

(** ** Properties *)

(** The field routines compute modulo the prime p = 2^521 - 1: on
    operands that represent x and y, mp_modadd, mp_modsub, mp_modmul and
    mp_modmul2 represent x + y, x - y, x * y and 2 * x in at most 521 bits;
    mp_modinv represents the inverse of every x that is not zero; and mp_modsqrt
    represents a root of every square. *)
Theorem field_arithmetic a b x y : rep a x → rep b y →
  rep (mp_modadd a b) (x + y) ∧ rep (mp_modsub a b) (x - y) ∧ rep (mp_modmul a b) (x * y) ∧
  rep (mp_modmul2 a) (2 * x) ∧
  reduced (mp_modinv a) ∧ (~ x ≡p 0 → x * mp_val (mp_modinv a) ≡p 1) ∧
  reduced (mp_modsqrt a) ∧ ((∃ r, r * r ≡p x) → mp_val (mp_modsqrt a) * mp_val (mp_modsqrt a) ≡p x).
Proof.
  intros Ha Hb. pose proof (mp_modinv_rep a x Ha) as [Hi Ei]. pose proof (mp_modsqrt_rep a x Ha) as [Hs Es].
  split; [by apply rep_add|]. split; [by apply rep_sub|]. split; [by apply rep_mul|].
  split; [by apply rep_mul2|]. split; [exact Hi|]. split.
  { intros Hx. rewrite Ei. exact (eqm_inverse x Hx). }
  split; [exact Hs|]. intros [r Hr]. etransitivity; [apply eqm_mul; exact Es|]. exact (sqrt_of_square x r Hr).
Qed.

Lemma field_arithmetic_witness :
  rep (mp_modmul (mp_set_ui 3) (mp_set_ui 5)) (3 * 5) ∧ 3 * mp_val (mp_modinv (mp_set_ui 3)) ≡p 1.
Proof.
  destruct (field_arithmetic (mp_set_ui 3) (mp_set_ui 5) 3 5) as (_ & _ & Hm & _ & _ & Hi & _).
  - exact (proj1 (rep_set_ui 3 ltac:(done))).
  - exact (proj1 (rep_set_ui 5 ltac:(done))).
  - split; [exact Hm|]. apply Hi. discriminate.
Defined.

(** C14: Point addition and doubling are complete: for points that stand for any
    two curve points (x1, y1) and (x2, y2), point_add yields a point with an
    invertible z that stands for their sum under the affine addition law, which
    is again on the curve; point_double yields the sum of a point with itself.
    There are no exceptional cases. *)
Theorem point_operations_complete a b x1 y1 x2 y2 :
  is_affine a x1 y1 → is_affine b x2 y2 → on_curve x1 y1 → on_curve x2 y2 →
  (∃ x3 y3, affine_add x1 y1 x2 y2 x3 y3 ∧ on_curve x3 y3 ∧ is_affine (point_add a b) x3 y3) ∧
  (∃ x3 y3, affine_add x1 y1 x1 y1 x3 y3 ∧ on_curve x3 y3 ∧ is_affine (point_double a) x3 y3).
Proof.
  intros Ha Hb H1 H2. split.
  - destruct (affine_add_total x1 y1 x2 y2 H1 H2) as (x3 & y3 & Hc & Hs). exists x3, y3.
    split; [done|]. split; [done|]. by apply (point_add_affine a b x1 y1 x2 y2).
  - destruct (affine_add_total x1 y1 x1 y1 H1 H1) as (x3 & y3 & Hc & Hs). exists x3, y3.
    split; [done|]. split; [done|]. by apply (point_double_affine a x1 y1).
Qed.

Definition affine_point (x y : Z) : ec_point_t := EcPoint (mp_set_ui x) (mp_set_ui y) (mp_set_ui 1).

Lemma affine_point_ok x y : is_u32 x → is_u32 y → is_affine (affine_point x y) x y.
Proof.
  intros Hx Hy. destruct (rep_set_ui 1 is_u32_1) as [R1 E1]. unfold affine_point.
  split; cbn [px py pz]; rewrite ?E1, ?Z.mul_1_r.
  - apply (rep_set_ui x Hx).
  - apply (rep_set_ui y Hy).
  - apply R1.
  - by exists 1.
Qed.

Lemma point_operations_complete_witness :
  ∃ x3 y3, affine_add 1 0 1 0 x3 y3 ∧ is_affine (point_add (affine_point 1 0) (affine_point 1 0)) x3 y3.
Proof.
  destruct (point_operations_complete (affine_point 1 0) (affine_point 1 0) 1 0 1 0) as [(x3 & y3 & H) _].
  - apply affine_point_ok; done.
  - apply affine_point_ok; done.
  - vm_compute. reflexivity.
  - vm_compute. reflexivity.
  - exists x3, y3. split; apply H.
Defined.

Lemma uncompressed_affine x y_sign : reduced x → 0 <= y_sign <= 1 → (point_uncompress x y_sign).2 = 0 →
  let P := (point_uncompress x y_sign).1 in
  px P = x ∧ is_affine P (mp_val x) (mp_val (py P)) ∧ on_curve (mp_val x) (mp_val (py P)) ∧ get (py P) 0 .& 1 = y_sign.
Proof.
  intros Hx Hs. rewrite point_uncompress_eq. cbn [fst snd px py pz].
  destruct (Z.eqb_spec (mp_cmp (mp_modmul (mp_modsqrt (unc_square x)) (mp_modsqrt (unc_square x))) (unc_square x)) 0)
    as [Er|Er]; cbn [negb]; [|discriminate]. intros _.
  apply (root_check x Hx) in Er. destruct (root_reduced x Hx) as (HR & [Hz Ez] & ER).
  destruct (choose_sign_ok (mp_modsqrt (unc_square x)) y_sign HR Hs) as (Hy & Hp & Ey).
  set (y := choose_sign _ y_sign) in *. rewrite (mp_set_id x) by exact (proj1 (proj1 Hx)).
  destruct (rep_set_ui 1 is_u32_1) as [R1 E1]. split; [reflexivity|]. split; [|split; [|exact Hp]].
  - split; cbn [px py pz]; rewrite ?E1, ?Z.mul_1_r; [exact (rep_refl x Hx)|exact (rep_refl y Hy)|exact (proj1 R1)|].
    by exists 1.
  - apply (curve_square _ _ _ (unc_inverse x Hx)). etransitivity; [exact Ey|]. etransitivity; [exact ER|].
    etransitivity; [symmetry; exact Ez|]. rewrite Er. exact (proj2 (unc_square_rep x Hx)).
Qed.

Lemma uncompress_status x y_sign : reduced x →
  (point_uncompress x y_sign).2 = 0 ∨ (point_uncompress x y_sign).2 = -1 ∧ ∀ y, ~ on_curve (mp_val x) y.
Proof.
  intros Hx. rewrite point_uncompress_eq. cbn [snd]. rewrite (unc_check x Hx).
  destruct (Z.eqb_spec (mp_cmp (mp_modmul (mp_modsqrt (unc_square x)) (mp_modsqrt (unc_square x))) (unc_square x)) 0)
    as [Er|Er]; cbn [negb]; [by left|right].
  split; [reflexivity|]. intros y Hy. apply Er, (root_check x Hx), (root_found x Hx y Hy).
Qed.

(** C27: Decompression is exact: point_uncompress reports success (0) if and
    only if some curve point has the given x, otherwise -1; on success the
    result is a curve point with that x, with z = 1, whose y has the requested
    lowest bit. *)
Theorem point_uncompress_exact x y_sign : reduced x → 0 <= y_sign <= 1 →
  let '(P, ret) := point_uncompress x y_sign in
  (ret = 0 ∨ ret = -1) ∧ (ret = 0 ↔ ∃ y, on_curve (mp_val x) y) ∧
  (ret = 0 → px P = x ∧ on_curve (mp_val x) (mp_val (py P)) ∧
    is_affine P (mp_val x) (mp_val (py P)) ∧ get (py P) 0 .& 1 = y_sign).
Proof.
  intros Hx Hs. pose proof (uncompress_status x y_sign Hx) as Hst.
  pose proof (uncompressed_affine x y_sign Hx Hs) as Hok.
  destruct (point_uncompress x y_sign) as [P ret]. cbn [fst snd] in *. split; [tauto|]. split; [split|].
  - intros E. exists (mp_val (py P)). apply (Hok E).
  - intros [y Hy]. destruct Hst as [E|[_ Hn]]; [exact E|]. exfalso. exact (Hn y Hy).
  - intros E. destruct (Hok E) as (H1 & H2 & H3 & H4). repeat split; (exact H1 || exact H2 || exact H3 || exact H4 || apply H2).
Qed.

Lemma ED521_G_ok : reduced ED521_Gx ∧ on_curve (mp_val ED521_Gx) ED521_Gy.
Proof.
  split; [split; [split; [reflexivity|apply words_okb_ok; vm_compute; reflexivity]|]|]; vm_compute; reflexivity.
Qed.

Lemma point_uncompress_exact_witness : (point_uncompress ED521_Gx 0).2 = 0.
Proof.
  pose proof (point_uncompress_exact ED521_Gx 0) as H.
  destruct (point_uncompress ED521_Gx 0) as [P ret]. cbn [snd].
  destruct H as (_ & [_ H] & _).
  - exact (proj1 ED521_G_ok).
  - lia.
  - apply H. exists ED521_Gy. exact (proj2 ED521_G_ok).
Defined.

(** A 128-byte field of the driver's context that holds the point (x, y): the
    number in its last 68 bytes represents x, and the lowest bit of its first
    byte is the lowest bit of y (either bit will do for y = 0). *)
Record encodes (pt : list Z) (x y : Z) : Prop := Encodes {
  enc_len : length pt = ECC_POINT_LEN;
  enc_bytes : bytes_ok pt;
  enc_x : rep (make_mp pt ECC_POINT_LEN) x;
  enc_sign : get pt 0 .& 0x01 = (y mod p521) mod 2 ∨ y ≡p 0;
}.

Lemma on_curve_eqm x x' y y' : x ≡p x' → y ≡p y' → on_curve x y → on_curve x' y'.
Proof. unfold on_curve. intros Hx Hy. by rewrite Hx, Hy. Qed.

Lemma is_affine_eqm P x x' y y' : x ≡p x' → y ≡p y' → is_affine P x y → is_affine P x' y'.
Proof.
  intros Hx Hy [H1 H2 H3 H4]. split; [| |exact H3|exact H4].
  - eapply rep_eqm; [exact H1|]. apply eqm_mul; [exact Hx|reflexivity].
  - eapply rep_eqm; [exact H2|]. apply eqm_mul; [exact Hy|reflexivity].
Qed.

Lemma uncompress_encoded pt x y : encodes pt x y → on_curve x y →
  is_affine (point_uncompress (make_mp pt ECC_POINT_LEN) (get pt 0 .& 0x01)).1 x y.
Proof.
  intros [Hl Hb [Hr Ex] Hsign] Hc. set (c := make_mp pt ECC_POINT_LEN) in *. set (s := get pt 0 .& 0x01) in *.
  assert (0 <= s <= 1) as Hs.
  { unfold s. rewrite land_one. pose proof (Z.mod_pos_bound (get pt 0) 2 ltac:(lia)). lia. }
  assert (on_curve (mp_val c) y) as Hc' by (apply (on_curve_eqm x _ y y); [symmetry; exact Ex|reflexivity|exact Hc]).
  destruct (uncompress_status c s Hr) as [E|[_ Hn]]; [|exfalso; exact (Hn y Hc')].
  destruct (uncompressed_affine c s Hr Hs E) as (_ & Ha & Hcy & Hp). set (P := (point_uncompress c s).1) in *.
  apply (is_affine_eqm P (mp_val c) x (mp_val (py P)) y); [exact Ex| |exact Ha].
  assert (reduced (py P)) as HyP.
  { destruct (choose_sign_ok (mp_modsqrt (unc_square c)) s (proj1 (root_reduced c Hr)) Hs) as (Hy & _).
    unfold P. rewrite point_uncompress_eq. exact Hy. }
  apply (same_root (py P) y s HyP); [|exact Hp|exact Hsign].
  pose proof (unc_inverse c Hr) as Hi.
  etransitivity; [exact (proj1 (curve_square _ _ _ Hi) Hcy)|symmetry; exact (proj1 (curve_square _ _ _ Hi) Hc')].
Qed.

(** The bits of a point field that hold neither the sign nor the number. *)
Definition same_rest (pt pt' : list Z) : Prop :=
  get pt' 0 .& 0xfe = get pt 0 .& 0xfe ∧ ∀ k, (1 ≤ k < 60)%nat → get pt' k = get pt k.

(** Storing the sign and the x of a result. *)
Lemma store_encodes pt cx cy x y : length pt = ECC_POINT_LEN → bytes_ok pt → rep cx x → rep cy y →
  let s := get cy 0 .& 1 in
  let pt1 := upd pt 0 (get pt 0 .& 0xfe) in
  let pt2 := upd pt1 0 (get pt1 0 .| s) in
  encodes (from_mp pt2 cx ECC_POINT_LEN) x y ∧ same_rest pt (from_mp pt2 cx ECC_POINT_LEN).
Proof.
  intros Hl Hb Hx Hy s pt1 pt2. unfold ECC_POINT_LEN in *.
  assert (0 <= s <= 1) as Hs.
  { unfold s. rewrite mp_parity. pose proof (Z.mod_pos_bound (mp_val cy) 2 ltac:(lia)). lia. }
  assert (length pt2 = 128%nat) as Hl2 by (unfold pt2, pt1; by rewrite !length_insert).
  assert (is_u8 s) as Hs8 by (unfold is_u8; lia).
  assert (bytes_ok pt2) as Hb2.
  { assert (bytes_ok pt1) as Hb1 by (apply bytes_ok_insert; auto with width).
    apply bytes_ok_insert; auto with width. }
  destruct (from_mp_ok pt2 cx 128 Hl2 ltac:(lia) Hb2) as (Ho & Hbo & Hlow & _).
  assert (get pt2 0 = (get pt 0 .& 0xfe) .| s) as E0.
  { unfold pt2. rewrite get_insert_eq by (unfold pt1; rewrite length_insert; lia).
    unfold pt1. by rewrite get_insert_eq by lia. }
  split; [split; unfold ECC_POINT_LEN; [exact Ho|exact Hbo| |]|split].
  - rewrite (make_from_mp pt2 cx 128 Hl2 ltac:(lia) (proj1 (proj1 Hx)) Hb2). exact Hx.
  - rewrite Hlow by lia. assert (get pt2 0 .& 1 = s) as ->; [|exact (rep_parity cy y Hy)].
    rewrite E0, Z.land_lor_distr_l, <- Z.land_assoc. change (Z.land 254 1) with 0. rewrite Z.land_0_r, Z.lor_0_l.
    rewrite land_one. apply Z.mod_small. lia.
  - rewrite Hlow by lia. rewrite E0, Z.land_lor_distr_l, <- Z.land_assoc. change (Z.land 254 254) with 254.
    assert (s = 0 ∨ s = 1) as [-> | ->] by lia; apply Z.lor_0_r.
  - intros k Hk. rewrite Hlow by lia. unfold pt2, pt1. by rewrite !get_insert_ne by lia.
Qed.

(** The ECC driver in any group of curve points under the addition law. *)
Lemma msel_ecc_mul_stands {G : Type} (op : G → G → G) (zero : G) (coords : G → Z * Z) :
  CurveGroup op zero coords → ∀ ctx g,
  bytes_ok (scalar ctx) → encodes (point ctx) (coords g).1 (coords g).2 →
  let h := multiple op zero (Z.to_nat (mp_val (make_mp (scalar ctx) ECC_SCALAR_LEN))) g in
  ∃ pt, msel_ecc_mul ctx = (MSEL_OK, EccCtx (scalar ctx) pt) ∧
    encodes pt (coords h).1 (coords h).2 ∧ same_rest (point ctx) pt.
Proof.
  intros HG ctx g Hsc Hpt h.
  pose proof (uncompress_encoded (point ctx) _ _ Hpt (grp_curve g)) as Hin.
  unfold msel_ecc_mul. set (up := point_uncompress _ _) in *. destruct up as [inp ret]. cbn [fst] in Hin.
  pose proof (point_scalar_stands op zero coords inp _ g Hin (mp_ok_limbs _ (make_mp_ok (scalar ctx) ECC_SCALAR_LEN Hsc)))
    as [_ Hout]. fold h in Hout.
  destruct (point_compress_ok _ _ _ Hout) as (cx & cy & Rx & Ry & ->).
  eexists. split; [reflexivity|]. exact (store_encodes (point ctx) cx cy _ _ (enc_len _ _ _ Hpt) (enc_bytes _ _ _ Hpt) Rx Ry).
Qed.

(** On any context, also one whose field holds no point, the driver stores 128
    bytes. *)
Lemma msel_ecc_mul_bytes ctx : length (point ctx) = ECC_POINT_LEN → bytes_ok (point ctx) →
  ∃ pt, msel_ecc_mul ctx = (MSEL_OK, EccCtx (scalar ctx) pt) ∧ length pt = ECC_POINT_LEN ∧ bytes_ok pt.
Proof.
  intros Hl Hb. unfold msel_ecc_mul. destruct (point_uncompress _ _) as [inp ret].
  unfold point_compress, point_make_affine. cbn [px py pz]. set (t := mp_modinv _). set (P := point_scalar _ _).
  eexists. split; [reflexivity|]. set (s := get _ 0 .& 1). set (pt := upd _ 0 _).
  assert (length pt = 128%nat) as Hpl by (unfold pt; by rewrite !length_insert).
  assert (is_u8 s) as Hs.
  { unfold s. rewrite land_one. pose proof (Z.mod_pos_bound (get (mp_modmul (py P) t) 0) 2 ltac:(lia)). unfold is_u8. lia. }
  assert (bytes_ok pt) as Hpb.
  { assert (bytes_ok (upd (point ctx) 0 (get (point ctx) 0 .& 254))) by (apply bytes_ok_insert; auto with width).
    apply bytes_ok_insert; auto with width. }
  pose proof (mp_modmul_words (px P) t) as Hx. rewrite mp_set_id by apply Hx.
  destruct (from_mp_ok pt (mp_modmul (px P) t) 128 Hpl ltac:(lia) Hpb) as (H1 & H2 & _). done.
Qed.
