(* ===== verification/Curve.v ===== *)
(** * The group of the curve

    The points of the Edwards curve of Ed521.v with coordinates in [0, p),
    under the addition law that point_add and point_double of
    driver/swcrypto/ed521.c compute in projective coordinates.  The law is
    associative, so the points are the [CurveGroup] that the scalar
    multiplication of the ECC driver works in; the operations are executable. *)

From Stdlib Require Import Zpow_facts.
From S2P Require Import Prelude Words Msel Prime521 Ed521.

Local Open Scope Z_scope.
Local Open Scope orp_scope.

(** ** Associativity of the addition law

    The sums (P1 + P2) + P3 and P1 + (P2 + P3) have the same x: cross
    multiplied, their difference is a combination of the equations of the three
    points. *)

Section associative.
Context (d x1 y1 x2 y2 x3 y3 : Z).

Let E1 := x1 * x1 + y1 * y1 - 1 - d * (x1 * x1) * (y1 * y1).
Let E2 := x2 * x2 + y2 * y2 - 1 - d * (x2 * x2) * (y2 * y2).
Let E3 := x3 * x3 + y3 * y3 - 1 - d * (x3 * x3) * (y3 * y3).
Let A := 1 + d * x1 * x2 * y1 * y2.
Let B := 1 - d * x1 * x2 * y1 * y2.
Let N := x1 * y2 + y1 * x2.
Let M := y1 * y2 - x1 * x2.
Let A' := 1 + d * x2 * x3 * y2 * y3.
Let B' := 1 - d * x2 * x3 * y2 * y3.
Let N' := x2 * y3 + y2 * x3.
Let M' := y2 * y3 - x2 * x3.

Lemma assoc_identity : ∃ c1 c2 c3,
  (N * B * y3 + M * A * x3) * (A' * B' + d * x1 * y1 * N' * M') -
    (x1 * M' * A' + y1 * N' * B') * (A * B + d * N * M * x3 * y3) = c1 * E1 + c2 * E2 + c3 * E3.
Proof.
  exists (d * x2 * y2 *
    (x1 * x2 ^ 3 * x3 ^ 2 * y3 * (d * y2 ^ 2 - 1) - x1 * y2 ^ 3 * x3 * y3 ^ 2 * (d * x2 ^ 2 - 1) -
     x1 * x2 ^ 2 * y2 * x3 * (x3 ^ 2 - 1) + x1 * x2 * y2 ^ 2 * y3 * (y3 ^ 2 - 1) +
     y1 * x2 ^ 3 * x3 * y3 ^ 2 * (d * y2 ^ 2 - 1) + y1 * y2 ^ 3 * x3 ^ 2 * y3 * (d * x2 ^ 2 - 1) +
     y1 * x2 ^ 2 * y2 * y3 * (y3 ^ 2 - 1) + y1 * x2 * y2 ^ 2 * x3 * (x3 ^ 2 - 1))).
  exists (d * x2 * y2 *
    (x1 * (x1 ^ 2 - 1) * x3 * y3 * (x2 * x3 - y2 * y3) + y1 * (y1 ^ 2 - 1) * x3 * y3 * (x2 * y3 + y2 * x3) -
     x1 ^ 2 * y1 * (x2 * x3 * (x3 ^ 2 - 1) + y2 * y3 * (y3 ^ 2 - 1)) +
     x1 * y1 ^ 2 * (y2 * x3 * (x3 ^ 2 - 1) - x2 * y3 * (y3 ^ 2 - 1)))).
  exists (d * x2 * y2 *
    (x1 * (x1 ^ 2 - 1) * x2 * y2 * (x2 * x3 - y2 * y3) - y1 * (y1 ^ 2 - 1) * x2 * y2 * (x2 * y3 + y2 * x3) -
     x1 ^ 2 * y1 * (x2 ^ 3 * x3 * (d * y2 ^ 2 - 1) + y2 ^ 3 * y3 * (d * x2 ^ 2 - 1)) +
     x1 * y1 ^ 2 * (y2 ^ 3 * x3 * (d * x2 ^ 2 - 1) - x2 ^ 3 * y3 * (d * y2 ^ 2 - 1)))).
  unfold E1, E2, E3, A, B, N, M, A', B', N', M'. ring.
Qed.
End associative.

Lemma eqm_mul_nonzero a b : ~ a ≡p 0 → ~ b ≡p 0 → ~ a * b ≡p 0.
Proof. intros Ha Hb E. by destruct (eqm_mul_0 _ _ E). Qed.

Lemma add_den_nonzero x1 y1 x2 y2 x3 y3 : affine_add x1 y1 x2 y2 x3 y3 →
  ~ 1 + ED521_D * x1 * x2 * y1 * y2 ≡p 0 ∧ ~ 1 - ED521_D * x1 * x2 * y1 * y2 ≡p 0.
Proof. intros [(u & w & Hu & Hw) _ _]. split; eapply eqm_unit; eassumption. Qed.

Lemma affine_add_comm x1 y1 x2 y2 x3 y3 : affine_add x1 y1 x2 y2 x3 y3 → affine_add x2 y2 x1 y1 x3 y3.
Proof.
  assert (ED521_D * x2 * x1 * y2 * y1 = ED521_D * x1 * x2 * y1 * y2) as E by ring.
  intros [Hd Hx Hy]. split; rewrite E; [exact Hd|rewrite Hx; eqm_ring|rewrite Hy; eqm_ring].
Qed.

(** The x of a sum over the denominators of its first summand. *)
Lemma sum_over x1 y1 x2 y2 x y s t v w : affine_add x1 y1 x2 y2 x y → affine_add x y s t v w →
  let a := 1 + ED521_D * x1 * x2 * y1 * y2 in let b := 1 - ED521_D * x1 * x2 * y1 * y2 in
  let n := x1 * y2 + y1 * x2 in let m := y1 * y2 - x1 * x2 in
  let q := a * b + ED521_D * n * m * s * t in
  v * q ≡p n * b * t + m * a * s ∧ ~ q ≡p 0.
Proof.
  intros Ha Hv a b n m q. destruct (add_den_nonzero _ _ _ _ _ _ Ha) as [Na Nb].
  destruct (add_den_nonzero _ _ _ _ _ _ Hv) as [Nd _]. destruct Ha as [_ Hx Hy], Hv as [_ Hv _].
  fold a in Na, Hx. fold b in Nb, Hy. fold n in Hx. fold m in Hy.
  assert (q ≡p a * b * (1 + ED521_D * x * s * y * t)) as E.
  { unfold q. rewrite <- Hx, <- Hy. eqm_ring. }
  split; [|rewrite E; by apply eqm_mul_nonzero; [apply eqm_mul_nonzero|]].
  rewrite E. transitivity (v * (1 + ED521_D * x * s * y * t) * (a * b)); [eqm_ring|]. rewrite Hv, <- Hx, <- Hy. eqm_ring.
Qed.

Lemma on_curve_zero x y : on_curve x y → x * x + y * y - 1 - ED521_D * (x * x) * (y * y) ≡p 0.
Proof.
  unfold on_curve. intros H. transitivity (x * x + y * y - (1 + ED521_D * (x * x) * (y * y))); [eqm_ring|].
  by apply eqm_0 in H.
Qed.

Lemma sums_x x1 y1 x2 y2 x3 y3 X Y X' Y' V W U T : on_curve x1 y1 → on_curve x2 y2 → on_curve x3 y3 →
  affine_add x1 y1 x2 y2 X Y → affine_add X Y x3 y3 V W →
  affine_add x2 y2 x3 y3 X' Y' → affine_add x1 y1 X' Y' U T → V ≡p U.
Proof.
  intros H1%on_curve_zero H2%on_curve_zero H3%on_curve_zero Ha Hb Hc Hd%affine_add_comm.
  destruct (assoc_identity ED521_D x1 y1 x2 y2 x3 y3) as (c1 & c2 & c3 & Hid).
  destruct (sum_over _ _ _ _ _ _ _ _ _ _ Ha Hb) as [HV Q2]. destruct (sum_over _ _ _ _ _ _ _ _ _ _ Hc Hd) as [HU Q1].
  apply (eqm_cancel _ _ _ Q1), (eqm_cancel _ _ _ Q2). set (q1 := _ + _ : Z) in HU. set (q2 := _ + _ : Z) in HV.
  fold q1 q2. transitivity (V * q2 * q1); [eqm_ring|]. transitivity (U * q1 * q2); [|eqm_ring]. rewrite HV, HU.
  apply eqm_0. rewrite <- (Z.add_0_r 0) at 1. etransitivity; [|etransitivity; [apply eqm_eq; exact Hid|]].
  - unfold q1, q2. eqm_ring.
  - rewrite H1, H2, H3. eqm_ring.
Qed.

(** Adding the point (1, 0) turns (x, y) into (y, -x), so the y of a sum is the
    x of another one. *)
Lemma affine_add_turn x1 y1 x2 y2 x3 y3 : affine_add x1 y1 x2 y2 x3 y3 → affine_add x1 y1 y2 (- x2) y3 (- x3).
Proof.
  assert (1 + ED521_D * x1 * y2 * y1 * - x2 = 1 - ED521_D * x1 * x2 * y1 * y2) as E1 by ring.
  assert (1 - ED521_D * x1 * y2 * y1 * - x2 = 1 + ED521_D * x1 * x2 * y1 * y2) as E2 by ring.
  intros [(u & w & Hu & Hw) Hx Hy]. split; rewrite ?E1, ?E2.
  - by exists w, u.
  - rewrite Hy. eqm_ring.
  - rewrite Z.mul_opp_l, <- Z.sub_0_l, Hx. eqm_ring.
Qed.

Lemma sums_y x1 y1 x2 y2 x3 y3 X Y X' Y' V W U T : on_curve x1 y1 → on_curve x2 y2 → on_curve x3 y3 →
  affine_add x1 y1 x2 y2 X Y → affine_add X Y x3 y3 V W →
  affine_add x2 y2 x3 y3 X' Y' → affine_add x1 y1 X' Y' U T → W ≡p T.
Proof.
  intros H1 H2 H3 Ha Hb%affine_add_turn Hc%affine_add_turn Hd%affine_add_turn.
  refine (sums_x _ _ _ _ _ _ _ _ _ _ _ _ _ _ H1 H2 _ Ha Hb Hc Hd).
  unfold on_curve in *. rewrite !Z.mul_opp_opp, Z.add_comm, H3. eqm_ring.
Qed.

(** ** The points *)

Definition curve_pointb (x y : Z) : bool :=
  (0 <=? x) && (x <? p521) && (0 <=? y) && (y <? p521) && bool_decide (on_curve x y).

Record curve_point := CurvePoint { cp_x : Z; cp_y : Z; cp_ok : curve_pointb cp_x cp_y = true }.

Definition cp_coords (P : curve_point) : Z * Z := (cp_x P, cp_y P).

#[export] Instance on_curve_dec x y : Decision (on_curve x y) := eqm_dec _ _.

Lemma curve_pointb_spec x y : curve_pointb x y = true ↔ (0 <= x < p521 ∧ 0 <= y < p521) ∧ on_curve x y.
Proof.
  unfold curve_pointb. rewrite !andb_true_iff, bool_decide_eq_true, !Z.leb_le, !Z.ltb_lt. naive_solver.
Qed.

Lemma cp_curve P : on_curve (cp_x P) (cp_y P).
Proof. apply (curve_pointb_spec _ _), P. Qed.

Lemma cp_eq P Q : cp_x P ≡p cp_x Q → cp_y P ≡p cp_y Q → P = Q.
Proof.
  destruct P as [x y H], Q as [x' y' H']. cbn. unfold eqm. intros Ex Ey.
  pose proof (proj1 (proj1 (curve_pointb_spec _ _) H)) as [? ?].
  pose proof (proj1 (proj1 (curve_pointb_spec _ _) H')) as [? ?].
  rewrite !Z.mod_small in Ex, Ey by done. subst. f_equal. apply proof_irrel.
Qed.

Lemma cp_nonzero P : (cp_x P ≠ 0 → ~ cp_x P ≡p 0) ∧ (cp_y P ≠ 0 → ~ cp_y P ≡p 0).
Proof.
  pose proof (proj1 (proj1 (curve_pointb_spec _ _) (cp_ok P))) as [Hx Hy]. unfold eqm.
  rewrite !Z.mod_small by lia. done.
Qed.

(** The inverse modulo p by square and multiply. *)
Definition finv (a : Z) : Z := Zpow_mod a (p521 - 2) p521.

Lemma finv_ok a : ~ a ≡p 0 → a * finv a ≡p 1.
Proof.
  intros Ha. pose proof (eqm_inverse a Ha) as H. unfold finv. rewrite Zpow_mod_correct by done.
  revert H. generalize (a ^ (p521 - 2)). intros i H. transitivity (a * i); [|exact H]. apply eqm_mul; [reflexivity|].
  unfold eqm. apply Z.mod_mod. done.
Qed.

Definition sum_x (x1 y1 x2 y2 : Z) : Z :=
  (x1 * y2 + y1 * x2) * finv (1 + ED521_D * x1 * x2 * y1 * y2) mod p521.
Definition sum_y (x1 y1 x2 y2 : Z) : Z :=
  (y1 * y2 - x1 * x2) * finv (1 - ED521_D * x1 * x2 * y1 * y2) mod p521.

Lemma eqm_mod a : a mod p521 ≡p a.
Proof. apply Z.mod_mod. done. Qed.

Lemma quotient_ok n a u : a * u ≡p 1 → n * finv a mod p521 * a ≡p n.
Proof.
  intros Hu. pose proof (finv_ok a (eqm_unit a u Hu)) as E. revert E. generalize (finv a). intros i E.
  rewrite eqm_mod. transitivity (n * (a * i)); [eqm_ring|]. rewrite E. eqm_ring.
Qed.

Lemma affine_add_sum x1 y1 x2 y2 : on_curve x1 y1 → on_curve x2 y2 →
  affine_add x1 y1 x2 y2 (sum_x x1 y1 x2 y2) (sum_y x1 y1 x2 y2).
Proof.
  intros H1 H2. destruct (affine_add_den _ _ _ _ H1 H2) as (u & w & Hu & Hw).
  split; [by exists u, w|eapply quotient_ok; exact Hu|eapply quotient_ok; exact Hw].
Qed.

Lemma sum_ok P Q : curve_pointb (sum_x (cp_x P) (cp_y P) (cp_x Q) (cp_y Q)) (sum_y (cp_x P) (cp_y P) (cp_x Q) (cp_y Q)) = true.
Proof.
  apply curve_pointb_spec. split; [by split; apply Z.mod_pos_bound|].
  apply (affine_add_curve _ _ _ _ _ _ (cp_curve P) (cp_curve Q)), affine_add_sum; apply cp_curve.
Qed.

Definition cp_add (P Q : curve_point) : curve_point := CurvePoint _ _ (sum_ok P Q).
Definition cp_zero : curve_point := CurvePoint 0 1 eq_refl.

Lemma cp_add_law P Q : affine_add (cp_x P) (cp_y P) (cp_x Q) (cp_y Q) (cp_x (cp_add P Q)) (cp_y (cp_add P Q)).
Proof. apply affine_add_sum; apply cp_curve. Qed.

(** A point that satisfies the equations of a sum is the sum. *)
Lemma cp_add_unique P Q x y R : affine_add (cp_x P) (cp_y P) (cp_x Q) (cp_y Q) x y →
  cp_x R ≡p x → cp_y R ≡p y → cp_add P Q = R.
Proof.
  intros [(u & w & Hu & Hw) Hx Hy] Ex Ey. destruct (cp_add_law P Q) as [_ Hx' Hy'].
  apply cp_eq; rewrite ?Ex, ?Ey.
  - apply (eqm_cancel _ _ _ (eqm_unit _ _ Hu)). by rewrite Hx, Hx'.
  - apply (eqm_cancel _ _ _ (eqm_unit _ _ Hw)). by rewrite Hy, Hy'.
Qed.

Lemma cp_add_comm P Q : cp_add P Q = cp_add Q P.
Proof. by eapply cp_add_unique; [apply affine_add_comm, cp_add_law| |]. Qed.

Lemma cp_add_zero P : cp_add P cp_zero = P.
Proof.
  apply (cp_add_unique P cp_zero (cp_x P) (cp_y P) P); [|done..]. cbn [cp_x cp_y cp_zero].
  split; [apply (affine_add_den _ _ 0 1 (cp_curve P) (cp_curve cp_zero))|eqm_ring..].
Qed.

#[export] Instance curve_group : CurveGroup cp_add cp_zero cp_coords.
Proof.
  split.
  - intros P Q R. apply cp_eq.
    + symmetry. refine (sums_x _ _ _ _ _ _ _ _ _ _ _ _ _ _ (cp_curve P) (cp_curve Q) (cp_curve R) _ _ _ _); apply cp_add_law.
    + symmetry. refine (sums_y _ _ _ _ _ _ _ _ _ _ _ _ _ _ (cp_curve P) (cp_curve Q) (cp_curve R) _ _ _ _); apply cp_add_law.
  - intros P. rewrite cp_add_comm. apply cp_add_zero.
  - apply cp_add_zero.
  - done.
  - apply cp_curve.
  - intros P Q. apply cp_add_law.
  - intros P Q. apply cp_add_law.
Qed.

(** ** Multiples *)

Notation times := (multiple cp_add cp_zero).

Lemma times_mul a b P : times a (times b P) = times (a * b) P.
Proof.
  induction a as [|a IH]; [done|]. cbn [multiple Nat.mul]. rewrite IH. apply (multiple_add cp_add cp_zero cp_coords).
Qed.

Lemma times_swap a b P : times a (times b P) = times b (times a P).
Proof. rewrite !times_mul. f_equal. lia. Qed.

(** ** Fields of points *)

Lemma make_mp_byte l i r : bytes_ok l → (i < 17)%nat → (r < 4)%nat →
  get l (128 - 4 * i - 1 - r) = u8 (get (make_mp l 128) i >>> (8 * Z.of_nat r)).
Proof.
  intros Hl Hi Hr. rewrite make_mp_get by done.
  pose proof (be32_bytes _ _ _ _ (get_u8 l (128 - 4 * i - 4) Hl) (get_u8 l (128 - 4 * i - 3) Hl)
    (get_u8 l (128 - 4 * i - 2) Hl) (get_u8 l (128 - 4 * i - 1) Hl)) as (E3 & E2 & E1 & E0).
  destruct r as [|[|[|[|]]]]; [..|lia].
  - change (8 * Z.of_nat 0) with 0. rewrite Z.shiftr_0_r, E0. f_equal. lia.
  - change (8 * Z.of_nat 1) with 8. rewrite E1. f_equal. lia.
  - change (8 * Z.of_nat 2) with 16. rewrite E2. f_equal. lia.
  - change (8 * Z.of_nat 3) with 24. rewrite E3. f_equal. lia.
Qed.

Lemma make_mp_inj l l' k : bytes_ok l → bytes_ok l' → make_mp l 128 = make_mp l' 128 → (60 ≤ k < 128)%nat →
  get l k = get l' k.
Proof.
  intros Hl Hl' E Hk. replace k with (128 - 4 * ((127 - k) / 4) - 1 - (127 - k) mod 4)%nat
    by (pose proof (Nat.div_mod_eq (127 - k) 4); pose proof (Nat.mod_upper_bound (127 - k) 4); lia).
  assert ((127 - k) / 4 < 17)%nat by (apply Nat.Div0.div_lt_upper_bound; lia).
  pose proof (Nat.mod_upper_bound (127 - k) 4 ltac:(lia)). rewrite !make_mp_byte by done. by rewrite E.
Qed.

(** A field whose unused bits are zero, as those of the generator's field are. *)
Definition clean (pt : list Z) : Prop := get pt 0 .& 0xfe = 0 ∧ ∀ k, (1 ≤ k < 60)%nat → get pt k = 0.

Lemma same_rest_clean pt pt' : same_rest pt pt' → clean pt → clean pt'.
Proof. intros [E H] [E' H']. split; [by rewrite E|]. intros k Hk. by rewrite H, H'. Qed.

Lemma byte_split b : is_u8 b → b = (b .& 0xfe) .| (b .& 1).
Proof.
  intros Hb. rewrite <- Z.land_lor_distr_r. change (Z.lor 254 1) with (Z.ones 8).
  rewrite Z.land_ones by lia. symmetry. apply Z.mod_small. exact Hb.
Qed.

(** The clean field of a point is unique unless a coordinate is zero: zero has
    two representatives below 2^521. *)
Lemma clean_unique pt pt' x y : encodes pt x y → encodes pt' x y → clean pt → clean pt' →
  ~ x ≡p 0 → ~ y ≡p 0 → pt = pt'.
Proof.
  intros [Hl Hb [Hr Hx] Hs] [Hl' Hb' [Hr' Hx'] Hs'] [C0 C] [C0' C'] Nx Ny. unfold ECC_POINT_LEN in *.
  assert (make_mp pt 128 = make_mp pt' 128) as E.
  { apply mp_inj; [apply Hr|apply Hr'|]. apply reduced_unique; [done|done|by rewrite Hx, Hx'|by rewrite Hx]. }
  apply list_eq_get; [congruence|]. rewrite Hl. intros k Hk.
  destruct (decide (60 ≤ k)%nat); [by apply make_mp_inj|].
  destruct (decide (k = 0%nat)) as [-> | ]; [|by rewrite C, C' by lia].
  rewrite (byte_split (get pt 0)), (byte_split (get pt' 0)), C0, C0' by auto with width.
  destruct Hs as [-> | ], Hs' as [-> | ]; done.
Qed.

(** ** The generator *)

Lemma generator_ok : curve_pointb (mp_val ED521_Gx) ED521_Gy = true.
Proof. vm_compute. reflexivity. Qed.

Definition generator : curve_point := CurvePoint _ _ generator_ok.
Definition generator_field : list Z := from_mp (replicate 128 0) ED521_Gx ECC_POINT_LEN.

Lemma generator_encodes : encodes generator_field (cp_x generator) (cp_y generator) ∧ clean generator_field.
Proof.
  assert (bytes_ok (replicate 128 0)) as Hb by (apply bytes_okb_ok; reflexivity).
  destruct (from_mp_ok (replicate 128 0) ED521_Gx 128 eq_refl ltac:(lia) Hb) as (Hl & Hbo & Hlow & _).
  split; [split|split].
  - exact Hl.
  - exact Hbo.
  - unfold generator_field, ECC_POINT_LEN. rewrite make_from_mp; [|done|lia|apply ED521_G_ok|exact Hb].
    apply rep_refl, ED521_G_ok.
  - left. unfold generator_field, ECC_POINT_LEN. rewrite Hlow by lia. reflexivity.
  - unfold generator_field, ECC_POINT_LEN. rewrite Hlow by lia. reflexivity.
  - intros k Hk. unfold generator_field, ECC_POINT_LEN. rewrite Hlow by lia. by apply get_lookup, lookup_replicate_2; lia.
Qed.

(** The ECC driver in the group of the curve. *)
Lemma ecc_mul_times ctx P : bytes_ok (scalar ctx) → encodes (point ctx) (cp_x P) (cp_y P) →
  let Q := times (Z.to_nat (mp_val (make_mp (scalar ctx) ECC_SCALAR_LEN))) P in
  ∃ pt, msel_ecc_mul ctx = (MSEL_OK, EccCtx (scalar ctx) pt) ∧
    encodes pt (cp_x Q) (cp_y Q) ∧ same_rest (point ctx) pt.
Proof.
  intros Hs Hp. destruct (msel_ecc_mul_stands cp_add cp_zero cp_coords curve_group ctx P Hs Hp) as (pt & H).
  cbv zeta in *. revert H. generalize (times (Z.to_nat (mp_val (make_mp (scalar ctx) ECC_SCALAR_LEN))) P).
  intros Q H. exists pt. exact H.
Qed.

(** ** Properties *)

(** C10: The ECC driver multiplies points of the curve: for a context whose point
    field encodes the point P and whose scalar field holds the number s (its
    last 68 bytes, most significant first), msel_ecc_mul returns MSEL_OK and a
    context whose point field encodes s times P in the group of the curve, with
    the scalar field and the unused bits of the point field unchanged. *)
Theorem msel_ecc_mul_correct ctx P : bytes_ok (scalar ctx) → encodes (point ctx) (cp_x P) (cp_y P) →
  let Q := times (Z.to_nat (mp_val (make_mp (scalar ctx) ECC_SCALAR_LEN))) P in
  ∃ pt, msel_ecc_mul ctx = (MSEL_OK, EccCtx (scalar ctx) pt) ∧
    encodes pt (cp_x Q) (cp_y Q) ∧ same_rest (point ctx) pt.
Proof. exact (ecc_mul_times ctx P). Qed.

Lemma msel_ecc_mul_correct_witness :
  let ctx := EccCtx (replicate 127 0 ++ [5]) generator_field in
  ∃ pt, msel_ecc_mul ctx = (MSEL_OK, EccCtx (scalar ctx) pt) ∧
    encodes pt (cp_x (times 5 generator)) (cp_y (times 5 generator)) ∧ same_rest generator_field pt.
Proof.
  assert (Z.to_nat (mp_val (make_mp (replicate 127 0 ++ [5]) ECC_SCALAR_LEN)) = 5%nat) as E by (vm_compute; reflexivity).
  pose proof (msel_ecc_mul_correct (EccCtx (replicate 127 0 ++ [5]) generator_field) generator) as H.
  cbn [scalar point] in H. rewrite E in H. apply H.
  - apply bytes_okb_ok. reflexivity.
  - apply generator_encodes.
Defined.
