(* ===== verification/Memory.v ===== *)
(** * Byte-addressed memory

    The RAM of the target: bytes at 32-bit addresses, with the big-endian word
    accesses of the OpenRISC core and the byte loops of [msel_memcpy] and
    [msel_memset] applied to it. *)

From stdpp Require Export gmap.
From S2P Require Import Prelude Words.

Local Open Scope Z_scope.
Local Open Scope orp_scope.

Abbreviation mem := (gmap Z Z).

Definition ldb (m : mem) (a : Z) : Z := u8 (default 0 (m !! a)).
Definition stb (m : mem) (a v : Z) : mem := <[a := u8 v]> m.

Definition load32 (m : mem) (a : Z) : Z :=
  be32 (ldb m a) (ldb m (a + 1)) (ldb m (a + 2)) (ldb m (a + 3)).
Definition store32 (m : mem) (a v : Z) : mem :=
  stb (stb (stb (stb m a (byte3 v)) (a + 1) (byte2 v)) (a + 2) (byte1 v)) (a + 3) (byte0 v).

(** [msel_memcpy(dst, src, n)] and [msel_memset(dst, v, n)] on addresses. *)
Definition mem_copy (m : mem) (dst src : Z) (n : nat) : mem :=
  for_loop 0 n (λ i m, stb m (dst + Z.of_nat i) (ldb m (src + Z.of_nat i))) m.
Definition mem_set (m : mem) (dst v : Z) (n : nat) : mem :=
  for_loop 0 n (λ i m, stb m (dst + Z.of_nat i) v) m.

(** The bytes of a C object in memory, and a copy of bytes to it. *)
Definition mem_bytes (m : mem) (a : Z) (n : nat) : list Z := (λ i, ldb m (a + Z.of_nat i)) <$> seq 0 n.
Definition mem_write (m : mem) (a : Z) (l : list Z) : mem :=
  for_loop 0 (length l) (λ i m, stb m (a + Z.of_nat i) (get l i)) m.

(** ** Lemmas *)

Create HintDb mem.

Lemma ldb_range m a : is_u8 (ldb m a).
Proof. apply u8_range. Qed.

Lemma ldb_stb_eq m a v : ldb (stb m a v) a = u8 v.
Proof. unfold ldb, stb. rewrite lookup_insert_eq. cbn [default from_option id]. rewrite u8_id; [done|apply u8_range]. Qed.

Lemma ldb_stb_ne m a b v : a ≠ b → ldb (stb m a v) b = ldb m b.
Proof. intros. unfold ldb, stb. rewrite lookup_insert_ne; [reflexivity|assumption]. Qed.

Lemma load32_eq m a : load32 m a = be32 (ldb m a) (ldb m (a + 1)) (ldb m (a + 2)) (ldb m (a + 3)).
Proof. reflexivity. Qed.

Lemma load32_range m a : is_u32 (load32 m a).
Proof. unfold load32. apply be32_range; apply ldb_range. Qed.

Lemma ldb_store32_ne m a v b : b < a ∨ a + 4 <= b → ldb (store32 m a v) b = ldb m b.
Proof. intros. unfold store32. by rewrite !ldb_stb_ne by lia. Qed.

Lemma load32_store32_ne m a v b : b + 4 <= a ∨ a + 4 <= b → load32 (store32 m a v) b = load32 m b.
Proof. intros. unfold load32. by rewrite !ldb_store32_ne by lia. Qed.

Lemma byte_u32 v k : 0 <= k → k + 8 <= 32 → u8 (u32 v >>> k) = u8 (v >>> k).
Proof.
  intros Hk Hk'. unfold u8, u32. apply Z.bits_inj'. intros n Hn.
  destruct (Z.lt_ge_cases n 8).
  - rewrite !Z.mod_pow2_bits_low, !Z.shiftr_spec, Z.mod_pow2_bits_low by lia. done.
  - rewrite !Z.mod_pow2_bits_high by lia. done.
Qed.

Lemma load32_store32_eq m a v : load32 (store32 m a v) a = u32 v.
Proof.
  unfold load32, store32.
  rewrite ldb_stb_eq, !ldb_stb_ne, ldb_stb_eq, !ldb_stb_ne, ldb_stb_eq, !ldb_stb_ne, ldb_stb_eq by lia.
  rewrite !u8_id by apply u8_range. rewrite <- (be32_eta (u32 v)) by apply u32_range.
  unfold byte3, byte2, byte1, byte0. rewrite !byte_u32 by lia.
  pose proof (byte_u32 v 0 ltac:(lia) ltac:(lia)) as H0. rewrite !Z.shiftr_0_r in H0. by rewrite H0.
Qed.

(** Copying leaves what is outside the destination alone. *)
Lemma ldb_mem_copy_ne m dst src n a : a < dst ∨ dst + Z.of_nat n <= a →
  ldb (mem_copy m dst src n) a = ldb m a.
Proof.
  intros Ha. unfold mem_copy. apply (for_loop_inv (λ m', ldb m' a = ldb m a)); [done|].
  intros i m' Hi IH. by rewrite ldb_stb_ne by lia.
Qed.

(** A source cell that the destination does not overlap arrives. *)
Lemma ldb_mem_copy_eq m dst src n i : (i < n)%nat →
  src + Z.of_nat i < dst ∨ dst + Z.of_nat n <= src + Z.of_nat i →
  ldb (mem_copy m dst src n) (dst + Z.of_nat i) = ldb m (src + Z.of_nat i).
Proof.
  intros Hi Hd. replace n with (i + S (n - i - 1))%nat by lia. unfold mem_copy.
  rewrite for_loop_add. cbn [Nat.add]. rewrite for_loop_S_l.
  apply (for_loop_inv (λ m', ldb m' (dst + Z.of_nat i) = ldb m (src + Z.of_nat i))).
  - rewrite ldb_stb_eq, u8_id by apply ldb_range. apply (ldb_mem_copy_ne m dst src i). lia.
  - intros j m' Hj IH. by rewrite ldb_stb_ne by lia.
Qed.

Lemma load32_mem_copy_ne m dst src n a : a + 4 <= dst ∨ dst + Z.of_nat n <= a →
  load32 (mem_copy m dst src n) a = load32 m a.
Proof. intros. unfold load32. by rewrite !ldb_mem_copy_ne by lia. Qed.

Lemma ldb_mem_set_ne m dst v n a : a < dst ∨ dst + Z.of_nat n <= a →
  ldb (mem_set m dst v n) a = ldb m a.
Proof.
  intros Ha. unfold mem_set. apply (for_loop_inv (λ m', ldb m' a = ldb m a)); [done|].
  intros i m' Hi IH. by rewrite ldb_stb_ne by lia.
Qed.

Lemma ldb_mem_set_eq m dst v n i : (i < n)%nat →
  ldb (mem_set m dst v n) (dst + Z.of_nat i) = u8 v.
Proof.
  intros Hi. replace n with (i + S (n - i - 1))%nat by lia. unfold mem_set.
  rewrite for_loop_add. cbn [Nat.add]. rewrite for_loop_S_l.
  apply (for_loop_inv (λ m', ldb m' (dst + Z.of_nat i) = u8 v)).
  - by rewrite ldb_stb_eq.
  - intros j m' Hj IH. by rewrite ldb_stb_ne by lia.
Qed.

Lemma ldb_mem_write_ne m a l b : b < a ∨ a + Z.of_nat (length l) <= b → ldb (mem_write m a l) b = ldb m b.
Proof.
  intros Hb. unfold mem_write. apply (for_loop_inv (λ m', ldb m' b = ldb m b)); [done|].
  intros i m' Hi IH. by rewrite ldb_stb_ne by lia.
Qed.

Lemma ldb_mem_write_eq m a l i : (i < length l)%nat → ldb (mem_write m a l) (a + Z.of_nat i) = u8 (get l i).
Proof.
  intros Hi. unfold mem_write. replace (length l) with (i + S (length l - i - 1))%nat by lia.
  rewrite for_loop_add. cbn [Nat.add]. rewrite for_loop_S_l.
  apply (for_loop_inv (λ m', ldb m' (a + Z.of_nat i) = u8 (get l i))); [by rewrite ldb_stb_eq|].
  intros j m' Hj IH. by rewrite ldb_stb_ne by lia.
Qed.

Lemma mem_bytes_write m a l : bytes_ok l → mem_bytes (mem_write m a l) a (length l) = l.
Proof.
  intros Hl. apply list_eq. intros i. unfold mem_bytes. rewrite list_lookup_fmap.
  destruct (decide (i < length l)%nat) as [Hi|Hi].
  - rewrite lookup_seq_lt by done. cbn. rewrite ldb_mem_write_eq by done.
    rewrite u8_id by (by apply get_u8). by rewrite lookup_get.
  - rewrite lookup_seq_ge, lookup_ge_None_2 by lia. done.
Qed.

Lemma mem_bytes_length m a n : length (mem_bytes m a n) = n.
Proof. unfold mem_bytes. by rewrite length_fmap, length_seq. Qed.

Lemma get_mem_bytes m a n i : (i < n)%nat → get (mem_bytes m a n) i = ldb m (a + Z.of_nat i).
Proof.
  intros Hi. apply get_lookup. unfold mem_bytes. rewrite list_lookup_fmap, lookup_seq_lt by done. done.
Qed.

#[export] Hint Resolve ldb_range load32_range : mem.
#[global] Opaque load32 store32 mem_copy mem_set.
