(* ===== verification/Malloc.v ===== *)
(** * The task heap

    The boundary-tag allocator of os/malloc.c: chunks tile the heap, each with
    its size in a header and a footer, and the free ones hang in four doubly
    linked lists by size class.  The heap lives in byte memory; pointers are
    32-bit addresses and 0 is [NULL].  The development shows that the tiling,
    the lists and the absence of adjacent free chunks are kept by every
    operation, that the list searches end, and that no operation touches the
    bytes of a live block. *)

From S2P Require Import Prelude Words Memory.

Local Open Scope Z_scope.
Local Open Scope orp_scope.

Definition ALIGN_SIZE : Z := 16.
Definition BUCKET_COUNT : Z := 4.
Definition BUCKET_SHIFT : Z := 7.
Definition CHUNK_FREE : Z := 1.
Definition sizeof_HEADER : Z := 16.
Definition sizeof_FOOTER : Z := 16.
Definition HEAP_SIZE : Z := 32.

(** ** Fields

    [HEADER] and [FOOTER] keep the size first, so one accessor serves both. *)

Definition get_size (m : mem) (h : Z) : Z := load32 m h.
Definition set_size (m : mem) (h v : Z) : mem := store32 m h v.
Definition get_next (m : mem) (h : Z) : Z := load32 m (h + 4).
Definition set_next (m : mem) (h v : Z) : mem := store32 m (h + 4) v.
Definition get_prev (m : mem) (h : Z) : Z := load32 m (h + 8).
Definition set_prev (m : mem) (h v : Z) : mem := store32 m (h + 8) v.

Definition get_free_list (m : mem) (heap i : Z) : Z := load32 m (heap + 4 * i).
Definition set_free_list (m : mem) (heap i v : Z) : mem := store32 m (heap + 4 * i) v.
Definition get_start (m : mem) (heap : Z) : Z := load32 m (heap + 16).
Definition set_start (m : mem) (heap v : Z) : mem := store32 m (heap + 16) v.
Definition get_end (m : mem) (heap : Z) : Z := load32 m (heap + 20).
Definition set_end (m : mem) (heap v : Z) : mem := store32 m (heap + 20) v.

(** [~(ALIGN_SIZE - 1)] on 32 bits. *)
Definition ALIGN_MASK : Z := 2 ^ 32 - 16.
Definition CHUNK_SIZE (size : Z) : Z := size .& ALIGN_MASK.
Definition CHUNK_FLAGS (size : Z) : Z := size .& (ALIGN_SIZE - 1).

(** ** Operations *)

Definition get_bucket_idx (size : Z) : Z :=
  let ret := size >>> BUCKET_SHIFT in
  if BUCKET_COUNT <=? ret then BUCKET_COUNT - 1 else ret.

Definition get_header_from_ptr (ptr : Z) : Z := u32 (ptr - sizeof_HEADER).
Definition get_footer_from_header (m : mem) (hdr : Z) : Z :=
  u32 (hdr + sizeof_HEADER + CHUNK_SIZE (get_size m hdr)).
Definition get_header_from_footer (m : mem) (ftr : Z) : Z :=
  u32 (ftr - sizeof_HEADER - CHUNK_SIZE (get_size m ftr)).
Definition get_prev_footer (hdr : Z) : Z := u32 (hdr - sizeof_FOOTER).
Definition get_next_chunk (m : mem) (hdr : Z) : Z :=
  u32 (hdr + sizeof_HEADER + CHUNK_SIZE (get_size m hdr) + sizeof_FOOTER).

Definition freelist_unlink (m : mem) (heap hdr : Z) : mem :=
  let m :=
    if negb (get_prev m hdr =? 0) then set_next m (get_prev m hdr) (get_next m hdr)
    else set_free_list m heap (get_bucket_idx (get_size m hdr)) (get_next m hdr) in
  if negb (get_next m hdr =? 0) then set_prev m (get_next m hdr) (get_prev m hdr) else m.

Definition is_flagged_free (size : Z) : bool := negb (CHUNK_FLAGS size .& CHUNK_FREE =? 0).

(** The reverse merge of [heap_free]: the chunk to go on with, and the heap. *)
Definition reverse_merge (m : mem) (heap hdr ftr : Z) : mem * Z :=
  if get_start m heap <? hdr then
    let chk_ftr := get_prev_footer hdr in
    if is_flagged_free (get_size m chk_ftr) then
      let chk_hdr := get_header_from_footer m chk_ftr in
      let m := freelist_unlink m heap chk_hdr in
      let m := set_size m chk_hdr
        (u32 (get_size m chk_hdr + CHUNK_SIZE (get_size m hdr) + sizeof_HEADER + sizeof_FOOTER)) in
      (set_size m ftr (get_size m chk_hdr), chk_hdr)
    else (m, hdr)
  else (m, hdr).

Definition forward_merge (m : mem) (heap hdr : Z) : mem :=
  let chk_hdr := get_next_chunk m hdr in
  if (chk_hdr <? get_end m heap) && is_flagged_free (get_size m chk_hdr) then
    let chk_ftr := get_footer_from_header m chk_hdr in
    let m := freelist_unlink m heap chk_hdr in
    let m := set_size m hdr
      (u32 (get_size m hdr + CHUNK_SIZE (get_size m chk_hdr) + sizeof_HEADER + sizeof_FOOTER)) in
    set_size m chk_ftr (get_size m hdr)
  else m.

Definition freelist_link (m : mem) (heap hdr : Z) : mem :=
  let bucket_idx := get_bucket_idx (get_size m hdr) in
  let m := set_prev m hdr 0 in
  let m := set_next m hdr (get_free_list m heap bucket_idx) in
  let m := if negb (get_next m hdr =? 0) then set_prev m (get_next m hdr) hdr else m in
  set_free_list m heap bucket_idx hdr.

Definition heap_free (m : mem) (heap ptr : Z) : mem :=
  let hdr := get_header_from_ptr ptr in
  let ftr := get_footer_from_header m hdr in
  let m := set_size m hdr (get_size m hdr .| CHUNK_FREE) in
  let m := set_size m ftr (get_size m hdr) in
  let '(m, hdr) := reverse_merge m heap hdr ftr in
  let m := forward_merge m heap hdr in
  freelist_link m heap hdr.

Definition chunk_split (m : mem) (heap hdr size : Z) : mem :=
  let chunk_size := CHUNK_SIZE (get_size m hdr) in
  let rem := u32 (chunk_size - size) in
  if rem <? sizeof_HEADER + sizeof_FOOTER + ALIGN_SIZE then
    let ftr := get_footer_from_header m hdr in
    let m := set_size m hdr (get_size m hdr .& (2 ^ 32 - 1 - CHUNK_FREE)) in
    set_size m ftr (get_size m hdr)
  else
    let m := set_size m hdr size in
    let chk := get_next_chunk m hdr in
    let ftr := get_footer_from_header m hdr in
    let m := set_size m ftr (get_size m hdr) in
    let m := set_size m chk (u32 (rem - (sizeof_HEADER + sizeof_FOOTER))) in
    let ftr := get_footer_from_header m chk in
    let m := set_size m ftr (get_size m chk) in
    heap_free m heap (u32 (chk + sizeof_HEADER)).

Definition heap_init (m : mem) (base_ptr end_ptr : Z) : mem :=
  let heap := base_ptr in
  let m := for_loop 0 4 (λ i m, set_free_list m heap (Z.of_nat i) 0) m in
  let ptr := u32 (base_ptr + HEAP_SIZE) in
  let m := set_start m heap ptr in
  let m := set_end m heap end_ptr in
  let hdr := ptr in
  let ptr := u32 (ptr + sizeof_HEADER) in
  let eptr := u32 (end_ptr - sizeof_FOOTER) in
  let ftr := eptr in
  let size := u32 (eptr - ptr) .| CHUNK_FREE in
  let m := set_size m hdr size in
  let m := set_size m ftr size in
  let m := set_prev m hdr 0 in
  let m := set_next m hdr 0 in
  set_free_list m heap (get_bucket_idx (get_size m hdr)) hdr.

(** [for(hdr = ...; hdr; hdr = hdr->s.next) if(CHUNK_SIZE(hdr) >= size) ...]:
    the first chunk of the list that is large enough, 0 at the end of the list,
    [None] when the fuel runs out. *)
Fixpoint find_fit (fuel : nat) (m : mem) (hdr size : Z) : option Z :=
  if hdr =? 0 then Some 0
  else match fuel with
  | O => None
  | S fuel => if size <=? CHUNK_SIZE (get_size m hdr) then Some hdr
              else find_fit fuel m (get_next m hdr) size
  end.

(** A chunk takes at least 32 bytes, which bounds the length of a list. *)
Definition heap_fuel (m : mem) (heap : Z) : nat := Z.to_nat ((get_end m heap - get_start m heap) / 32).

(** The loop over the buckets: [n] are left, from [bucket_idx] on. *)
Fixpoint malloc_scan (n : nat) (m : mem) (heap bucket_idx size : Z) : option Z :=
  match n with
  | O => Some 0
  | S n =>
      hdr ← find_fit (heap_fuel m heap) m (get_free_list m heap bucket_idx) size;
      if hdr =? 0 then malloc_scan n m heap (bucket_idx + 1) size else Some hdr
  end.

Definition round_size (size : Z) : Z := u32 (size + ALIGN_SIZE - 1) .& ALIGN_MASK.

Definition heap_malloc (m : mem) (base_ptr size : Z) : option (mem * Z) :=
  let size := round_size size in
  let heap := base_ptr in
  let bucket_idx := get_bucket_idx size in
  hdr ← malloc_scan (Z.to_nat (BUCKET_COUNT - bucket_idx)) m heap bucket_idx size;
  if hdr =? 0 then Some (m, 0)
  else
    let m := freelist_unlink m heap hdr in
    let m := chunk_split m heap hdr size in
    Some (m, u32 (hdr + sizeof_HEADER)).

(** The merge of [heap_realloc] with a free chunk behind the block. *)
Definition realloc_grow (m : mem) (heap hdr : Z) : mem :=
  let chk_hdr := get_next_chunk m hdr in
  if (chk_hdr <? get_end m heap) && is_flagged_free (get_size m chk_hdr) then
    let m := freelist_unlink m heap chk_hdr in
    let m := set_size m hdr
      (u32 (get_size m hdr + CHUNK_SIZE (get_size m chk_hdr) + sizeof_HEADER + sizeof_FOOTER)) in
    let ftr := get_footer_from_header m hdr in
    set_size m ftr (get_size m hdr)
  else m.

Definition heap_realloc (m : mem) (base_ptr ptr size : Z) : option (mem * Z) :=
  let size := round_size size in
  let heap := base_ptr in
  let hdr := u32 (ptr - sizeof_HEADER) in
  let m := if CHUNK_SIZE (get_size m hdr) <? size then realloc_grow m heap hdr else m in
  if CHUNK_SIZE (get_size m hdr) <? size then
    '(m, p) ← heap_malloc m base_ptr size;
    if p =? 0 then Some (m, 0)
    else
      let m := mem_copy m p ptr (Z.to_nat size) in
      Some (heap_free m base_ptr ptr, p)
  else Some (chunk_split m heap hdr size, ptr).

(** ** Tags *)

Definition al (x : Z) : Prop := x mod 16 = 0.

(** A size word: the size with the free flag. *)
Definition tag (s : Z) (f : bool) : Z := s + Z.b2z f.

Ltac align :=
  unfold al, is_u32 in *; Z.div_mod_to_equations; lia.

Lemma land_mask_low x : CHUNK_FLAGS x = x mod 16.
Proof. unfold CHUNK_FLAGS. change (ALIGN_SIZE - 1) with (Z.ones 4). by rewrite Z.land_ones. Qed.

Lemma land_mask_high x : is_u32 x → x .& ALIGN_MASK = x - x mod 16.
Proof. intros Hx. exact (land_high 4 x ltac:(lia) Hx). Qed.

Section tag.
Context (s : Z) (Hs : 0 <= s) (Ha : al s) (Hb : s + 1 < 2 ^ 32).

Lemma CHUNK_SIZE_tag f : CHUNK_SIZE (tag s f) = s.
Proof.
  unfold CHUNK_SIZE, tag. rewrite land_mask_high by (unfold is_u32; destruct f; simpl; lia).
  destruct f; cbn [Z.b2z]; align.
Qed.

Lemma is_flagged_free_tag f : is_flagged_free (tag s f) = f.
Proof.
  unfold is_flagged_free, tag. rewrite land_mask_low.
  assert ((s + Z.b2z f) mod 16 = Z.b2z f) as -> by (destruct f; cbn [Z.b2z]; align). by destruct f.
Qed.

Lemma tag_set_free : tag s false .| CHUNK_FREE = tag s true.
Proof.
  unfold tag, CHUNK_FREE. cbn [Z.b2z]. rewrite Z.add_0_r.
  assert (s = (s / 16) <<< 4) as -> by (rewrite Z.shiftl_mul_pow2 by lia; change (2 ^ 4) with 16; align).
  rewrite lor_shiftl_add, Z.shiftl_mul_pow2 by lia. done.
Qed.

Lemma tag_clear_free f : tag s f .& (2 ^ 32 - 1 - CHUNK_FREE) = tag s false.
Proof.
  apply Z.bits_inj'. intros n Hn. rewrite Z.land_spec. unfold tag, CHUNK_FREE.
  change (2 ^ 32 - 1 - 1) with (Z.ones 31 <<< 1). rewrite Z.shiftl_spec by lia. rewrite Z.add_0_r.
  assert (s + Z.b2z f = s / 2 * 2 ^ 1 + Z.b2z f) as -> by (change (2 ^ 1) with 2; align).
  assert (s = s / 2 * 2 ^ 1 + 0) as E by (change (2 ^ 1) with 2; align). rewrite E at 2.
  rewrite !testbit_field by (destruct f; cbn; lia). destruct (Z.ltb_spec n 1).
  - rewrite (Z.testbit_neg_r _ (n - 1)), Z.testbit_0_l by lia. apply andb_false_r.
  - destruct (Z.lt_ge_cases (n - 1) 31).
    + rewrite Z.ones_spec_low by lia. apply andb_true_r.
    + rewrite Z.ones_spec_high by lia. rewrite andb_false_r. symmetry.
      apply (testbit_above 31); [|lia]. split; [align|]. apply Z.div_lt_upper_bound; lia.
Qed.

Lemma get_bucket_idx_tag f : get_bucket_idx (tag s f) = get_bucket_idx s.
Proof.
  unfold get_bucket_idx. rewrite !Z.shiftr_div_pow2 by (unfold BUCKET_SHIFT; lia).
  assert (tag s f / 2 ^ BUCKET_SHIFT = s / 2 ^ BUCKET_SHIFT) as ->; [|done].
  unfold tag, BUCKET_SHIFT. change (2 ^ 7) with 128. destruct f; cbn [Z.b2z]; align.
Qed.

Lemma tag_range f : is_u32 (tag s f).
Proof. unfold tag, is_u32. destruct f; cbn [Z.b2z]; lia. Qed.
End tag.

Lemma get_bucket_idx_range s : 0 <= s → 0 <= get_bucket_idx s < 4.
Proof.
  intros Hs. unfold get_bucket_idx, BUCKET_COUNT, BUCKET_SHIFT.
  pose proof (Z.shiftr_nonneg s 7). destruct (Z.leb_spec 4 (s >>> 7)); lia.
Qed.

Lemma get_bucket_idx_mono s t : 0 <= s <= t → get_bucket_idx s <= get_bucket_idx t.
Proof.
  intros Hs. unfold get_bucket_idx, BUCKET_COUNT, BUCKET_SHIFT. rewrite !Z.shiftr_div_pow2 by lia.
  pose proof (Z.div_le_mono s t (2 ^ 7) ltac:(lia) ltac:(lia)).
  destruct (Z.leb_spec 4 (s / 2 ^ 7)), (Z.leb_spec 4 (t / 2 ^ 7)); lia.
Qed.

Lemma round_size_spec n : 0 <= n → n + 15 < 2 ^ 32 →
  al (round_size n) ∧ n <= round_size n < n + 16 ∧ round_size n < 2 ^ 32.
Proof.
  intros Hn Hb. unfold round_size. rewrite land_mask_high by apply u32_range.
  unfold ALIGN_SIZE. rewrite u32_id by (unfold is_u32; lia). align.
Qed.

(** ** Tiling

    The chunks of a heap from address [a] on, as sizes and free flags. *)

Definition chunks := list (Z * bool).

Fixpoint span (cs : chunks) : Z :=
  match cs with [] => 0 | (s, _) :: r => 32 + s + span r end.

Fixpoint tiled (m : mem) (a : Z) (cs : chunks) : Prop :=
  match cs with
  | [] => True
  | (s, f) :: r =>
      (0 <= s ∧ al s) ∧ get_size m a = tag s f ∧ get_size m (a + 16 + s) = tag s f ∧
      tiled m (a + 32 + s) r
  end.

(** The free chunks: address and size. *)
Fixpoint is_free (a : Z) (cs : chunks) (x s : Z) : Prop :=
  match cs with
  | [] => False
  | (s0, f) :: r => (f = true ∧ x = a ∧ s = s0) ∨ is_free (a + 32 + s0) r x s
  end.

(** The bytes handed out to clients. *)
Fixpoint in_use (a : Z) (cs : chunks) (b : Z) : Prop :=
  match cs with
  | [] => False
  | (s, f) :: r => (f = false ∧ a + 16 <= b < a + 16 + s) ∨ in_use (a + 32 + s) r b
  end.

(** No two free chunks in a row, [p] telling whether one comes before. *)
Fixpoint coalesced (p : bool) (cs : chunks) : Prop :=
  match cs with [] => True | (_, f) :: r => ¬ (p = true ∧ f = true) ∧ coalesced f r end.

Definition ends_free (p : bool) (cs : chunks) : bool := from_option snd p (last cs).

Lemma span_app l r : span (l ++ r) = span l + span r.
Proof. induction l as [|[s f] l IH]; cbn [span app]; lia. Qed.

Lemma tiled_app m a l r : tiled m a (l ++ r) ↔ tiled m a l ∧ tiled m (a + span l) r.
Proof.
  revert a. induction l as [|[s f] l IH]; intros a; cbn [tiled span app].
  - rewrite Z.add_0_r. tauto.
  - rewrite IH. replace (a + (32 + s + span l)) with (a + 32 + s + span l) by lia. tauto.
Qed.

Lemma is_free_app a l r x s : is_free a (l ++ r) x s ↔ is_free a l x s ∨ is_free (a + span l) r x s.
Proof.
  revert a. induction l as [|[t f] l IH]; intros a; cbn [is_free span app].
  - rewrite Z.add_0_r. tauto.
  - rewrite IH. replace (a + (32 + t + span l)) with (a + 32 + t + span l) by lia. tauto.
Qed.

Lemma in_use_app a l r b : in_use a (l ++ r) b ↔ in_use a l b ∨ in_use (a + span l) r b.
Proof.
  revert a. induction l as [|[t f] l IH]; intros a; cbn [in_use span app].
  - rewrite Z.add_0_r. tauto.
  - rewrite IH. replace (a + (32 + t + span l)) with (a + 32 + t + span l) by lia. tauto.
Qed.

Lemma coalesced_app p l r : coalesced p (l ++ r) ↔ coalesced p l ∧ coalesced (ends_free p l) r.
Proof.
  revert p. induction l as [|[s f] l IH]; intros p; cbn [coalesced app]; [tauto|].
  rewrite IH. unfold ends_free. destruct l as [|c l]; [tauto|]. cbn [last].
  destruct (last (c :: l)) eqn:E; [tauto|]. by apply last_None in E.
Qed.

Lemma tiled_span m a cs : tiled m a cs → 0 <= span cs ∧ al (span cs).
Proof.
  revert a. induction cs as [|[s f] cs IH]; intros a; cbn [tiled span]; [done|].
  intros (Hs & _ & _ & H). apply IH in H. align.
Qed.

Lemma is_free_bounds m a cs x s : tiled m a cs → is_free a cs x s → al a →
  al x ∧ (0 <= s ∧ al s) ∧ a <= x ∧ x + 32 + s <= a + span cs ∧ get_size m x = tag s true.
Proof.
  revert a. induction cs as [|[t f] cs IH]; intros a; cbn [tiled span is_free]; [done|].
  intros (Ht & Hg & _ & H) Hf Ha. pose proof (tiled_span _ _ _ H).
  destruct Hf as [(-> & -> & ->)|Hf]; [split; [done|]; split; [done|]; lia|].
  destruct (IH _ H Hf) as (? & ? & ? & ? & ?); [align|]. split; [done|]. split; [done|]. lia.
Qed.

Lemma in_use_bounds m a cs b : tiled m a cs → in_use a cs b → a + 16 <= b ∧ b + 16 < a + span cs.
Proof.
  revert a. induction cs as [|[t f] cs IH]; intros a; cbn [tiled span in_use]; [done|].
  intros (Ht & _ & _ & H) Hu. pose proof (tiled_span _ _ _ H).
  destruct Hu as [?|Hu]; [lia|]. apply IH in Hu; [lia|done].
Qed.

Lemma in_use_not_free m a cs b x s : tiled m a cs → al a → in_use a cs b → is_free a cs x s →
  b < x ∨ x + 16 <= b.
Proof.
  revert a. induction cs as [|[t f] cs IH]; intros a; cbn [tiled in_use is_free]; [done|].
  intros (Ht & _ & _ & H) Ha Hu Hf. assert (al (a + 32 + t)) as Ha' by align.
  destruct Hu as [(-> & Hu)|Hu], Hf as [(? & -> & ->)|Hf]; [done| | |by eapply IH].
  - destruct (is_free_bounds _ _ _ _ _ H Hf Ha') as (? & ? & ? & ? & ?). lia.
  - pose proof (in_use_bounds _ _ _ _ H Hu). lia.
Qed.

Lemma is_free_fun m a cs x s s' : tiled m a cs → al a → is_free a cs x s → is_free a cs x s' → s = s'.
Proof.
  intros Ht Ha H H'. apply (is_free_bounds _ _ _ _ _ Ht) in H, H'; [|done..].
  destruct H as (_ & _ & _ & _ & E), H' as (_ & _ & _ & _ & E'). unfold tag in *. simpl in *. lia.
Qed.

Lemma tiled_frame m m' a cs : tiled m a cs → al a →
  (∀ x, al x → a <= x < a + span cs → get_size m' x = get_size m x) → tiled m' a cs.
Proof.
  revert a. induction cs as [|[s f] cs IH]; intros a; cbn [tiled span]; [done|].
  intros (Hs & H1 & H2 & H) Ha Hf. pose proof (tiled_span _ _ _ H).
  split; [done|]. rewrite !Hf by align. split; [done|]. split; [done|].
  apply IH; [done|align|]. intros; apply Hf; [done|lia].
Qed.

Ltac words := unfold get_size, set_size, get_next, set_next, get_prev, set_prev,
  get_free_list, set_free_list, get_start, set_start, get_end, set_end in *;
  repeat first [rewrite load32_store32_eq | rewrite load32_store32_ne by align].

(** Writing the two tags of a chunk between two tiled parts. *)
Lemma retag m a l s f r : al a → tiled m a l → (0 <= s ∧ al s) → s + 1 < 2 ^ 32 →
  let h := a + span l in
  tiled m (h + 32 + s) r →
  tiled (set_size (set_size m h (tag s f)) (h + 16 + s) (tag s f)) a (l ++ (s, f) :: r).
Proof.
  intros Ha Hl Hs Hs' h Hr. pose proof (tiled_span _ _ _ Hl) as [? ?].
  apply tiled_app. fold h. assert (al h) by (unfold h; align). split.
  - apply (tiled_frame m); [done|done|]. intros x Hx Hx'. fold h in Hx'. words. done.
  - cbn [tiled]. split; [done|]. pose proof (tag_range s (proj1 Hs) Hs' f).
    words. rewrite u32_id by done. split; [done|]. split; [done|].
    apply (tiled_frame m); [done|align|]. intros x Hx Hx'. words. done.
Qed.

Lemma is_free_split a cs x s : is_free a cs x s → ∃ l r, cs = l ++ (s, true) :: r ∧ x = a + span l.
Proof.
  revert a. induction cs as [|[t f] cs IH]; intros a; cbn [is_free]; [done|].
  intros [(-> & -> & ->)|Hx].
  - exists [], cs. split; [done|]. cbn. lia.
  - destruct (IH _ Hx) as (l & r & -> & ->). exists ((t, f) :: l), r. split; [done|]. cbn [span]. lia.
Qed.

Fixpoint addrs (a : Z) (cs : chunks) : list Z :=
  match cs with [] => [] | (s, _) :: r => a :: addrs (a + 32 + s) r end.

Lemma is_free_addrs a cs x s : is_free a cs x s → x ∈ addrs a cs.
Proof.
  revert a. induction cs as [|[t f] cs IH]; intros a; cbn [is_free addrs]; [done|].
  intros [(_ & -> & _)|Hx]; apply elem_of_cons; [by left|right; eauto].
Qed.

Lemma addrs_length m a cs : tiled m a cs → 32 * Z.of_nat (length (addrs a cs)) <= span cs.
Proof.
  revert a. induction cs as [|[t f] cs IH]; intros a; cbn [tiled addrs span length]; [lia|].
  intros (? & _ & _ & H). apply IH in H. lia.
Qed.

(** ** Live blocks: address of the header, and size *)

Fixpoint is_live (a : Z) (cs : chunks) (x s : Z) : Prop :=
  match cs with
  | [] => False
  | (s0, f) :: r => (f = false ∧ x = a ∧ s = s0) ∨ is_live (a + 32 + s0) r x s
  end.

Lemma is_live_app a l r x s : is_live a (l ++ r) x s ↔ is_live a l x s ∨ is_live (a + span l) r x s.
Proof.
  revert a. induction l as [|[t f] l IH]; intros a; cbn [is_live span app].
  - rewrite Z.add_0_r. tauto.
  - rewrite IH. replace (a + (32 + t + span l)) with (a + 32 + t + span l) by lia. tauto.
Qed.

Lemma is_live_split a cs x s : is_live a cs x s → ∃ l r, cs = l ++ (s, false) :: r ∧ x = a + span l.
Proof.
  revert a. induction cs as [|[t f] cs IH]; intros a; cbn [is_live]; [done|].
  intros [(-> & -> & ->)|Hx].
  - exists [], cs. split; [done|]. cbn. lia.
  - destruct (IH _ Hx) as (l & r & -> & ->). exists ((t, f) :: l), r. split; [done|]. cbn [span]. lia.
Qed.

Lemma is_live_in_use a cs x s b : is_live a cs x s → x + 16 <= b < x + 16 + s → in_use a cs b.
Proof.
  intros (l & r & -> & ->)%is_live_split Hb. apply in_use_app. right. left. by split.
Qed.

Lemma is_live_bounds m a cs x s : tiled m a cs → al a → is_live a cs x s →
  al x ∧ (0 <= s ∧ al s) ∧ a <= x ∧ x + 32 + s <= a + span cs ∧ get_size m x = tag s false.
Proof.
  intros Ht Ha (l & r & -> & ->)%is_live_split. apply tiled_app in Ht as (Hl & Hs & G & _ & Hr).
  pose proof (tiled_span _ _ _ Hl). pose proof (tiled_span _ _ _ Hr). rewrite span_app. cbn [span].
  split; [align|]. split; [done|]. split; [lia|]. split; [lia|done].
Qed.

(** Distinct live blocks do not overlap, tags included. *)
Lemma is_live_disjoint m a cs x s y t : tiled m a cs → is_live a cs x s → is_live a cs y t →
  (x = y ∧ s = t) ∨ x + 32 + s <= y ∨ y + 32 + t <= x.
Proof.
  revert a. induction cs as [|[u f] cs IH]; intros a; cbn [tiled is_live]; [done|].
  intros (Hu & _ & _ & Ht) [(_ & -> & ->)|Hx] [(_ & -> & ->)|Hy]; [by left| | |by eapply IH].
  - right. left. apply is_live_split in Hy as (l & r & -> & ->). apply tiled_app in Ht as [Hl _].
    apply tiled_span in Hl. lia.
  - right. right. apply is_live_split in Hx as (l & r & -> & ->). apply tiled_app in Ht as [Hl _].
    apply tiled_span in Hl. lia.
Qed.

(** ** Free lists

    [links m p l q]: the nodes [l] are doubly linked, [p] before and [q] after. *)

Fixpoint links (m : mem) (p : Z) (l : list Z) (q : Z) : Prop :=
  match l with
  | [] => True
  | x :: r => get_prev m x = p ∧ get_next m x = default q (head r) ∧ links m x r q
  end.

Lemma links_app m p l r q :
  links m p (l ++ r) q ↔ links m p l (default q (head r)) ∧ links m (default p (last l)) r q.
Proof.
  revert p. induction l as [|x l IH]; intros p; cbn [links app]; [tauto|].
  rewrite IH. destruct l as [|y l]; cbn [app head last]; [tauto|].
  destruct (last (y :: l)) eqn:E; [tauto|]. by apply last_None in E.
Qed.

Lemma links_frame m m' p l q : links m p l q →
  (∀ x, x ∈ l → get_next m' x = get_next m x ∧ get_prev m' x = get_prev m x) → links m' p l q.
Proof.
  revert p. induction l as [|x l IH]; intros p; cbn [links]; [done|].
  intros (H1 & H2 & H3) Hf. destruct (Hf x) as [-> ->]; [set_solver|].
  split; [done|]. split; [done|]. apply IH; [done|]. intros; apply Hf; set_solver.
Qed.

(** Redirecting the link after, or before, a segment. *)
Lemma links_set_next m p l y q q' : links m p (l ++ [y]) q → NoDup (l ++ [y]) →
  (∀ x, x ∈ l ++ [y] → al x) → is_u32 q' → links (set_next m y q') p (l ++ [y]) q'.
Proof.
  rewrite !links_app. cbn [links head default]. intros (Hl & Hp & _ & _) Hnd Hal Hq.
  apply NoDup_app in Hnd as (_ & Hy & _). assert (al y) by (apply Hal; set_solver).
  split; [|split; [|split; [|done]]].
  - apply (links_frame m); [done|]. intros x Hx. assert (x ≠ y) by set_solver.
    assert (al x) by (apply Hal; set_solver). words. done.
  - words. done.
  - words. by apply u32_id.
Qed.

Lemma links_set_prev m p p' z l q : links m p (z :: l) q → NoDup (z :: l) →
  (∀ x, x ∈ z :: l → al x) → is_u32 p' → links (set_prev m z p') p' (z :: l) q.
Proof.
  cbn [links]. intros (_ & Hn & Hl) Hnd Hal Hp. apply NoDup_cons in Hnd as [Hz _].
  assert (al z) by (apply Hal; set_solver). split; [|split].
  - words. by apply u32_id.
  - words. done.
  - apply (links_frame m); [done|]. intros x Hx. assert (x ≠ z) by set_solver.
    assert (al x) by (apply Hal; set_solver). words. done.
Qed.

Section heap.
Context (base e : Z) (Hbase : al base ∧ 0 < base) (He : al e ∧ base + 32 <= e ∧ e < 2 ^ 32).

Definition heap_first : Z := base + 32.

(** [F x s]: the chunk at [x], of size [s], hangs in a free list. *)
Implicit Types F : Z → Z → Prop.

Definition nodes_ok F : Prop :=
  ∀ x s, F x s → (al x ∧ 0 <= s ∧ heap_first <= x ∧ x + 32 + s <= e) ∧ ∀ s', F x s' → s' = s.

Definition list_ok (m : mem) F (i : Z) (l : list Z) : Prop :=
  get_free_list m base i = default 0 (head l) ∧ links m 0 l 0 ∧ NoDup l ∧
  ∀ x, x ∈ l ↔ ∃ s, F x s ∧ get_bucket_idx s = i.

Definition linked (m : mem) F : Prop := ∀ i, 0 <= i < 4 → ∃ l, list_ok m F i l.

(** What list surgery leaves alone: the tags, the bounds, and the bytes outside
    the headers of the linked chunks. *)
Definition keeps F (m m' : mem) : Prop :=
  (∀ x, al x → heap_first <= x → get_size m' x = get_size m x) ∧
  get_start m' base = get_start m base ∧ get_end m' base = get_end m base ∧
  ∀ b, b < base ∨ heap_first <= b → (∀ x s, F x s → b < x ∨ x + 16 <= b) → ldb m' b = ldb m b.

Lemma keeps_refl F m : keeps F m m.
Proof. by repeat split. Qed.

Lemma keeps_trans F m1 m2 m3 : keeps F m1 m2 → keeps F m2 m3 → keeps F m1 m3.
Proof.
  intros (A1 & B1 & C1 & D1) (A2 & B2 & C2 & D2). split; [|split; [|split]].
  - intros. rewrite A2, A1; done.
  - congruence.
  - congruence.
  - intros. rewrite D2, D1; done.
Qed.

(** A write to a link of a node in the heap, or to the head of a list. *)
Lemma keeps_set_next F m x s v : F x s → al x → heap_first <= x → keeps F m (set_next m x v).
Proof.
  intros HF Hx Hs. unfold heap_first in *. split; [|split; [|split]].
  - intros y Hy Hy'. words. done.
  - words. done.
  - words. done.
  - intros b Hb Ho. apply Ho in HF. unfold set_next. by rewrite ldb_store32_ne by lia.
Qed.

Lemma keeps_set_prev F m x s v : F x s → al x → heap_first <= x → keeps F m (set_prev m x v).
Proof.
  intros HF Hx Hs. unfold heap_first in *. split; [|split; [|split]].
  - intros y Hy Hy'. words. done.
  - words. done.
  - words. done.
  - intros b Hb Ho. apply Ho in HF. unfold set_prev. by rewrite ldb_store32_ne by lia.
Qed.

Lemma keeps_set_free_list F m i v : 0 <= i < 4 → keeps F m (set_free_list m base i v).
Proof.
  intros Hi. unfold heap_first in *. split; [|split; [|split]].
  - intros y Hy Hy'. unfold heap_first in *. words. done.
  - words. done.
  - words. done.
  - intros b Hb Ho. unfold heap_first, set_free_list in *. by rewrite ldb_store32_ne by lia.
Qed.

Lemma linked_iff m F F' : (∀ x s, F x s ↔ F' x s) → linked m F → linked m F'.
Proof.
  intros HF H i Hi. destruct (H i Hi) as (l & A & B & C & D). exists l.
  split; [done|]. split; [done|]. split; [done|]. intros x. rewrite D.
  split; intros (s & Hs & ?); exists s; split; by try apply HF.
Qed.

(** A memory with the same links and heads has the same lists. *)
Lemma linked_frame m m' F : nodes_ok F → linked m F →
  (∀ i, 0 <= i < 4 → get_free_list m' base i = get_free_list m base i) →
  (∀ x, al x → heap_first <= x → get_next m' x = get_next m x ∧ get_prev m' x = get_prev m x) →
  linked m' F.
Proof.
  intros HF H Hh Hn i Hi. destruct (H i Hi) as (l & A & B & C & D). exists l.
  split; [by rewrite Hh|]. split; [|done]. apply (links_frame m); [done|].
  intros x Hx. apply D in Hx as (s & Hs & _). destruct (HF _ _ Hs) as [(? & ? & ? & ?) _]. by apply Hn.
Qed.

Lemma linked_set_size m F h v : nodes_ok F → al h → heap_first <= h → linked m F →
  linked (set_size m h v) F.
Proof.
  intros HF Hh Hs H. apply (linked_frame m); [done|done| |].
  - intros i Hi. unfold heap_first in *. words. done.
  - intros x Hx Hx'. words. done.
Qed.

(** The memory after the first half of [freelist_unlink]. *)
Lemma unlink_forward m F i l1 h l2 : nodes_ok F → 0 <= i < 4 → get_bucket_idx (get_size m h) = i →
  list_ok m F i (l1 ++ h :: l2) →
  let m1 := if negb (get_prev m h =? 0) then set_next m (get_prev m h) (get_next m h)
            else set_free_list m base (get_bucket_idx (get_size m h)) (get_next m h) in
  keeps F m m1 ∧
  get_free_list m1 base i = default 0 (head (l1 ++ l2)) ∧ links m1 0 l1 (default 0 (head l2)) ∧
  links m1 h l2 0 ∧ get_prev m1 h = default 0 (last l1) ∧ get_next m1 h = default 0 (head l2) ∧
  (∀ j, 0 <= j < 4 → j ≠ i → get_free_list m1 base j = get_free_list m base j) ∧
  (∀ x, al x → heap_first <= x → x ∉ l1 → get_next m1 x = get_next m x ∧ get_prev m1 x = get_prev m x).
Proof.
  intros HF Hi Hb (Hhd & Hl & Hnd & Hmem) m1.
  assert (∀ x, x ∈ l1 ++ h :: l2 → ∃ s, F x s ∧ al x ∧ heap_first <= x) as Hn.
  { intros x Hx. apply Hmem in Hx as (s & Hs & _). exists s. split; [done|].
    destruct (HF _ _ Hs) as [(? & ? & ? & ?) _]. auto. }
  apply links_app in Hl as (Hl1 & Hp & Hnx & Hl2). cbn [head default] in Hl1.
  destruct (Hn h) as (sh & _ & Hah & Hsh); [set_solver|].
  pose proof (load32_range m (h + 4) : is_u32 (get_next m h)) as Hq.
  unfold m1. clear m1. rewrite Hb, Hp. unfold heap_first in *.
  destruct l1 as [|y l1 _] using rev_ind; cbn [last default app head] in *.
  - rewrite Z.eqb_refl. cbn [negb]. split; [apply keeps_set_free_list; lia|].
    assert (∀ x, al x → base + 32 <= x → get_next (set_free_list m base i (get_next m h)) x = get_next m x
      ∧ get_prev (set_free_list m base i (get_next m h)) x = get_prev m x) as Hfr.
    { intros x Hx Hx'. words. done. }
    split; [unfold get_free_list, set_free_list; rewrite load32_store32_eq, u32_id by done; done|].
    split; [done|]. split; [apply (links_frame m); [done|]; intros x Hx;
      destruct (Hn x) as (? & ? & ? & ?); [set_solver|]; by apply Hfr|].
    destruct (Hfr h) as [-> ->]; [done|done|]. split; [done|]. split; [done|].
    split; [|intros; by apply Hfr]. intros j Hj Hji. words. done.
  - rewrite last_snoc in *. cbn [default from_option id] in *.
    destruct (Hn y) as (sy & HFy & Hay & Hsy); [set_solver|].
    destruct (Z.eqb_spec y 0) as [->|Hy0]; [lia|]. cbn [negb].
    rewrite <- app_assoc in Hnd, Hn. cbn [app] in Hnd, Hn.
    assert (h ≠ y ∧ y ∉ l2 ∧ NoDup (l1 ++ [y])) as (Hhy & Hyl & Hnd1).
    { apply NoDup_app in Hnd as (N1 & N2 & N3). apply NoDup_cons in N3 as (N4 & N5).
      apply NoDup_cons in N5 as (N6 & N7). split; [set_solver|]. split; [set_solver|].
      apply NoDup_app. split; [done|]. split; [set_solver|]. apply NoDup_singleton. }
    split; [by apply (keeps_set_next F m y sy)|].
    split; [destruct l1; cbn [app head default] in *; words; done|].
    split; [rewrite <- Hnx; eapply links_set_next; [exact Hl1|done| |done];
      intros x Hx; destruct (Hn x) as (? & ? & ? & ?); [set_solver|done]|].
    split; [apply (links_frame m); [done|]; intros x Hx; assert (x ≠ y) by set_solver;
      destruct (Hn x) as (? & ? & ? & ?); [set_solver|]; words; done|].
    split; [words; done|]. split; [words; done|]. split; [intros j Hj Hji; words; done|].
    intros x Hx Hx' Hxy. assert (x ≠ y) by set_solver. words. done.
Qed.

(** Giving the first node of a list a new predecessor. *)
Lemma set_head_prev m F l p p' : NoDup l → (∀ x, x ∈ l → ∃ t, F x t ∧ al x ∧ heap_first <= x) →
  links m p l 0 → is_u32 p' →
  let z := default 0 (head l) in
  let m' := if negb (z =? 0) then set_prev m z p' else m in
  keeps F m m' ∧ links m' p' l 0 ∧
  (∀ j, 0 <= j < 4 → get_free_list m' base j = get_free_list m base j) ∧
  (∀ x, al x → heap_first <= x → x ∉ l → get_next m' x = get_next m x ∧ get_prev m' x = get_prev m x).
Proof.
  intros Hnd Hn L Hu. destruct l as [|z l]; cbn [head default from_option id].
  { rewrite Z.eqb_refl. cbn [negb]. split; [apply keeps_refl|]. by split. }
  destruct (Hn z) as (t & Ht & Haz & Hsz); [set_solver|]. unfold heap_first in *.
  destruct (Z.eqb_spec z 0) as [->|_]; [lia|]. cbn [negb].
  split; [by apply (keeps_set_prev F m z t)|]. split; [|split].
  - eapply links_set_prev; [exact L|done| |done].
    intros x Hx. destruct (Hn x) as (? & ? & ? & ?); [set_solver|done].
  - intros j Hj. words. done.
  - intros x Hx Hx' Hxz. assert (x ≠ z) by set_solver. words. done.
Qed.

Lemma freelist_unlink_ok m F h s : nodes_ok F → linked m F → F h s →
  get_bucket_idx (get_size m h) = get_bucket_idx s →
  linked (freelist_unlink m base h) (λ x t, F x t ∧ x ≠ h) ∧ keeps F m (freelist_unlink m base h).
Proof.
  intros HF Hlk Hh Hb. destruct (HF _ _ Hh) as [(Hah & Hs0 & Hh1 & Hh2) Hfun].
  pose proof (get_bucket_idx_range s Hs0) as Hi. set (i := get_bucket_idx s) in *.
  destruct (Hlk i Hi) as (l & Hl). pose proof Hl as (_ & _ & Hnd & Hmem).
  assert (h ∈ l) as Hin by (apply Hmem; eauto).
  apply list_elem_of_split in Hin as (l1 & l2 & ->).
  assert (∀ x, x ∈ l1 ++ h :: l2 → ∃ t, F x t ∧ al x ∧ heap_first <= x ∧ get_bucket_idx t = i) as Hn.
  { intros x Hx. apply Hmem in Hx as (t & Ht & ?). exists t.
    destruct (HF _ _ Ht) as [(? & ? & ? & ?) _]. auto. }
  pose proof Hnd as (N1 & N2 & N3)%NoDup_app. apply NoDup_cons in N3 as [N3 N4].
  destruct (unlink_forward m F i l1 h l2 HF Hi Hb Hl) as (K & Hhd & L1 & L2 & Hp & Hnx & Hoth & Hfr).
  unfold freelist_unlink. cbv zeta in *.
  set (m1 := if negb (get_prev m h =? 0) then _ else _) in *. rewrite Hp, Hnx.
  destruct (set_head_prev m1 F l2 h (default 0 (last l1))) as (K2 & L2' & Hhd2 & Hfr2); [done| |done| |].
  { intros x Hx. destruct (Hn x) as (t & ? & ? & ? & _); [set_solver|]. eauto. }
  { rewrite <- Hp. apply load32_range. }
  cbv zeta in *. set (m2 := if negb (default 0 (head l2) =? 0) then _ else _) in *.
  assert (links m2 0 (l1 ++ l2) 0) as LL.
  { apply links_app. split; [|done]. apply (links_frame m1); [done|]. intros x Hx.
    destruct (Hn x) as (? & ? & ? & ? & ?); [set_solver|]. apply Hfr2; [done|done|set_solver]. }
  split; [|by eapply keeps_trans].
  intros j Hj. destruct (decide (j = i)) as [->|Hji].
  - exists (l1 ++ l2). split; [by rewrite Hhd2|]. split; [done|]. split.
    { apply NoDup_app. split; [done|]. split; [set_solver|done]. }
    intros x. split.
    + intros Hx. destruct (Hn x) as (t & Ht & _ & _ & Hbt); [set_solver|]. exists t.
      split; [|done]. split; [done|]. set_solver.
    + intros (t & [Ht Hxh] & Hbt). assert (x ∈ l1 ++ h :: l2) by (apply Hmem; eauto). set_solver.
  - destruct (Hlk j Hj) as (l & A & B & C & D). exists l.
    assert (∀ x, x ∈ l → x ∉ l1 ++ h :: l2) as Hdis.
    { intros x Hx Hx'. apply D in Hx as (t & Ht & Hbt). destruct (Hn x Hx') as (t' & Ht' & _ & _ & Hbt').
      destruct (HF _ _ Ht) as [_ Hf]. rewrite (Hf _ Ht') in Hbt'. congruence. }
    split; [by rewrite Hhd2, Hoth|]. split.
    + apply (links_frame m); [done|]. intros x Hx. pose proof (Hdis x Hx).
      apply D in Hx as (t & Ht & _). destruct (HF _ _ Ht) as [(? & ? & ? & ?) _].
      destruct (Hfr2 x) as [-> ->]; [done|done|set_solver|]. apply Hfr; [done|done|set_solver].
    + split; [done|]. intros x. rewrite D. split; [|intros (t & [? _] & ?); eauto].
      intros (t & Ht & Hbt). exists t. split; [|done]. split; [done|]. intros ->.
      rewrite (Hfun _ Ht) in Hbt. done.
Qed.

Lemma freelist_link_ok m F h s : nodes_ok (λ x t, F x t ∨ (x = h ∧ t = s)) → linked m F →
  (∀ t, ¬ F h t) → get_bucket_idx (get_size m h) = get_bucket_idx s →
  linked (freelist_link m base h) (λ x t, F x t ∨ (x = h ∧ t = s)) ∧
  keeps (λ x t, F x t ∨ (x = h ∧ t = s)) m (freelist_link m base h).
Proof.
  intros HF Hlk Hh Hb. set (F' := λ x t, _) in *. assert (F' h s) as Fh by (unfold F'; auto).
  destruct (HF _ _ Fh) as [(Hah & Hs0 & Hh1 & Hh2) _]. unfold freelist_link. rewrite Hb.
  pose proof (get_bucket_idx_range s Hs0) as Hi. set (i := get_bucket_idx s) in *.
  destruct (Hlk i Hi) as (l & Hhd & Hl & Hnd & Hmem).
  assert (∀ j k x, list_ok m F j k → x ∈ k → ∃ t, F' x t ∧ al x ∧ heap_first <= x ∧ x ≠ h ∧
    F x t ∧ get_bucket_idx t = j) as Hn.
  { intros j k x (_ & _ & _ & D) Hx. apply D in Hx as (t & Ht & ?). exists t.
    destruct (HF x t) as [(? & ? & ? & ?) _]; [unfold F'; auto|]. repeat split; [by left|done|done| |done|done].
    intros ->. by apply (Hh t). }
  assert (list_ok m F i l) as Hok by done.
  set (m2 := set_next (set_prev m h 0) h _).
  assert (get_next m2 h = default 0 (head l)) as Hnx.
  { unfold m2, get_next, set_next. rewrite load32_store32_eq, <- Hhd, u32_id by apply load32_range.
    unfold heap_first in *. words. done. }
  assert (get_prev m2 h = 0) as Hpv by (unfold m2; words; done).
  assert (keeps F' m m2) as K2.
  { eapply keeps_trans; [by eapply (keeps_set_prev F' m h s)|by eapply (keeps_set_next F' _ h s)]. }
  assert (∀ x, al x → heap_first <= x → x ≠ h → get_next m2 x = get_next m x ∧ get_prev m2 x = get_prev m x)
    as Hfr2 by (intros x ? ? ?; unfold m2; words; done).
  assert (∀ j, 0 <= j < 4 → get_free_list m2 base j = get_free_list m base j) as Hhd2
    by (intros j ?; unfold heap_first in *; unfold m2; words; done).
  assert (links m2 0 l 0) as L2.
  { apply (links_frame m); [done|]. intros x Hx. destruct (Hn i l x Hok Hx) as (? & ? & ? & ? & ? & ?).
    by apply Hfr2. }
  rewrite Hnx. clearbody m2.
  destruct (set_head_prev m2 F' l 0 h) as (K3 & L3 & Hhd3 & Hfr3); [done| |done| |].
  { intros x Hx. destruct (Hn i l x Hok Hx) as (t & ? & ? & ? & _). eauto. }
  { unfold is_u32, heap_first in *. lia. }
  cbv zeta in *. set (m3 := if negb _ then _ else _) in *.
  split; [|eapply keeps_trans; [exact K2|]; eapply keeps_trans; [exact K3|by apply keeps_set_free_list]].
  assert (h ∉ l) as Hhl by (intros Hx; by destruct (Hn i l h Hok Hx) as (? & ? & ? & ? & ? & ?)).
  destruct (Hfr3 h) as [Hnx3 Hpv3]; [done|done|done|]. clearbody m3.
  assert (∀ x, al x → heap_first <= x → get_next (set_free_list m3 base i h) x = get_next m3 x ∧
    get_prev (set_free_list m3 base i h) x = get_prev m3 x) as Hfr4
    by (intros x ? ?; unfold heap_first in *; words; done).
  intros j Hj. destruct (decide (j = i)) as [->|Hji].
  - exists (h :: l). split; [cbn [head default from_option id]; unfold heap_first in *; words;
      apply u32_id; unfold is_u32; lia|].
    split; [cbn [links]; destruct (Hfr4 h) as [-> ->]; [done|done|]; rewrite Hnx3, Hpv3|].
    + split; [done|]. split; [done|]. apply (links_frame m3); [done|]. intros x Hx.
      destruct (Hn i l x Hok Hx) as (? & ? & ? & ? & ?). by apply Hfr4.
    + split; [by apply NoDup_cons|]. intros x. rewrite elem_of_cons, Hmem. unfold F'. split.
      * intros [->|(t & Ht & Hbt)]; [exists s|exists t]; auto.
      * intros (t & [Ht|[-> ->]] & Hbt); eauto.
  - destruct (Hlk j Hj) as (k & Hk). pose proof Hk as (A & B & C & D). exists k.
    split; [unfold heap_first in *; unfold get_free_list, set_free_list in *;
      rewrite load32_store32_ne, Hhd3, Hhd2 by lia; done|].
    split; [apply (links_frame m); [done|]; intros x Hx|split; [done|]].
    + destruct (Hn j k x Hk Hx) as (t & ? & ? & ? & ? & Ft & ?).
      destruct (Hfr4 x) as [-> ->]; [done|done|]. destruct (Hfr3 x) as [-> ->]; [done|done| |by apply Hfr2].
      intros Hxl. destruct (Hn i l x Hok Hxl) as (t' & ? & ? & ? & ? & Ft' & ?).
      destruct (HF x t) as [_ Hf]; [by left|]. assert (t' = t) by (apply Hf; by left). congruence.
    + intros x. rewrite D. unfold F'. split; [intros (t & Ht & Hbt); eauto|].
      intros (t & [Ht|[-> ->]] & Hbt); [eauto|by subst i j].
Qed.

(** ** The state of a heap

    [heap_at m cs F]: the chunks [cs] tile the heap and [F] hang in the lists. *)
Record heap_at (m : mem) (cs : chunks) F : Prop := HeapAt {
  at_tiled : tiled m heap_first cs;
  at_span : heap_first + span cs = e;
  at_start : get_start m base = heap_first;
  at_end : get_end m base = e;
  at_linked : linked m F;
}.

(** The free chunks around the chunk of size [s] after [l]. *)
Definition around (l : chunks) (s : Z) (r : chunks) (x t : Z) : Prop :=
  is_free heap_first l x t ∨ is_free (heap_first + span l + 32 + s) r x t.

Lemma al_first : al heap_first.
Proof. unfold heap_first. align. Qed.

Lemma nodes_ok_sub F F' : (∀ x t, F' x t → F x t) → nodes_ok F → nodes_ok F'.
Proof. intros H HF x s Hx. destruct (HF x s) as [? Hf]; auto. Qed.

Lemma nodes_ok_is_free m cs : tiled m heap_first cs → heap_first + span cs = e →
  nodes_ok (is_free heap_first cs).
Proof.
  intros Ht Hsp x s Hx. pose proof al_first.
  destruct (is_free_bounds _ _ _ _ _ Ht Hx) as (? & ? & ? & ? & ?); [done|].
  split; [repeat split; try done; lia|]. intros s' Hx'. by eapply is_free_fun.
Qed.

Lemma around_is_free l s f r x t : around l s r x t → is_free heap_first (l ++ (s, f) :: r) x t.
Proof. unfold around. rewrite is_free_app. cbn [is_free]. tauto. Qed.

Lemma around_not_mid m l s f r t : tiled m heap_first (l ++ (s, f) :: r) →
  ¬ around l s r (heap_first + span l) t.
Proof.
  intros Ht. apply tiled_app in Ht as (Hl & Hs & _ & _ & Hr). pose proof al_first.
  pose proof (tiled_span _ _ _ Hl). intros [Hx|Hx].
  - apply (is_free_bounds m) in Hx; [|done|done]. lia.
  - apply (is_free_bounds m) in Hx; [lia|done|align].
Qed.

(** The bytes in use lie outside a free chunk. *)
Lemma in_use_mid m l s r b : 0 <= s → tiled m heap_first l → tiled m (heap_first + span l + 32 + s) r →
  in_use heap_first (l ++ (s, true) :: r) b →
  heap_first <= b ∧ (b < heap_first + span l ∨ heap_first + span l + 32 + s <= b).
Proof.
  intros Hs Hl Hr Hu. apply in_use_app in Hu as [Hu|[[? _]|Hu]]; [|done|].
  - apply (in_use_bounds m) in Hu; [lia|done].
  - apply (in_use_bounds m) in Hu; [|done]. pose proof (tiled_span _ _ _ Hl). lia.
Qed.

(** What an operation leaves alone: the bytes in use, and all the bytes outside
    the heap. *)
Definition kept (cs : chunks) (b : Z) : Prop := in_use heap_first cs b ∨ b < base ∨ e <= b.

Lemma kept_mid m l s r b : 0 <= s → tiled m heap_first l → tiled m (heap_first + span l + 32 + s) r →
  heap_first + span l + 32 + s + span r = e → kept (l ++ (s, true) :: r) b →
  (b < base ∨ heap_first <= b) ∧ (b < heap_first + span l ∨ heap_first + span l + 32 + s <= b).
Proof.
  intros Hs Hl Hr Hsp [Hu|Hb].
  - destruct (in_use_mid m l s r b Hs Hl Hr Hu). lia.
  - pose proof (tiled_span _ _ _ Hl). pose proof (tiled_span _ _ _ Hr). unfold heap_first in *. lia.
Qed.

Lemma kept_iff cs cs' b : (in_use heap_first cs b ↔ in_use heap_first cs' b) → kept cs b ↔ kept cs' b.
Proof. unfold kept. tauto. Qed.

Lemma keeps_kept F m m' cs : tiled m heap_first cs → heap_first + span cs = e → keeps F m m' →
  (∀ x t, F x t → is_free heap_first cs x t) → ∀ b, kept cs b → ldb m' b = ldb m b.
Proof.
  intros Ht Hsp (_ & _ & _ & K) HF b [Hu|Hb].
  - pose proof (in_use_bounds _ _ _ _ Ht Hu).
    apply K; [lia|]. intros x t Hx. eapply in_use_not_free; [done|apply al_first|done|by apply HF].
  - pose proof (tiled_span _ _ _ Ht). apply K; [lia|]. intros x t Hx%HF.
    destruct (is_free_bounds _ _ _ _ _ Ht Hx al_first) as (? & ? & ? & ? & ?). unfold heap_first in *. lia.
Qed.

Lemma heap_at_keeps m m' cs F F' : heap_at m cs F → keeps F m m' → linked m' F' → heap_at m' cs F'.
Proof.
  intros [H1 H2 H3 H4 _] (K1 & K2 & K3 & _) Hl. split; [|done|congruence|congruence|done].
  eapply tiled_frame; [done|apply al_first|]. intros. apply K1; [done|lia].
Qed.

Lemma heap_at_unlink m cs F h s : heap_at m cs F → nodes_ok F → F h s → s + 1 < 2 ^ 32 → al s →
  get_size m h = tag s true →
  heap_at (freelist_unlink m base h) cs (λ x t, F x t ∧ x ≠ h) ∧ keeps F m (freelist_unlink m base h).
Proof.
  intros H HF Hh Hs Ha Hg. destruct (HF _ _ Hh) as [? _].
  destruct (freelist_unlink_ok m F h s) as [Hl K]; [done|apply H|done| |].
  { rewrite Hg. apply get_bucket_idx_tag; (done || lia). }
  split; [by eapply heap_at_keeps|done].
Qed.

(** Writing the tags of the chunk between [l] and [r]. *)
Lemma heap_at_retag m l s f r F : (0 <= s ∧ al s) → tiled m heap_first l →
  let h := heap_first + span l in
  tiled m (h + 32 + s) r → h + 32 + s + span r = e →
  get_start m base = heap_first → get_end m base = e → linked m F → nodes_ok F →
  let m' := set_size (set_size m h (tag s f)) (h + 16 + s) (tag s f) in
  heap_at m' (l ++ (s, f) :: r) F ∧ (∀ b, b < h ∨ h + 32 + s <= b → ldb m' b = ldb m b) ∧
  ∀ x, al x → heap_first <= x → x ≠ h → x ≠ h + 16 + s → get_size m' x = get_size m x.
Proof.
  intros Hs Hl h Hr Hsp Hst Hen Hlk HF m'. pose proof al_first.
  pose proof (tiled_span _ _ _ Hl). pose proof (tiled_span _ _ _ Hr).
  assert (al h) by (unfold h; align). assert (heap_first <= h) by (unfold h; lia). split; [split|split].
  - apply retag; [done|done|done|unfold heap_first in *; lia|done].
  - rewrite span_app. cbn [span]. unfold h in *; lia.
  - unfold m', heap_first in *. words. done.
  - unfold m', heap_first in *. words. done.
  - apply linked_set_size; [done|align|lia|]. by apply linked_set_size.
  - intros b Hb. unfold m', set_size. rewrite !ldb_store32_ne by lia. done.
  - intros x Hx Hx' ? ?. unfold m'. words. done.
Qed.

(** ** Freeing *)

Definition merge_back (l : chunks) (s : Z) : chunks * Z :=
  match last l with Some (s0, true) => (removelast l, s0 + 32 + s) | _ => (l, s) end.
Definition merge_next (s : Z) (r : chunks) : Z * chunks :=
  match r with (s1, true) :: r' => (s + 32 + s1, r') | _ => (s, r) end.
Definition coalesce (l : chunks) (s : Z) (r : chunks) : chunks :=
  let '(l, s) := merge_back l s in
  let '(s, r) := merge_next s r in
  l ++ (s, true) :: r.

Lemma merge_back_kept l s r b : let '(l2, s2) := merge_back l s in
  kept (l2 ++ (s2, true) :: r) b ↔ kept (l ++ (s, true) :: r) b.
Proof.
  unfold merge_back. destruct l as [|[s0 f0] l _] using rev_ind; [done|].
  rewrite last_snoc. destruct f0; [|done]. apply kept_iff.
  rewrite removelast_last, <- app_assoc. cbn [app]. rewrite !in_use_app.
  cbn [in_use app]. replace (heap_first + span l + 32 + (s0 + 32 + s))
    with (heap_first + span l + 32 + s0 + 32 + s) by lia. intuition congruence.
Qed.

Lemma merge_next_kept l s r b : let '(s2, r2) := merge_next s r in
  kept (l ++ (s2, true) :: r2) b ↔ kept (l ++ (s, true) :: r) b.
Proof.
  unfold merge_next. destruct r as [|[s1 []] r]; [done| |done]. apply kept_iff. rewrite !in_use_app. cbn [in_use].
  replace (heap_first + span l + 32 + (s + 32 + s1))
    with (heap_first + span l + 32 + s + 32 + s1) by lia. intuition congruence.
Qed.

(** The size that a merge writes. *)
Lemma merged_size s f t g : 0 <= s → 0 <= t → al s → al t → s + t + 33 < 2 ^ 32 →
  u32 (tag s f + CHUNK_SIZE (tag t g) + sizeof_HEADER + sizeof_FOOTER) = tag (s + 32 + t) f.
Proof.
  intros. rewrite CHUNK_SIZE_tag by (done || lia). unfold tag, sizeof_HEADER, sizeof_FOOTER.
  rewrite u32_id by (unfold is_u32; destruct f; cbn [Z.b2z]; lia). lia.
Qed.

Lemma heap_at_mid m l s f r F : heap_at m (l ++ (s, f) :: r) F →
  let h := heap_first + span l in
  tiled m heap_first l ∧ tiled m (h + 32 + s) r ∧ get_size m h = tag s f ∧
  get_size m (h + 16 + s) = tag s f ∧ al h ∧ heap_first <= h ∧ (0 <= s ∧ al s) ∧ 0 <= span r ∧
  h + 32 + s + span r = e ∧ 0 <= heap_first.
Proof.
  intros [Ht Hsp _ _ _] h. apply tiled_app in Ht as (Hl & Hs & H1 & H2 & Hr). fold h in H1, H2, Hr.
  pose proof (tiled_span _ _ _ Hl). pose proof (tiled_span _ _ _ Hr). pose proof al_first.
  rewrite span_app in Hsp. cbn [span] in Hsp. unfold h in *. repeat split; try done; try align.
  unfold heap_first. lia.
Qed.

Lemma nodes_ok_around m l s f r F : heap_at m (l ++ (s, f) :: r) F → nodes_ok (around l s r).
Proof.
  intros H. apply (nodes_ok_sub (is_free heap_first (l ++ (s, f) :: r))).
  - intros x t. apply around_is_free.
  - eapply nodes_ok_is_free; apply H.
Qed.

(** Where the neighbours of a chunk are. *)
Section addresses.
Context (m : mem) (s : Z) (f : bool) (Hs : 0 <= s ∧ al s).

Lemma prev_footer_eq h : 16 <= h < 2 ^ 32 → get_prev_footer h = h - 16.
Proof. intros. apply u32_id. unfold is_u32, sizeof_FOOTER. lia. Qed.

Lemma header_from_ptr_eq h : 0 <= h < 2 ^ 32 → get_header_from_ptr (h + 16) = h.
Proof. intros. unfold get_header_from_ptr, sizeof_HEADER. rewrite u32_id; [lia|unfold is_u32; lia]. Qed.

Lemma footer_from_header_eq h : get_size m h = tag s f → 0 <= h → h + 16 + s < 2 ^ 32 →
  get_footer_from_header m h = h + 16 + s.
Proof.
  intros Hg. intros. unfold get_footer_from_header. rewrite Hg, CHUNK_SIZE_tag by (lia || apply Hs).
  apply u32_id. unfold is_u32, sizeof_HEADER. lia.
Qed.

Lemma header_from_footer_eq h : get_size m (h + 16 + s) = tag s f → 0 <= h → h + 16 + s < 2 ^ 32 →
  get_header_from_footer m (h + 16 + s) = h.
Proof.
  intros Hg. intros. unfold get_header_from_footer. rewrite Hg, CHUNK_SIZE_tag by (lia || apply Hs).
  unfold sizeof_HEADER. rewrite u32_id; [lia|unfold is_u32; lia].
Qed.

Lemma next_chunk_eq h : get_size m h = tag s f → 0 <= h → h + 32 + s < 2 ^ 32 →
  get_next_chunk m h = h + 32 + s.
Proof.
  intros Hg. intros. unfold get_next_chunk. rewrite Hg, CHUNK_SIZE_tag by (lia || apply Hs).
  unfold sizeof_HEADER, sizeof_FOOTER. rewrite u32_id; [lia|unfold is_u32; lia].
Qed.
End addresses.

(** Joining two adjacent chunks, of which neither hangs in a list any more. *)
Definition join (m : mem) (h h' ftr : Z) : mem :=
  let m := set_size m h (u32 (get_size m h + CHUNK_SIZE (get_size m h') + sizeof_HEADER + sizeof_FOOTER)) in
  set_size m ftr (get_size m h).

Lemma join_ok m l s f t g r F : heap_at m (l ++ (s, f) :: (t, g) :: r) F → nodes_ok F →
  let h := heap_first + span l in
  let m' := join m h (h + 32 + s) (h + 32 + s + 16 + t) in
  heap_at m' (l ++ (s + 32 + t, f) :: r) F ∧
  ∀ b, b < h ∨ h + 32 + s + 32 + t <= b → ldb m' b = ldb m b.
Proof.
  intros H HF h m'.
  pose proof (heap_at_mid _ _ _ _ _ _ H) as (Tl & Tr & G1 & _ & Ah & Hh & [Hs As] & Hr & Hsum & H0).
  fold h in Tr, G1, Ah, Hh, Hsum. cbn [tiled span] in *. destruct Tr as ([Ht At] & G2 & _ & Tr).
  pose proof (tiled_span _ _ _ Tr). unfold m', join. rewrite G1, G2, merged_size by (done || lia).
  assert (get_size (set_size m h (tag (s + 32 + t) f)) h = tag (s + 32 + t) f) as ->.
  { unfold get_size, set_size. rewrite load32_store32_eq. apply u32_id, tag_range; lia. }
  replace (h + 32 + s + 16 + t) with (h + 16 + (s + 32 + t)) by lia.
  destruct (heap_at_retag m l (s + 32 + t) f r F) as (HR & HB & _); fold h; try done; try apply H; try align.
  - by replace (h + 32 + (s + 32 + t)) with (h + 32 + s + 32 + t) by lia.
  - fold h in HR, HB. split; [done|]. intros b Hb. apply HB. lia.
Qed.

Lemma reverse_merge_ok m l s r : heap_at m (l ++ (s, true) :: r) (around l s r) →
  let '(l2, s2) := merge_back l s in
  ∃ m2, reverse_merge m base (heap_first + span l) (heap_first + span l + 16 + s) =
    (m2, heap_first + span l2) ∧
  heap_at m2 (l2 ++ (s2, true) :: r) (around l2 s2 r) ∧
  ∀ b, kept (l ++ (s, true) :: r) b → ldb m2 b = ldb m b.
Proof.
  intros H. pose proof (merge_back_kept l s r) as HU. unfold merge_back, reverse_merge in *.
  pose proof (heap_at_mid _ _ _ _ _ _ H) as (Tl & Tr & G1 & _ & Ah & Hh & [Hs As] & Hr & Hsum & H0).
  rewrite (at_start _ _ _ H). destruct l as [|[s0 f0] l _] using rev_ind.
  { exists m. cbn [span last]. rewrite Z.add_0_r, Z.ltb_irrefl. done. }
  rewrite last_snoc, removelast_last, span_app in *. cbn [span] in *.
  pose proof (proj1 (tiled_app _ _ _ _) Tl) as (Tl' & [Hs0 As0] & G2 & G3 & _).
  pose proof (tiled_span _ _ _ Tl'). set (h0 := heap_first + span l) in *.
  assert (heap_first <= h0) by (unfold h0; lia).
  replace (heap_first + (span l + (32 + s0 + 0))) with (h0 + 32 + s0) in * by (unfold h0; lia).
  destruct (Z.ltb_spec heap_first (h0 + 32 + s0)) as [_|?]; [|lia].
  rewrite prev_footer_eq by lia. replace (h0 + 32 + s0 - 16) with (h0 + 16 + s0) by lia. rewrite G3.
  rewrite is_flagged_free_tag by (done || lia).
  destruct f0; [|exists m; rewrite span_app; cbn [span]; split; [f_equal; unfold h0; lia|done]].
  rewrite (header_from_footer_eq m s0 true (conj Hs0 As0) h0) by (done || lia).
  pose proof (nodes_ok_around _ _ _ _ _ _ H) as HF.
  destruct (heap_at_unlink m _ _ h0 s0 H HF) as [HU1 K]; [left; apply is_free_app; right; by left|lia|done|done|].
  rewrite <- app_assoc in HU1. cbn [app] in HU1.
  destruct (join_ok _ _ _ _ _ _ _ _ HU1) as [HJ HB].
  { eapply nodes_ok_sub; [|exact HF]. by intros x t [? _]. }
  fold h0 in HJ, HB. unfold join in HJ, HB. eexists. split; [done|]. split.
  - destruct HJ as [A1 A2 A3 A4 A5]. split; try done. eapply linked_iff; [|exact A5].
    intros x t. unfold around. rewrite is_free_app, span_app. cbn [is_free span]. fold h0.
    replace (heap_first + (span l + (32 + s0 + 0)) + 32 + s) with (h0 + 32 + s0 + 32 + s) by (unfold h0; lia).
    replace (h0 + 32 + (s0 + 32 + s)) with (h0 + 32 + s0 + 32 + s) by lia.
    pose proof (is_free_bounds m heap_first l x t Tl'). pose proof (is_free_bounds m _ r x t Tr).
    assert (al (h0 + 32 + s0 + 32 + s)) by align. pose proof al_first. unfold h0 in *. naive_solver lia.
  - intros b Hu. pose proof Hu as Hu2. apply HU, (kept_mid m) in Hu2; [fold h0 in Hu2|lia|done| |].
    + rewrite HB by lia. eapply keeps_kept; [apply H|apply H|exact K| |done]. intros x t. apply around_is_free.
    + fold h0. by replace (h0 + 32 + (s0 + 32 + s)) with (h0 + 32 + s0 + 32 + s) by lia.
    + fold h0. lia.
Qed.

Lemma forward_merge_ok m l s r : heap_at m (l ++ (s, true) :: r) (around l s r) →
  let '(s2, r2) := merge_next s r in
  heap_at (forward_merge m base (heap_first + span l)) (l ++ (s2, true) :: r2) (around l s2 r2) ∧
  ∀ b, kept (l ++ (s, true) :: r) b →
    ldb (forward_merge m base (heap_first + span l)) b = ldb m b.
Proof.
  intros H. pose proof (merge_next_kept l s r) as HU. unfold merge_next, forward_merge in *.
  pose proof (heap_at_mid _ _ _ _ _ _ H) as (Tl & Tr & G1 & _ & Ah & Hh & [Hs As] & Hr & Hsum & H0).
  set (h := heap_first + span l) in *. rewrite (at_end _ _ _ H).
  rewrite (next_chunk_eq m s true (conj Hs As) h) by (done || lia). destruct r as [|[t g] r].
  { cbn [span] in Hsum. destruct (Z.ltb_spec (h + 32 + s) e) as [?|_]; [lia|]. done. }
  cbn [tiled span] in *. destruct Tr as ([Ht At] & G2 & G3 & Tr). pose proof (tiled_span _ _ _ Tr).
  destruct (Z.ltb_spec (h + 32 + s) e) as [_|?]; [|lia]. cbn [andb].
  rewrite G2, is_flagged_free_tag by (done || lia). destruct g; [|done].
  rewrite (footer_from_header_eq m t true (conj Ht At)) by (done || lia).
  pose proof (nodes_ok_around _ _ _ _ _ _ H) as HF.
  destruct (heap_at_unlink m _ _ (h + 32 + s) t H HF) as [HU1 K]; [right; by left|lia|done|done|].
  destruct (join_ok _ _ _ _ _ _ _ _ HU1) as [HJ HB].
  { eapply nodes_ok_sub; [|exact HF]. by intros x u [? _]. }
  fold h in HJ, HB. unfold join in HJ, HB. split.
  - destruct HJ as [A1 A2 A3 A4 A5]. split; try done. eapply linked_iff; [|exact A5].
    intros x u. unfold around. cbn [is_free]. fold h.
    replace (h + 32 + (s + 32 + t)) with (h + 32 + s + 32 + t) by lia.
    pose proof (is_free_bounds m heap_first l x u Tl). pose proof (is_free_bounds m _ r x u Tr).
    assert (al (h + 32 + s + 32 + t)) by align. pose proof al_first. unfold h in *. naive_solver lia.
  - intros b Hu. pose proof Hu as Hu2. apply HU, (kept_mid m) in Hu2; [fold h in Hu2|lia|done| |].
    + rewrite HB by lia. eapply keeps_kept; [apply H|apply H|exact K| |done]. intros x u. apply around_is_free.
    + fold h. by replace (h + 32 + (s + 32 + t)) with (h + 32 + s + 32 + t) by lia.
    + fold h. lia.
Qed.

Lemma around_link l s r x t :
  (around l s r x t ∨ (x = heap_first + span l ∧ t = s)) ↔ is_free heap_first (l ++ (s, true) :: r) x t.
Proof. unfold around. rewrite is_free_app. cbn [is_free]. tauto. Qed.

Lemma freelist_link_heap m l s r : heap_at m (l ++ (s, true) :: r) (around l s r) →
  let m' := freelist_link m base (heap_first + span l) in
  heap_at m' (l ++ (s, true) :: r) (is_free heap_first (l ++ (s, true) :: r)) ∧
  ∀ b, kept (l ++ (s, true) :: r) b → ldb m' b = ldb m b.
Proof.
  intros H m'. pose proof (heap_at_mid _ _ _ _ _ _ H) as (_ & _ & G & _ & _ & _ & [Hs As] & _ & Hsum & H0).
  assert (nodes_ok (λ x t, around l s r x t ∨ (x = heap_first + span l ∧ t = s))) as HF.
  { eapply nodes_ok_sub; [intros x t Hx; exact (proj1 (around_link l s r x t) Hx)|].
    apply (nodes_ok_is_free m); apply H. }
  destruct (freelist_link_ok m (around l s r) (heap_first + span l) s) as [HL K]; [done|apply H| | |].
  - intros t. eapply around_not_mid, H.
  - rewrite G. apply get_bucket_idx_tag. done.
  - fold m' in HL, K. split.
    + destruct H as [A1 A2 A3 A4 A5], K as (K1 & K2 & K3 & _). split; [|done|congruence|congruence|].
      * eapply tiled_frame; [exact A1|apply al_first|]. intros. apply K1; [done|lia].
      * eapply linked_iff; [|exact HL]. intros x t. apply around_link.
    + eapply keeps_kept; [apply H|apply H|exact K|]. intros x t. apply around_link.
Qed.

(** The free chunks of a heap where the chunk after [l] is in use. *)
Lemma around_false l s r x t : is_free heap_first (l ++ (s, false) :: r) x t ↔ around l s r x t.
Proof. unfold around. rewrite is_free_app. cbn [is_free]. intuition congruence. Qed.

Lemma coalesce_kept l s r b : kept (coalesce l s r) b ↔ kept (l ++ (s, true) :: r) b.
Proof.
  unfold coalesce. pose proof (merge_back_kept l s r b) as H1. destruct (merge_back l s) as [l2 s2].
  pose proof (merge_next_kept l2 s2 r b) as H2. destruct (merge_next s2 r) as [s3 r3]. by rewrite H2, H1.
Qed.

Lemma heap_free_ok m l s r :
  heap_at m (l ++ (s, false) :: r) (is_free heap_first (l ++ (s, false) :: r)) →
  let m' := heap_free m base (heap_first + span l + 16) in
  heap_at m' (coalesce l s r) (is_free heap_first (coalesce l s r)) ∧
  ∀ b, kept (coalesce l s r) b → ldb m' b = ldb m b.
Proof.
  intros H m'. unfold m', heap_free. clear m'.
  pose proof (heap_at_mid _ _ _ _ _ _ H) as (Tl & Tr & G & _ & Ah & Hh & [Hs As] & Hr & Hsum & H0).
  set (h := heap_first + span l) in *. rewrite header_from_ptr_eq by lia.
  rewrite (footer_from_header_eq m s false (conj Hs As)) by (done || lia).
  rewrite G, tag_set_free by done.
  assert (get_size (set_size m h (tag s true)) h = tag s true) as ->.
  { unfold get_size, set_size. rewrite load32_store32_eq. apply u32_id, tag_range; lia. }
  destruct (heap_at_retag m l s true r (around l s r)) as (HR & HB & _); fold h; try done; try apply H.
  { eapply linked_iff; [|apply H]. intros x t. apply around_false. }
  { eapply nodes_ok_around, H. }
  fold h in HR, HB. set (m1 := set_size (set_size m h _) _ _) in *.
  assert (∀ b, kept (l ++ (s, true) :: r) b → ldb m1 b = ldb m b) as HB1.
  { intros b Hb. apply HB. apply (kept_mid m) in Hb; [fold h in Hb; lia|lia|done|done|fold h; lia]. }
  unfold coalesce in *. pose proof (reverse_merge_ok m1 l s r HR) as HM.
  pose proof (merge_back_kept l s r) as HU2. destruct (merge_back l s) as [l2 s2].
  destruct HM as (m2 & E & HM & HB2). fold h in E. rewrite E.
  pose proof (forward_merge_ok m2 l2 s2 r HM) as HN. pose proof (merge_next_kept l2 s2 r) as HU3.
  destruct (merge_next s2 r) as [s3 r3]. destruct HN as [HN HB3].
  destruct (freelist_link_heap _ _ _ _ HN) as [HL HB4]. split; [done|].
  intros b Hb. rewrite HB4 by done. apply HU3 in Hb. rewrite HB3 by done.
  apply HU2 in Hb. by rewrite HB2, HB1.
Qed.

(** Freeing keeps free chunks apart. *)
Lemma coalesce_coalesced l s r : coalesced false (l ++ (s, false) :: r) → coalesced false (coalesce l s r).
Proof.
  rewrite coalesced_app. cbn [coalesced]. intros (Hl & _ & Hr). unfold coalesce.
  assert (let '(l2, s2) := merge_back l s in coalesced false l2 ∧ ends_free false l2 = false) as Hb.
  { unfold merge_back. destruct l as [|[s0 f0] l _] using rev_ind; [done|].
    rewrite last_snoc. apply coalesced_app in Hl as [Hl Hl']. cbn [coalesced] in Hl'. destruct f0.
    - rewrite removelast_last. split; [done|]. destruct (ends_free false l); tauto.
    - split; [apply coalesced_app; split; [done|cbn; tauto]|]. unfold ends_free. by rewrite last_snoc. }
  destruct (merge_back l s) as [l2 s2]. destruct Hb as [Hb He2].
  unfold merge_next. destruct r as [|[s1 []] r]; apply coalesced_app; (split; [done|]);
    rewrite He2; cbn [coalesced] in *; intuition congruence.
Qed.

(** ** Splitting *)

Definition split_result (l : chunks) (s size : Z) (r : chunks) : chunks :=
  if s - size <? 48 then l ++ (s, false) :: r else coalesce (l ++ [(size, false)]) (s - size - 32) r.

Lemma split_result_shape l s size r : size <= s →
  ∃ s' r', split_result l s size r = l ++ (s', false) :: r' ∧ size <= s'.
Proof.
  intros Hs. unfold split_result. destruct (Z.ltb_spec (s - size) 48); [eauto|].
  unfold coalesce, merge_back. rewrite last_snoc. destruct (merge_next _ r) as [k r'].
  rewrite <- app_assoc. cbn [app]. eexists _, _. split; [done|]. lia.
Qed.

Lemma split_result_coalesced l s f size r : coalesced false (l ++ (s, f) :: r) →
  coalesced false (split_result l s size r).
Proof.
  intros H. assert (∀ t, coalesced false (l ++ (t, false) :: r)) as H1.
  { intros t. apply coalesced_app in H as [Hl Hr]. apply coalesced_app. split; [done|].
    cbn [coalesced] in *. split; [intuition congruence|]. destruct r as [|[u []] r]; cbn [coalesced] in *; intuition congruence. }
  unfold split_result. destruct (s - size <? 48); [by apply H1|]. apply coalesce_coalesced.
  rewrite <- app_assoc. cbn [app]. pose proof (H1 0) as H2. rewrite coalesced_app in *. cbn [coalesced] in *. intuition congruence.
Qed.

(** The bytes that stay in use: those of the other chunks, and the first [size]
    of the chunk split. *)
Lemma split_in_use l s size r b : 48 <= s - size →
  in_use heap_first ((l ++ [(size, false)]) ++ (s - size - 32, true) :: r) b ↔
  in_use heap_first (l ++ (s, true) :: r) b ∨
  heap_first + span l + 16 <= b < heap_first + span l + 16 + size.
Proof.
  intros Hs. rewrite <- app_assoc. cbn [app]. rewrite !in_use_app. cbn [in_use].
  replace (heap_first + span l + 32 + size + 32 + (s - size - 32)) with (heap_first + span l + 32 + s) by lia.
  intuition congruence.
Qed.

Lemma split_kept l s size r b : size <= s →
  kept (l ++ (s, true) :: r) b ∨ heap_first + span l + 16 <= b < heap_first + span l + 16 + size →
  kept (split_result l s size r) b.
Proof.
  intros Hs Hb. unfold split_result. destruct (Z.ltb_spec (s - size) 48) as [Hrem|Hrem].
  - unfold kept in *. rewrite !in_use_app in *. cbn [in_use] in *.
    assert (heap_first + span l + 16 <= b < heap_first + span l + 16 + size →
      heap_first + span l + 16 <= b < heap_first + span l + 16 + s) by lia. intuition congruence.
  - apply coalesce_kept. unfold kept in *. rewrite split_in_use by done. tauto.
Qed.

Lemma set_size_pair m h s f k : 0 <= s → s + 1 < 2 ^ 32 →
  set_size (set_size m h (tag s f)) k (get_size (set_size m h (tag s f)) h) =
  set_size (set_size m h (tag s f)) k (tag s f).
Proof.
  intros. f_equal. unfold get_size, set_size. rewrite load32_store32_eq. apply u32_id, tag_range; lia.
Qed.

(** The state before the remainder of a split is freed. *)
Lemma split_tags m l s f size r : heap_at m (l ++ (s, f) :: r) (around l s r) →
  0 <= size → al size → 48 <= s - size →
  let h := heap_first + span l in
  let k := s - size - 32 in
  let m2 := set_size (set_size m h (tag size false)) (h + 16 + size) (tag size false) in
  let m4 := set_size (set_size m2 (h + 32 + size) (tag k false)) (h + 16 + s) (tag k false) in
  let l' := l ++ [(size, false)] in
  heap_at m4 (l' ++ (k, false) :: r) (is_free heap_first (l' ++ (k, false) :: r)) ∧
  ∀ b, kept (l' ++ (k, true) :: r) b → ldb m4 b = ldb m b.
Proof.
  intros H Hz Az Hrem h k m2 m4 l'.
  pose proof (heap_at_mid _ _ _ _ _ _ H) as (Tl & Tr & G & _ & Ah & Hh & [Hs As] & Hr & Hsum & H0).
  fold h in Tr, G, Ah, Hh, Hsum. pose proof al_first.
  assert (0 <= k ∧ al k) as Hk by (unfold k; align).
  assert (nodes_ok (around l s r)) as HF by (by eapply nodes_ok_around).
  assert (tiled m2 heap_first l') as T2 by (apply retag; (done || lia)).
  assert (∀ x, al x → h + 32 + s <= x → get_size m2 x = get_size m x) as F2.
  { intros x Hx Hx'. unfold m2. words. done. }
  assert (span l' = span l + 32 + size) as Sl by (unfold l'; rewrite span_app; cbn [span]; lia).
  assert (heap_first + span l' + 32 + k = h + 32 + s) as Sr by (unfold k, h; lia).
  assert (tiled m2 (heap_first + span l' + 32 + k) r) as T3.
  { rewrite Sr. apply (tiled_frame m); [done|align|]. intros x Hx Hx'. apply F2; [done|lia]. }
  destruct (heap_at_retag m2 l' k false r (around l s r)) as (HR & HB & _).
  - done.
  - done.
  - done.
  - rewrite Sl. unfold k, h in *. lia.
  - unfold m2, heap_first in *. words. apply H.
  - unfold m2, heap_first in *. words. apply H.
  - apply linked_set_size; [done|align|lia|]. apply linked_set_size; [done|align|lia|apply H].
  - done.
  - rewrite Sl in HR, HB. replace (heap_first + (span l + 32 + size)) with (h + 32 + size) in * by (unfold h; lia).
    replace (h + 32 + size + 16 + k) with (h + 16 + s) in * by (unfold k; lia). fold m4 in HR, HB. split.
    + destruct HR as [A1 A2 A3 A4 A5]. split; try done. eapply linked_iff; [|exact A5]. intros x t.
      rewrite around_false. unfold around, l'. rewrite is_free_app, span_app. cbn [is_free span].
      replace (heap_first + (span l + (32 + size + 0)) + 32 + k) with (heap_first + span l + 32 + s) by (unfold k; lia).
      intuition congruence.
    + intros b Hb. rewrite HB.
      * unfold m2, set_size. destruct Hb as [Hb|Hb]; [|rewrite !ldb_store32_ne by (pose proof (tiled_span _ _ _ Tr); unfold heap_first in *; lia); done].
        unfold l' in Hb. rewrite <- app_assoc in Hb. cbn [app] in Hb.
        apply in_use_app in Hb as [Hb|[[_ Hb]|[[? _]|Hb]]]; [|fold h in Hb|done|fold h in Hb].
        -- apply (in_use_bounds m) in Hb; [|done]. rewrite !ldb_store32_ne by (unfold h in *; lia). done.
        -- rewrite !ldb_store32_ne by lia. done.
        -- apply (in_use_bounds m) in Hb; [rewrite !ldb_store32_ne by lia; done|].
           by replace (h + 32 + size + 32 + k) with (h + 32 + s) by (unfold k; lia).
      * apply (kept_mid m2) in Hb; [rewrite Sl in Hb; unfold h in *; lia|lia|done|done|lia].
Qed.

Lemma chunk_split_ok m l s f size r : heap_at m (l ++ (s, f) :: r) (around l s r) →
  0 <= size <= s → al size →
  let m' := chunk_split m base (heap_first + span l) size in
  let cs := split_result l s size r in
  heap_at m' cs (is_free heap_first cs) ∧ ∀ b, kept cs b → ldb m' b = ldb m b.
Proof.
  intros H Hz Az m' cs.
  pose proof (heap_at_mid _ _ _ _ _ _ H) as (Tl & Tr & G & _ & Ah & Hh & [Hs As] & Hr & Hsum & H0).
  unfold m', cs, chunk_split, split_result. clear m' cs. set (h := heap_first + span l) in *.
  rewrite G, CHUNK_SIZE_tag by (done || lia). rewrite u32_id by (unfold is_u32; lia).
  change (sizeof_HEADER + sizeof_FOOTER + ALIGN_SIZE) with 48.
  destruct (Z.ltb_spec (s - size) 48) as [Hrem|Hrem].
  - rewrite (footer_from_header_eq m s f (conj Hs As)) by (done || lia).
    rewrite tag_clear_free, set_size_pair by (done || lia).
    destruct (heap_at_retag m l s false r (around l s r)) as (HR & HB & _); fold h; try done; try apply H.
    { by eapply nodes_ok_around. }
    fold h in HR, HB. split.
    + destruct HR as [A1 A2 A3 A4 A5]. split; try done. eapply linked_iff; [|exact A5].
      intros x t. by rewrite around_false.
    + intros b [Hb|Hb]; unfold set_size; [|by rewrite !ldb_store32_ne by (pose proof (tiled_span _ _ _ Tr); unfold heap_first in *; lia)].
      apply in_use_app in Hb as [Hb|[[_ Hb]|Hb]]; fold h in Hb.
      * apply (in_use_bounds m) in Hb; [|done]. fold h in Hb. by rewrite !ldb_store32_ne by lia.
      * by rewrite !ldb_store32_ne by lia.
      * apply (in_use_bounds m) in Hb; [|done]. by rewrite !ldb_store32_ne by lia.
  - destruct (split_tags m l s f size r H) as [HT HB]; [lia|done|done|]. fold h in HT, HB.
    assert (size = tag size false) as Et by (unfold tag; cbn; lia).
    assert (∀ v, get_size (set_size m h v) h = u32 v) as Gh.
    { intros v. unfold get_size, set_size. apply load32_store32_eq. }
    assert (get_size (set_size m h size) h = tag size false) as G2 by (rewrite Gh, u32_id; [done|unfold is_u32; lia]).
    rewrite (next_chunk_eq _ size false (conj (proj1 Hz) Az) h G2) by lia.
    rewrite (footer_from_header_eq _ size false (conj (proj1 Hz) Az) h G2) by lia.
    rewrite G2. replace (set_size m h size) with (set_size m h (tag size false)) by (by rewrite <- Et).
    change (sizeof_HEADER + sizeof_FOOTER) with 32. rewrite u32_id by (unfold is_u32; lia).
    set (m2 := set_size (set_size m h (tag size false)) _ _) in *. set (k := s - size - 32) in *.
    assert (0 <= k ∧ al k) as Hk by (unfold k; align).
    assert (k = tag k false) as Ek by (unfold tag; cbn; lia).
    assert (get_size (set_size m2 (h + 32 + size) k) (h + 32 + size) = tag k false) as G3.
    { unfold get_size, set_size. rewrite load32_store32_eq, u32_id; [done|unfold is_u32, k; lia]. }
    rewrite (footer_from_header_eq _ k false Hk (h + 32 + size) G3) by (unfold k; lia).
    rewrite G3. replace (set_size m2 (h + 32 + size) k) with (set_size m2 (h + 32 + size) (tag k false))
      by (by rewrite <- Ek).
    replace (h + 32 + size + 16 + k) with (h + 16 + s) by (unfold k; lia).
    change sizeof_HEADER with 16. rewrite u32_id by (unfold is_u32; lia).
    pose proof (heap_free_ok _ _ _ _ HT) as [HF HB2]. rewrite span_app in HF, HB2. cbn [span] in HF, HB2.
    replace (heap_first + (span l + (32 + size + 0)) + 16) with (h + 32 + size + 16) in * by (unfold h; lia).
    split; [done|]. intros b Hb. rewrite HB2 by done. apply HB. by apply coalesce_kept.
Qed.

(** ** Allocating *)

Definition heap_inv (m : mem) (cs : chunks) : Prop :=
  heap_at m cs (is_free heap_first cs) ∧ coalesced false cs.

(** The fuel of the list walk is enough. *)
Lemma free_list_length m cs F i l : heap_at m cs F → (∀ x s, F x s → is_free heap_first cs x s) →
  list_ok m F i l → (length l ≤ heap_fuel m base)%nat.
Proof.
  intros H HF (_ & _ & Hnd & Hmem). unfold heap_fuel. rewrite (at_start _ _ _ H), (at_end _ _ _ H).
  assert (length l ≤ length (addrs heap_first cs))%nat as Hle.
  { apply submseteq_length, NoDup_submseteq; [done|]. intros x Hx. apply Hmem in Hx as (s & Hs & _).
    eapply is_free_addrs, HF, Hs. }
  pose proof (addrs_length m heap_first cs (at_tiled _ _ _ H)). rewrite <- (at_span _ _ _ H).
  replace (heap_first + span cs - heap_first) with (span cs) by lia.
  assert (Z.of_nat (length (addrs heap_first cs)) <= span cs / 32) by (apply Z.div_le_lower_bound; lia). lia.
Qed.

Lemma find_fit_ok m p l size fuel : links m p l 0 → (∀ x, x ∈ l → x ≠ 0) → (length l ≤ fuel)%nat →
  ∃ x, find_fit fuel m (default 0 (head l)) size = Some x ∧
  ((x = 0 ∧ ∀ y, y ∈ l → CHUNK_SIZE (get_size m y) < size) ∨
   (x ∈ l ∧ size <= CHUNK_SIZE (get_size m x))).
Proof.
  revert p fuel. induction l as [|y l IH]; intros p fuel Hl Hnz Hf.
  { exists 0. split; [by destruct fuel|]. left. split; [done|]. intros y Hy. by apply elem_of_nil in Hy. }
  cbn [links head default from_option id length] in *. destruct Hl as (_ & Hn & Hl).
  destruct fuel as [|fuel]; [lia|]. cbn [find_fit].
  destruct (Z.eqb_spec y 0) as [->|_]; [exfalso; apply (Hnz 0); set_solver|].
  destruct (Z.leb_spec size (CHUNK_SIZE (get_size m y))) as [Hle|Hlt].
  { exists y. split; [done|]. right. split; [set_solver|done]. }
  rewrite Hn. destruct (IH y fuel) as (x & E & Hx); [done|set_solver|lia|]. exists x. split; [done|].
  destruct Hx as [(-> & Hx)|(Hx & ?)]; [left|right].
  - split; [done|]. intros z [->|Hz]%elem_of_cons; [done|by apply Hx].
  - split; [set_solver|done].
Qed.

Lemma malloc_scan_ok m cs size n i : heap_inv m cs → 0 <= i → i + Z.of_nat n = 4 →
  ∃ x, malloc_scan n m base i size = Some x ∧
  ((x = 0 ∧ ∀ y s, is_free heap_first cs y s → i <= get_bucket_idx s → s < size) ∨
   (x ≠ 0 ∧ ∃ s, is_free heap_first cs x s ∧ size <= s)).
Proof.
  intros [H Hc]. pose proof al_first as Hal.
  assert (∀ y s, is_free heap_first cs y s → 0 <= s ∧ y ≠ 0 ∧ CHUNK_SIZE (get_size m y) = s) as Hfree.
  { intros y s Hy. destruct (is_free_bounds _ _ _ _ _ (at_tiled _ _ _ H) Hy Hal) as (A1 & [A2 A3] & A4 & A5 & ->).
    rewrite (at_span _ _ _ H) in A5. unfold heap_first in *. split; [done|]. split; [lia|].
    apply CHUNK_SIZE_tag; (done || lia). }
  revert i. induction n as [|n IH]; intros i Hi Hin; cbn [malloc_scan].
  { exists 0. split; [done|]. left. split; [done|]. intros y s Hy Hb.
    destruct (Hfree y s Hy). pose proof (get_bucket_idx_range s). lia. }
  destruct (at_linked _ _ _ H i) as (l & Hl); [lia|]. pose proof Hl as (Hhd & Hlk & _ & Hmem).
  rewrite Hhd. destruct (find_fit_ok m 0 l size (heap_fuel m base)) as (x & -> & Hx); [done| | |].
  { intros y Hy. apply Hmem in Hy as (s & Hs & _). by destruct (Hfree y s Hs) as (_ & ? & _). }
  { by eapply free_list_length. }
  rewrite some_bind. destruct Hx as [(-> & Hx)|(Hx & Hsz)].
  - rewrite Z.eqb_refl. destruct (IH (i + 1)) as (z & -> & Hz); [lia|lia|]. exists z. split; [done|].
    destruct Hz as [(-> & Hz)|?]; [left|by right]. split; [done|]. intros y s Hy Hb.
    destruct (decide (get_bucket_idx s = i)) as [E|E]; [|eapply Hz; [done|lia]].
    destruct (Hfree y s Hy) as (_ & _ & <-). apply Hx, Hmem. eauto.
  - apply Hmem in Hx as (s & Hs & _). destruct (Hfree x s Hs) as (_ & Hnz & Es).
    destruct (Z.eqb_spec x 0); [done|]. exists x. split; [done|]. right. split; [done|].
    exists s. split; [done|]. lia.
Qed.

(** What [heap_malloc] does to the chunks. *)
Definition malloc_post (m : mem) (cs : chunks) (n : Z) (m' : mem) (p : Z) : Prop :=
  (p = 0 ∧ m' = m ∧ ∀ x s, is_free heap_first cs x s → s < round_size n) ∨
  (∃ l s r, cs = l ++ (s, true) :: r ∧ round_size n <= s ∧ p = heap_first + span l + 16 ∧
     heap_inv m' (split_result l s (round_size n) r) ∧
     ∀ b, kept cs b → ldb m' b = ldb m b).

Lemma heap_malloc_ok m cs n : heap_inv m cs → 0 <= n → n + 15 < 2 ^ 32 →
  ∃ m' p, heap_malloc m base n = Some (m', p) ∧ malloc_post m cs n m' p.
Proof.
  intros Hinv Hn Hn'. destruct (round_size_spec n Hn Hn') as (Az & Hz & Hz').
  unfold heap_malloc, malloc_post. set (size := round_size n) in *.
  pose proof (get_bucket_idx_range size ltac:(lia)) as Hb.
  destruct (malloc_scan_ok m cs size (Z.to_nat (BUCKET_COUNT - get_bucket_idx size)) (get_bucket_idx size))
    as (x & -> & Hx); [done|lia|unfold BUCKET_COUNT; lia|]. rewrite some_bind.
  destruct Hinv as [H Hc]. destruct Hx as [(-> & Hx)|(Hnz & s & Hs & Hle)].
  { rewrite Z.eqb_refl. eexists _, _. split; [done|]. left. split; [done|]. split; [done|].
    intros x s Hs. destruct (Z.lt_ge_cases s size) as [|Hge]; [done|].
    apply (Hx x s Hs). apply get_bucket_idx_mono. lia. }
  destruct (Z.eqb_spec x 0); [done|]. eexists _, _. split; [done|]. right.
  apply is_free_split in Hs as (l & r & -> & ->). exists l, s, r. split; [done|]. split; [done|].
  pose proof (heap_at_mid _ _ _ _ _ _ H) as (_ & _ & G & _ & Ah & Hh & [Hs0 As] & Hr & Hsum & H0).
  split; [apply u32_id; unfold is_u32, sizeof_HEADER; lia|].
  assert (nodes_ok (is_free heap_first (l ++ (s, true) :: r))) as HF by (eapply nodes_ok_is_free; apply H).
  destruct (heap_at_unlink m _ _ (heap_first + span l) s H HF) as [HU K];
    [apply is_free_app; right; by left|lia|done|done|].
  destruct (chunk_split_ok (freelist_unlink m base (heap_first + span l)) l s true size r) as [HS HB].
  - destruct HU as [A1 A2 A3 A4 A5]. split; try done. eapply linked_iff; [|exact A5].
    intros x t. cbv beta. rewrite <- around_link. pose proof (around_not_mid m l s true r t (at_tiled _ _ _ H)).
    split; [tauto|]. intros Hx. split; [by left|]. by intros ->.
  - lia.
  - done.
  - split; [split; [done|by eapply split_result_coalesced]|]. intros b Hu.
    rewrite HB by (apply split_kept; [lia|by left]). by eapply keeps_kept; [apply H|apply H|exact K| |].
Qed.

Lemma merge_live l s r x t : is_live heap_first (coalesce l s r) x t ↔ is_live heap_first (l ++ (s, true) :: r) x t.
Proof.
  unfold coalesce.
  assert (let '(l2, s2) := merge_back l s in is_live heap_first (l2 ++ (s2, true) :: r) x t ↔
    is_live heap_first (l ++ (s, true) :: r) x t) as H1.
  { unfold merge_back. destruct l as [|[s0 f0] l _] using rev_ind; [done|].
    rewrite last_snoc. destruct f0; [|done]. rewrite removelast_last, <- app_assoc. cbn [app].
    rewrite !is_live_app. cbn [is_live].
    replace (heap_first + span l + 32 + (s0 + 32 + s)) with (heap_first + span l + 32 + s0 + 32 + s) by lia.
    intuition congruence. }
  destruct (merge_back l s) as [l2 s2]. rewrite <- H1.
  unfold merge_next. destruct r as [|[s1 []] r]; [done| |done]. rewrite !is_live_app. cbn [is_live].
  replace (heap_first + span l2 + 32 + (s2 + 32 + s1)) with (heap_first + span l2 + 32 + s2 + 32 + s1) by lia.
  intuition congruence.
Qed.

(** The size of the block that a split leaves. *)
Definition split_size (s size : Z) : Z := if s - size <? 48 then s else size.

Lemma split_live l s size r x t : is_live heap_first (split_result l s size r) x t ↔
  (x = heap_first + span l ∧ t = split_size s size) ∨ is_live heap_first (l ++ (s, true) :: r) x t.
Proof.
  unfold split_result, split_size. destruct (s - size <? 48).
  - rewrite !is_live_app. cbn [is_live]. intuition congruence.
  - rewrite merge_live, <- app_assoc. cbn [app]. rewrite !is_live_app. cbn [is_live].
    replace (heap_first + span l + 32 + size + 32 + (s - size - 32)) with (heap_first + span l + 32 + s) by lia.
    intuition congruence.
Qed.

Lemma live_true_false l s r x t : is_live heap_first (l ++ (s, false) :: r) x t ↔
  (x = heap_first + span l ∧ t = s) ∨ is_live heap_first (l ++ (s, true) :: r) x t.
Proof. rewrite !is_live_app. cbn [is_live]. intuition congruence. Qed.

Lemma live_true_mid m l s r t : tiled m heap_first (l ++ (s, false) :: r) →
  ¬ is_live heap_first (l ++ (s, true) :: r) (heap_first + span l) t.
Proof.
  intros Ht. apply tiled_app in Ht as (Hl & Hs & _ & _ & Hr). pose proof al_first.
  rewrite is_live_app. cbn [is_live]. intros [Hx|[[? _]|Hx]]; [|done|].
  - apply (is_live_bounds m) in Hx; [lia|done|done].
  - pose proof (tiled_span _ _ _ Hl). apply (is_live_bounds m) in Hx; [lia|done|align].
Qed.

(** The bytes of every block of [cs] are the same in [m'], [skip] apart, and so
    are those outside the heap. *)
Definition data_kept (skip : Z → Prop) (cs : chunks) (m m' : mem) : Prop :=
  (∀ x t b, is_live heap_first cs x t → ¬ skip x → x + 16 <= b < x + 16 + t → ldb m' b = ldb m b) ∧
  ∀ b, b < base ∨ e <= b → ldb m' b = ldb m b.

Lemma kept_live cs x s b : is_live heap_first cs x s → x + 16 <= b < x + 16 + s → kept cs b.
Proof. intros. left. by eapply is_live_in_use. Qed.

Lemma heap_free_client m cs h s : heap_inv m cs → is_live heap_first cs h s →
  ∃ cs', heap_inv (heap_free m base (h + 16)) cs' ∧
  (∀ x t, is_live heap_first cs' x t ↔ is_live heap_first cs x t ∧ x ≠ h) ∧
  data_kept (λ x, x = h) cs m (heap_free m base (h + 16)).
Proof.
  intros [H Hc] (l & r & -> & ->)%is_live_split.
  destruct (heap_free_ok m l s r H) as [HF HB]. exists (coalesce l s r).
  assert (∀ x t, is_live heap_first (coalesce l s r) x t ↔
    is_live heap_first (l ++ (s, false) :: r) x t ∧ x ≠ heap_first + span l) as HL.
  { intros x t. rewrite merge_live, live_true_false.
    pose proof (live_true_mid m l s r t (at_tiled _ _ _ H)). naive_solver. }
  split; [split; [done|by apply coalesce_coalesced]|]. split; [done|].
  split; [|intros b Hb; apply HB; by right].
  intros x t b Hx Hne Hb. apply HB. eapply kept_live; [|exact Hb]. by apply HL.
Qed.

Lemma heap_malloc_client m cs n : heap_inv m cs → 0 <= n → n + 15 < 2 ^ 32 →
  ∃ m' p, heap_malloc m base n = Some (m', p) ∧
  ((p = 0 ∧ m' = m ∧ ∀ x s, is_free heap_first cs x s → s < round_size n) ∨
   ∃ h t cs', p = h + 16 ∧ heap_inv m' cs' ∧ round_size n <= t ∧ (∀ u, ¬ is_live heap_first cs h u) ∧
     (∀ x u, is_live heap_first cs' x u ↔ (x = h ∧ u = t) ∨ is_live heap_first cs x u) ∧
     data_kept (λ _, False) cs m m').
Proof.
  intros Hinv Hn Hn'. destruct (heap_malloc_ok m cs n Hinv Hn Hn') as (m' & p & E & Hp).
  exists m', p. split; [done|]. destruct Hp as [?|(l & s & r & -> & Hs & -> & Hi & HB)]; [by left|right].
  exists (heap_first + span l), (split_size s (round_size n)), (split_result l s (round_size n) r).
  split; [done|]. split; [done|].
  split; [unfold split_size; destruct (Z.ltb_spec (s - round_size n) 48); lia|]. split.
  { intros u Hu. destruct Hinv as [H _]. pose proof al_first as Ha.
    assert (is_free heap_first (l ++ (s, true) :: r) (heap_first + span l) s) as Hf
      by (apply is_free_app; right; by left).
    apply (is_live_bounds m) in Hu; [|apply H|done]. apply (is_free_bounds m) in Hf; [|apply H|done].
    destruct Hu as (_ & [? ?] & _ & _ & E1), Hf as (_ & [? ?] & _ & _ & E2). rewrite E1 in E2.
    unfold tag in E2. cbn [Z.b2z] in E2. align. }
  split; [intros; apply split_live|]. split; [|intros b Hb; apply HB; by right].
  intros x t b Hx _ Hb. apply HB. by eapply kept_live.
Qed.

(** A client writes only inside its block. *)
Lemma heap_inv_write m m' cs h s : heap_inv m cs → is_live heap_first cs h s →
  (∀ b, b < h + 16 ∨ h + 16 + s <= b → ldb m' b = ldb m b) → heap_inv m' cs.
Proof.
  intros [H Hc] (l & r & -> & ->)%is_live_split HB. split; [|done].
  pose proof (heap_at_mid _ _ _ _ _ _ H) as (Tl & Tr & G1 & G2 & Ah & Hh & [Hs As] & Hr & Hsum & H0).
  set (h := heap_first + span l) in *.
  assert (∀ a, a + 4 <= h + 16 ∨ h + 16 + s <= a → load32 m' a = load32 m a) as HW.
  { intros a Ha. rewrite !load32_eq. rewrite !HB by lia. done. }
  assert (heap_first <= h) by lia. split.
  - apply tiled_app. split.
    + apply (tiled_frame m); [done|apply al_first|]. intros x Hx Hx'. apply HW. fold h in Hx'. align.
    + cbn [tiled]. fold h. unfold get_size in *. rewrite !HW by lia. split; [done|]. split; [done|]. split; [done|].
      apply (tiled_frame m); [done|align|]. intros x Hx Hx'. apply HW. lia.
  - apply H.
  - unfold get_start. rewrite HW by (unfold heap_first in *; lia). apply H.
  - unfold get_end. rewrite HW by (unfold heap_first in *; lia). apply H.
  - intros i Hi. destruct (at_linked _ _ _ H i Hi) as (k & A & B & C & D). exists k.
    split; [unfold get_free_list; rewrite HW by (unfold heap_first in *; lia); done|]. split; [|done].
    apply (links_frame m); [done|]. intros x Hx. apply D in Hx as (t & Ht & _). unfold get_next, get_prev.
    apply around_false in Ht as [Ht|Ht].
    + apply (is_free_bounds m) in Ht; [|done|apply al_first]. fold h in Ht. rewrite !HW by lia. done.
    + apply (is_free_bounds m) in Ht; [|done|fold h; align]. fold h in Ht. rewrite !HW by lia. done.
Qed.

(** Nor does what happens outside the heap matter. *)
Lemma heap_inv_outside m m' cs : heap_inv m cs → (∀ b, base <= b < e → ldb m' b = ldb m b) → heap_inv m' cs.
Proof.
  intros [H Hc] HB. split; [|done].
  assert (∀ a, base <= a → a + 4 <= e → load32 m' a = load32 m a) as HW.
  { intros a Ha Ha'. rewrite !load32_eq. by rewrite !HB by lia. }
  pose proof al_first as Ha1. pose proof (at_span _ _ _ H) as Hsp. split; [|done| | |].
  - apply (tiled_frame m); [apply H|done|]. intros x Hx Hx'. apply HW; unfold heap_first in *; align.
  - unfold get_start. rewrite HW by lia. apply H.
  - unfold get_end. rewrite HW by lia. apply H.
  - intros i Hi. destruct (at_linked _ _ _ H i Hi) as (k & A & B & C & D). exists k.
    split; [unfold get_free_list; rewrite HW by lia; done|]. split; [|done].
    apply (links_frame m); [done|]. intros x Hx. apply D in Hx as (t & Ht & _).
    apply (is_free_bounds m) in Ht; [|apply H|done]. unfold get_next, get_prev.
    rewrite !HW by (unfold heap_first in *; lia). done.
Qed.

(** ** Resizing *)

Lemma realloc_grow_ok m l s r : heap_inv m (l ++ (s, false) :: r) →
  let '(s1, r1) := merge_next s r in
  let m1 := realloc_grow m base (heap_first + span l) in
  heap_inv m1 (l ++ (s1, false) :: r1) ∧
  ∀ b, kept (l ++ (s, false) :: r) b → ldb m1 b = ldb m b.
Proof.
  intros [H Hc]. unfold merge_next, realloc_grow.
  pose proof (heap_at_mid _ _ _ _ _ _ H) as (Tl & Tr & G1 & _ & Ah & Hh & [Hs As] & Hr & Hsum & H0).
  set (h := heap_first + span l) in *. rewrite (at_end _ _ _ H).
  rewrite (next_chunk_eq m s false (conj Hs As) h) by (done || lia). destruct r as [|[t g] r].
  { cbn [span] in Hsum. destruct (Z.ltb_spec (h + 32 + s) e) as [?|_]; [lia|]. done. }
  cbn [tiled span] in *. destruct Tr as ([Ht At] & G2 & G3 & Tr). pose proof (tiled_span _ _ _ Tr).
  destruct (Z.ltb_spec (h + 32 + s) e) as [_|?]; [|lia]. cbn [andb].
  rewrite G2, is_flagged_free_tag by (done || lia). destruct g; [|done].
  assert (nodes_ok (is_free heap_first (l ++ (s, false) :: (t, true) :: r))) as HF by (eapply nodes_ok_is_free; apply H).
  destruct (heap_at_unlink m _ _ (h + 32 + s) t H HF) as [HU1 K];
    [apply is_free_app; right; right; by left|lia|done|done|].
  pose proof (heap_at_mid _ _ _ _ _ _ HU1) as (_ & Tr1 & G4 & _). fold h in G4, Tr1.
  cbn [tiled] in Tr1. destruct Tr1 as (_ & G5 & _).
  destruct (join_ok _ _ _ _ _ _ _ _ HU1) as [HJ HB].
  { eapply nodes_ok_sub; [|exact HF]. by intros x u [? _]. }
  fold h in HJ, HB. unfold join in HJ, HB.
  set (m2 := set_size (freelist_unlink m base (h + 32 + s)) h _) in *.
  assert (get_size m2 h = tag (s + 32 + t) false) as G6.
  { unfold m2. rewrite G4, G5, merged_size by (done || lia). unfold get_size, set_size.
    rewrite load32_store32_eq. apply u32_id, tag_range; lia. }
  rewrite (footer_from_header_eq m2 (s + 32 + t) false) by (done || lia || align).
  replace (h + 16 + (s + 32 + t)) with (h + 32 + s + 16 + t) by lia. split; [split|].
  - destruct HJ as [A1 A2 A3 A4 A5]. split; try done. eapply linked_iff; [|exact A5].
    intros x u. cbv beta. rewrite !is_free_app. cbn [is_free]. fold h.
    replace (h + 32 + (s + 32 + t)) with (h + 32 + s + 32 + t) by lia.
    pose proof (is_free_bounds m heap_first l x u Tl). pose proof (is_free_bounds m _ r x u Tr).
    assert (al (h + 32 + s + 32 + t)) by align. pose proof al_first. unfold h in *. naive_solver lia.
  - apply coalesced_app in Hc as [Hl Hc]. apply coalesced_app. split; [done|].
    cbn [coalesced] in *. split; [intuition congruence|].
    destruct r as [|[u []] r]; cbn [coalesced] in *; intuition congruence.
  - intros b Hu. transitivity (ldb (freelist_unlink m base (h + 32 + s)) b).
    + destruct Hu as [Hu|Hu]; [|apply HB; unfold heap_first in *; lia].
      apply in_use_app in Hu as [Hu|[[_ Hu]|[[? _]|Hu]]]; [| |done|]; fold h in Hu.
      * apply (in_use_bounds m) in Hu; [|done]. apply HB; unfold h in *; lia.
      * unfold m2, set_size. rewrite !ldb_store32_ne by lia. done.
      * apply (in_use_bounds m) in Hu; [|done]. apply HB; lia.
    + eapply keeps_kept; [apply H|apply H|exact K| |done]. done.
Qed.

Lemma round_size_idem n : 0 <= n → n + 15 < 2 ^ 32 → round_size (round_size n) = round_size n.
Proof.
  intros H1 H2. destruct (round_size_spec n H1 H2) as (A & B & C).
  destruct (round_size_spec (round_size n)) as (A' & B' & C'); [lia|align|]. align.
Qed.

(** The outcome of [heap_realloc] for the client of the block at [h]. *)
Definition realloc_post (m : mem) (cs : chunks) (h s n : Z) (m' : mem) (p : Z) : Prop :=
  ∃ cs' h' t, heap_inv m' cs' ∧ data_kept (λ x, x = h) cs m m' ∧
    (∀ x u, is_live heap_first cs' x u ↔ (x = h' ∧ u = t) ∨ (is_live heap_first cs x u ∧ x ≠ h)) ∧
    (h' = h ∨ ∀ u, ¬ is_live heap_first cs h' u) ∧
    ((p = 0 ∧ h' = h ∧ s <= t ∧ ∀ i, 0 <= i < s → ldb m' (h + 16 + i) = ldb m (h + 16 + i)) ∨
     (p = h' + 16 ∧ round_size n <= t ∧
      ∀ i, 0 <= i < s → i < round_size n → ldb m' (p + i) = ldb m (h + 16 + i))).

(** The block is large enough, after a merge at most: it is split in place. *)
Lemma realloc_in_place m cs l s s1 r1 n m1 : heap_inv m1 (l ++ (s1, false) :: r1) →
  is_live heap_first cs (heap_first + span l) s → s <= s1 → al (round_size n) →
  (∀ x u, is_live heap_first (l ++ (s1, true) :: r1) x u ↔ is_live heap_first cs x u ∧ x ≠ heap_first + span l) →
  (∀ b, kept cs b → ldb m1 b = ldb m b) →
  0 <= round_size n <= s1 →
  realloc_post m cs (heap_first + span l) s n
    (chunk_split m1 base (heap_first + span l) (round_size n)) (heap_first + span l + 16).
Proof.
  intros [H Hc] Hlive Hs1 Az HL HB Hz.
  destruct (chunk_split_ok m1 l s1 false (round_size n) r1) as [HS HB2]; [|done|done|].
  { destruct H as [A1 A2 A3 A4 A5]. split; try done. eapply linked_iff; [|exact A5].
    intros x t. apply around_false. }
  exists (split_result l s1 (round_size n) r1), (heap_first + span l), (split_size s1 (round_size n)).
  assert (round_size n <= split_size s1 (round_size n)) as Hsz
    by (unfold split_size; destruct (Z.ltb_spec (s1 - round_size n) 48); lia).
  split; [split; [done|by eapply split_result_coalesced]|]. split; [|split; [|split; [by left|right]]].
  - split; [|intros b Hb; rewrite HB2, HB; [done|by right|by right]].
    intros x t b Hx Hne Hb. rewrite HB2, HB; [done|by eapply kept_live|].
    eapply kept_live; [|exact Hb]. apply split_live. right. by apply HL.
  - intros x u. rewrite split_live, HL. done.
  - split; [done|]. split; [done|]. intros i Hi Hi'. rewrite HB2, HB; [done| |].
    + eapply kept_live; [exact Hlive|lia].
    + apply split_kept; [lia|]. right. lia.
Qed.

(** The block is moved: allocate, copy, free. *)
Lemma realloc_move m cs h s s1 cs1 m1 n : heap_inv m1 cs1 → is_live heap_first cs h s →
  is_live heap_first cs1 h s1 → s <= s1 → s1 < round_size n → round_size n + 15 < 2 ^ 32 →
  round_size (round_size n) = round_size n →
  (∀ x u, is_live heap_first cs1 x u ↔ (x = h ∧ u = s1) ∨ (is_live heap_first cs x u ∧ x ≠ h)) →
  (∀ b, kept cs b → ldb m1 b = ldb m b) →
  ∃ m' p, ('(m, p) ← heap_malloc m1 base (round_size n);
     if p =? 0 then Some (m, 0)
     else Some (heap_free (mem_copy m p (h + 16) (Z.to_nat (round_size n))) base (h + 16), p)) = Some (m', p) ∧
  realloc_post m cs h s n m' p.
Proof.
  intros Hinv Hlive Hlive1 Hs1 Hlt Hn Hid HL HB.
  pose proof al_first as Ha. pose proof (is_live_bounds m1 _ _ _ _ (at_tiled _ _ _ (proj1 Hinv)) Ha Hlive1) as (_ & [Hs10 _] & _).
  destruct (heap_malloc_client m1 cs1 (round_size n) Hinv) as (m2 & p & E & Hp); [lia|done|].
  rewrite E, some_bind. cbv beta iota. rewrite Hid in Hp.
  destruct Hp as [(-> & -> & _)|(h' & t & cs2 & -> & Hinv2 & Ht & Hnew & HL2 & HB2 & HO2)].
  { rewrite Z.eqb_refl. eexists _, _. split; [done|]. exists cs1, h, s1. split; [done|]. split.
    { split; [|intros b Hb; apply HB; by right]. intros x t b Hx _ Hb. apply HB. by eapply kept_live. }
    split; [done|]. split; [by left|]. left. split; [done|]. split; [done|]. split; [done|].
    intros i Hi. apply HB. eapply kept_live; [exact Hlive|lia]. }
  assert (is_live heap_first cs2 h' t) as Hl' by (apply HL2; by left).
  assert (is_live heap_first cs2 h s1) as Hl2 by (apply HL2; by right).
  pose proof (is_live_bounds m2 _ _ _ _ (at_tiled _ _ _ (proj1 Hinv2)) Ha Hl') as (_ & _ & Hlow & Hhigh & _).
  destruct (Z.eqb_spec (h' + 16) 0) as [?|_]; [unfold heap_first in *; lia|].
  eexists _, _. split; [done|]. set (m3 := mem_copy m2 _ _ _).
  assert (h' ≠ h) as Hne by (intros ->; by apply (Hnew s1)).
  assert (∀ b, b < h' + 16 ∨ h' + 16 + t <= b → ldb m3 b = ldb m2 b) as HC.
  { intros b Hb. unfold m3. apply ldb_mem_copy_ne. lia. }
  assert (heap_inv m3 cs2) as Hinv3 by (exact (heap_inv_write m2 m3 cs2 h' t Hinv2 Hl' HC)).
  destruct (heap_free_client m3 cs2 h s1 Hinv3 Hl2) as (cs4 & Hinv4 & HL4 & HB4 & HO4).
  assert (∀ x u, is_live heap_first cs x u → x ≠ h → is_live heap_first cs1 x u) as Hold
    by (intros; apply HL; by right).
  pose proof (at_span _ _ _ (proj1 Hinv2)) as Hsp.
  exists cs4, h', t. split; [done|]. split; [split|split; [|split; [|right]]].
  - intros x u b Hx Hxh Hb. rewrite (HB4 x u b); [|apply HL2; right; by apply Hold|done|done].
    rewrite HC.
    + rewrite (HB2 x u b); [apply HB; by eapply kept_live|by apply Hold|tauto|done].
    + assert (is_live heap_first cs2 x u) as Hx2 by (apply HL2; right; by apply Hold).
      destruct (is_live_disjoint _ _ _ _ _ _ _ (at_tiled _ _ _ (proj1 Hinv2)) Hx2 Hl') as [[-> ->]|?]; [|lia].
      exfalso. apply (Hnew t). by apply Hold.
  - intros b Hb. rewrite HO4, HC, HO2 by (done || unfold heap_first in *; lia). apply HB. by right.
  - intros x u. rewrite HL4, HL2, HL. naive_solver.
  - right. intros u Hu. apply (Hnew u), Hold; done.
  - split; [done|]. split; [done|]. intros i Hi Hi'. rewrite (HB4 h' t); [|done|done|lia].
    assert (ldb m3 (h' + 16 + i) = ldb m2 (h + 16 + i)) as ->.
    { unfold m3. replace i with (Z.of_nat (Z.to_nat i)) by lia. apply ldb_mem_copy_eq; [lia|].
      destruct (is_live_disjoint _ _ _ _ _ _ _ (at_tiled _ _ _ (proj1 Hinv2)) Hl' Hl2) as [[? _]|?]; [done|].
      lia. }
    rewrite (HB2 h s1); [|done|tauto|lia]. apply HB. eapply kept_live; [exact Hlive|lia].
Qed.

Lemma merge_next_live l s r x t : let '(s1, r1) := merge_next s r in
  is_live heap_first (l ++ (s1, true) :: r1) x t ↔ is_live heap_first (l ++ (s, true) :: r) x t.
Proof.
  unfold merge_next. destruct r as [|[s1 []] r]; [done| |done]. rewrite !is_live_app. cbn [is_live].
  replace (heap_first + span l + 32 + (s + 32 + s1)) with (heap_first + span l + 32 + s + 32 + s1) by lia.
  intuition congruence.
Qed.

Lemma heap_realloc_client m cs h s n : heap_inv m cs → is_live heap_first cs h s → 0 <= n → n + 15 < 2 ^ 32 →
  ∃ m' p, heap_realloc m base (h + 16) n = Some (m', p) ∧ realloc_post m cs h s n m' p.
Proof.
  intros Hinv Hlive Hn Hn'. destruct (round_size_spec n) as (Az & Hz & Hz'); [lia|lia|].
  pose proof Hlive as (l & r & -> & ->)%is_live_split.
  pose proof (heap_at_mid _ _ _ _ _ _ (proj1 Hinv)) as (Tl & Tr & G & _ & Ah & Hh & [Hs As] & Hr & Hsum & H0).
  assert (∀ x u, is_live heap_first (l ++ (s, true) :: r) x u ↔
    is_live heap_first (l ++ (s, false) :: r) x u ∧ x ≠ heap_first + span l) as HL.
  { intros x u. rewrite live_true_false. pose proof (live_true_mid m l s r u (at_tiled _ _ _ (proj1 Hinv))). naive_solver. }
  unfold heap_realloc. cbv zeta.
  replace (u32 (heap_first + span l + 16 - sizeof_HEADER)) with (heap_first + span l)
    by (unfold sizeof_HEADER; rewrite u32_id; [lia|unfold is_u32; lia]).
  rewrite G, CHUNK_SIZE_tag by (done || lia). destruct (Z.ltb_spec s (round_size n)) as [Hlt|Hge].
  - pose proof (realloc_grow_ok m l s r Hinv) as HG. pose proof (merge_next_live l s r) as HML.
    assert (s <= (merge_next s r).1) as Hs1.
    { unfold merge_next. destruct r as [|[t []] r]; cbn [fst]; [lia| |lia]. cbn [tiled] in Tr. lia. }
    destruct (merge_next s r) as [s1 r1]. cbn [fst] in Hs1. destruct HG as [HG HB].
    set (m1 := realloc_grow m base _) in *.
    pose proof (heap_at_mid _ _ _ _ _ _ (proj1 HG)) as (_ & _ & G1 & _ & _ & _ & [Hs10 As1] & Hr1 & Hsum1 & _).
    rewrite G1, CHUNK_SIZE_tag by (done || lia). destruct (Z.ltb_spec s1 (round_size n)) as [Hlt1|Hge1].
    + apply realloc_move with (s1 := s1) (cs1 := l ++ (s1, false) :: r1); try done; try lia.
      * apply live_true_false. by left.
      * align.
      * apply round_size_idem; lia.
      * intros x u. rewrite live_true_false, HML, HL. done.
    + eexists _, _. split; [done|]. apply (realloc_in_place m _ l s s1 r1); try done; [|lia].
      intros x u. by rewrite HML, HL.
  - rewrite G, CHUNK_SIZE_tag by (done || lia). destruct (Z.ltb_spec s (round_size n)) as [?|_]; [lia|].
    eexists _, _. split; [done|]. apply (realloc_in_place m _ l s s r); try done; lia.
Qed.

(** ** Initialisation *)

Lemma heap_init_ok m : heap_first + 32 <= e → heap_inv (heap_init m base e) [(e - heap_first - 32, true)].
Proof.
  intros Hroom. unfold heap_init, HEAP_SIZE, sizeof_HEADER, sizeof_FOOTER. fold heap_first.
  assert (0 < heap_first) as H0 by (unfold heap_first; lia). pose proof al_first as Ha.
  rewrite !(u32_id heap_first) by (unfold is_u32; lia). rewrite !(u32_id (_ + 16)), !(u32_id (_ - 16)) by (unfold is_u32; lia).
  replace (e - 16 - (heap_first + 16)) with (e - heap_first - 32) by lia.
  set (s := e - heap_first - 32) in *. assert (0 <= s ∧ al s) as [Hs As] by (unfold s; align).
  rewrite u32_id by (unfold is_u32, s in *; lia).
  assert (s .| CHUNK_FREE = tag s true) as Et.
  { rewrite <- tag_set_free by done. unfold tag. cbn [Z.b2z]. by rewrite Z.add_0_r. }
  rewrite Et. set (m1 := set_end _ _ _).
  assert (∀ i, 0 <= i < 4 → get_free_list m1 base i = 0) as Hfl.
  { intros i Hi. unfold m1. cbn [for_loop foldl seq]. unfold for_loop. cbn [foldl seq].
    assert (i = 0 ∨ i = 1 ∨ i = 2 ∨ i = 3) as [-> | [-> | [-> | ->]]] by lia; words; done. }
  assert (get_start m1 base = heap_first ∧ get_end m1 base = e) as [Hst Hen].
  { unfold m1. words. rewrite !u32_id by (unfold is_u32; lia). done. }
  clearbody m1. replace (e - 16) with (heap_first + 16 + s) by (unfold s; lia).
  destruct (heap_at_retag m1 [] s true [] (around [] s [])) as (HR & _ & Hsz); cbn [span]; rewrite ?Z.add_0_r;
    try done; [unfold s; lia| | |].
  { intros i Hi. exists []. split; [by rewrite Hfl|]. split; [done|]. split; [constructor|].
    intros x. split; [intros Hx; by apply elem_of_nil in Hx|]. by intros (t & [[]|[]] & _). }
  { by intros x t [[]|[]]. }
  cbn [span] in *. rewrite Z.add_0_r in *. set (m2 := set_size (set_size m1 _ _) _ _) in *.
  assert (set_free_list (set_next (set_prev m2 heap_first 0) heap_first 0) base
    (get_bucket_idx (get_size (set_next (set_prev m2 heap_first 0) heap_first 0) heap_first)) heap_first =
    freelist_link m2 base heap_first) as ->.
  { unfold freelist_link. cbv zeta.
    assert (get_size (set_next (set_prev m2 heap_first 0) heap_first 0) heap_first = get_size m2 heap_first) as -> by (words; done).
    assert (get_size m2 heap_first = tag s true) as ->.
    { destruct HR as [(_ & G & _) _ _ _ _]. done. }
    rewrite get_bucket_idx_tag by done. pose proof (get_bucket_idx_range s Hs).
    assert (get_free_list (set_prev m2 heap_first 0) base (get_bucket_idx s) = 0) as ->.
    { rewrite <- (Hfl (get_bucket_idx s)) by done. unfold m2, heap_first in *. words. done. }
    assert (get_next (set_next (set_prev m2 heap_first 0) heap_first 0) heap_first = 0) as ->; [|done].
    unfold get_next, set_next. by rewrite load32_store32_eq. }
  pose proof (freelist_link_heap m2 [] s [] HR) as [HL _]. cbn [span] in HL. rewrite Z.add_0_r in HL.
  split; [exact HL|]. cbn [coalesced]. intuition congruence.
Qed.
End heap.

(** ** Clients

    The blocks a client holds: pointer and size.  A step of the heap is one call,
    for any 32-bit size, or a write of the client inside one of its blocks.  A size
    within 15 bytes of 2^32 wraps to 0 when it is rounded up, so that the client
    gets a block of no bytes: [granted] is the size that it may use. *)

Abbreviation blocks := (gmap Z Z).

Definition granted (n : Z) : Z := if n + 15 <? 2 ^ 32 then n else 0.

Lemma granted_spec n : 0 <= n < 2 ^ 32 → 0 <= granted n ∧ granted n + 15 < 2 ^ 32 ∧ round_size n = round_size (granted n).
Proof.
  intros Hn. unfold granted. destruct (Z.ltb_spec (n + 15) (2 ^ 32)) as [|Hw]; [lia|]. split; [lia|]. split; [lia|].
  unfold round_size, ALIGN_SIZE. change (u32 (0 + 16 - 1)) with 15.
  assert (u32 (n + 16 - 1) = n + 15 - 2 ^ 32) as ->.
  { unfold u32. rewrite <- (Z.mod_add _ (-1)) by lia. rewrite Z.mod_small; lia. }
  rewrite !land_mask_high by (unfold is_u32; lia). rewrite (Z.mod_small _ 16) by lia.
  change (15 mod 16) with 15. lia.
Qed.

Lemma malloc_granted m base n : 0 <= n < 2 ^ 32 → heap_malloc m base n = heap_malloc m base (granted n).
Proof. intros Hn. unfold heap_malloc. by rewrite (proj2 (proj2 (granted_spec n Hn))). Qed.

Lemma realloc_granted m base p n : 0 <= n < 2 ^ 32 → heap_realloc m base p n = heap_realloc m base p (granted n).
Proof. intros Hn. unfold heap_realloc. by rewrite (proj2 (proj2 (granted_spec n Hn))). Qed.

Inductive heap_step (base : Z) : mem * blocks → mem * blocks → Prop :=
| step_malloc m L n m' p : 0 <= n < 2 ^ 32 →
    heap_malloc m base n = Some (m', p) →
    heap_step base (m, L) (m', if p =? 0 then L else <[p := granted n]> L)
| step_realloc m L p k n m' q : 0 <= n < 2 ^ 32 → L !! p = Some k →
    heap_realloc m base p n = Some (m', q) →
    heap_step base (m, L) (m', if q =? 0 then L else <[q := granted n]> (delete p L))
| step_free m L p k : L !! p = Some k →
    heap_step base (m, L) (heap_free m base p, delete p L)
| step_write m L p k i v : L !! p = Some k → 0 <= i < k →
    heap_step base (m, L) (stb m (p + i) v, L).

Inductive heap_reachable (base e : Z) : mem * blocks → Prop :=
| reach_init m : heap_reachable base e (heap_init m base e, ∅)
| reach_step s s' : heap_reachable base e s → heap_step base s s' → heap_reachable base e s'.

(** The chunks behind the blocks. *)
Definition client_ok (base e : Z) (m : mem) (L : blocks) : Prop :=
  ∃ cs, heap_inv base e m cs ∧
  (∀ p n, L !! p = Some n → ∃ t, is_live (heap_first base) cs (p - 16) t ∧ 0 <= n <= t) ∧
  (∀ h t, is_live (heap_first base) cs h t → is_Some (L !! (h + 16))).

Definition region_ok (base e : Z) : Prop := al base ∧ 0 < base ∧ al e ∧ base + 64 <= e ∧ e < 2 ^ 32.

Section client.
Context (base e : Z) (Hreg : region_ok base e).

Lemma region_base : al base ∧ 0 < base.
Proof. destruct Hreg as (? & ? & _). done. Qed.
Lemma region_end : al e ∧ base + 32 <= e ∧ e < 2 ^ 32.
Proof. destruct Hreg as (_ & _ & ? & ? & ?). split; [done|lia]. Qed.

Lemma client_ok_init m : client_ok base e (heap_init m base e) ∅.
Proof.
  exists [(e - heap_first base - 32, true)]. split; [|split].
  - apply heap_init_ok; [apply region_base|apply region_end|]. destruct Hreg as (_ & _ & _ & ? & _).
    unfold heap_first. lia.
  - intros p n Hp. by rewrite lookup_empty in Hp.
  - cbn [is_live]. intuition congruence.
Qed.

Lemma client_ok_step m L m' L' : client_ok base e m L → heap_step base (m, L) (m', L') → client_ok base e m' L'.
Proof.
  pose proof region_base as Hb. pose proof region_end as He. pose proof (al_first base e Hb) as Ha.
  intros (cs & Hinv & Hin & Hout) Hstep.
  inversion Hstep as [? ? n0 ? p Hn0 E|? ? p k n0 ? q Hn0 Hp E|? ? p k Hp|? ? p k i v Hp Hi]; subst;
    [rewrite malloc_granted in E by done|rewrite realloc_granted in E by done|..];
    try (destruct (granted_spec n0 Hn0) as (Hn & Hn' & _); revert E Hn Hn'; generalize (granted n0); intros n E Hn Hn').
  - destruct (heap_malloc_client base e Hb He m cs n Hinv Hn) as (m1 & p1 & E1 & Hp); [lia|].
    rewrite E1 in E. simplify_eq E. intros -> ->.
    destruct Hp as [(-> & -> & _)|(h & t & cs' & -> & Hinv' & Ht & Hnew & HL & _)].
    { rewrite Z.eqb_refl. by exists cs. }
    assert (is_live (heap_first base) cs' h t) as Hl by (apply HL; by left).
    pose proof (is_live_bounds _ _ _ _ _ (at_tiled _ _ _ _ _ (proj1 Hinv')) Ha Hl) as (_ & _ & Hlow & _).
    destruct (Z.eqb_spec (h + 16) 0) as [?|_]; [unfold heap_first in *; lia|].
    destruct (round_size_spec n) as (_ & Hr & _); [lia|lia|]. exists cs'. split; [done|]. split.
    + intros p k Hk. apply lookup_insert_Some in Hk as [[<- <-]|[Hne Hk]].
      * exists t. replace (h + 16 - 16) with h by lia. split; [done|lia].
      * destruct (Hin p k Hk) as (u & Hu & ?). exists u. split; [apply HL; by right|done].
    + intros x u Hx. apply HL in Hx as [[-> ->]|Hx]; [rewrite lookup_insert_eq; eauto|].
      apply lookup_insert_is_Some'. right. by eapply Hout.
  - destruct (Hin p k Hp) as (s & Hs & Hks).
    destruct (heap_realloc_client base e Hb He m cs (p - 16) s n Hinv Hs Hn Hn') as (m1 & q1 & E1 & Hpost).
    replace (p - 16 + 16) with p in E1 by lia. rewrite E1 in E. simplify_eq E. intros -> ->.
    destruct Hpost as (cs' & h' & t & Hinv' & _ & HL & Hnew & Hq).
    destruct (round_size_spec n) as (_ & Hr & _); [lia|lia|].
    assert (is_live (heap_first base) cs' h' t) as Hl by (apply HL; by left).
    pose proof (is_live_bounds _ _ _ _ _ (at_tiled _ _ _ _ _ (proj1 Hinv')) Ha Hl) as (_ & _ & Hlow & _).
    exists cs'. split; [done|]. destruct Hq as [(-> & -> & Hst & _)|(-> & Ht & _)].
    + rewrite Z.eqb_refl. split.
      * intros x j Hx. destruct (Hin x j Hx) as (u & Hu & ?).
        destruct (decide (x = p)) as [->|Hne].
        { exists t. split; [apply HL; by left|]. simplify_eq. lia. }
        exists u. split; [apply HL; right; split; [done|lia]|done].
      * intros x u Hx. apply HL in Hx as [[-> ->]|[Hx _]]; [|by eapply Hout].
        replace (p - 16 + 16) with p by lia. eauto.
    + destruct (Z.eqb_spec (h' + 16) 0) as [?|_]; [unfold heap_first in *; lia|]. split.
      * intros x j Hx. apply lookup_insert_Some in Hx as [[<- <-]|[Hne Hx]].
        { exists t. replace (h' + 16 - 16) with h' by lia. split; [done|lia]. }
        apply lookup_delete_Some in Hx as [Hxp Hx]. destruct (Hin x j Hx) as (u & Hu & ?).
        exists u. split; [apply HL; right; split; [done|lia]|done].
      * intros x u Hx. apply HL in Hx as [[-> ->]|[Hx Hxp]]; [rewrite lookup_insert_eq; eauto|].
        apply lookup_insert_is_Some'. right. rewrite lookup_delete_ne by lia. by eapply Hout.
  - destruct (Hin p k Hp) as (s & Hs & _).
    destruct (heap_free_client base e Hb He m cs (p - 16) s Hinv Hs) as (cs' & Hinv' & HL & _).
    replace (p - 16 + 16) with p in Hinv' by lia. exists cs'. split; [done|]. split.
    + intros x j Hx. apply lookup_delete_Some in Hx as [Hxp Hx]. destruct (Hin x j Hx) as (u & Hu & ?).
      exists u. split; [apply HL; split; [done|lia]|done].
    + intros x u Hx. apply HL in Hx as [Hx Hxp]. rewrite lookup_delete_ne by lia. by eapply Hout.
  - destruct (Hin p k Hp) as (s & Hs & Hks). exists cs. split; [|done].
    apply (heap_inv_write base e Hb He m _ cs (p - 16) s Hinv Hs). intros b Hbd. apply ldb_stb_ne. lia.
Qed.

Lemma client_ok_reachable m L : heap_reachable base e (m, L) → client_ok base e m L.
Proof.
  intros H. remember (m, L) as s eqn:Es. revert m L Es.
  induction H as [m0|[m1 L1] s' _ IH Hstep]; intros m L Es.
  - simplify_eq. apply client_ok_init.
  - subst s'. eapply client_ok_step; [by apply IH|done].
Qed.

(** The bytes of a client's block. *)
Definition same_data (p n : Z) (m m' : mem) : Prop := ∀ i, 0 <= i < n → ldb m' (p + i) = ldb m (p + i).

Lemma data_kept_block skip cs m m' p t n : data_kept base e skip cs m m' →
  is_live (heap_first base) cs (p - 16) t → ¬ skip (p - 16) → n <= t → same_data p n m m'.
Proof. intros [H _] Hl Hs Hn i Hi. apply (H (p - 16) t); [done|done|lia]. Qed.

(** The bytes that are not the heap's. *)
Definition same_outside (m m' : mem) : Prop := ∀ b, b < base ∨ e <= b → ldb m' b = ldb m b.

Lemma heap_init_outside m : same_outside m (heap_init m base e).
Proof.
  intros b Hb. destruct Hreg as (Ab & H0 & Ae & Hroom & He). unfold heap_init, HEAP_SIZE, sizeof_HEADER, sizeof_FOOTER.
  rewrite !(u32_id (base + 32)), !(u32_id (_ - 16)) by (unfold is_u32; lia).
  unfold set_free_list at 1. rewrite ldb_store32_ne.
  - unfold for_loop. cbn [foldl seq]. unfold set_next, set_prev, set_size, set_end, set_start, set_free_list.
    rewrite !ldb_store32_ne by lia. done.
  - match goal with |- context [get_bucket_idx ?x] => pose proof (get_bucket_idx_range x (proj1 (load32_range _ _))) end. lia.
Qed.

Lemma heap_step_outside m L m' L' : client_ok base e m L → heap_step base (m, L) (m', L') → same_outside m m'.
Proof.
  pose proof region_base as Hb. pose proof region_end as He.
  intros (cs & Hinv & Hin & _) Hstep.
  inversion Hstep as [? ? n0 ? p Hn0 E|? ? p k n0 ? q Hn0 Hp E|? ? p k Hp|? ? p k i v Hp Hi]; subst;
    [rewrite malloc_granted in E by done|rewrite realloc_granted in E by done|..];
    try (destruct (granted_spec n0 Hn0) as (Hn & Hn' & _); revert E Hn Hn'; generalize (granted n0); intros n E Hn Hn').
  - destruct (heap_malloc_client base e Hb He m cs n Hinv Hn) as (m1 & p1 & E1 & Hp); [lia|].
    rewrite E1 in E. simplify_eq E. intros -> ->.
    destruct Hp as [(_ & -> & _)|(h & t & cs' & _ & _ & _ & _ & _ & _ & HO)]; [by intros b _|exact HO].
  - destruct (Hin p k Hp) as (s & Hs & _).
    destruct (heap_realloc_client base e Hb He m cs (p - 16) s n Hinv Hs Hn Hn') as (m1 & q1 & E1 & Hpost).
    replace (p - 16 + 16) with p in E1 by lia. rewrite E1 in E. simplify_eq E. intros -> ->.
    destruct Hpost as (cs' & h' & t & _ & [_ HO] & _). exact HO.
  - destruct (Hin p k Hp) as (s & Hs & _).
    destruct (heap_free_client base e Hb He m cs (p - 16) s Hinv Hs) as (cs' & _ & _ & _ & HO).
    replace (p - 16 + 16) with p in HO by lia. exact HO.
  - destruct (Hin p k Hp) as (s & Hs & Hk). intros b Hbd. apply ldb_stb_ne.
    pose proof (is_live_bounds _ _ _ _ _ (at_tiled _ _ _ _ _ (proj1 Hinv)) (al_first base e Hb) Hs) as (_ & _ & Hlow & Hhi & _).
    rewrite (at_span _ _ _ _ _ (proj1 Hinv)) in Hhi. unfold heap_first in *. lia.
Qed.

(** No fragmentation survives: without live blocks the heap is one free chunk. *)
Lemma empty_heap_chunks m cs : heap_inv base e m cs → (∀ h t, ¬ is_live (heap_first base) cs h t) →
  cs = [(e - heap_first base - 32, true)].
Proof.
  intros [H Hc] Hno. pose proof (at_span _ _ _ _ _ H) as Hsp. pose proof region_end.
  destruct cs as [|[s []] cs].
  - cbn [span] in Hsp. destruct Hreg as (_ & _ & _ & ? & _). unfold heap_first in *. lia.
  - destruct cs as [|[s' []] cs]; cbn [span coalesced] in *.
    + f_equal. f_equal. lia.
    + intuition congruence.
    + exfalso. eapply Hno. cbn [is_live]. right. by left.
  - exfalso. eapply Hno. cbn [is_live]. by left.
Qed.

(** C6: in every heap that the task can reach through [heap_init], [heap_malloc],
    [heap_realloc], [heap_free] with any sizes and writes inside its blocks, each
    block is aligned to 16 bytes and lies inside the heap behind the allocator's own
    record, also when it is the only one, and two blocks never overlap: their tags
    lie between them. *)
Theorem heap_reachable_safe m L : heap_reachable base e (m, L) →
  (∀ p n, L !! p = Some n → 0 <= n ∧ al p ∧ base + 48 <= p ∧ p + n + 16 <= e) ∧
  (∀ p n q k, L !! p = Some n → L !! q = Some k → p ≠ q → p + n + 32 <= q ∨ q + k + 32 <= p).
Proof.
  intros Hr. destruct (client_ok_reachable m L Hr) as (cs & Hinv & Hin & _).
  pose proof (al_first base e region_base) as Ha. pose proof (at_tiled _ _ _ _ _ (proj1 Hinv)) as Ht. split.
  - intros p n Hp. destruct (Hin p n Hp) as (s & Hs & Hn).
    pose proof (is_live_bounds _ _ _ _ _ Ht Ha Hs) as (Hal & _ & Hlow & Hhi & _).
    rewrite (at_span _ _ _ _ _ (proj1 Hinv)) in Hhi. unfold heap_first in *. split; [lia|]. split; [align|]. lia.
  - intros p n q k Hp Hq Hne. destruct (Hin p n Hp) as (s & Hs & Hn), (Hin q k Hq) as (t & Hlt & Hk).
    destruct (is_live_disjoint _ _ _ _ _ _ _ Ht Hs Hlt) as [[? _]|?]; lia.
Qed.

(** C7: [heap_malloc] always returns; it returns [NULL] without touching memory,
    or a block the task did not hold, of at least the requested size unless that is
    within 15 bytes of 2^32, with the contents of all the blocks the task holds
    unchanged. *)
Theorem heap_malloc_spec m L size : heap_reachable base e (m, L) → 0 <= size < 2 ^ 32 →
  let n := granted size in
  ∃ m' p, heap_malloc m base size = Some (m', p) ∧
  ((p = 0 ∧ m' = m) ∨
   (p ≠ 0 ∧ L !! p = None ∧ al p ∧ base + 48 <= p ∧ p + n + 16 <= e ∧
    (∀ q k, L !! q = Some k → same_data q k m m' ∧ (p + n + 32 <= q ∨ q + k + 32 <= p)))).
Proof.
  intros Hr Hs n. rewrite malloc_granted by done. destruct (granted_spec size Hs) as (Hn & Hn' & _). fold n in Hn, Hn' |- *.
  clearbody n. destruct (client_ok_reachable m L Hr) as (cs & Hinv & Hin & _).
  pose proof (al_first base e region_base) as Ha.
  destruct (heap_malloc_client base e region_base region_end m cs n Hinv Hn) as (m' & p & E & Hp); [lia|].
  exists m', p. split; [done|]. destruct Hp as [(-> & -> & _)|(h & t & cs' & -> & Hinv' & Ht & Hnew & HL & HB)]; [by left|right].
  assert (is_live (heap_first base) cs' h t) as Hl by (apply HL; by left).
  pose proof (at_tiled _ _ _ _ _ (proj1 Hinv')) as Htl.
  pose proof (is_live_bounds _ _ _ _ _ Htl Ha Hl) as (Hal & _ & Hlow & Hhi & _).
  rewrite (at_span _ _ _ _ _ (proj1 Hinv')) in Hhi. destruct (round_size_spec n) as (_ & Hz & _); [lia|lia|].
  unfold heap_first in Hlow. pose proof region_base.
  split; [lia|]. split; [|split; [align|split; [lia|split; [lia|]]]].
  - destruct (L !! (h + 16)) as [k|] eqn:Ek; [|done]. destruct (Hin _ _ Ek) as (u & Hu & _).
    replace (h + 16 - 16) with h in Hu by lia. by apply Hnew in Hu.
  - intros q k Hq. destruct (Hin q k Hq) as (u & Hu & Hku). split.
    + eapply data_kept_block; [exact HB|exact Hu|tauto|lia].
    + assert (is_live (heap_first base) cs' (q - 16) u) as Hu' by (apply HL; by right).
      destruct (is_live_disjoint _ _ _ _ _ _ _ Htl Hl Hu') as [[Eh _]|?]; [|lia]. rewrite <- Eh in Hu. by apply Hnew in Hu.
Qed.

(** C8: [heap_realloc] always returns; on failure every block, the resized one
    included, keeps its contents; on success the block at the new address starts
    with the old contents, as far as both sizes go, and the other blocks keep
    theirs.  A new size within 15 bytes of 2^32 counts as 0. *)
Theorem heap_realloc_spec m L p k size : heap_reachable base e (m, L) → L !! p = Some k → 0 <= size < 2 ^ 32 →
  let n := granted size in
  ∃ m' q, heap_realloc m base p size = Some (m', q) ∧
  (∀ x j, L !! x = Some j → x ≠ p → same_data x j m m') ∧
  ((q = 0 ∧ same_data p k m m') ∨
   (q ≠ 0 ∧ (q = p ∨ L !! q = None) ∧ al q ∧ base + 48 <= q ∧ q + n + 16 <= e ∧
    ∀ i, 0 <= i < k → i < n → ldb m' (q + i) = ldb m (p + i))).
Proof.
  intros Hr Hp Hsz n. rewrite realloc_granted by done. destruct (granted_spec size Hsz) as (Hn & Hn' & _). fold n in Hn, Hn' |- *.
  clearbody n. destruct (client_ok_reachable m L Hr) as (cs & Hinv & Hin & _).
  pose proof (al_first base e region_base) as Ha. destruct (Hin p k Hp) as (s & Hs & Hks).
  destruct (heap_realloc_client base e region_base region_end m cs (p - 16) s n Hinv Hs Hn Hn') as (m' & q & E & Hpost).
  replace (p - 16 + 16) with p in E by lia. exists m', q. split; [done|].
  destruct Hpost as (cs' & h' & t & Hinv' & HB & HL & Hnew & Hq).
  replace (p - 16 + 16) with p in Hq by lia. destruct (round_size_spec n) as (_ & Hz & _); [lia|lia|]. split.
  { intros x j Hx Hxp. destruct (Hin x j Hx) as (u & Hu & ?). eapply data_kept_block; [exact HB|exact Hu|cbv beta; lia|lia]. }
  destruct Hq as [(-> & _ & _ & Hd)|(-> & Ht & Hd)]; [left|right].
  { split; [done|]. intros i Hi. apply Hd. lia. }
  assert (is_live (heap_first base) cs' h' t) as Hl by (apply HL; by left).
  pose proof (is_live_bounds _ _ _ _ _ (at_tiled _ _ _ _ _ (proj1 Hinv')) Ha Hl) as (Hal & _ & Hlow & Hhi & _).
  rewrite (at_span _ _ _ _ _ (proj1 Hinv')) in Hhi. unfold heap_first in Hlow. pose proof region_base.
  split; [lia|]. split; [|split; [align|split; [lia|split; [lia|]]]].
  - destruct Hnew as [->|Hnew]; [left; lia|right]. destruct (L !! (h' + 16)) as [j|] eqn:Ej; [|done].
    destruct (Hin _ _ Ej) as (u & Hu & _). replace (h' + 16 - 16) with h' in Hu by lia. by apply Hnew in Hu.
  - intros i Hi Hi'. apply Hd; lia.
Qed.

(** C9: [heap_free] keeps the contents of the other blocks, and once the task
    has freed everything the heap is one free chunk again, whatever the order of
    calls was: a request for any size up to the whole heap then succeeds, at the
    start of the heap. *)
Theorem heap_free_all m L p k : heap_reachable base e (m, L) → L !! p = Some k →
  let m' := heap_free m base p in
  (∀ q j, L !! q = Some j → q ≠ p → same_data q j m m') ∧
  (delete p L = ∅ → ∀ n, 0 <= n <= e - base - 64 → ∃ m2, heap_malloc m' base n = Some (m2, base + 48)).
Proof.
  intros Hr Hp m'. destruct (client_ok_reachable m L Hr) as (cs & Hinv & Hin & Hout).
  destruct (Hin p k Hp) as (s & Hs & Hks).
  destruct (heap_free_client base e region_base region_end m cs (p - 16) s Hinv Hs) as (cs' & Hinv' & HL & HB).
  replace (p - 16 + 16) with p in Hinv', HB by lia. fold m' in Hinv', HB. split.
  { intros q j Hq Hqp. destruct (Hin q j Hq) as (u & Hu & ?). eapply data_kept_block; [exact HB|exact Hu|cbv beta; lia|lia]. }
  intros Hemp n [Hn Hfit]. destruct Hreg as (Ab & Hb0 & Ae & Hroom & Hee).
  assert (n + 15 < 2 ^ 32) as Hn' by lia. destruct (round_size_spec n Hn Hn') as (Ar & Hr' & _).
  assert (round_size n <= e - base - 64) as Hfit' by align. clear Hfit.
  assert (cs' = [(e - heap_first base - 32, true)]) as ->.
  { eapply empty_heap_chunks; [exact Hinv'|]. intros h t Hl. apply HL in Hl as [Hl Hhp].
    destruct (Hout h t Hl) as [j Hj]. assert (delete p L !! (h + 16) = Some j) as Hd
      by (rewrite lookup_delete_ne by lia; done). by rewrite Hemp in Hd. }
  destruct (heap_malloc_ok base e region_base region_end m' _ n Hinv' Hn) as (m2 & q & E & Hq); [lia|].
  exists m2. rewrite E. destruct Hq as [(_ & _ & Hno)|(l & t & r & El & _ & -> & _)].
  - exfalso. pose proof (Hno (heap_first base) (e - heap_first base - 32)) as Hf. cbn [is_free] in Hf.
    unfold heap_first in *. assert (e - (base + 32) - 32 < round_size n) by (apply Hf; left; done). lia.
  - destruct l as [|[a b] l]; [|destruct l; done]. cbn [span]. unfold heap_first. by replace (base + 32 + 0 + 16) with (base + 48) by lia.
Qed.
(** C20: the heap is confined: [heap_init] and every call and write of the task
    leave each byte outside [base, e) as it is, so a task's allocator never
    reaches another task's memory or the kernel's. *)
Theorem heap_confined m L m' L' : heap_reachable base e (m, L) → heap_step base (m, L) (m', L') →
  same_outside m m' ∧ same_outside m (heap_init m base e).
Proof.
  intros Hr Hs. split; [|apply heap_init_outside].
  eapply heap_step_outside; [by apply client_ok_reachable|done].
Qed.
End client.

(** A request within 16 bytes of 2^32 wraps to a request for 0 bytes: the
    caller gets a block that is smaller than what it asked for. *)
Lemma heap_malloc_wraps m base n : 2 ^ 32 - 15 <= n < 2 ^ 32 →
  heap_malloc m base n = heap_malloc m base 0.
Proof.
  intros Hn. rewrite malloc_granted by lia. unfold granted. by rewrite (proj2 (Z.ltb_ge _ _)) by lia.
Qed.

(** ** A concrete heap: 512 bytes, two blocks *)

Definition demo_base : Z := 4096.
Definition demo_end : Z := 4608.
Definition demo_first : option (mem * Z) := heap_malloc (heap_init ∅ demo_base demo_end) demo_base 20.
Definition demo_mem1 : mem := from_option fst ∅ demo_first.
Definition demo_second : option (mem * Z) := heap_malloc demo_mem1 demo_base 40.
Definition demo_mem : mem := from_option fst ∅ demo_second.
Definition demo_blocks : blocks := <[4208 := 40]> {[4144 := 20]}.

Lemma demo_region : region_ok demo_base demo_end.
Proof. unfold region_ok, al, demo_base, demo_end. repeat split; lia. Qed.

Lemma result_eq (r : option (mem * Z)) p : option_map snd r = Some p → r = Some (from_option fst ∅ r, p).
Proof. destruct r as [[m q]|]; [|discriminate]. cbn. by intros [= ->]. Qed.

Lemma demo_first_eq : demo_first = Some (demo_mem1, 4144).
Proof. apply result_eq. vm_compute. reflexivity. Qed.
Lemma demo_second_eq : demo_second = Some (demo_mem, 4208).
Proof. apply result_eq. vm_compute. reflexivity. Qed.

Lemma demo_reachable1 : heap_reachable demo_base demo_end (demo_mem1, {[4144 := 20]}).
Proof.
  eapply reach_step; [apply (reach_init demo_base demo_end ∅)|].
  apply (step_malloc demo_base _ _ 20 _ _ ltac:(lia) demo_first_eq).
Qed.

Lemma demo_reachable : heap_reachable demo_base demo_end (demo_mem, demo_blocks).
Proof.
  eapply reach_step; [exact demo_reachable1|]. apply (step_malloc demo_base _ _ 40 _ _ ltac:(lia) demo_second_eq).
Qed.

Lemma heap_reachable_safe_witness :
  (∀ p n, demo_blocks !! p = Some n → 0 <= n ∧ al p ∧ demo_base + 48 <= p ∧ p + n + 16 <= demo_end) ∧
  (∀ p n q k, demo_blocks !! p = Some n → demo_blocks !! q = Some k → p ≠ q → p + n + 32 <= q ∨ q + k + 32 <= p).
Proof. exact (heap_reachable_safe demo_base demo_end demo_region demo_mem demo_blocks demo_reachable). Defined.

Lemma heap_malloc_spec_witness :
  ∃ m' p, heap_malloc demo_mem demo_base 100 = Some (m', p) ∧
  ((p = 0 ∧ m' = demo_mem) ∨
   (p ≠ 0 ∧ demo_blocks !! p = None ∧ al p ∧ demo_base + 48 <= p ∧ p + 100 + 16 <= demo_end ∧
    (∀ q k, demo_blocks !! q = Some k →
      same_data q k demo_mem m' ∧ (p + 100 + 32 <= q ∨ q + k + 32 <= p)))).
Proof.
  exact (heap_malloc_spec demo_base demo_end demo_region demo_mem demo_blocks 100 demo_reachable ltac:(lia)).
Defined.

Lemma heap_realloc_spec_witness :
  ∃ m' q, heap_realloc demo_mem demo_base 4144 90 = Some (m', q) ∧
  (∀ x j, demo_blocks !! x = Some j → x ≠ 4144 → same_data x j demo_mem m') ∧
  ((q = 0 ∧ same_data 4144 20 demo_mem m') ∨
   (q ≠ 0 ∧ (q = 4144 ∨ demo_blocks !! q = None) ∧ al q ∧ demo_base + 48 <= q ∧ q + 90 + 16 <= demo_end ∧
    ∀ i, 0 <= i < 20 → i < 90 → ldb m' (q + i) = ldb demo_mem (4144 + i))).
Proof.
  exact (heap_realloc_spec demo_base demo_end demo_region demo_mem demo_blocks 4144 20 90
    demo_reachable eq_refl ltac:(lia)).
Defined.

(** The heap with one block: freeing it gives the whole heap back, 448 bytes. *)
Lemma heap_free_all_witness :
  ∃ m2, heap_malloc (heap_free demo_mem1 demo_base 4144) demo_base 448 = Some (m2, 4144).
Proof.
  exact (proj2 (heap_free_all demo_base demo_end demo_region demo_mem1 {[4144 := 20]} 4144 20 demo_reachable1 eq_refl)
    (eq_refl : delete 4144 ({[4144 := 20]} : blocks) = ∅) 448 ltac:(unfold demo_end, demo_base; lia)).
Defined.

Lemma heap_confined_witness :
  same_outside demo_base demo_end demo_mem (heap_free demo_mem demo_base 4144) ∧
  same_outside demo_base demo_end demo_mem (heap_init demo_mem demo_base demo_end).
Proof.
  exact (heap_confined demo_base demo_end demo_region demo_mem demo_blocks _ _ demo_reachable
    (step_free demo_base demo_mem demo_blocks 4144 20 eq_refl)).
Defined.
