(* ===== verification/Tidl.v ===== *)
(** * The wire format library

    lib/tidl.c: big-endian serialization of integers and strings into a buffer
    of given length with a running position, where a NULL buffer only counts
    bytes; and the combinators with which the generated protocol files
    sequence such calls.  A serializer maps the length argument and the pair of
    buffer and position to the C return value and the new pair; a deserializer
    also updates the object its output pointer designates. *)

From S2P Require Import Prelude Words Stdc Memory.

Local Open Scope Z_scope.
Local Open Scope orp_scope.

(** ** Integers *)

(** [w_buf = None] is the NULL buffer. *)
Record wr := Wr { w_buf : option (list Z); w_pos : Z }.

Definition ser : Type := Z → wr → Z * wr.
Definition deser (T : Type) : Type := list Z → Z → Z * T → Z * (Z * T).

(** One turn of the loop of define_integral_serialize. *)
Definition put_step (serial_size : nat) (p : Z) (i : nat) (st : list Z * Z) : list Z * Z :=
  let '(buf, pos) := st in
  let shift := Z.of_nat serial_size - 1 - Z.of_nat i in
  (upd buf (Z.to_nat pos) ((if 0 <? shift then p >>> (8 * shift) else p) .& 0xff), u32 (pos + 1)).

Definition integral_serialize (serial_size : nat) (p : Z) : ser := λ l_buf w,
  match w_buf w with
  | None => (0, Wr None (u32 (w_pos w + Z.of_nat serial_size)))
  | Some buf =>
      if l_buf <? u32 (w_pos w + Z.of_nat serial_size) then (-1, w)
      else let '(buf, pos) := for_loop 0 serial_size (put_step serial_size p) (buf, w_pos w) in
        (0, Wr (Some buf) pos)
  end.

(** The conversions to the integer types of [n] bytes. *)
Definition wrap_u (n : nat) (v : Z) : Z := v mod 2 ^ (8 * Z.of_nat n).
Definition wrap_s (n : nat) (v : Z) : Z :=
  (v + 2 ^ (8 * Z.of_nat n - 1)) mod 2 ^ (8 * Z.of_nat n) - 2 ^ (8 * Z.of_nat n - 1).

(** One turn of the loop of define_integral_deserialize, with the conversion to
    the type of [in]. *)
Definition get_step (conv : Z → Z) (buf : list Z) (_ : nat) (st : Z * Z) : Z * Z :=
  let '(pos, v) := st in
  (u32 (pos + 1), conv ((v <<< 8) .| (get buf (Z.to_nat pos) .& 0xff))).

Definition integral_deserialize (conv : Z → Z) (serial_size : nat) : deser Z := λ buf l_buf st,
  let '(pos, p) := st in
  if l_buf <? u32 (pos + Z.of_nat serial_size) then (-1, (pos, p))
  else (0, for_loop 0 serial_size (get_step conv buf) (pos, 0)).

Definition int8_serialize := integral_serialize 1.
Definition int16_serialize := integral_serialize 2.
Definition int32_serialize := integral_serialize 4.
Definition int64_serialize := integral_serialize 8.
Definition int8_deserialize := integral_deserialize (wrap_s 1) 1.
Definition int16_deserialize := integral_deserialize (wrap_s 2) 2.
Definition int32_deserialize := integral_deserialize (wrap_s 4) 4.
Definition int64_deserialize := integral_deserialize (wrap_s 8) 8.
Definition uint8_serialize := integral_serialize 1.
Definition uint16_serialize := integral_serialize 2.
Definition uint32_serialize := integral_serialize 4.
Definition uint64_serialize := integral_serialize 8.
Definition uint8_deserialize := integral_deserialize (wrap_u 1) 1.
Definition uint16_deserialize := integral_deserialize (wrap_u 2) 2.
Definition uint32_deserialize := integral_deserialize (wrap_u 4) 4.
Definition uint64_deserialize := integral_deserialize (wrap_u 8) 8.

(** ** Sequencing

    [ret = f(...); if (ret) return ret; ...]. *)

Definition ser_ok : ser := λ _ w, (0, w).
Definition ser_seq (a b : ser) : ser := λ l w,
  let '(ret, w) := a l w in if negb (ret =? 0) then (ret, w) else b l w.
Fixpoint ser_loop (f : nat → ser) (from n : nat) : ser :=
  match n with O => ser_ok | S n => ser_seq (f from) (ser_loop f (S from) n) end.

Definition deser_ok {T} : deser T := λ _ _ st, (0, st).
Definition deser_seq {T} (a b : deser T) : deser T := λ buf l st,
  let '(ret, st) := a buf l st in if negb (ret =? 0) then (ret, st) else b buf l st.
Fixpoint deser_loop {T} (f : nat → deser T) (from n : nat) : deser T :=
  match n with O => deser_ok | S n => deser_seq (f from) (deser_loop f (S from) n) end.

(** A call whose output pointer designates a part of the object. *)
Definition field {T F} (rd : T → F) (wt : F → T → T) (m : deser F) : deser T := λ buf l st,
  let '(ret, (pos, v)) := m buf l (st.1, rd st.2) in (ret, (pos, wt v st.2)).

Declare Scope tidl_scope.
Delimit Scope tidl_scope with tidl.
Notation "a ;> b" := (ser_seq a b) (at level 60, right associativity) : tidl_scope.
Notation "a ;>> b" := (deser_seq a b) (at level 60, right associativity) : tidl_scope.

(** [switch (x) { case c1: e1; break; ... default: d; }]. *)
Definition switch {A} (x : Z) (cases : list (Z * A)) (dflt : A) : A :=
  foldr (λ '(c, e) rest, if x =? c then e else rest) dflt cases.

Definition ser_fail : ser := λ _ w, (-1, w).

(** [int32_t v; ret = int32_deserialize(in, len, pos, &v); if (ret) return ret;
    switch (v) { case c: *out = e; break; ... default: ret = -1; }]. *)
Definition enum_deserialize (cases : list (Z * Z)) : deser Z := λ buf l st,
  let '(pos, out) := st in
  let '(ret, (pos, v)) := int32_deserialize buf l (pos, 0) in
  if negb (ret =? 0) then (ret, (pos, out))
  else switch v (map (λ '(c, e), (c, (0, (pos, e)))) cases) (-1, (pos, out)).

(** ** Strings

    [None] when [msel_strlen] would run off the end of [inp]. *)

Definition string_serialize (inp : list Z) (l_out : Z) (w : wr) : option (Z * wr) :=
  n ← msel_strlen inp;
  let len := u16 (Z.of_nat n) in
  Some ((uint16_serialize len ;> ser_loop (λ i, uint8_serialize (get inp i)) 0 (Z.to_nat len))%tidl l_out w).

(** The loop of [string_deserialize]: the byte goes to [&out[i]], four bytes per
    step on the 32-bit target. *)
Fixpoint string_loop (buf : list Z) (l_in out : Z) (i n : nat) (pos : Z) (m : mem) : Z * (Z * mem) :=
  match n with
  | O => (0, (pos, m))
  | S n =>
      let '(r, (pos, v)) := uint8_deserialize buf l_in (pos, ldb m (out + 4 * Z.of_nat i)) in
      let m := stb m (out + 4 * Z.of_nat i) v in
      if negb (r =? 0) then (r, (pos, m)) else string_loop buf l_in out (S i) n pos m
  end.

(** [malloc] is the allocator of the task; [out] is the address of the caller's
    pointer. *)
Definition string_deserialize (malloc : mem → Z → mem * Z) (buf : list Z) (l_in pos out : Z) (m : mem) :
    Z * (Z * mem) :=
  let '(r, (pos, len)) := uint16_deserialize buf l_in (pos, 0) in
  if negb (r =? 0) then (r, (pos, m))
  else
    let '(m, p) := malloc m (1 + len) in
    let m := store32 m out p in
    if p =? 0 then (-1, (pos, m))
    else string_loop buf l_in out 0 (Z.to_nat len) pos (mem_set m p 0 (Z.to_nat (1 + len))).

(** ** What a serializer and a deserializer promise *)

Definition splice (buf : list Z) (pos : Z) (bytes : list Z) : list Z :=
  take (Z.to_nat pos) buf ++ bytes ++ drop (Z.to_nat pos + length bytes) buf.

(** [m] writes [bytes]: it counts them for a NULL buffer, stores them at the
    position when they fit, and otherwise returns -1 having stored only bytes
    that fit. *)
Record puts (m : ser) (bytes : list Z) : Prop := Puts {
  puts_null : ∀ l pos, is_u32 pos → m l (Wr None pos) = (0, Wr None (u32 (pos + Z.of_nat (length bytes))));
  puts_fit : ∀ l buf pos, 0 <= pos → pos + Z.of_nat (length bytes) <= l → l <= Z.of_nat (length buf) → l < 2 ^ 32 →
    m l (Wr (Some buf) pos) = (0, Wr (Some (splice buf pos bytes)) (pos + Z.of_nat (length bytes)));
  puts_full : ∀ l buf pos, 0 <= pos <= l → l < pos + Z.of_nat (length bytes) → l <= Z.of_nat (length buf) →
    l <= 2 ^ 32 - 9 →
    ∃ k, (k < length bytes)%nat ∧ pos + Z.of_nat k <= l ∧
      m l (Wr (Some buf) pos) = (-1, Wr (Some (splice buf pos (take k bytes))) (pos + Z.of_nat k));
}.

(** The buffer holds [bytes] at the position. *)
Definition holds (buf : list Z) (pos : Z) (bytes : list Z) : Prop :=
  ∀ i, (i < length bytes)%nat → get buf (Z.to_nat pos + i) = get bytes i.

(** [m] reads [bytes], which turn an object [t] with [wf t] into [g t]; on any
    input it returns -1, or 0 having moved by the length of [bytes] within the
    buffer. *)
Record gets {T} (m : deser T) (bytes : list Z) (wf : T → Prop) (g : T → T) : Prop := Gets {
  gets_ok : ∀ buf l pos t, 0 <= pos → pos + Z.of_nat (length bytes) <= l → l < 2 ^ 32 →
    holds buf pos bytes → wf t → m buf l (pos, t) = (0, (pos + Z.of_nat (length bytes), g t));
  gets_any : ∀ buf l pos t, 0 <= pos <= l → l <= 2 ^ 32 - 9 →
    (m buf l (pos, t)).1 = -1 ∨
    (m buf l (pos, t)).1 = 0 ∧ (m buf l (pos, t)).2.1 = pos + Z.of_nat (length bytes) ∧
      pos + Z.of_nat (length bytes) <= l;
  gets_wf : ∀ t, wf t → wf (g t);
}.

(** ** Lemmas *)

Lemma splice_length buf pos bytes : 0 <= pos → pos + Z.of_nat (length bytes) <= Z.of_nat (length buf) →
  length (splice buf pos bytes) = length buf.
Proof. intros. unfold splice. rewrite !length_app, length_take, length_drop. lia. Qed.

Lemma splice_nil buf pos : splice buf pos [] = buf.
Proof. unfold splice. cbn [app length]. by rewrite Nat.add_0_r, take_drop. Qed.

Lemma splice_app buf pos b1 b2 : 0 <= pos → pos + Z.of_nat (length b1 + length b2) <= Z.of_nat (length buf) →
  splice (splice buf pos b1) (pos + Z.of_nat (length b1)) b2 = splice buf pos (b1 ++ b2).
Proof.
  intros Hp Hl. unfold splice. rewrite Z2Nat.inj_add, Nat2Z.id by lia. set (k := Z.to_nat pos) in *.
  assert (k ≤ length buf)%nat by lia. assert (length (take k buf) = k) as Ht by (rewrite length_take; lia).
  rewrite (app_assoc (take k buf) b1). assert (length (take k buf ++ b1) = (k + length b1)%nat) as Hk
    by (rewrite length_app; lia).
  rewrite <- Hk at 1. rewrite take_app_length, <- !app_assoc. do 3 f_equal.
  rewrite drop_app_ge by (rewrite Ht; lia). rewrite Ht, drop_app_ge, drop_drop, length_app by lia. f_equal. lia.
Qed.

Lemma holds_app buf pos b1 b2 : 0 <= pos → holds buf pos (b1 ++ b2) →
  holds buf pos b1 ∧ holds buf (pos + Z.of_nat (length b1)) b2.
Proof.
  intros Hp H. split; intros i Hi.
  - rewrite H by (rewrite length_app; lia). by apply get_app_l.
  - replace (Z.to_nat (pos + Z.of_nat (length b1)) + i)%nat with (Z.to_nat pos + (length b1 + i))%nat by lia.
    rewrite H by (rewrite length_app; lia). rewrite get_app_r by lia. f_equal. lia.
Qed.

Lemma splice_holds buf pos bytes : 0 <= pos → pos + Z.of_nat (length bytes) <= Z.of_nat (length buf) →
  holds (splice buf pos bytes) pos bytes.
Proof.
  intros Hp Hl i Hi. unfold splice. rewrite get_app_r by (rewrite length_take; lia).
  rewrite length_take, get_app_l by lia. f_equal. lia.
Qed.

Lemma puts_ok_nil : puts ser_ok [].
Proof.
  split; intros; cbn [length] in *.
  - unfold ser_ok. by rewrite Z.add_0_r, u32_id.
  - unfold ser_ok. by rewrite splice_nil, Z.add_0_r.
  - lia.
Qed.

Lemma puts_seq a b ba bb : puts a ba → puts b bb → puts (ser_seq a b) (ba ++ bb).
Proof.
  intros Ha Hb. split; intros l.
  - intros pos Hp. unfold ser_seq. rewrite (puts_null _ _ Ha) by done. cbn [negb Z.eqb].
    rewrite (puts_null _ _ Hb) by apply u32_range. do 2 f_equal.
    rewrite length_app. unfold u32. rewrite Zplus_mod_idemp_l. f_equal. lia.
  - intros buf pos Hp Hl Hbuf Hl32. rewrite length_app in *. unfold ser_seq.
    rewrite (puts_fit _ _ Ha) by lia. cbn [negb Z.eqb].
    rewrite (puts_fit _ _ Hb) by (rewrite ?splice_length; lia). rewrite splice_app by lia. do 2 f_equal. lia.
  - intros buf pos Hp Hl Hbuf Hl32. rewrite length_app in Hl. unfold ser_seq.
    destruct (Z.lt_ge_cases l (pos + Z.of_nat (length ba))) as [Hlt|Hge].
    + destruct (puts_full _ _ Ha l buf pos) as (k & Hk & Hkl & ->); [lia..|]. cbn [negb Z.eqb]. exists k.
      rewrite length_app, take_app_le by lia. split; [lia|]. done.
    + rewrite (puts_fit _ _ Ha) by lia. cbn [negb Z.eqb].
      destruct (puts_full _ _ Hb l (splice buf pos ba) (pos + Z.of_nat (length ba))) as (k & Hk & Hkl & ->);
        [lia|lia|rewrite splice_length; lia|lia|].
      exists (length ba + k)%nat. rewrite length_app, take_app_add. split; [lia|]. split; [lia|].
      rewrite splice_app by (rewrite ?length_take; lia). do 2 f_equal. lia.
Qed.

Lemma puts_loop f bytes from n : (∀ i, (from ≤ i < from + n)%nat → puts (f i) (bytes i)) →
  puts (ser_loop f from n) (concat (map bytes (seq from n))).
Proof.
  revert from. induction n as [|n IH]; intros from H; [apply puts_ok_nil|].
  cbn [ser_loop seq map concat]. apply puts_seq; [apply H; lia|]. apply IH. intros. apply H. lia.
Qed.

Section gets.
Context {T : Type} (wf : T → Prop).

Lemma gets_nil : gets (@deser_ok T) [] wf id.
Proof.
  split; intros; cbn [length] in *; [|right|done].
  - unfold deser_ok. by rewrite Z.add_0_r.
  - unfold deser_ok. cbn [fst snd]. lia.
Qed.

Lemma gets_seq a b ba bb g h : gets a ba wf g → gets b bb wf h →
  gets (deser_seq a b) (ba ++ bb) wf (λ t, h (g t)).
Proof.
  intros Ha Hb. split.
  - intros buf l pos t Hp Hl Hl32 Hh Ht. rewrite length_app in *. destruct (holds_app _ _ _ _ Hp Hh) as [H1 H2].
    unfold deser_seq. rewrite (gets_ok _ _ _ _ Ha) by (done || lia). cbn [negb Z.eqb].
    rewrite (gets_ok _ _ _ _ Hb) by (done || lia || by apply (gets_wf _ _ _ _ Ha)). do 2 f_equal. lia.
  - intros buf l pos t Hp Hl. rewrite length_app. unfold deser_seq.
    destruct (gets_any _ _ _ _ Ha buf l pos t) as [E|(E & Ep & Hl')]; [lia..|left|].
    { destruct (a buf l (pos, t)) as [r st]. cbn [fst] in *. subst r. done. }
    destruct (a buf l (pos, t)) as [r [pos' t']]. cbn [fst snd] in *. subst r pos'. cbn [negb Z.eqb].
    destruct (gets_any _ _ _ _ Hb buf l (pos + Z.of_nat (length ba)) t') as [E|(E & Ep & Hl'')]; [lia..|by left|right].
    split; [done|]. lia.
  - intros t Ht. by apply (gets_wf _ _ _ _ Hb), (gets_wf _ _ _ _ Ha).
Qed.
End gets.

(** A field of an object. *)
Lemma gets_field {T F} (rd : T → F) (wt : F → T → T) (m : deser F) bytes wfF g (wf : T → Prop) :
  gets m bytes wfF g → (∀ t, wf t → wfF (rd t)) → (∀ t, wf t → wf (wt (g (rd t)) t)) →
  gets (field rd wt m) bytes wf (λ t, wt (g (rd t)) t).
Proof.
  intros H Hrd Hwt. split; [| |done].
  - intros buf l pos t Hp Hl Hl32 Hh Ht. unfold field. cbn [fst snd].
    by rewrite (gets_ok _ _ _ _ H) by auto.
  - intros buf l pos t Hp Hl. unfold field. cbn [fst snd]. pose proof (gets_any _ _ _ _ H buf l pos (rd t) Hp Hl) as Ha.
    destruct (m buf l (pos, rd t)) as [r [pos' v]]. exact Ha.
Qed.

(** ** Integers on the wire *)

(** The [n] low bytes of [p], most significant first. *)
Definition be_bytes (n : nat) (p : Z) : list Z :=
  map (λ i, (p >>> (8 * (Z.of_nat n - 1 - Z.of_nat i))) .& 0xff) (seq 0 n).

Lemma be_bytes_length n p : length (be_bytes n p) = n.
Proof. unfold be_bytes. by rewrite length_map, length_seq. Qed.

Lemma land_ff x : x .& 0xff = x mod 2 ^ 8.
Proof. exact (Z.land_ones x 8 ltac:(lia)). Qed.

Lemma be_bytes_get n p i : (i < n)%nat →
  get (be_bytes n p) i = (p >>> (8 * (Z.of_nat n - 1 - Z.of_nat i))) mod 2 ^ 8.
Proof.
  intros Hi. unfold be_bytes, get. rewrite list_lookup_fmap, lookup_seq_lt by done. cbn. apply land_ff.
Qed.

Lemma splice_snoc buf pos b k x : length b = k → 0 <= pos → pos + Z.of_nat k < Z.of_nat (length buf) →
  <[Z.to_nat (pos + Z.of_nat k) := x]> (splice buf pos b) = splice buf pos (b ++ [x]).
Proof.
  intros <- Hp Hl. rewrite <- splice_app by (cbn [length]; lia). unfold splice at 2.
  rewrite insert_take_drop by (rewrite splice_length; lia). cbn [app length]. do 2 f_equal. f_equal. lia.
Qed.

Lemma put_loop n p buf pos k : (k ≤ n)%nat → 0 <= pos → pos + Z.of_nat n <= Z.of_nat (length buf) → pos + Z.of_nat n < 2 ^ 32 →
  for_loop 0 k (put_step n p) (buf, pos) = (splice buf pos (take k (be_bytes n p)), pos + Z.of_nat k).
Proof.
  intros Hk Hp Hl Hl32. induction k as [|k IH]; [by rewrite take_0, splice_nil, Z.add_0_r|].
  rewrite for_loop_S_r, IH by lia. cbn [Nat.add]. unfold put_step.
  assert (length (take k (be_bytes n p)) = k) as Hlk by (rewrite length_take, be_bytes_length; lia).
  rewrite splice_snoc by (done || lia). f_equal.
  - f_equal. symmetry. apply take_S_r. unfold be_bytes. rewrite list_lookup_fmap, lookup_seq_lt by lia. cbn [fmap option_fmap option_map].
    f_equal. destruct (Z.ltb_spec 0 (Z.of_nat n - 1 - Z.of_nat k)) as [_|Hs]; [done|].
    replace (Z.of_nat n - 1 - Z.of_nat (0 + k)) with 0 by lia. by rewrite Z.shiftr_0_r.
  - rewrite u32_id by (unfold is_u32; lia). lia.
Qed.

Lemma puts_integral n p : (n ≤ 8)%nat → puts (integral_serialize n p) (be_bytes n p).
Proof.
  intros Hn. split; intros l; unfold integral_serialize; cbn [w_buf w_pos]; rewrite be_bytes_length.
  - done.
  - intros buf pos Hp Hl Hbuf Hl32. rewrite u32_id by (unfold is_u32; lia).
    destruct (Z.ltb_spec l (pos + Z.of_nat n)); [lia|]. rewrite put_loop by lia.
    by rewrite take_ge by (rewrite be_bytes_length; lia).
  - intros buf pos Hp Hl Hbuf Hl32. rewrite u32_id by (unfold is_u32; lia).
    destruct (Z.ltb_spec l (pos + Z.of_nat n)); [|lia]. exists 0%nat.
    rewrite take_0, splice_nil, Z.add_0_r. split; [lia|]. split; [lia|done].
Qed.

(** What a conversion to an [n]-byte integer type does. *)
Class IntConv (n : nat) (conv : Z → Z) : Prop := {
  conv_eqm : ∀ x, ∃ j, conv x = x + j * 2 ^ (8 * Z.of_nat n);
  conv_shift : ∀ x j, conv (x + j * 2 ^ (8 * Z.of_nat n)) = conv x;
}.

#[export] Instance wrap_u_conv n : IntConv n (wrap_u n).
Proof.
  assert (2 ^ (8 * Z.of_nat n) ≠ 0) by (apply Z.pow_nonzero; lia). split; intros x; unfold wrap_u.
  - exists (- (x / 2 ^ (8 * Z.of_nat n))). rewrite Z.mod_eq by done. lia.
  - intros j. by apply Z.mod_add.
Qed.

#[export] Instance wrap_s_conv n : IntConv n (wrap_s n).
Proof.
  assert (2 ^ (8 * Z.of_nat n) ≠ 0) by (apply Z.pow_nonzero; lia). split; intros x; unfold wrap_s.
  - set (h := 2 ^ (8 * Z.of_nat n - 1)). exists (- ((x + h) / 2 ^ (8 * Z.of_nat n))). rewrite Z.mod_eq by done. lia.
  - intros j. rewrite <- (Z.mod_add (x + _) j) by done. do 2 f_equal. lia.
Qed.

Section integral.
Context (n : nat) (conv : Z → Z) {HC : IntConv n conv}.

Lemma get_loop buf pos p k : (k ≤ n)%nat → 0 <= pos → pos + Z.of_nat n < 2 ^ 32 → holds buf pos (be_bytes n p) →
  ∃ v j, for_loop 0 k (get_step conv buf) (pos, 0) = (pos + Z.of_nat k, v) ∧
    (k ≠ 0%nat → conv v = v) ∧ v = (p >>> (8 * Z.of_nat (n - k))) + j * 2 ^ (8 * Z.of_nat k).
Proof.
  intros Hk Hp Hl Hh. induction k as [|k IH].
  { exists 0, (- (p >>> (8 * Z.of_nat n))). rewrite Z.add_0_r, Nat.sub_0_r. split; [done|]. split; [done|].
    change (8 * Z.of_nat 0) with 0. rewrite Z.pow_0_r. lia. }
  destruct IH as (v & j & E & _ & Hv); [lia|]. rewrite for_loop_S_r, E. cbn [Nat.add]. unfold get_step.
  rewrite u32_id by (unfold is_u32; lia). rewrite land_ff.
  replace (Z.to_nat (pos + Z.of_nat k)) with (Z.to_nat pos + k)%nat by lia.
  rewrite Hh, be_bytes_get by (rewrite ?be_bytes_length; lia). rewrite Z.mod_mod by done.
  rewrite lor_shiftl_add by (lia || apply Z.mod_pos_bound; lia).
  set (q := p >>> (8 * (Z.of_nat n - 1 - Z.of_nat k))).
  assert (p >>> (8 * Z.of_nat (n - k)) = q / 2 ^ 8) as Eq.
  { unfold q. rewrite <- Z.shiftr_div_pow2, Z.shiftr_shiftr by lia. f_equal. lia. }
  rewrite Eq in Hv. assert (p >>> (8 * Z.of_nat (n - S k)) = q) as Eq' by (unfold q; f_equal; lia).
  rewrite Eq'. destruct (conv_eqm (v * 2 ^ 8 + q mod 2 ^ 8)) as [i Hi].
  assert (2 ^ (8 * Z.of_nat n) = 2 ^ (8 * Z.of_nat (S k)) * 2 ^ (8 * Z.of_nat (n - S k))) as Epow
    by (rewrite <- Z.pow_add_r by lia; f_equal; lia).
  assert (2 ^ (8 * Z.of_nat (S k)) = 2 ^ (8 * Z.of_nat k) * 2 ^ 8) as Epow'
    by (rewrite <- Z.pow_add_r by lia; f_equal; lia).
  exists (conv (v * 2 ^ 8 + q mod 2 ^ 8)), (j + i * 2 ^ (8 * Z.of_nat (n - S k))).
  split; [f_equal; lia|]. split.
  - intros _. rewrite Hi at 1. apply conv_shift.
  - rewrite Hi, Hv, Epow, Epow'. rewrite (Z.div_mod q (2 ^ 8)) at 3 by done. ring.
Qed.

Lemma gets_integral p wf : (1 ≤ n ≤ 8)%nat → conv p = p → wf p →
  gets (integral_deserialize conv n) (be_bytes n p) wf (λ _, p).
Proof.
  intros Hn Hp Hwf. split; [| |done].
  - intros buf l pos t Hpos Hl Hl32 Hh Ht. rewrite be_bytes_length in *. unfold integral_deserialize.
    rewrite u32_id by (unfold is_u32; lia). destruct (Z.ltb_spec l (pos + Z.of_nat n)); [lia|].
    destruct (get_loop buf pos p n) as (v & j & -> & Hc & Hv); [lia..|done|]. do 2 f_equal.
    rewrite Nat.sub_diag in Hv. change (8 * Z.of_nat 0) with 0 in Hv. rewrite Z.shiftr_0_r in Hv.
    rewrite <- Hc by lia. rewrite Hv, conv_shift. done.
  - intros buf l pos t Hpos Hl. rewrite be_bytes_length. unfold integral_deserialize.
    rewrite u32_id by (unfold is_u32; lia). destruct (Z.ltb_spec l (pos + Z.of_nat n)); [by left|right]. cbn [fst snd].
    split; [done|]. split; [|done]. assert (∀ k, (k ≤ n)%nat → (for_loop 0 k (get_step conv buf) (pos, 0)).1 = pos + Z.of_nat k) as Hk.
    { induction k as [|k IH]; intros Hk; [cbn; lia|]. rewrite for_loop_S_r.
      specialize (IH ltac:(lia)). destruct (for_loop 0 k _ _) as [q v]. cbn [fst] in *. subst q. cbn [get_step fst].
      rewrite u32_id by (unfold is_u32; lia). lia. }
    by apply Hk.
Qed.
End integral.

(** ** Enumerations on the wire *)

(** [table] pairs each enumerator's value with its number on the wire. *)
Record enum_codec (put : Z → ser) (rd : deser Z) (table : list (Z * Z)) : Prop := EnumCodec {
  ec_put : ∀ e w, In (e, w) table → puts (put e) (be_bytes 4 w);
  ec_get : ∀ e w, In (e, w) table → gets rd (be_bytes 4 w) (λ _, True) (λ _, e);
  ec_bad_value : ∀ e l w, ~ In e (map fst table) → put e l w = (-1, w);
  ec_bad_wire : ∀ v buf l pos out, wrap_s 4 v = v → ~ In v (map snd table) →
    0 <= pos → pos + 4 <= l → l < 2 ^ 32 → holds buf pos (be_bytes 4 v) → rd buf l (pos, out) = (-1, (pos + 4, out));
}.

Lemma switch_in {A} x (cases : list (Z * A)) d e : NoDup (map fst cases) → In (x, e) cases → switch x cases d = e.
Proof.
  induction cases as [|[c f] cases IH]; intros Hnd Hin; [done|]. cbn [map fst] in Hnd.
  apply NoDup_cons in Hnd as [Hc Hnd]. unfold switch. cbn [foldr]. fold (switch x cases d).
  destruct Hin as [E|Hin]; [injection E as -> ->; by rewrite Z.eqb_refl|].
  destruct (Z.eqb_spec x c) as [-> | Hne]; [|by apply IH]. exfalso. apply Hc, list_elem_of_In, in_map_iff.
  by exists (c, e).
Qed.

Lemma switch_out {A} x (cases : list (Z * A)) d : ~ In x (map fst cases) → switch x cases d = d.
Proof.
  induction cases as [|[c f] cases IH]; intros Hn; [done|]. unfold switch. cbn [foldr]. fold (switch x cases d).
  destruct (Z.eqb_spec x c) as [-> | Hne]; [exfalso; apply Hn; by left|]. apply IH. intros H. apply Hn. by right.
Qed.

Definition swap_table (table : list (Z * Z)) : list (Z * Z) := map (λ '(e, w), (w, e)) table.

Lemma enum_codec_ok table : NoDup (map fst table) → NoDup (map snd table) →
  Forall (λ w, wrap_s 4 w = w) (map snd table) →
  enum_codec (λ inp, switch inp (map (λ '(e, w), (e, int32_serialize w)) table) ser_fail)
    (enum_deserialize (swap_table table)) table.
Proof.
  intros Hf Hs Hr.
  assert (∀ (A : Type) (h : Z → A), map fst (map (λ '(e, w), (e, h w)) table) = map fst table) as Hfst.
  { intros A h. rewrite map_map. apply map_ext. by intros []. }
  assert (∀ (h : Z → Z * (Z * Z)), map fst (map (λ '(c, e), (c, h e)) (swap_table table)) = map snd table) as Hsnd.
  { intros h. unfold swap_table. rewrite !map_map. apply map_ext. by intros []. }
  assert (∀ e w, In (e, w) table → wrap_s 4 w = w) as Hw.
  { intros e w Hin. rewrite Forall_forall in Hr. apply Hr, list_elem_of_In, in_map_iff. by exists (e, w). }
  split.
  - intros e w Hin. rewrite (switch_in _ _ _ (int32_serialize w)).
    + apply (puts_integral 4). lia.
    + by rewrite Hfst.
    + apply in_map_iff. by exists (e, w).
  - intros e w Hin. pose proof (gets_integral 4 (wrap_s 4) w (λ _, True) ltac:(lia) (Hw e w Hin) I) as Hi.
    split; [| |done].
    + intros buf l pos t Hp Hl Hl32 Hh _. unfold enum_deserialize. unfold int32_deserialize.
      rewrite (gets_ok _ _ _ _ Hi) by done. cbn [negb Z.eqb]. apply switch_in; [by rewrite Hsnd|].
      apply in_map_iff. exists (w, e). split; [done|]. apply in_map_iff. by exists (e, w).
    + intros buf l pos t Hp Hl. unfold enum_deserialize, int32_deserialize.
      destruct (gets_any _ _ _ _ Hi buf l pos 0) as [E|(E & Ep & Hle)]; [lia..|left|].
      { destruct (integral_deserialize _ _ _ _ _) as [r [q v]]. cbn [fst] in *. by subst r. }
      destruct (integral_deserialize _ _ _ _ _) as [r [q v]]. cbn [fst snd] in *. subst r q. cbn [negb Z.eqb].
      generalize (swap_table table). intros cases. induction cases as [|[c f] cases IH]; [by left|].
      cbn [map switch foldr]. destruct (v =? c); [right; done|]. apply IH.
  - intros e l w Hn. rewrite switch_out; [done|]. by rewrite Hfst.
  - intros v buf l pos out Hv Hn Hp Hl Hl32 Hh.
    pose proof (gets_integral 4 (wrap_s 4) v (λ _, True) ltac:(lia) Hv I) as Hi.
    unfold enum_deserialize, int32_deserialize. rewrite (gets_ok _ _ _ _ Hi) by (done || rewrite be_bytes_length; lia).
    cbn [negb Z.eqb]. rewrite be_bytes_length. rewrite switch_out by (by rewrite Hsnd). done.
Qed.

(** Any four bytes are some number on the wire, so a deserializer of an
    enumeration yields an enumerator or fails with the output unchanged. *)
Lemma be_bytes_4_onto a b c d : is_u8 a → is_u8 b → is_u8 c → is_u8 d →
  ∃ v, wrap_s 4 v = v ∧ be_bytes 4 v = [a; b; c; d].
Proof.
  unfold is_u8. intros Ha Hb Hc Hd. set (u := ((a * 2 ^ 8 + b) * 2 ^ 8 + c) * 2 ^ 8 + d).
  assert (∃ v, wrap_s 4 v = v ∧ v mod 2 ^ 32 = u) as (v & Hv & Hu).
  { exists (if u <? 2 ^ 31 then u else u - 2 ^ 32). unfold wrap_s. change (8 * Z.of_nat 4) with 32.
    destruct (Z.ltb_spec u (2 ^ 31)); unfold u in *; split; Z.div_mod_to_equations; lia. }
  exists v. split; [exact Hv|]. unfold be_bytes. cbn [seq map]. rewrite !land_ff, !Z.shiftr_div_pow2 by lia.
  unfold u in Hu. cbn -[Z.pow Z.div Z.modulo]. repeat f_equal; Z.div_mod_to_equations; lia.
Qed.

Lemma enum_any put rd table buf l pos out : enum_codec put rd table → bytes_ok buf → 0 <= pos → pos + 4 <= l →
  l <= Z.of_nat (length buf) → l < 2 ^ 32 →
  rd buf l (pos, out) = (-1, (pos + 4, out)) ∨ ∃ e w, In (e, w) table ∧ rd buf l (pos, out) = (0, (pos + 4, e)).
Proof.
  intros Hc Hb Hp Hl Hlen Hl32. set (k := Z.to_nat pos).
  destruct (be_bytes_4_onto (get buf k) (get buf (k + 1)) (get buf (k + 2)) (get buf (k + 3))) as (v & Hv & Ev); [auto with width..|].
  assert (holds buf pos (be_bytes 4 v)) as Hh.
  { intros i Hi. rewrite Ev in *. cbn [length] in Hi. fold k.
    destruct i as [|[|[|[|]]]]; [by rewrite Nat.add_0_r|done..|lia]. }
  destruct (in_dec Z.eq_dec v (map snd table)) as [Hin|Hn].
  - right. apply in_map_iff in Hin as ([e w] & <- & Hin). exists e, w. split; [exact Hin|].
    by rewrite (gets_ok _ _ _ _ (ec_get _ _ _ Hc e w Hin)) by (rewrite ?be_bytes_length; done || lia).
  - left. by apply (ec_bad_wire _ _ _ Hc v).
Qed.

(** ** Arrays of bytes *)

Lemma be_bytes_1 x : is_u8 x → be_bytes 1 x = [x].
Proof.
  intros Hx. unfold be_bytes. cbn [seq map]. rewrite land_ff. cbn. rewrite Z.shiftr_0_r, Z.mod_small by exact Hx. done.
Qed.

Lemma puts_u8 x : is_u8 x → puts (uint8_serialize x) [x].
Proof. intros Hx. rewrite <- (be_bytes_1 x Hx). apply puts_integral. lia. Qed.

Lemma gets_u8 x : is_u8 x → gets uint8_deserialize [x] (λ _, True) (λ _, x).
Proof.
  intros Hx. rewrite <- (be_bytes_1 x Hx). apply gets_integral; [apply _|lia| |done].
  unfold wrap_u. apply Z.mod_small. exact Hx.
Qed.

Lemma concat_singletons (l : list Z) n : length l = n → concat (map (λ i, [get l i]) (seq 0 n)) = l.
Proof.
  intros <-. induction l as [|x l IH]; [done|]. cbn [length seq map concat app]. f_equal.
  rewrite <- seq_shift, map_map. exact IH.
Qed.

Lemma puts_bytes l n : length l = n → bytes_ok l → puts (ser_loop (λ i, uint8_serialize (get l i)) 0 n) l.
Proof.
  intros Hl Hb. pose proof (puts_loop (λ i, uint8_serialize (get l i)) (λ i, [get l i]) 0 n) as H.
  rewrite (concat_singletons l n Hl) in H. apply H. intros i Hi. apply puts_u8. auto with width.
Qed.

(** The loop that reads an array, element [i] being written by [wt i]. *)
Section gets_array.
Context {T : Type} (wf : T → Prop) (rd : T → list Z) (wt : list Z → T → T) (n : nat).
Context (Hlen : ∀ t, wf t → length (rd t) = n) (Hwf : ∀ l t, wf t → length l = n → wf (wt l t)).
Context (Hrw : ∀ l t, rd (wt l t) = l) (Hww : ∀ l k t, wt l (wt k t) = wt l t) (Hwr : ∀ t, wt (rd t) t = t).

Definition elem (i : nat) : deser T :=
  field (λ t, get (rd t) i) (λ v t, wt (<[i := v]> (rd t)) t) uint8_deserialize.

Lemma gets_elems l from : bytes_ok l → (from + length l)%nat = n →
  gets (deser_loop elem from (length l)) l wf (λ t, wt (take from (rd t) ++ l) t).
Proof.
  revert from. induction l as [|x l IH]; intros from Hb Hn.
  - cbn [length] in *. rewrite Nat.add_0_r in Hn. subst from.
    destruct (gets_nil wf) as [H1 H2 H3]. cbn [deser_loop]. split.
    + intros buf lb pos t Hp Hl Hl32 Hh Ht. rewrite H1 by done. unfold id.
      by rewrite app_nil_r, take_ge, Hwr by (rewrite Hlen by done; lia).
    + exact H2.
    + intros t Ht. rewrite app_nil_r, take_ge, Hwr by (rewrite Hlen by done; lia). done.
  - apply Forall_cons in Hb as [Hx Hb]. cbn [length] in Hn |- *. cbn [deser_loop].
    assert (gets (elem from) [x] wf (λ t, wt (<[from := x]> (rd t)) t)) as H1.
    { apply (gets_field (λ t, get (rd t) from) (λ v t, wt (<[from := v]> (rd t)) t) uint8_deserialize [x]
        (λ _, True) (λ _, x)); [by apply gets_u8|done|].
      intros t Ht. apply Hwf; [done|]. rewrite length_insert. by apply Hlen. }
    pose proof (gets_seq wf _ _ _ _ _ _ H1 (IH (S from) Hb ltac:(lia))) as [G1 G2 G3]. cbn [app] in *.
    assert (∀ t, wf t → wt (take (S from) (rd (wt (<[from:=x]> (rd t)) t)) ++ l) (wt (<[from:=x]> (rd t)) t)
      = wt (take from (rd t) ++ x :: l) t) as E.
    { intros t Ht. rewrite Hww, Hrw. f_equal. pose proof (Hlen t Ht).
      rewrite (take_S_r _ _ x) by (apply list_lookup_insert_eq; lia).
      rewrite take_insert_ge by lia. by rewrite <- app_assoc. }
    split.
    + intros. rewrite G1 by done. by rewrite E.
    + exact G2.
    + intros t Ht. rewrite <- E by done. by apply G3.
Qed.

Lemma gets_array l : bytes_ok l → length l = n → gets (deser_loop elem 0 n) l wf (wt l).
Proof. intros Hb Hl. pose proof (gets_elems l 0 Hb Hl) as H. rewrite Hl in H. exact H. Qed.
End gets_array.

(** ** Strings on the wire *)

Lemma string_serialize_puts s rest : chars_ok s → bytes_ok s → Z.of_nat (length s) < 2 ^ 16 →
  ∃ m, puts m (be_bytes 2 (Z.of_nat (length s)) ++ s) ∧
    ∀ l w, string_serialize (cstring s rest) l w = Some (m l w).
Proof.
  intros Hs Hb Hl.
  exists (uint16_serialize (Z.of_nat (length s)) ;>
    ser_loop (λ i, uint8_serialize (get (cstring s rest) i)) 0 (length s))%tidl. split.
  - apply puts_seq; [apply puts_integral; lia|].
    pose proof (puts_loop (λ i, uint8_serialize (get (cstring s rest) i)) (λ i, [get s i]) 0 (length s)) as H.
    rewrite (concat_singletons s _ eq_refl) in H. apply H. intros i Hi.
    unfold cstring. rewrite get_app_l by lia. apply puts_u8. auto with width.
  - intros l w. unfold string_serialize. rewrite msel_strlen_spec, some_bind by done.
    rewrite u16_id by (unfold is_u16; lia). by rewrite Nat2Z.id.
Qed.

Lemma string_loop_ok buf l out s : bytes_ok s → ∀ i pos m, 0 <= pos → pos + Z.of_nat (length s) <= l → l < 2 ^ 32 →
  holds buf pos s →
  ∃ m', string_loop buf l out i (length s) pos m = (0, (pos + Z.of_nat (length s), m')) ∧
    (∀ a, (∀ j, (j < length s)%nat → a ≠ out + 4 * Z.of_nat (i + j)) → ldb m' a = ldb m a) ∧
    (∀ j, (j < length s)%nat → ldb m' (out + 4 * Z.of_nat (i + j)) = get s j).
Proof.
  induction s as [|x s IH]; intros Hb i pos m Hp Hl Hl32 Hh.
  { exists m. cbn. rewrite Z.add_0_r. split; [done|]. split; [done|]. intros; lia. }
  apply Forall_cons in Hb as [Hx Hb]. cbn [length] in *. destruct (holds_app buf pos [x] s Hp Hh) as [H1 H2].
  cbn [string_loop]. rewrite (gets_ok _ _ _ _ (gets_u8 x Hx)) by (done || cbn [length]; lia).
  cbn [length negb Z.eqb]. change (Z.of_nat 1) with 1 in *.
  destruct (IH Hb (S i) (pos + 1) (stb m (out + 4 * Z.of_nat i) x)) as (m' & E & Ho & Hs); [lia..|done|].
  exists m'. rewrite E. split; [do 2 f_equal; lia|]. split.
  - intros a Ha. rewrite Ho.
    + apply ldb_stb_ne. specialize (Ha 0%nat ltac:(lia)). rewrite Nat.add_0_r in Ha. done.
    + intros j Hj. specialize (Ha (S j) ltac:(lia)). by replace (S i + j)%nat with (i + S j)%nat by lia.
  - intros [|j] Hj.
    + rewrite Nat.add_0_r, Ho, ldb_stb_eq by (intros; lia). by apply u8_id.
    + replace (i + S j)%nat with (S i + j)%nat by lia. rewrite Hs by lia. done.
Qed.

(** ** Properties *)

(** What an integer serializer writes, the deserializer of the same type
    reads back: for every type of one to eight bytes, signed or unsigned, every
    value of the type and every position with room in the buffer, both calls
    return 0 and advance the position by the size, the value comes back, and the
    rest of the buffer is unchanged. *)
Theorem integral_roundtrip n conv p buf l pos old : IntConv n conv → (1 ≤ n ≤ 8)%nat → conv p = p →
  0 <= pos → pos + Z.of_nat n <= l → l <= Z.of_nat (length buf) → l < 2 ^ 32 →
  ∃ buf', integral_serialize n p l (Wr (Some buf) pos) = (0, Wr (Some buf') (pos + Z.of_nat n)) ∧
    integral_deserialize conv n buf' l (pos, old) = (0, (pos + Z.of_nat n, p)) ∧
    length buf' = length buf ∧
    ∀ i, (i < Z.to_nat pos ∨ Z.to_nat pos + n ≤ i)%nat → get buf' i = get buf i.
Proof.
  intros HC Hn Hp Hpos Hl Hbuf Hl32. exists (splice buf pos (be_bytes n p)).
  pose proof (puts_fit _ _ (puts_integral n p ltac:(lia)) l buf pos) as Hput. rewrite be_bytes_length in Hput.
  pose proof (gets_ok _ _ _ _ (gets_integral n conv p (λ _, True) Hn Hp I) (splice buf pos (be_bytes n p)) l pos old) as Hget.
  rewrite be_bytes_length in Hget. split; [by apply Hput|]. split.
  { apply Hget; [done..| |done]. apply splice_holds; rewrite ?be_bytes_length; lia. }
  split; [apply splice_length; rewrite ?be_bytes_length; lia|].
  intros i Hi. unfold splice. rewrite be_bytes_length. destruct Hi as [Hi|Hi].
  - rewrite get_app_l by (rewrite length_take; lia). apply get_take. lia.
  - rewrite get_app_r by (rewrite length_take; lia). rewrite length_take.
    rewrite get_app_r by (rewrite be_bytes_length; lia). rewrite be_bytes_length, get_drop. f_equal. lia.
Qed.

Lemma integral_roundtrip_witness :
  ∃ buf', int32_serialize (-2) 8 (Wr (Some (replicate 8 0)) 1) = (0, Wr (Some buf') 5) ∧
    int32_deserialize buf' 8 (1, 0) = (0, (5, -2)).
Proof.
  destruct (integral_roundtrip 4 (wrap_s 4) (-2) (replicate 8 0) 8 1 0) as (buf' & H1 & H2 & _).
  - apply _.
  - lia.
  - vm_compute. reflexivity.
  - lia.
  - vm_compute. discriminate.
  - vm_compute. discriminate.
  - vm_compute. reflexivity.
  - by exists buf'.
Defined.

(** C28: string_deserialize loses the string: on a well-formed message for a
    string s it allocates and clears the block of 1 + |s| bytes, but then stores
    every character i at the address of the caller's pointer plus 4 i.  It returns 0
    with the block still all zero, the first character over the most significant
    byte of the pointer, the others in the words behind it, and every byte outside
    the block, the pointer and these words unchanged. *)
Theorem string_deserialize_misplaces malloc buf l pos out m s m1 p :
  bytes_ok s → (1 ≤ length s)%nat → Z.of_nat (length s) < 2 ^ 16 →
  0 <= pos → pos + 2 + Z.of_nat (length s) <= l → l < 2 ^ 32 →
  holds buf pos (be_bytes 2 (Z.of_nat (length s)) ++ s) →
  malloc m (1 + Z.of_nat (length s)) = (m1, p) → p ≠ 0 →
  (p + 1 + Z.of_nat (length s) <= out ∨ out + 4 * Z.of_nat (length s) <= p) →
  ∃ m', string_deserialize malloc buf l pos out m = (0, (pos + 2 + Z.of_nat (length s), m')) ∧
    (∀ j, 0 <= j <= Z.of_nat (length s) → ldb m' (p + j) = 0) ∧
    (∀ j, (j < length s)%nat → ldb m' (out + 4 * Z.of_nat j) = get s j) ∧
    (∀ a, a < p ∨ p + Z.of_nat (length s) < a → a < out ∨ out + 4 <= a →
      (∀ j, (j < length s)%nat → a ≠ out + 4 * Z.of_nat j) → ldb m' a = ldb m1 a).
Proof.
  intros Hb Hs Hs16 Hp Hl Hl32 Hh Hm Hp0 Hd. destruct (holds_app _ _ _ _ Hp Hh) as [Hh1 Hh2].
  rewrite be_bytes_length in Hh2. unfold string_deserialize, uint16_deserialize.
  pose proof (gets_integral 2 (wrap_u 2) (Z.of_nat (length s)) (λ _, True) ltac:(lia)) as Hg.
  rewrite (gets_ok _ _ _ _ (Hg ltac:(unfold wrap_u; apply Z.mod_small; lia) I)) by (done || rewrite be_bytes_length; lia).
  rewrite be_bytes_length. cbn [negb Z.eqb]. rewrite Hm. destruct (Z.eqb_spec p 0); [done|]. rewrite Nat2Z.id.
  set (m2 := mem_set (store32 m1 out p) p 0 (Z.to_nat (1 + Z.of_nat (length s)))).
  destruct (string_loop_ok buf l out s Hb 0 (pos + 2) m2) as (m' & E & Ho & Hs'); [lia..|exact Hh2|].
  exists m'. split; [exact E|]. split.
  - intros j Hj. rewrite Ho by (intros; lia). unfold m2. rewrite <- (Z2Nat.id j) by lia.
    rewrite ldb_mem_set_eq by lia. done.
  - split; [exact Hs'|]. intros a Ha Ha' Hj. rewrite Ho by exact Hj. unfold m2.
    rewrite ldb_mem_set_ne by lia. apply ldb_store32_ne. lia.
Qed.

Lemma string_deserialize_misplaces_witness :
  ∃ m', string_deserialize (λ m _, (m, 64)) [0; 2; 72; 105] 4 0 32 ∅ = (0, (4, m')) ∧
    ldb m' 64 = 0 ∧ ldb m' 65 = 0 ∧ ldb m' 32 = 72 ∧ ldb m' 36 = 105.
Proof.
  destruct (string_deserialize_misplaces (λ m _, (m, 64)) [0; 2; 72; 105] 4 0 32 ∅ [72; 105] ∅ 64) as (m' & H1 & H2 & H3 & _).
  - apply bytes_okb_ok. reflexivity.
  - cbn. lia.
  - reflexivity.
  - lia.
  - cbn. lia.
  - reflexivity.
  - intros i Hi. do 4 (destruct i as [|i]; [reflexivity|]). cbn in Hi. lia.
  - reflexivity.
  - done.
  - cbn. lia.
  - exists m'. split; [exact H1|]. split; [exact (H2 0 ltac:(cbn; lia))|]. split; [exact (H2 1 ltac:(cbn; lia))|].
    split; [exact (H3 0%nat ltac:(cbn; lia))|exact (H3 1%nat ltac:(cbn; lia))].
Defined.
