(* ===== verification/Protocols.v ===== *)
(** * The application protocols

    encProto.c, xtsProto.c, chatProto.c and bulkencryptionProto.c: the
    enumerations and messages that the applications exchange with the host,
    written with the routines of lib/tidl.c.  An enumeration object of C can
    hold any int, so the serializers take an integer and the enumerators are
    coerced to their values; a structure is a record whose arrays are lists. *)

From S2P Require Import Prelude Words Tidl.

Local Open Scope Z_scope.
Local Open Scope tidl_scope.

(** ** The encryptor *)

Inductive EncryptorAlgo :=
  | EC_GCM_128 | EC_GCM_192 | EC_GCM_256.
Definition EncryptorAlgo_val (e : EncryptorAlgo) : Z :=
  match e with
  | EC_GCM_128 => 0 | EC_GCM_192 => 1 | EC_GCM_256 => 2
  end.
Coercion EncryptorAlgo_val : EncryptorAlgo >-> Z.
Definition EncryptorAlgo_serialize (inp : Z) : ser :=
  switch inp
    [(EC_GCM_128 : Z, int32_serialize 0); (EC_GCM_192 : Z, int32_serialize 1);
     (EC_GCM_256 : Z, int32_serialize 2)]
    ser_fail.
Definition EncryptorAlgo_deserialize : deser Z :=
  enum_deserialize
    [(0, EC_GCM_128 : Z); (1, EC_GCM_192 : Z); (2, EC_GCM_256 : Z)].

Inductive EncryptorMode :=
  | EC_ENCRYPT | EC_DECRYPT | EC_SHUTDOWN.
Definition EncryptorMode_val (e : EncryptorMode) : Z :=
  match e with
  | EC_ENCRYPT => 16 | EC_DECRYPT => 32 | EC_SHUTDOWN => 48
  end.
Coercion EncryptorMode_val : EncryptorMode >-> Z.
Definition EncryptorMode_serialize (inp : Z) : ser :=
  switch inp
    [(EC_ENCRYPT : Z, int32_serialize 16); (EC_DECRYPT : Z, int32_serialize 32);
     (EC_SHUTDOWN : Z, int32_serialize 48)]
    ser_fail.
Definition EncryptorMode_deserialize : deser Z :=
  enum_deserialize
    [(16, EC_ENCRYPT : Z); (32, EC_DECRYPT : Z); (48, EC_SHUTDOWN : Z)].

Inductive EncryptorCommand :=
  | EC_DATA | EC_DONE.
Definition EncryptorCommand_val (e : EncryptorCommand) : Z :=
  match e with
  | EC_DATA => 64 | EC_DONE => 80
  end.
Coercion EncryptorCommand_val : EncryptorCommand >-> Z.
Definition EncryptorCommand_serialize (inp : Z) : ser :=
  switch inp
    [(EC_DATA : Z, int32_serialize 64); (EC_DONE : Z, int32_serialize 80)]
    ser_fail.
Definition EncryptorCommand_deserialize : deser Z :=
  enum_deserialize
    [(64, EC_DATA : Z); (80, EC_DONE : Z)].

Inductive EncryptorResponse :=
  | ER_ERROR | ER_UNSUPPORTED | ER_OK.
Definition EncryptorResponse_val (e : EncryptorResponse) : Z :=
  match e with
  | ER_ERROR => 255 | ER_UNSUPPORTED => 254 | ER_OK => 1
  end.
Coercion EncryptorResponse_val : EncryptorResponse >-> Z.
Definition EncryptorResponse_serialize (inp : Z) : ser :=
  switch inp
    [(ER_ERROR : Z, int32_serialize 255); (ER_UNSUPPORTED : Z, int32_serialize 254);
     (ER_OK : Z, int32_serialize 1)]
    ser_fail.
Definition EncryptorResponse_deserialize : deser Z :=
  enum_deserialize
    [(255, ER_ERROR : Z); (254, ER_UNSUPPORTED : Z); (1, ER_OK : Z)].

(** ** The XTS encryptor *)

Inductive XtsAlgo :=
  | XTS_128 | XTS_256.
Definition XtsAlgo_val (e : XtsAlgo) : Z :=
  match e with
  | XTS_128 => 0 | XTS_256 => 2
  end.
Coercion XtsAlgo_val : XtsAlgo >-> Z.
Definition XtsAlgo_serialize (inp : Z) : ser :=
  switch inp
    [(XTS_128 : Z, int32_serialize 0); (XTS_256 : Z, int32_serialize 2)]
    ser_fail.
Definition XtsAlgo_deserialize : deser Z :=
  enum_deserialize
    [(0, XTS_128 : Z); (2, XTS_256 : Z)].

Inductive XtsCommand :=
  | XTS_ENCRYPT | XTS_DECRYPT | XTS_SHUTDOWN.
Definition XtsCommand_val (e : XtsCommand) : Z :=
  match e with
  | XTS_ENCRYPT => 16 | XTS_DECRYPT => 32 | XTS_SHUTDOWN => 48
  end.
Coercion XtsCommand_val : XtsCommand >-> Z.
Definition XtsCommand_serialize (inp : Z) : ser :=
  switch inp
    [(XTS_ENCRYPT : Z, int32_serialize 16); (XTS_DECRYPT : Z, int32_serialize 32);
     (XTS_SHUTDOWN : Z, int32_serialize 48)]
    ser_fail.
Definition XtsCommand_deserialize : deser Z :=
  enum_deserialize
    [(16, XTS_ENCRYPT : Z); (32, XTS_DECRYPT : Z); (48, XTS_SHUTDOWN : Z)].

Inductive XtsResponse :=
  | XTS_ERROR | XTS_UNSUPPORTED | XTS_OK.
Definition XtsResponse_val (e : XtsResponse) : Z :=
  match e with
  | XTS_ERROR => 255 | XTS_UNSUPPORTED => 254 | XTS_OK => 1
  end.
Coercion XtsResponse_val : XtsResponse >-> Z.
Definition XtsResponse_serialize (inp : Z) : ser :=
  switch inp
    [(XTS_ERROR : Z, int32_serialize 255); (XTS_UNSUPPORTED : Z, int32_serialize 254);
     (XTS_OK : Z, int32_serialize 1)]
    ser_fail.
Definition XtsResponse_deserialize : deser Z :=
  enum_deserialize
    [(255, XTS_ERROR : Z); (254, XTS_UNSUPPORTED : Z); (1, XTS_OK : Z)].

(** ** The chat program *)

Inductive ChatCommand :=
  | CC_LOGOUT | CC_SETSEEK | CC_GETSEEK | CC_GET_CHANNEL | CC_CLOSE_CHANNEL | CC_GET_EXCHANGE | CC_ENCRYPT
  | CC_INCOMING.
Definition ChatCommand_val (e : ChatCommand) : Z :=
  match e with
  | CC_LOGOUT => 16 | CC_SETSEEK => 32 | CC_GETSEEK => 48 | CC_GET_CHANNEL => 64 | CC_CLOSE_CHANNEL => 80
  | CC_GET_EXCHANGE => 96 | CC_ENCRYPT => 112 | CC_INCOMING => 128
  end.
Coercion ChatCommand_val : ChatCommand >-> Z.
Definition ChatCommand_serialize (inp : Z) : ser :=
  switch inp
    [(CC_LOGOUT : Z, int32_serialize 16); (CC_SETSEEK : Z, int32_serialize 32);
     (CC_GETSEEK : Z, int32_serialize 48); (CC_GET_CHANNEL : Z, int32_serialize 64);
     (CC_CLOSE_CHANNEL : Z, int32_serialize 80); (CC_GET_EXCHANGE : Z, int32_serialize 96);
     (CC_ENCRYPT : Z, int32_serialize 112); (CC_INCOMING : Z, int32_serialize 128)]
    ser_fail.
Definition ChatCommand_deserialize : deser Z :=
  enum_deserialize
    [(16, CC_LOGOUT : Z); (32, CC_SETSEEK : Z); (48, CC_GETSEEK : Z); (64, CC_GET_CHANNEL : Z);
     (80, CC_CLOSE_CHANNEL : Z); (96, CC_GET_EXCHANGE : Z); (112, CC_ENCRYPT : Z); (128, CC_INCOMING : Z)].

Inductive ChatResponse :=
  | CR_ERROR | CR_PUBKEY | CR_GOODBYE | CR_SEEKUPDATED | CR_SEEK | CR_CHANNEL | CR_CHANNEL_CLOSED | CR_EXCHANGE
  | CR_CIPHERTEXT | CR_FOUND | CR_EXCHANGED | CR_PLAINTEXT | CR_NEVERMIND.
Definition ChatResponse_val (e : ChatResponse) : Z :=
  match e with
  | CR_ERROR => 255 | CR_PUBKEY => 0 | CR_GOODBYE => 17 | CR_SEEKUPDATED => 33 | CR_SEEK => 49
  | CR_CHANNEL => 65 | CR_CHANNEL_CLOSED => 81 | CR_EXCHANGE => 97 | CR_CIPHERTEXT => 113 | CR_FOUND => 129
  | CR_EXCHANGED => 130 | CR_PLAINTEXT => 131 | CR_NEVERMIND => 132
  end.
Coercion ChatResponse_val : ChatResponse >-> Z.
Definition ChatResponse_serialize (inp : Z) : ser :=
  switch inp
    [(CR_ERROR : Z, int32_serialize 255); (CR_PUBKEY : Z, int32_serialize 0);
     (CR_GOODBYE : Z, int32_serialize 17); (CR_SEEKUPDATED : Z, int32_serialize 33);
     (CR_SEEK : Z, int32_serialize 49); (CR_CHANNEL : Z, int32_serialize 65);
     (CR_CHANNEL_CLOSED : Z, int32_serialize 81); (CR_EXCHANGE : Z, int32_serialize 97);
     (CR_CIPHERTEXT : Z, int32_serialize 113); (CR_FOUND : Z, int32_serialize 129);
     (CR_EXCHANGED : Z, int32_serialize 130); (CR_PLAINTEXT : Z, int32_serialize 131);
     (CR_NEVERMIND : Z, int32_serialize 132)]
    ser_fail.
Definition ChatResponse_deserialize : deser Z :=
  enum_deserialize
    [(255, CR_ERROR : Z); (0, CR_PUBKEY : Z); (17, CR_GOODBYE : Z); (33, CR_SEEKUPDATED : Z); (49, CR_SEEK : Z);
     (65, CR_CHANNEL : Z); (81, CR_CHANNEL_CLOSED : Z); (97, CR_EXCHANGE : Z); (113, CR_CIPHERTEXT : Z);
     (129, CR_FOUND : Z); (130, CR_EXCHANGED : Z); (131, CR_PLAINTEXT : Z); (132, CR_NEVERMIND : Z)].

(** ** The bulk encryptor *)

Inductive BulkEncryptionCommand :=
  | BEC_LOGOUT | BEC_GEN_DHPAIR | BEC_DH_EXCHANGE | BEC_GCM_INIT | BEC_GCM_DOBLOCK.
Definition BulkEncryptionCommand_val (e : BulkEncryptionCommand) : Z :=
  match e with
  | BEC_LOGOUT => 16 | BEC_GEN_DHPAIR => 32 | BEC_DH_EXCHANGE => 48 | BEC_GCM_INIT => 80 | BEC_GCM_DOBLOCK => 96
  end.
Coercion BulkEncryptionCommand_val : BulkEncryptionCommand >-> Z.
Definition BulkEncryptionCommand_serialize (inp : Z) : ser :=
  switch inp
    [(BEC_LOGOUT : Z, int32_serialize 16); (BEC_GEN_DHPAIR : Z, int32_serialize 32);
     (BEC_DH_EXCHANGE : Z, int32_serialize 48); (BEC_GCM_INIT : Z, int32_serialize 80);
     (BEC_GCM_DOBLOCK : Z, int32_serialize 96)]
    ser_fail.
Definition BulkEncryptionCommand_deserialize : deser Z :=
  enum_deserialize
    [(16, BEC_LOGOUT : Z); (32, BEC_GEN_DHPAIR : Z); (48, BEC_DH_EXCHANGE : Z); (80, BEC_GCM_INIT : Z);
     (96, BEC_GCM_DOBLOCK : Z)].

Inductive BulkEncryptionResponse :=
  | BER_ERROR | BER_GOODBYE | BER_DHPAIR | BER_DH_EXCHANGED | BER_GCM_READY | BER_GCM_BLOCKS.
Definition BulkEncryptionResponse_val (e : BulkEncryptionResponse) : Z :=
  match e with
  | BER_ERROR => 255 | BER_GOODBYE => 17 | BER_DHPAIR => 33 | BER_DH_EXCHANGED => 49 | BER_GCM_READY => 81
  | BER_GCM_BLOCKS => 97
  end.
Coercion BulkEncryptionResponse_val : BulkEncryptionResponse >-> Z.
Definition BulkEncryptionResponse_serialize (inp : Z) : ser :=
  switch inp
    [(BER_ERROR : Z, int32_serialize 255); (BER_GOODBYE : Z, int32_serialize 17);
     (BER_DHPAIR : Z, int32_serialize 33); (BER_DH_EXCHANGED : Z, int32_serialize 49);
     (BER_GCM_READY : Z, int32_serialize 81); (BER_GCM_BLOCKS : Z, int32_serialize 97)]
    ser_fail.
Definition BulkEncryptionResponse_deserialize : deser Z :=
  enum_deserialize
    [(255, BER_ERROR : Z); (17, BER_GOODBYE : Z); (33, BER_DHPAIR : Z); (49, BER_DH_EXCHANGED : Z);
     (81, BER_GCM_READY : Z); (97, BER_GCM_BLOCKS : Z)].

Inductive GCM_Mode :=
  | GCM128_ENCRYPT | GCM128_DECRYPT.
Definition GCM_Mode_val (e : GCM_Mode) : Z :=
  match e with
  | GCM128_ENCRYPT => 16 | GCM128_DECRYPT => 32
  end.
Coercion GCM_Mode_val : GCM_Mode >-> Z.
Definition GCM_Mode_serialize (inp : Z) : ser :=
  switch inp
    [(GCM128_ENCRYPT : Z, int32_serialize 16); (GCM128_DECRYPT : Z, int32_serialize 32)]
    ser_fail.
Definition GCM_Mode_deserialize : deser Z :=
  enum_deserialize
    [(16, GCM128_ENCRYPT : Z); (32, GCM128_DECRYPT : Z)].

Definition GENDHPAIR_CMD_SEED_LENGTH : nat := 32.
Definition GENDHPAIR_RES_PUBKEY_LENGTH : nat := 128.
Definition DHEXCHANGE_CMD_REMOTE_PUBKEY_LENGTH : nat := 128.
Definition GCMDOBLOCK_CMD_BLOCK_LENGTH : nat := 16.
Definition GCMDOBLOCK_RES_BLOCK_LENGTH : nat := 16.

Record GenDHPair_Cmd := MkGenDHPair_Cmd { seed : list Z }.
Definition set_seed (v : list Z) (t : GenDHPair_Cmd) : GenDHPair_Cmd :=
  MkGenDHPair_Cmd v.
Definition GenDHPair_Cmd_init (_ : GenDHPair_Cmd) : GenDHPair_Cmd :=
  MkGenDHPair_Cmd (replicate GENDHPAIR_CMD_SEED_LENGTH 0).
Definition GenDHPair_Cmd_cleanup (inp : GenDHPair_Cmd) : GenDHPair_Cmd := GenDHPair_Cmd_init inp.
Definition GenDHPair_Cmd_serialize (inp : GenDHPair_Cmd) : ser :=
  ser_loop (λ i, uint8_serialize (get (seed inp) i)) 0 GENDHPAIR_CMD_SEED_LENGTH.
Definition GenDHPair_Cmd_deserialize : deser GenDHPair_Cmd :=
  deser_loop (elem seed set_seed) 0 GENDHPAIR_CMD_SEED_LENGTH.

Record GenDHPair_Res := MkGenDHPair_Res { pubkey : list Z; privkey_idx : Z }.
Definition set_pubkey (v : list Z) (t : GenDHPair_Res) : GenDHPair_Res :=
  MkGenDHPair_Res v (privkey_idx t).
Definition set_privkey_idx (v : Z) (t : GenDHPair_Res) : GenDHPair_Res :=
  MkGenDHPair_Res (pubkey t) v.
Definition GenDHPair_Res_init (_ : GenDHPair_Res) : GenDHPair_Res :=
  MkGenDHPair_Res (replicate GENDHPAIR_RES_PUBKEY_LENGTH 0) 0.
Definition GenDHPair_Res_cleanup (inp : GenDHPair_Res) : GenDHPair_Res := GenDHPair_Res_init inp.
Definition GenDHPair_Res_serialize (inp : GenDHPair_Res) : ser :=
  ser_loop (λ i, uint8_serialize (get (pubkey inp) i)) 0 GENDHPAIR_RES_PUBKEY_LENGTH ;>
  uint8_serialize (privkey_idx inp).
Definition GenDHPair_Res_deserialize : deser GenDHPair_Res :=
  deser_loop (elem pubkey set_pubkey) 0 GENDHPAIR_RES_PUBKEY_LENGTH ;>>
  field privkey_idx set_privkey_idx uint8_deserialize.

Record DHExchange_Cmd := MkDHExchange_Cmd { remote_pubkey : list Z; local_privkey_idx : Z }.
Definition set_remote_pubkey (v : list Z) (t : DHExchange_Cmd) : DHExchange_Cmd :=
  MkDHExchange_Cmd v (local_privkey_idx t).
Definition set_local_privkey_idx (v : Z) (t : DHExchange_Cmd) : DHExchange_Cmd :=
  MkDHExchange_Cmd (remote_pubkey t) v.
Definition DHExchange_Cmd_init (_ : DHExchange_Cmd) : DHExchange_Cmd :=
  MkDHExchange_Cmd (replicate DHEXCHANGE_CMD_REMOTE_PUBKEY_LENGTH 0) 0.
Definition DHExchange_Cmd_cleanup (inp : DHExchange_Cmd) : DHExchange_Cmd := DHExchange_Cmd_init inp.
Definition DHExchange_Cmd_serialize (inp : DHExchange_Cmd) : ser :=
  ser_loop (λ i, uint8_serialize (get (remote_pubkey inp) i)) 0 DHEXCHANGE_CMD_REMOTE_PUBKEY_LENGTH ;>
  uint8_serialize (local_privkey_idx inp).
Definition DHExchange_Cmd_deserialize : deser DHExchange_Cmd :=
  deser_loop (elem remote_pubkey set_remote_pubkey) 0 DHEXCHANGE_CMD_REMOTE_PUBKEY_LENGTH ;>>
  field local_privkey_idx set_local_privkey_idx uint8_deserialize.

Record DHExchange_Res := MkDHExchange_Res { dhr_shared_idx : Z }.
Definition set_dhr_shared_idx (v : Z) (t : DHExchange_Res) : DHExchange_Res :=
  MkDHExchange_Res v.
Definition DHExchange_Res_init (_ : DHExchange_Res) : DHExchange_Res :=
  MkDHExchange_Res 0.
Definition DHExchange_Res_cleanup (inp : DHExchange_Res) : DHExchange_Res := DHExchange_Res_init inp.
Definition DHExchange_Res_serialize (inp : DHExchange_Res) : ser :=
  uint8_serialize (dhr_shared_idx inp).
Definition DHExchange_Res_deserialize : deser DHExchange_Res :=
  field dhr_shared_idx set_dhr_shared_idx uint8_deserialize.

Record GcmInit_Cmd := MkGcmInit_Cmd { mode : Z; gic_shared_idx : Z }.
Definition set_mode (v : Z) (t : GcmInit_Cmd) : GcmInit_Cmd :=
  MkGcmInit_Cmd v (gic_shared_idx t).
Definition set_gic_shared_idx (v : Z) (t : GcmInit_Cmd) : GcmInit_Cmd :=
  MkGcmInit_Cmd (mode t) v.
Definition GcmInit_Cmd_init (_ : GcmInit_Cmd) : GcmInit_Cmd :=
  MkGcmInit_Cmd 0 0.
Definition GcmInit_Cmd_cleanup (inp : GcmInit_Cmd) : GcmInit_Cmd := GcmInit_Cmd_init inp.
Definition GcmInit_Cmd_serialize (inp : GcmInit_Cmd) : ser :=
  GCM_Mode_serialize (mode inp) ;>
  uint8_serialize (gic_shared_idx inp).
Definition GcmInit_Cmd_deserialize : deser GcmInit_Cmd :=
  field mode set_mode GCM_Mode_deserialize ;>>
  field gic_shared_idx set_gic_shared_idx uint8_deserialize.

Record GcmInit_Res := MkGcmInit_Res { gir_gcm_idx : Z }.
Definition set_gir_gcm_idx (v : Z) (t : GcmInit_Res) : GcmInit_Res :=
  MkGcmInit_Res v.
Definition GcmInit_Res_init (_ : GcmInit_Res) : GcmInit_Res :=
  MkGcmInit_Res 0.
Definition GcmInit_Res_cleanup (inp : GcmInit_Res) : GcmInit_Res := GcmInit_Res_init inp.
Definition GcmInit_Res_serialize (inp : GcmInit_Res) : ser :=
  uint8_serialize (gir_gcm_idx inp).
Definition GcmInit_Res_deserialize : deser GcmInit_Res :=
  field gir_gcm_idx set_gir_gcm_idx uint8_deserialize.

Record GcmDoBlock_Cmd := MkGcmDoBlock_Cmd { gdc_block : list Z; gdc_gcm_idx : Z }.
Definition set_gdc_block (v : list Z) (t : GcmDoBlock_Cmd) : GcmDoBlock_Cmd :=
  MkGcmDoBlock_Cmd v (gdc_gcm_idx t).
Definition set_gdc_gcm_idx (v : Z) (t : GcmDoBlock_Cmd) : GcmDoBlock_Cmd :=
  MkGcmDoBlock_Cmd (gdc_block t) v.
Definition GcmDoBlock_Cmd_init (_ : GcmDoBlock_Cmd) : GcmDoBlock_Cmd :=
  MkGcmDoBlock_Cmd (replicate GCMDOBLOCK_CMD_BLOCK_LENGTH 0) 0.
Definition GcmDoBlock_Cmd_cleanup (inp : GcmDoBlock_Cmd) : GcmDoBlock_Cmd := GcmDoBlock_Cmd_init inp.
Definition GcmDoBlock_Cmd_serialize (inp : GcmDoBlock_Cmd) : ser :=
  ser_loop (λ i, uint8_serialize (get (gdc_block inp) i)) 0 GCMDOBLOCK_CMD_BLOCK_LENGTH ;>
  uint8_serialize (gdc_gcm_idx inp).
Definition GcmDoBlock_Cmd_deserialize : deser GcmDoBlock_Cmd :=
  deser_loop (elem gdc_block set_gdc_block) 0 GCMDOBLOCK_CMD_BLOCK_LENGTH ;>>
  field gdc_gcm_idx set_gdc_gcm_idx uint8_deserialize.

Record GcmDoBlock_Res := MkGcmDoBlock_Res { gdr_block : list Z }.
Definition set_gdr_block (v : list Z) (t : GcmDoBlock_Res) : GcmDoBlock_Res :=
  MkGcmDoBlock_Res v.
Definition GcmDoBlock_Res_init (_ : GcmDoBlock_Res) : GcmDoBlock_Res :=
  MkGcmDoBlock_Res (replicate GCMDOBLOCK_RES_BLOCK_LENGTH 0).
Definition GcmDoBlock_Res_cleanup (inp : GcmDoBlock_Res) : GcmDoBlock_Res := GcmDoBlock_Res_init inp.
Definition GcmDoBlock_Res_serialize (inp : GcmDoBlock_Res) : ser :=
  ser_loop (λ i, uint8_serialize (get (gdr_block inp) i)) 0 GCMDOBLOCK_RES_BLOCK_LENGTH.
Definition GcmDoBlock_Res_deserialize : deser GcmDoBlock_Res :=
  deser_loop (elem gdr_block set_gdr_block) 0 GCMDOBLOCK_RES_BLOCK_LENGTH.

(** ** Well-formed messages

    The shape of a structure: its arrays have their lengths.  A valid message
    also holds bytes where the structure has bytes and an enumerator where it has
    an enumeration. *)

Definition GenDHPair_Cmd_shape (t : GenDHPair_Cmd) : Prop := length (seed t) = GENDHPAIR_CMD_SEED_LENGTH.
Definition GenDHPair_Cmd_valid (t : GenDHPair_Cmd) : Prop := GenDHPair_Cmd_shape t ∧ bytes_ok (seed t).
Definition GenDHPair_Res_shape (t : GenDHPair_Res) : Prop := length (pubkey t) = GENDHPAIR_RES_PUBKEY_LENGTH.
Definition GenDHPair_Res_valid (t : GenDHPair_Res) : Prop := GenDHPair_Res_shape t ∧ bytes_ok (pubkey t) ∧ is_u8 (privkey_idx t).
Definition DHExchange_Cmd_shape (t : DHExchange_Cmd) : Prop := length (remote_pubkey t) = DHEXCHANGE_CMD_REMOTE_PUBKEY_LENGTH.
Definition DHExchange_Cmd_valid (t : DHExchange_Cmd) : Prop := DHExchange_Cmd_shape t ∧ bytes_ok (remote_pubkey t) ∧ is_u8 (local_privkey_idx t).
Definition DHExchange_Res_shape (t : DHExchange_Res) : Prop := True.
Definition DHExchange_Res_valid (t : DHExchange_Res) : Prop := DHExchange_Res_shape t ∧ is_u8 (dhr_shared_idx t).
Definition GcmInit_Cmd_shape (t : GcmInit_Cmd) : Prop := True.
Definition GcmInit_Cmd_valid (t : GcmInit_Cmd) : Prop := GcmInit_Cmd_shape t ∧ (∃ e : GCM_Mode, mode t = e) ∧ is_u8 (gic_shared_idx t).
Definition GcmInit_Res_shape (t : GcmInit_Res) : Prop := True.
Definition GcmInit_Res_valid (t : GcmInit_Res) : Prop := GcmInit_Res_shape t ∧ is_u8 (gir_gcm_idx t).
Definition GcmDoBlock_Cmd_shape (t : GcmDoBlock_Cmd) : Prop := length (gdc_block t) = GCMDOBLOCK_CMD_BLOCK_LENGTH.
Definition GcmDoBlock_Cmd_valid (t : GcmDoBlock_Cmd) : Prop := GcmDoBlock_Cmd_shape t ∧ bytes_ok (gdc_block t) ∧ is_u8 (gdc_gcm_idx t).
Definition GcmDoBlock_Res_shape (t : GcmDoBlock_Res) : Prop := length (gdr_block t) = GCMDOBLOCK_RES_BLOCK_LENGTH.
Definition GcmDoBlock_Res_valid (t : GcmDoBlock_Res) : Prop := GcmDoBlock_Res_shape t ∧ bytes_ok (gdr_block t).

(** What a message type of [n] bytes promises: a cleared structure can be read
    into; a valid message is counted, stored and read back, whatever the
    structure read into held; and a buffer that is too short is refused by both
    sides. *)
Definition roundtrips {T} (shape valid : T → Prop) (init : T → T) (put : T → ser) (rd : deser T) (n : Z) : Prop :=
  (∀ t, shape (init t)) ∧ ∀ t, valid t →
  (∀ l pos, is_u32 pos → put t l (Wr None pos) = (0, Wr None (u32 (pos + n)))) ∧
  (∀ buf l pos old, shape old → 0 <= pos → pos + n <= l → l <= Z.of_nat (length buf) → l < 2 ^ 32 →
    ∃ buf', put t l (Wr (Some buf) pos) = (0, Wr (Some buf') (pos + n)) ∧ rd buf' l (pos, old) = (0, (pos + n, t))) ∧
  (∀ buf l pos old, 0 <= pos <= l → l < pos + n → l <= Z.of_nat (length buf) → l <= 2 ^ 32 - 9 →
    (put t l (Wr (Some buf) pos)).1 = -1 ∧ (rd buf l (pos, old)).1 = -1).

(** ** Proofs *)

Lemma gets_ext {T} (m : deser T) bytes wf g h : gets m bytes wf g → (∀ t, wf t → g t = h t) → gets m bytes wf h.
Proof.
  intros [H1 H2 H3] E. split; [|done|].
  - intros. rewrite <- E by done. by apply H1.
  - intros t Ht. rewrite <- E by done. by apply H3.
Qed.

(** The message [t] is [bytes] on the wire. *)
Definition wire {T} (shape : T → Prop) (put : T → ser) (rd : deser T) (t : T) (bytes : list Z) : Prop :=
  puts (put t) bytes ∧ gets rd bytes shape (λ _, t).

Lemma roundtrips_intro {T} (shape valid : T → Prop) init put rd n :
  (∀ t, shape (init t)) →
  (∀ t, valid t → ∃ bytes, Z.of_nat (length bytes) = n ∧ wire shape put rd t bytes) →
  roundtrips shape valid init put rd n.
Proof.
  intros Hi H. split; [done|]. intros t Ht. destruct (H t Ht) as (bytes & <- & Hp & Hg). split; [|split].
  - intros l pos Hpos. by apply (puts_null _ _ Hp).
  - intros buf l pos old Ho Hpos Hl Hb Hl32. exists (splice buf pos bytes).
    split; [by apply (puts_fit _ _ Hp)|]. apply (gets_ok _ _ _ _ Hg); [done..| |done]. apply splice_holds; lia.
  - intros buf l pos old Hpos Hl Hb Hl32. split.
    + by destruct (puts_full _ _ Hp l buf pos) as (k & _ & _ & ->).
    + destruct (gets_any _ _ _ _ Hg buf l pos old) as [E|(_ & _ & E)]; [lia..|done|lia].
Qed.

(** An enumeration whose numbers on the wire are the values of C. *)
Definition self_table (l : list Z) : list (Z * Z) := map (λ v, (v, v)) l.

Definition enum_ok (l : list Z) : bool :=
  bool_decide (NoDup l) && forallb (λ v, wrap_s 4 v =? v) l.

Lemma self_enum_codec l : enum_ok l = true →
  enum_codec (λ inp, switch inp (map (λ '(e, w), (e, int32_serialize w)) (self_table l)) ser_fail)
    (enum_deserialize (swap_table (self_table l))) (self_table l).
Proof.
  intros H. apply andb_true_iff in H as [Hn Hr]. apply bool_decide_eq_true in Hn.
  assert (map fst (self_table l) = l ∧ map snd (self_table l) = l) as [E1 E2].
  { unfold self_table. rewrite !map_map. cbn. by rewrite !map_id. }
  apply enum_codec_ok; rewrite ?E1, ?E2; [done..|]. apply Forall_forall. intros v Hv.
  rewrite forallb_forall in Hr. apply Z.eqb_eq, Hr. by apply list_elem_of_In.
Qed.

(** C29: Every enumeration of the four protocols is typed on the wire: an
    enumerator is written as its value in a 4-byte big-endian integer and read
    back as itself; a value that is no enumerator is refused by the serializer
    with nothing written, and a number on the wire that is none is refused by the
    deserializer with the output unchanged. *)
Theorem protocol_enums :
  enum_codec EncryptorAlgo_serialize EncryptorAlgo_deserialize
    (self_table [EC_GCM_128 : Z; EC_GCM_192 : Z; EC_GCM_256 : Z]) ∧
  enum_codec EncryptorMode_serialize EncryptorMode_deserialize
    (self_table [EC_ENCRYPT : Z; EC_DECRYPT : Z; EC_SHUTDOWN : Z]) ∧
  enum_codec EncryptorCommand_serialize EncryptorCommand_deserialize
    (self_table [EC_DATA : Z; EC_DONE : Z]) ∧
  enum_codec EncryptorResponse_serialize EncryptorResponse_deserialize
    (self_table [ER_ERROR : Z; ER_UNSUPPORTED : Z; ER_OK : Z]) ∧
  enum_codec XtsAlgo_serialize XtsAlgo_deserialize
    (self_table [XTS_128 : Z; XTS_256 : Z]) ∧
  enum_codec XtsCommand_serialize XtsCommand_deserialize
    (self_table [XTS_ENCRYPT : Z; XTS_DECRYPT : Z; XTS_SHUTDOWN : Z]) ∧
  enum_codec XtsResponse_serialize XtsResponse_deserialize
    (self_table [XTS_ERROR : Z; XTS_UNSUPPORTED : Z; XTS_OK : Z]) ∧
  enum_codec ChatCommand_serialize ChatCommand_deserialize
    (self_table [CC_LOGOUT : Z; CC_SETSEEK : Z; CC_GETSEEK : Z; CC_GET_CHANNEL : Z; CC_CLOSE_CHANNEL : Z;
                 CC_GET_EXCHANGE : Z; CC_ENCRYPT : Z; CC_INCOMING : Z]) ∧
  enum_codec ChatResponse_serialize ChatResponse_deserialize
    (self_table [CR_ERROR : Z; CR_PUBKEY : Z; CR_GOODBYE : Z; CR_SEEKUPDATED : Z; CR_SEEK : Z; CR_CHANNEL : Z;
                 CR_CHANNEL_CLOSED : Z; CR_EXCHANGE : Z; CR_CIPHERTEXT : Z; CR_FOUND : Z; CR_EXCHANGED : Z;
                 CR_PLAINTEXT : Z; CR_NEVERMIND : Z]) ∧
  enum_codec BulkEncryptionCommand_serialize BulkEncryptionCommand_deserialize
    (self_table [BEC_LOGOUT : Z; BEC_GEN_DHPAIR : Z; BEC_DH_EXCHANGE : Z; BEC_GCM_INIT : Z;
                 BEC_GCM_DOBLOCK : Z]) ∧
  enum_codec BulkEncryptionResponse_serialize BulkEncryptionResponse_deserialize
    (self_table [BER_ERROR : Z; BER_GOODBYE : Z; BER_DHPAIR : Z; BER_DH_EXCHANGED : Z; BER_GCM_READY : Z;
                 BER_GCM_BLOCKS : Z]) ∧
  enum_codec GCM_Mode_serialize GCM_Mode_deserialize
    (self_table [GCM128_ENCRYPT : Z; GCM128_DECRYPT : Z]).
Proof.
  repeat match goal with |- _ ∧ _ => split end;
  match goal with |- enum_codec _ _ (self_table ?l) => exact (self_enum_codec l eq_refl) end.
Qed.

(** The two kinds of field that follow an array. *)
Lemma gets_byte_field {T} (rd : T → Z) (wt : Z → T → T) x (wf : T → Prop) : is_u8 x →
  (∀ t, wf t → wf (wt x t)) → gets (field rd wt uint8_deserialize) [x] wf (wt x).
Proof. intros Hx Hwf. by apply (gets_field rd wt uint8_deserialize [x] (λ _, True) (λ _, x)); [apply gets_u8| |]. Qed.

Lemma GCM_Mode_codec : enum_codec GCM_Mode_serialize GCM_Mode_deserialize
  (self_table [GCM128_ENCRYPT : Z; GCM128_DECRYPT : Z]).
Proof. exact (self_enum_codec [GCM128_ENCRYPT : Z; GCM128_DECRYPT : Z] eq_refl). Qed.

Lemma GCM_Mode_in (e : GCM_Mode) : In (e : Z, e : Z) (self_table [GCM128_ENCRYPT : Z; GCM128_DECRYPT : Z]).
Proof. destruct e; cbn; tauto. Qed.

(** Reading an array of a structure; the laws of its accessors are by
    computation. *)
Ltac array_field := apply gets_array; solve [assumption | done | intros []; done | intros ? []; done | intros ? ? []; done].

Lemma GenDHPair_Cmd_wire t : GenDHPair_Cmd_valid t →
  wire GenDHPair_Cmd_shape GenDHPair_Cmd_serialize GenDHPair_Cmd_deserialize t (seed t).
Proof.
  destruct t as [sd]. intros [Hl Hb]. red in Hl. cbn [seed] in *. split; [by apply puts_bytes|].
  apply (gets_ext _ _ _ (set_seed sd)); [array_field|done].
Qed.

Lemma GenDHPair_Cmd_ok : roundtrips GenDHPair_Cmd_shape GenDHPair_Cmd_valid GenDHPair_Cmd_init
  GenDHPair_Cmd_serialize GenDHPair_Cmd_deserialize 32.
Proof.
  apply roundtrips_intro; [done|]. intros t Ht. eexists. split; [|by apply GenDHPair_Cmd_wire]. by destruct Ht as [-> _].
Qed.

Lemma GcmDoBlock_Res_wire t : GcmDoBlock_Res_valid t →
  wire GcmDoBlock_Res_shape GcmDoBlock_Res_serialize GcmDoBlock_Res_deserialize t (gdr_block t).
Proof.
  destruct t as [b]. intros [Hl Hb]. red in Hl. cbn [gdr_block] in *. split; [by apply puts_bytes|].
  apply (gets_ext _ _ _ (set_gdr_block b)); [array_field|done].
Qed.

Lemma GcmDoBlock_Res_ok : roundtrips GcmDoBlock_Res_shape GcmDoBlock_Res_valid GcmDoBlock_Res_init
  GcmDoBlock_Res_serialize GcmDoBlock_Res_deserialize 16.
Proof.
  apply roundtrips_intro; [done|]. intros t Ht. eexists. split; [|by apply GcmDoBlock_Res_wire]. by destruct Ht as [-> _].
Qed.

Lemma GenDHPair_Res_wire t : GenDHPair_Res_valid t →
  wire GenDHPair_Res_shape GenDHPair_Res_serialize GenDHPair_Res_deserialize t (pubkey t ++ [privkey_idx t]).
Proof.
  destruct t as [k x]. intros (Hl & Hb & Hx). red in Hl. cbn [pubkey privkey_idx] in *.
  split; [by apply puts_seq; [apply puts_bytes|apply puts_u8]|].
  apply (gets_ext _ _ _ (λ t, set_privkey_idx x (set_pubkey k t))); [|done].
  apply gets_seq; [array_field|by apply gets_byte_field].
Qed.

Lemma GenDHPair_Res_ok : roundtrips GenDHPair_Res_shape GenDHPair_Res_valid GenDHPair_Res_init
  GenDHPair_Res_serialize GenDHPair_Res_deserialize 129.
Proof.
  apply roundtrips_intro; [done|]. intros t Ht. eexists. split; [|by apply GenDHPair_Res_wire]. by rewrite length_app, (proj1 Ht).
Qed.

Lemma DHExchange_Cmd_wire t : DHExchange_Cmd_valid t →
  wire DHExchange_Cmd_shape DHExchange_Cmd_serialize DHExchange_Cmd_deserialize t (remote_pubkey t ++ [local_privkey_idx t]).
Proof.
  destruct t as [k x]. intros (Hl & Hb & Hx). red in Hl. cbn [remote_pubkey local_privkey_idx] in *.
  split; [by apply puts_seq; [apply puts_bytes|apply puts_u8]|].
  apply (gets_ext _ _ _ (λ t, set_local_privkey_idx x (set_remote_pubkey k t))); [|done].
  apply gets_seq; [array_field|by apply gets_byte_field].
Qed.

Lemma DHExchange_Cmd_ok : roundtrips DHExchange_Cmd_shape DHExchange_Cmd_valid DHExchange_Cmd_init
  DHExchange_Cmd_serialize DHExchange_Cmd_deserialize 129.
Proof.
  apply roundtrips_intro; [done|]. intros t Ht. eexists. split; [|by apply DHExchange_Cmd_wire]. by rewrite length_app, (proj1 Ht).
Qed.

Lemma GcmDoBlock_Cmd_wire t : GcmDoBlock_Cmd_valid t →
  wire GcmDoBlock_Cmd_shape GcmDoBlock_Cmd_serialize GcmDoBlock_Cmd_deserialize t (gdc_block t ++ [gdc_gcm_idx t]).
Proof.
  destruct t as [b x]. intros (Hl & Hb & Hx). red in Hl. cbn [gdc_block gdc_gcm_idx] in *.
  split; [by apply puts_seq; [apply puts_bytes|apply puts_u8]|].
  apply (gets_ext _ _ _ (λ t, set_gdc_gcm_idx x (set_gdc_block b t))); [|done].
  apply gets_seq; [array_field|by apply gets_byte_field].
Qed.

Lemma GcmDoBlock_Cmd_ok : roundtrips GcmDoBlock_Cmd_shape GcmDoBlock_Cmd_valid GcmDoBlock_Cmd_init
  GcmDoBlock_Cmd_serialize GcmDoBlock_Cmd_deserialize 17.
Proof.
  apply roundtrips_intro; [done|]. intros t Ht. eexists. split; [|by apply GcmDoBlock_Cmd_wire]. by rewrite length_app, (proj1 Ht).
Qed.

Lemma DHExchange_Res_wire t : DHExchange_Res_valid t →
  wire DHExchange_Res_shape DHExchange_Res_serialize DHExchange_Res_deserialize t ([dhr_shared_idx t]).
Proof.
  destruct t as [x]. intros [_ Hx]. cbn [dhr_shared_idx] in *. split; [by apply puts_u8|]. apply (gets_ext _ _ _ (set_dhr_shared_idx x)); [by apply gets_byte_field|done].
Qed.

Lemma DHExchange_Res_ok : roundtrips DHExchange_Res_shape DHExchange_Res_valid DHExchange_Res_init
  DHExchange_Res_serialize DHExchange_Res_deserialize 1.
Proof.
  apply roundtrips_intro; [done|]. intros t Ht. eexists. split; [|by apply DHExchange_Res_wire]. done.
Qed.

Lemma GcmInit_Res_wire t : GcmInit_Res_valid t →
  wire GcmInit_Res_shape GcmInit_Res_serialize GcmInit_Res_deserialize t ([gir_gcm_idx t]).
Proof.
  destruct t as [x]. intros [_ Hx]. cbn [gir_gcm_idx] in *. split; [by apply puts_u8|]. apply (gets_ext _ _ _ (set_gir_gcm_idx x)); [by apply gets_byte_field|done].
Qed.

Lemma GcmInit_Res_ok : roundtrips GcmInit_Res_shape GcmInit_Res_valid GcmInit_Res_init
  GcmInit_Res_serialize GcmInit_Res_deserialize 1.
Proof.
  apply roundtrips_intro; [done|]. intros t Ht. eexists. split; [|by apply GcmInit_Res_wire]. done.
Qed.

Lemma GcmInit_Cmd_wire t : GcmInit_Cmd_valid t →
  wire GcmInit_Cmd_shape GcmInit_Cmd_serialize GcmInit_Cmd_deserialize t (be_bytes 4 (mode t) ++ [gic_shared_idx t]).
Proof.
  destruct t as [md x]. intros (_ & (e & Hm) & Hx). cbn [mode gic_shared_idx] in *. subst md.
  pose proof (GCM_Mode_in e) as He. split.
  { apply puts_seq; [by apply (ec_put _ _ _ GCM_Mode_codec e e)|by apply puts_u8]. }
  apply (gets_ext _ _ _ (λ t, set_gic_shared_idx x (set_mode e t))); [|done].
  apply gets_seq; [|by apply gets_byte_field].
  apply (gets_field mode set_mode GCM_Mode_deserialize (be_bytes 4 e) (λ _, True) (λ _, e : Z)); [|done..].
  by apply (ec_get _ _ _ GCM_Mode_codec).
Qed.

Lemma GcmInit_Cmd_ok : roundtrips GcmInit_Cmd_shape GcmInit_Cmd_valid GcmInit_Cmd_init
  GcmInit_Cmd_serialize GcmInit_Cmd_deserialize 5.
Proof.
  apply roundtrips_intro; [done|]. intros t Ht. eexists. split; [|by apply GcmInit_Cmd_wire]. by rewrite length_app, be_bytes_length.
Qed.

(** The eight messages of the bulk encryptor round-trip: each valid message
    is counted, stored in its fixed number of bytes and read back equal into a
    structure with any contents, for every buffer with room; a short buffer gives
    -1 on both sides, and the init routine of each message yields a structure
    that can be read into. *)
Theorem bulk_messages_roundtrip :
  roundtrips GenDHPair_Cmd_shape GenDHPair_Cmd_valid GenDHPair_Cmd_init
    GenDHPair_Cmd_serialize GenDHPair_Cmd_deserialize 32 ∧
  roundtrips GenDHPair_Res_shape GenDHPair_Res_valid GenDHPair_Res_init
    GenDHPair_Res_serialize GenDHPair_Res_deserialize 129 ∧
  roundtrips DHExchange_Cmd_shape DHExchange_Cmd_valid DHExchange_Cmd_init
    DHExchange_Cmd_serialize DHExchange_Cmd_deserialize 129 ∧
  roundtrips DHExchange_Res_shape DHExchange_Res_valid DHExchange_Res_init
    DHExchange_Res_serialize DHExchange_Res_deserialize 1 ∧
  roundtrips GcmInit_Cmd_shape GcmInit_Cmd_valid GcmInit_Cmd_init
    GcmInit_Cmd_serialize GcmInit_Cmd_deserialize 5 ∧
  roundtrips GcmInit_Res_shape GcmInit_Res_valid GcmInit_Res_init
    GcmInit_Res_serialize GcmInit_Res_deserialize 1 ∧
  roundtrips GcmDoBlock_Cmd_shape GcmDoBlock_Cmd_valid GcmDoBlock_Cmd_init
    GcmDoBlock_Cmd_serialize GcmDoBlock_Cmd_deserialize 17 ∧
  roundtrips GcmDoBlock_Res_shape GcmDoBlock_Res_valid GcmDoBlock_Res_init
    GcmDoBlock_Res_serialize GcmDoBlock_Res_deserialize 16.
Proof.
  exact (conj GenDHPair_Cmd_ok (conj GenDHPair_Res_ok (conj DHExchange_Cmd_ok (conj DHExchange_Res_ok
    (conj GcmInit_Cmd_ok (conj GcmInit_Res_ok (conj GcmDoBlock_Cmd_ok GcmDoBlock_Res_ok))))))).
Qed.
