(* ===== verification/Bulk.v ===== *)
(** * The bulk encryption application

    applications/orp-bulkencryption/src/bulkencryption.c: the task that keeps
    key pairs, shared secrets and GCM channels for a host, and its packet
    handlers.  The services are those of the other files: AES and SHA through the
    classes of AesDriver.v and SwSha.v, the ECC driver of Ed521.v.

    A GCM context keeps a pointer to its key, not a copy, and the key is a slot
    of the session state; a channel of the model therefore keeps the number of
    the slot, and the key is read from the state at every use.  The buffers that
    kdf_getkey takes from the heap are arguments of the handlers: [None] when the
    heap has no room, arbitrary contents otherwise.  So are the kernel's replies to
    the calls that send a packet. *)

From S2P Require Import Prelude Msel Words Stdc SwAes Fips197 AesDriver Gcm Prng SwSha Sha2 Kdf.
From S2P Require Import Prime521 Ed521 Curve Tidl Protocols.

Local Open Scope Z_scope.
Local Open Scope tidl_scope.

(** ** Session state *)

Definition FFS_DATA_SIZE : Z := 2044.
Record ffs_packet_t := FfsPacket { fp_session : Z; fp_nonce : Z; fp_reserved : Z; fp_data : list Z }.

Definition SECRET_KEY_LEN : nat := 64.
Definition ECC_PAIRS_LEN : Z := 4.
Definition SHARED_LEN : Z := 4.
Definition GCM_LEN : Z := 4.
Definition AES_GCM_128_KEY_SIZE : nat := 32.

Record ecc_pair_t := EccPair { pub : list Z; prv : list Z }.

(** [gcm_slot] is the slot of [shared] that [ctx.e_ctx.key] points to, [None]
    for NULL. *)
Record gcm_t := MkGcm { gcm_ctx : aes_gcm_ctx_t; gcm_slot : option nat; gcm_mode : Z }.

Record state_t := State {
  ecc_pairs : list ecc_pair_t; ecc_pairs_count : Z;
  shared : list (list Z); shared_count : Z;
  gcm : list gcm_t; gcm_count : Z;
}.

Definition zero_pair : ecc_pair_t := EccPair (replicate ECC_POINT_LEN 0) (replicate ECC_SCALAR_LEN 0).
Definition zero_gcm : gcm_t :=
  let zero := replicate 16 0 in MkGcm (AesGcmCtx 0 0 0 zero zero zero zero (AesCtx 0 [])) None 0.

(** The state cleared by [msel_memset]. *)
Definition zero_state : state_t :=
  State (replicate 4 zero_pair) 0 (replicate 4 (replicate SECRET_KEY_LEN 0)) 0 (replicate 4 zero_gcm) 0.

Definition get_pair (st : state_t) (i : nat) : ecc_pair_t := default zero_pair (ecc_pairs st !! i).
Definition get_secret (st : state_t) (i : nat) : list Z := default [] (shared st !! i).
Definition get_gcm (st : state_t) (i : nat) : gcm_t := default zero_gcm (gcm st !! i).

Definition set_pair (st : state_t) (i : nat) (p : ecc_pair_t) (n : Z) : state_t :=
  State (<[i := p]> (ecc_pairs st)) n (shared st) (shared_count st) (gcm st) (gcm_count st).
Definition set_secret (st : state_t) (i : nat) (s : list Z) (n : Z) : state_t :=
  State (ecc_pairs st) (ecc_pairs_count st) (<[i := s]> (shared st)) n (gcm st) (gcm_count st).
Definition set_gcm (st : state_t) (i : nat) (g : gcm_t) (n : Z) : state_t :=
  State (ecc_pairs st) (ecc_pairs_count st) (shared st) (shared_count st) (<[i := g]> (gcm st)) n.

(** The context of a channel with the key its pointer reaches. *)
Definition load_gcm (st : state_t) (g : gcm_t) : aes_gcm_ctx_t :=
  let c := gcm_ctx g in
  let k := match gcm_slot g with Some i => take 16 (get_secret st i) | None => [] end in
  AesGcmCtx (gcm_algo c) (aad_len c) (input_len c) (tag c) (hkey c) (iv c) (civ c) (AesCtx (aes_algo (gcm_e_ctx c)) k).

(** ** Keying constants *)

(** "bulkencryption master" and its terminator. *)
Definition bulkencryption_master : list Z :=
  [98; 117; 108; 107; 101; 110; 99; 114; 121; 112; 116; 105; 111; 110; 32; 109; 97; 115; 116; 101; 114; 0].
Definition bulkencryption_secret_data : list Z :=
  [0x7a; 0x5a; 0xfc; 0x2b; 0x03; 0xd4; 0x98; 0x9c;
   0x13; 0xec; 0x35; 0x1d; 0xe6; 0x9a; 0xa4; 0x32;
   0x2a; 0x1f; 0xf3; 0x9d; 0x54; 0xa9; 0xc1; 0xe4;
   0x76; 0xbd; 0x32; 0x76; 0xf8; 0x9c; 0xda; 0xc4].
Definition bulkencryption_secret_data_exchange1 : list Z :=
  [0x13; 0x9d; 0xcb; 0xd6; 0x33; 0x33; 0xaa; 0xb6;
   0x87; 0xce; 0xb6; 0xdf; 0x5e; 0x60; 0x86; 0x39;
   0x9b; 0xf3; 0x62; 0xa6; 0xd2; 0x60; 0x11; 0x84;
   0x2e; 0xdc; 0x70; 0xad; 0x9e; 0x5f; 0x5a; 0x4c].
Definition bulkencryption_secret_data_exchange2 : list Z :=
  [0x17; 0x67; 0xd7; 0xb5; 0xbb; 0x4b; 0x4b; 0x5e;
   0xec; 0x2b; 0x87; 0x33; 0xd3; 0x80; 0x37; 0x35;
   0xa6; 0xd0; 0x97; 0x8b; 0x6c; 0x5b; 0x99; 0x4b;
   0x7d; 0x92; 0xbc; 0x02; 0x92; 0x0a; 0x30; 0xcb].
Definition bulkencryption_curve_base_point : list Z := replicate 63 0 ++
  [0x75; 0x2c; 0xb4; 0x5c; 0x48; 0x64; 0x8b; 0x18; 0x9d; 0xf9; 0x0c; 0xb2; 0x29; 0x6b; 0x28; 0x78;
   0xa3; 0xbf; 0xd9; 0xf4; 0x2f; 0xc6; 0xc8; 0x18; 0xec; 0x8b; 0xf3; 0xc9; 0xc0; 0xc6; 0x20; 0x39;
   0x13; 0xf6; 0xec; 0xc5; 0xcc; 0xc7; 0x24; 0x34; 0xb1; 0xae; 0x94; 0x9d; 0x56; 0x8f; 0xc9; 0x9c;
   0x60; 0x59; 0xd0; 0xfb; 0x13; 0x36; 0x48; 0x38; 0xaa; 0x30; 0x2a; 0x94; 0x0a; 0x2f; 0x19; 0xba; 0x6c].

(** ** Handlers *)

Section bulk.
Context (svc_aes : aes_driver_ctx_t → msel_status * list Z) (svc_sha : sha_data_t → sha_data_t) (be : bool).

(** [for (i = 0; i < ECC_SCALAR_LEN; i += AES_BLOCK_SIZE) prng_output(&prng, &prv[i])]. *)
Definition fill_prv (prng : prng_ctx_t) (prv : list Z) : list Z :=
  (for_loop 0 (ECC_SCALAR_LEN / AES_BLOCK_SIZE) (λ k st,
    let '(prng, prv) := st in
    let i := (AES_BLOCK_SIZE * k)%nat in
    let '(prng, out) := prng_output svc_aes be prng (take AES_BLOCK_SIZE (drop i prv)) in
    (prng, msel_memcpy prv i out 0 AES_BLOCK_SIZE)) (prng, prv)).2.

(** The new private and public key; [table] is the heap block of kdf_getkey. *)
Definition bulkencryption_ecc_genkey (table : option (list Z)) (seed prv pub : list Z) : option (list Z * list Z) :=
  '(tmp, _) ← kdf_getkey svc_sha table bulkencryption_master (length bulkencryption_master)
    bulkencryption_secret_data (length bulkencryption_secret_data) seed (replicate SHA256_OUTPUT_LEN 0);
  let prng := prng_init AES_128 (take 16 tmp) (mem_word be (take 8 (drop 16 tmp))) (mem_word be (take 8 (drop 24 tmp))) in
  let prv := fill_prv prng prv in
  let pub := msel_memcpy pub 0 bulkencryption_curve_base_point 0 ECC_POINT_LEN in
  let '(_, ecc_ctx) := msel_ecc_mul (EccCtx prv pub) in
  Some (prv, point ecc_ctx).

(** A serializer into the cleared packet data, and its return value and the data. *)
Definition write_data (data : list Z) (m : ser) : Z * list Z :=
  let data := msel_memset data 0 0 (Z.to_nat FFS_DATA_SIZE) in
  let '(err, w) := m FFS_DATA_SIZE (Wr (Some data) 0) in
  (err, default data (w_buf w)).

(** [err = a; if (err) err = b;]. *)
Definition ser_if_error (a b : ser) : ser := λ l w,
  let '(err, w) := a l w in if negb (err =? 0) then b l w else (err, w).

(** The handlers return [err], the state and the packet data. *)

Definition processPacket_Logout (st : state_t) (data : list Z) : option (Z * state_t * list Z) :=
  let '(err, data) := write_data data (BulkEncryptionResponse_serialize BER_GOODBYE) in
  Some (err, zero_state, data).

Definition processPacket_GenDHPair (table : option (list Z)) (st : state_t) (data : list Z) (cmd : GenDHPair_Cmd) :
    option (Z * state_t * list Z) :=
  let res := MkGenDHPair_Res (replicate GENDHPAIR_RES_PUBKEY_LENGTH 0) 0 in
  if ECC_PAIRS_LEN <=? ecc_pairs_count st then Some (-1, st, data)
  else
    let idx := ecc_pairs_count st in
    let pair := get_pair st (Z.to_nat idx) in
    '(prv', pub') ← bulkencryption_ecc_genkey table (seed cmd) (prv pair) (pub pair);
    let st := set_pair st (Z.to_nat idx) (EccPair pub' prv') (u32 (ecc_pairs_count st + 1)) in
    let res := set_pubkey (msel_memcpy (pubkey res) 0 pub' 0 GENDHPAIR_RES_PUBKEY_LENGTH) res in
    let res := set_privkey_idx (u8 idx) res in
    let '(err, data) := write_data data
      (ser_if_error (BulkEncryptionResponse_serialize BER_DHPAIR) (GenDHPair_Res_serialize res)) in
    Some (err, st, data).

Definition processPacket_DHExchange (table1 table2 : option (list Z)) (st : state_t) (data : list Z) (cmd : DHExchange_Cmd) :
    option (Z * state_t * list Z) :=
  if SHARED_LEN <=? shared_count st then Some (-1, st, data)
  else if ECC_PAIRS_LEN <=? local_privkey_idx cmd then Some (-1, st, data)
  else
    let local_prv := prv (get_pair st (Z.to_nat (local_privkey_idx cmd))) in
    let idx := shared_count st in
    let secret := get_secret st (Z.to_nat idx) in
    let exchanged := msel_memcpy (replicate ECC_POINT_LEN 0) 0 (remote_pubkey cmd) 0 ECC_POINT_LEN in
    let '(_, ecc_ctx) := msel_ecc_mul (EccCtx local_prv exchanged) in
    seed ← sha256_hash svc_sha (point ecc_ctx) ECC_POINT_LEN;
    '(key1, _) ← kdf_getkey svc_sha table1 bulkencryption_master (length bulkencryption_master)
      bulkencryption_secret_data_exchange1 (length bulkencryption_secret_data_exchange1) seed (take 32 secret);
    let secret := msel_memcpy secret 0 key1 0 32 in
    '(key2, _) ← kdf_getkey svc_sha table2 bulkencryption_master (length bulkencryption_master)
      bulkencryption_secret_data_exchange2 (length bulkencryption_secret_data_exchange2) seed (drop 32 secret);
    let secret := msel_memcpy secret 32 key2 0 32 in
    let st := set_secret st (Z.to_nat idx) secret (u32 (shared_count st + 1)) in
    let '(err, data) := write_data data
      (BulkEncryptionResponse_serialize BER_DH_EXCHANGED ;> DHExchange_Res_serialize (MkDHExchange_Res (u8 idx))) in
    Some (err, st, data).

Definition processPacket_GCMInit (st : state_t) (data : list Z) (cmd : GcmInit_Cmd) : option (Z * state_t * list Z) :=
  if GCM_LEN <=? gcm_count st then Some (-1, st, data)
  else if SHARED_LEN <=? gic_shared_idx cmd then Some (-1, st, data)
  else
    let slot := Z.to_nat (gic_shared_idx cmd) in
    let secret := get_secret st slot in
    let idx := gcm_count st in
    let ctx := aes_gcm_setkey svc_aes AES_GCM_128 (take 16 secret) (drop AES_GCM_128_KEY_SIZE secret)
      (SECRET_KEY_LEN - AES_GCM_128_KEY_SIZE) in
    let st := set_gcm st (Z.to_nat idx) (MkGcm ctx (Some slot) (mode cmd)) (u32 (gcm_count st + 1)) in
    let '(err, data) := write_data data
      (BulkEncryptionResponse_serialize BER_GCM_READY ;> GcmInit_Res_serialize (MkGcmInit_Res (u8 idx))) in
    Some (err, st, data).

Definition processPacket_GCMDoBlock (st : state_t) (data : list Z) (cmd : GcmDoBlock_Cmd) : option (Z * state_t * list Z) :=
  let block := replicate GCMDOBLOCK_RES_BLOCK_LENGTH 0 in
  if GCM_LEN <=? gdc_gcm_idx cmd then Some (-1, st, data)
  else
    let i := Z.to_nat (gdc_gcm_idx cmd) in
    let g := get_gcm st i in
    let '(g, block) :=
      if gcm_mode g =? GCM128_ENCRYPT then
        let '(ctx, block) := aes_gcm_encrypt svc_aes (load_gcm st g) (gdc_block cmd) GCMDOBLOCK_CMD_BLOCK_LENGTH block in
        (MkGcm ctx (gcm_slot g) (gcm_mode g), block)
      else if gcm_mode g =? GCM128_DECRYPT then
        let '(ctx, block) := aes_gcm_decrypt svc_aes (load_gcm st g) (gdc_block cmd) GCMDOBLOCK_CMD_BLOCK_LENGTH block in
        (MkGcm ctx (gcm_slot g) (gcm_mode g), block)
      else (g, block) in
    let st := set_gcm st i g (gcm_count st) in
    let '(err, data) := write_data data
      (BulkEncryptionResponse_serialize BER_GCM_BLOCKS ;> GcmDoBlock_Res_serialize (MkGcmDoBlock_Res block)) in
    Some (err, st, data).

(** The switch of [processPacket]: parse the command's structure, run its
    handler. *)
Definition dispatch (tables : option (list Z) * option (list Z)) (st : state_t) (data : list Z) (cmd pos : Z) :
    option (Z * state_t * list Z) :=
  switch cmd
    [(BEC_LOGOUT : Z, processPacket_Logout st data);
     (BEC_GEN_DHPAIR : Z,
       let '(err, (_, c)) := GenDHPair_Cmd_deserialize data FFS_DATA_SIZE (pos, GenDHPair_Cmd_init (MkGenDHPair_Cmd [])) in
       if negb (err =? 0) then Some (err, st, data) else processPacket_GenDHPair tables.1 st data c);
     (BEC_DH_EXCHANGE : Z,
       let '(err, (_, c)) := DHExchange_Cmd_deserialize data FFS_DATA_SIZE (pos, DHExchange_Cmd_init (MkDHExchange_Cmd [] 0)) in
       if negb (err =? 0) then Some (err, st, data) else processPacket_DHExchange tables.1 tables.2 st data c);
     (BEC_GCM_INIT : Z,
       let '(err, (_, c)) := GcmInit_Cmd_deserialize data FFS_DATA_SIZE (pos, GcmInit_Cmd_init (MkGcmInit_Cmd 0 0)) in
       if negb (err =? 0) then Some (err, st, data) else processPacket_GCMInit st data c);
     (BEC_GCM_DOBLOCK : Z,
       let '(err, (_, c)) := GcmDoBlock_Cmd_deserialize data FFS_DATA_SIZE (pos, GcmDoBlock_Cmd_init (MkGcmDoBlock_Cmd [] 0)) in
       if negb (err =? 0) then Some (err, st, data) else processPacket_GCMDoBlock st data c)]
    (Some (0, st, data)).

Definition set_data (p : ffs_packet_t) (d : list Z) : ffs_packet_t := FfsPacket (fp_session p) (fp_nonce p) (fp_reserved p) d.

(** The end of [processPacket] up to the loops that send: the packet they send,
    if there is one. *)
Definition answer (pkt : ffs_packet_t) (r : Z * state_t * list Z) : state_t * option ffs_packet_t :=
  let '(err, st, data) := r in
  if negb (err =? 0) then
    let '(err_err, data) := write_data data (BulkEncryptionResponse_serialize BER_ERROR) in
    (st, if err_err =? 0 then Some (set_data pkt data) else None)
  else (st, Some (set_data pkt data)).

(** [processPacket] up to the loops that send. *)
Definition packet_reply (tables : option (list Z) * option (list Z)) (st : state_t) (pkt : ffs_packet_t) :
    option (state_t * option ffs_packet_t) :=
  let data := fp_data pkt in
  let '(err, (pos, cmd)) := BulkEncryptionCommand_deserialize data FFS_DATA_SIZE (0, BEC_LOGOUT : Z) in
  r ← (if negb (err =? 0) then Some (err, st, data) else dispatch tables st data cmd pos);
  Some (answer pkt r).

(** The system calls of the task, with the kernel's reply where it matters. *)
Inductive svc_call : Type :=
  | Recv (pkt : ffs_packet_t)
  | Send (pkt : ffs_packet_t) (reply : msel_status)
  | Yield.

(** [while (msel_svc(MSEL_SVC_SESSION_SEND, pkt) != MSEL_OK)
    msel_svc(MSEL_SVC_YIELD, NULL)], when the kernel replies [replies] to the
    calls in turn; [None] when the loop is still running after the last of them. *)
Fixpoint send_loop (replies : list msel_status) (pkt : ffs_packet_t) : option (list svc_call) :=
  match replies with
  | [] => None
  | r :: replies =>
      if decide (r = MSEL_OK) then Some [Send pkt r]
      else calls ← send_loop replies pkt; Some (Send pkt r :: Yield :: calls)
  end.

Definition processPacket (tables : option (list Z) * option (list Z)) (replies : list msel_status) (st : state_t)
    (pkt : ffs_packet_t) : option (state_t * list svc_call) :=
  '(st, out) ← packet_reply tables st pkt;
  calls ← match out with Some p => send_loop replies p | None => Some [] end;
  Some (st, calls).

(** What a turn of the task meets: the heap blocks for kdf_getkey, the replies to
    its send calls, and the packet that the receive call leaves. *)
Record turn : Type := Turn {
  t_tables : option (list Z) * option (list Z);
  t_replies : list msel_status;
  t_pkt : ffs_packet_t }.

(** One turn of the loop of [bulkencryption_task], and the turns of a run, with the
    system calls they make. *)
Definition task_turn (st : state_t) (t : turn) : option (state_t * list svc_call) :=
  '(st, calls) ← (if fp_session (t_pkt t) =? 0 then Some (st, [])
                  else processPacket (t_tables t) (t_replies t) st (t_pkt t));
  Some (st, Recv (t_pkt t) :: calls ++ [Yield]).

Fixpoint task_turns (st : state_t) (turns : list turn) : option (state_t * list (list svc_call)) :=
  match turns with
  | [] => Some (st, [])
  | t :: turns =>
      '(st, calls) ← task_turn st t;
      '(st, rest) ← task_turns st turns;
      Some (st, calls :: rest)
  end.

(** The task on the addresses [msel_malloc] returned for its packet and its
    state: the system calls of each of its turns. *)
Definition bulkencryption_task (pkt state : Z) (turns : list turn) : option (list (list svc_call)) :=
  if (pkt =? 0) || (state =? 0) then Some []
  else '(_, calls) ← task_turns zero_state turns; Some calls.
End bulk.

(** ** Packets *)

(** The packet data that a serializer leaves: what the host sends and what the
    task answers. *)
Definition message (m : ser) : list Z := (write_data (replicate (Z.to_nat FFS_DATA_SIZE) 0) m).2.
Definition request {T} (code : BulkEncryptionCommand) (put : T → ser) (t : T) : list Z :=
  message (BulkEncryptionCommand_serialize code ;> put t).
Definition reply {T} (code : BulkEncryptionResponse) (put : T → ser) (t : T) : list Z :=
  message (BulkEncryptionResponse_serialize code ;> put t).
Definition reply_code (code : BulkEncryptionResponse) : list Z := message (BulkEncryptionResponse_serialize code).

Lemma BulkEncryptionCommand_codec : enum_codec BulkEncryptionCommand_serialize BulkEncryptionCommand_deserialize
  (self_table [BEC_LOGOUT : Z; BEC_GEN_DHPAIR : Z; BEC_DH_EXCHANGE : Z; BEC_GCM_INIT : Z; BEC_GCM_DOBLOCK : Z]).
Proof. exact (self_enum_codec [BEC_LOGOUT : Z; BEC_GEN_DHPAIR : Z; BEC_DH_EXCHANGE : Z; BEC_GCM_INIT : Z; BEC_GCM_DOBLOCK : Z] eq_refl). Qed.

Lemma BulkEncryptionResponse_codec : enum_codec BulkEncryptionResponse_serialize BulkEncryptionResponse_deserialize
  (self_table [BER_ERROR : Z; BER_GOODBYE : Z; BER_DHPAIR : Z; BER_DH_EXCHANGED : Z; BER_GCM_READY : Z; BER_GCM_BLOCKS : Z]).
Proof. exact (self_enum_codec [BER_ERROR : Z; BER_GOODBYE : Z; BER_DHPAIR : Z; BER_DH_EXCHANGED : Z; BER_GCM_READY : Z; BER_GCM_BLOCKS : Z] eq_refl). Qed.

Lemma command_in (e : BulkEncryptionCommand) : In (e : Z, e : Z)
  (self_table [BEC_LOGOUT : Z; BEC_GEN_DHPAIR : Z; BEC_DH_EXCHANGE : Z; BEC_GCM_INIT : Z; BEC_GCM_DOBLOCK : Z]).
Proof. destruct e; cbn; tauto. Qed.

Lemma response_in (e : BulkEncryptionResponse) : In (e : Z, e : Z)
  (self_table [BER_ERROR : Z; BER_GOODBYE : Z; BER_DHPAIR : Z; BER_DH_EXCHANGED : Z; BER_GCM_READY : Z; BER_GCM_BLOCKS : Z]).
Proof. destruct e; cbn; tauto. Qed.

Lemma puts_command (e : BulkEncryptionCommand) : puts (BulkEncryptionCommand_serialize e) (be_bytes 4 e).
Proof. apply (ec_put _ _ _ BulkEncryptionCommand_codec), command_in. Qed.

Lemma puts_response (e : BulkEncryptionResponse) : puts (BulkEncryptionResponse_serialize e) (be_bytes 4 e).
Proof. apply (ec_put _ _ _ BulkEncryptionResponse_codec), response_in. Qed.

Lemma memset_all data n : length data = n → msel_memset data 0 0 n = replicate n 0.
Proof.
  intros Hl. rewrite msel_memset_blit by lia. unfold blit. rewrite length_replicate, take_0.
  rewrite drop_ge by lia. apply app_nil_r.
Qed.

Lemma write_data_puts data m bytes : puts m bytes → Z.of_nat (length data) = FFS_DATA_SIZE →
  Z.of_nat (length bytes) <= FFS_DATA_SIZE →
  write_data data m = (0, bytes ++ replicate (Z.to_nat FFS_DATA_SIZE - length bytes) 0).
Proof.
  intros Hm Hl Hb. unfold write_data. rewrite memset_all by lia.
  rewrite (puts_fit _ _ Hm) by (rewrite ?length_replicate; unfold FFS_DATA_SIZE in *; lia).
  cbn [w_buf default]. unfold splice. rewrite take_0. cbn [app]. rewrite drop_replicate. reflexivity.
Qed.

Lemma message_puts m bytes : puts m bytes → Z.of_nat (length bytes) <= FFS_DATA_SIZE →
  message m = bytes ++ replicate (Z.to_nat FFS_DATA_SIZE - length bytes) 0.
Proof. intros Hm Hb. unfold message. rewrite (write_data_puts _ m bytes); [done|done| |done]. by rewrite length_replicate. Qed.

Lemma write_data_message data m bytes : puts m bytes → Z.of_nat (length data) = FFS_DATA_SIZE →
  Z.of_nat (length bytes) <= FFS_DATA_SIZE → write_data data m = (0, message m).
Proof. intros Hm Hl Hb. by rewrite (write_data_puts data m bytes), (message_puts m bytes). Qed.

Lemma message_length m bytes : puts m bytes → Z.of_nat (length bytes) <= FFS_DATA_SIZE →
  Z.of_nat (length (message m)) = FFS_DATA_SIZE.
Proof. intros Hm Hb. rewrite (message_puts m bytes) by done. rewrite length_app, length_replicate. lia. Qed.

Lemma holds_prefix bytes rest : holds (bytes ++ rest) 0 bytes.
Proof. intros i Hi. cbn. by apply get_app_l. Qed.

(** Parsing a request: the code, then the structure. *)
Lemma parse_command (e : BulkEncryptionCommand) bytes rest : Z.of_nat (length bytes) <= 2000 →
  BulkEncryptionCommand_deserialize (be_bytes 4 e ++ bytes ++ rest) FFS_DATA_SIZE (0, BEC_LOGOUT : Z) = (0, (4, e : Z)).
Proof.
  intros Hb. pose proof (ec_get _ _ _ BulkEncryptionCommand_codec _ _ (command_in e)) as Hg.
  rewrite (gets_ok _ _ _ _ Hg); rewrite ?be_bytes_length; try done. apply holds_prefix.
Qed.

Lemma parse_body {T} shape put (rd : deser T) t bytes (e : BulkEncryptionCommand) rest old :
  wire shape put rd t bytes → Z.of_nat (length bytes) <= 2000 → shape old →
  rd (be_bytes 4 e ++ bytes ++ rest) FFS_DATA_SIZE (4, old) = (0, (4 + Z.of_nat (length bytes), t)).
Proof.
  intros [_ Hg] Hb Ho. apply (gets_ok _ _ _ _ Hg); [lia|unfold FFS_DATA_SIZE; lia|done| |done].
  intros i Hi. rewrite get_app_r by (rewrite be_bytes_length; lia). rewrite be_bytes_length.
  replace (Z.to_nat 4 + i - 4)%nat with i by lia. by apply get_app_l.
Qed.

Lemma request_bytes {T} shape put (rd : deser T) (e : BulkEncryptionCommand) t bytes :
  wire shape put rd t bytes → Z.of_nat (length bytes) <= 2000 →
  request e put t = be_bytes 4 e ++ bytes ++ replicate (Z.to_nat FFS_DATA_SIZE - length (be_bytes 4 e ++ bytes)) 0.
Proof.
  intros [Hp _] Hb. unfold request. rewrite (message_puts _ (be_bytes 4 e ++ bytes)).
  - by rewrite <- app_assoc.
  - apply puts_seq; [apply puts_command|exact Hp].
  - rewrite length_app, be_bytes_length. unfold FFS_DATA_SIZE. lia.
Qed.

Lemma reply_ok {T} shape put (rd : deser T) (e : BulkEncryptionResponse) t bytes data :
  wire shape put rd t bytes → Z.of_nat (length bytes) <= 2000 → Z.of_nat (length data) = FFS_DATA_SIZE →
  write_data data (BulkEncryptionResponse_serialize e ;> put t) = (0, reply e put t) ∧
  Z.of_nat (length (reply e put t)) = FFS_DATA_SIZE.
Proof.
  intros [Hp _] Hb Hl. assert (puts (BulkEncryptionResponse_serialize e ;> put t) (be_bytes 4 e ++ bytes)) as H
    by (apply puts_seq; [apply puts_response|exact Hp]).
  assert (Z.of_nat (length (be_bytes 4 e ++ bytes)) <= FFS_DATA_SIZE)
    by (rewrite length_app, be_bytes_length; unfold FFS_DATA_SIZE; lia).
  split; [by eapply write_data_message|by eapply message_length].
Qed.

(** What the host reads from a reply. *)
Lemma parse_reply {T} shape put (rd : deser T) (e : BulkEncryptionResponse) t bytes old :
  wire shape put rd t bytes → Z.of_nat (length bytes) <= 2000 → shape old →
  rd (reply e put t) FFS_DATA_SIZE (4, old) = (0, (4 + Z.of_nat (length bytes), t)).
Proof.
  intros [Hp Hg] Hb Ho. unfold reply. rewrite (message_puts _ (be_bytes 4 e ++ bytes)).
  - rewrite <- app_assoc. apply (gets_ok _ _ _ _ Hg); [lia|unfold FFS_DATA_SIZE; lia|done| |done].
    intros i Hi. rewrite get_app_r by (rewrite be_bytes_length; lia). rewrite be_bytes_length.
    replace (Z.to_nat 4 + i - 4)%nat with i by lia. by apply get_app_l.
  - apply puts_seq; [apply puts_response|exact Hp].
  - rewrite length_app, be_bytes_length. unfold FFS_DATA_SIZE. lia.
Qed.

(** ** Well-formed states *)

(** The heap had room for the table. *)
Definition table_ok (t : option (list Z)) : Prop := ∃ b, t = Some b ∧ length b = 512%nat ∧ bytes_ok b.
Definition tables_ok (t : option (list Z) * option (list Z)) : Prop := table_ok t.1 ∧ table_ok t.2.

Definition field_ok (l : list Z) : Prop := length l = 128%nat ∧ bytes_ok l.
Definition pair_wf (p : ecc_pair_t) : Prop := field_ok (pub p) ∧ field_ok (prv p).
Definition secret_wf (s : list Z) : Prop := length s = SECRET_KEY_LEN ∧ bytes_ok s.

(** A channel is unused, or works with AES-128 and a slot for its key. *)
Definition gcm_wf (g : gcm_t) : Prop :=
  gcm_mode g = 0 ∨
  (∃ e : GCM_Mode, gcm_mode g = e) ∧ (∃ i, gcm_slot g = Some i ∧ (i < 4)%nat) ∧
  aes_algo (gcm_e_ctx (gcm_ctx g)) = AES_128 ∧
  block_ok (tag (gcm_ctx g)) ∧ block_ok (hkey (gcm_ctx g)) ∧ block_ok (iv (gcm_ctx g)) ∧ block_ok (civ (gcm_ctx g)).

Record state_wf (st : state_t) : Prop := StateWf {
  wf_pairs : length (ecc_pairs st) = 4%nat ∧ Forall pair_wf (ecc_pairs st);
  wf_shared : length (shared st) = 4%nat ∧ Forall secret_wf (shared st);
  wf_gcm : length (gcm st) = 4%nat ∧ Forall gcm_wf (gcm st);
  wf_counts : 0 <= ecc_pairs_count st <= 4 ∧ 0 <= shared_count st <= 4 ∧ 0 <= gcm_count st <= 4;
}.

Lemma zero_state_wf : state_wf zero_state.
Proof.
  assert (∀ n, bytes_ok (replicate n 0)) as Hz by (intros; apply bytes_ok_replicate; unfold is_u8; lia).
  split; [| | |cbn; lia]; (split; [reflexivity|apply Forall_replicate]).
  - split; split; [reflexivity|apply Hz|reflexivity|apply Hz].
  - split; [reflexivity|apply Hz].
  - by left.
Qed.

Section wf.
Context (st : state_t) (Hst : state_wf st).

Lemma get_pair_wf i : (i < 4)%nat → pair_wf (get_pair st i).
Proof.
  intros Hi. destruct (wf_pairs st Hst) as [Hl Hf]. unfold get_pair.
  destruct (lookup_lt_is_Some_2 (ecc_pairs st) i) as [p Hp]; [lia|]. rewrite Hp. by eapply Forall_lookup_1.
Qed.

Lemma get_secret_wf i : (i < 4)%nat → secret_wf (get_secret st i).
Proof.
  intros Hi. destruct (wf_shared st Hst) as [Hl Hf]. unfold get_secret.
  destruct (lookup_lt_is_Some_2 (shared st) i) as [p Hp]; [lia|]. rewrite Hp. by eapply Forall_lookup_1.
Qed.

Lemma get_gcm_wf i : (i < 4)%nat → gcm_wf (get_gcm st i).
Proof.
  intros Hi. destruct (wf_gcm st Hst) as [Hl Hf]. unfold get_gcm.
  destruct (lookup_lt_is_Some_2 (gcm st) i) as [p Hp]; [lia|]. rewrite Hp. by eapply Forall_lookup_1.
Qed.

Lemma set_pair_wf i p n : pair_wf p → 0 <= n <= 4 → state_wf (set_pair st i p n).
Proof.
  intros Hp Hn. destruct Hst as [[Hl Hf] Hs Hg Hc]. split; cbn; [|done|done|lia].
  split; [by rewrite length_insert|by apply Forall_insert].
Qed.

Lemma set_secret_wf i s n : secret_wf s → 0 <= n <= 4 → state_wf (set_secret st i s n).
Proof.
  intros Hp Hn. destruct Hst as [Hpr [Hl Hf] Hg Hc]. split; cbn; [done| |done|lia].
  split; [by rewrite length_insert|by apply Forall_insert].
Qed.

Lemma set_gcm_wf i g n : gcm_wf g → 0 <= n <= 4 → state_wf (set_gcm st i g n).
Proof.
  intros Hp Hn. destruct Hst as [Hpr Hs [Hl Hf] Hc]. split; cbn; [done|done| |lia].
  split; [by rewrite length_insert|by apply Forall_insert].
Qed.

End wf.

Lemma key_ok_prefix s : bytes_ok s → (16 ≤ length s)%nat → key_ok AES_128 (take 16 s).
Proof. intros Hb Hl. split; [by left|]. split; [rewrite length_take; change (Fips.Nk_of AES_128) with 4%nat; lia|auto with width]. Qed.

Lemma load_gcm_ok st g e : state_wf st → gcm_wf g → gcm_mode g = GCM_Mode_val e → gcm_ok (load_gcm st g).
Proof.
  intros Hst [H0|(_ & (i & Hi & Hlt) & Ha & Ht & Hh & Hv & Hc)] He; [rewrite H0 in He; by destruct e|].
  unfold gcm_ok, load_gcm. cbn [gcm_e_ctx tag hkey iv civ aes_algo aes_key]. rewrite Ha, Hi.
  destruct (get_secret_wf st Hst i Hlt) as [Hl Hb]. split; [|done]. apply key_ok_prefix; [done|].
  rewrite Hl. unfold SECRET_KEY_LEN. lia.
Qed.

(** ** Keys *)

#[local] Opaque kdf_spec msel_ecc_mul x931_out prng_output kdf_getkey.

Definition key_scalar (prv : list Z) : nat := Z.to_nat (mp_val (make_mp prv ECC_SCALAR_LEN)).

(** The public key is the private one times the base point. *)
Definition key_pair (p : ecc_pair_t) : Prop :=
  msel_ecc_mul (EccCtx (prv p) bulkencryption_curve_base_point) = (MSEL_OK, EccCtx (prv p) (pub p)).

(** The private key of a seed: 128 bytes of ANSI X9.31 keyed and seeded with the
    key that the seed derives. *)
Definition seed_prv (be : bool) (seed : list Z) : list Z :=
  let k := kdf_spec bulkencryption_master bulkencryption_secret_data seed in
  concat (map (x931_out be AES_128 (take 16 k) (mem_word be (take 8 (drop 16 k))) (mem_word be (take 8 (drop 24 k)))) (seq 0 8)).

(** The secret of a shared point. *)
Definition point_secret (pt : list Z) : list Z :=
  kdf_spec bulkencryption_master bulkencryption_secret_data_exchange1 (SHA256 pt) ++
  kdf_spec bulkencryption_master bulkencryption_secret_data_exchange2 (SHA256 pt).

Lemma base_point_generator : bulkencryption_curve_base_point = generator_field.
Proof. vm_compute. reflexivity. Qed.

Lemma ecc_scalar s pt P : bytes_ok s → encodes pt (cp_x P) (cp_y P) →
  ∃ pt', msel_ecc_mul (EccCtx s pt) = (MSEL_OK, EccCtx s pt') ∧
    encodes pt' (cp_x (times (key_scalar s) P)) (cp_y (times (key_scalar s) P)) ∧ same_rest pt pt'.
Proof. exact (ecc_mul_times (EccCtx s pt) P). Qed.

#[local] Opaque key_scalar.

Lemma key_pair_encodes p : bytes_ok (prv p) → key_pair p →
  let P := times (key_scalar (prv p)) generator in encodes (pub p) (cp_x P) (cp_y P) ∧ clean (pub p).
Proof.
  unfold key_pair. rewrite base_point_generator. intros Hb Hp. destruct generator_encodes as [He Hc].
  destruct (ecc_scalar (prv p) generator_field generator Hb He) as (pt & E & Hpt & Hr).
  rewrite Hp in E. injection E as ->. split; [exact Hpt|]. by eapply same_rest_clean.
Qed.

Lemma exchange_encodes s p : bytes_ok s → bytes_ok (prv p) → key_pair p →
  let P := times (key_scalar s * key_scalar (prv p)) generator in
  ∃ pt, msel_ecc_mul (EccCtx s (pub p)) = (MSEL_OK, EccCtx s pt) ∧ encodes pt (cp_x P) (cp_y P) ∧ clean pt.
Proof.
  intros Hs Hb Hp. destruct (key_pair_encodes p Hb Hp) as [He Hc]. cbv zeta in *.
  destruct (ecc_scalar s (pub p) _ Hs He) as (pt & E & Hpt & Hr). rewrite <- times_mul.
  exists pt. split; [exact E|]. split; [exact Hpt|]. by eapply same_rest_clean.
Qed.

(** Diffie and Hellman: both sides reach the same point, unless a coordinate of
    it is zero, that is, unless it is one of the four points on the axes. *)
Lemma exchange_agrees p q : bytes_ok (prv p) → bytes_ok (prv q) → key_pair p → key_pair q →
  let P := times (key_scalar (prv p) * key_scalar (prv q)) generator in
  cp_x P ≠ 0 → cp_y P ≠ 0 →
  ∃ pt, msel_ecc_mul (EccCtx (prv p) (pub q)) = (MSEL_OK, EccCtx (prv p) pt) ∧
    msel_ecc_mul (EccCtx (prv q) (pub p)) = (MSEL_OK, EccCtx (prv q) pt) ∧ encodes pt (cp_x P) (cp_y P).
Proof.
  intros Bp Bq Hp Hq P Nx Ny. destruct (exchange_encodes (prv p) q Bp Bq Hq) as (pt & E & He & Hc).
  destruct (exchange_encodes (prv q) p Bq Bp Hp) as (pt' & E' & He' & Hc').
  cbv zeta in He, He'. rewrite (Nat.mul_comm (key_scalar (prv q))) in He'. fold P in He, He'.
  rewrite <- (clean_unique pt pt' _ _ He He' Hc Hc' (proj1 (cp_nonzero P) Nx) (proj2 (cp_nonzero P) Ny)) in E'.
  exists pt. exact (conj E (conj E' He)).
Qed.

(** ** Key derivation in the handlers *)

Lemma master_ok : sha_len_ok bulkencryption_master.
Proof. split; [by apply bytes_okb_ok|]. vm_compute. split; [reflexivity|lia]. Qed.

Lemma protocol_ok p : length p = 32%nat → bytes_ok p → sha_len_ok p.
Proof. intros Hl Hb. split; [done|]. rewrite Hl. cbn. lia. Qed.

Lemma memcpy_full dst (src : list Z) n : length dst = n → length src = n → msel_memcpy dst 0 src 0 n = src.
Proof. intros. by apply memcpy_all. Qed.

Section handlers.
Context (svc_aes : aes_driver_ctx_t → msel_status * list Z) (svc_sha : sha_data_t → sha_data_t) (be : bool).
Context `{!AesService svc_aes} `{!ShaCore svc_sha}.

Lemma kdf_ok table protocol nonce out : table_ok table → length protocol = 32%nat → bytes_ok protocol → hash_ok nonce →
  length out = 32%nat →
  kdf_getkey svc_sha table bulkencryption_master (length bulkencryption_master) protocol (length protocol) nonce out =
  Some (kdf_spec bulkencryption_master protocol nonce, replicate 512 0).
Proof. intros (b & -> & Ht & Hb) Hp Bp [Hn Bn] Ho. apply kdf_getkey_ok; auto using master_ok, protocol_ok. Qed.


Lemma fill_prv_ok k v_lo v_hi prv : key_ok AES_128 k → is_u64 v_lo → is_u64 v_hi → length prv = 128%nat →
  fill_prv svc_aes be (prng_init AES_128 k v_lo v_hi) prv = concat (map (x931_out be AES_128 k v_lo v_hi) (seq 0 8)).
Proof.
  intros Hk Hlo Hhi Hl. unfold fill_prv. change (ECC_SCALAR_LEN / AES_BLOCK_SIZE)%nat with 8%nat.
  change AES_BLOCK_SIZE with 16%nat. set (f := x931_out be AES_128 k v_lo v_hi).
  assert (∀ n, length (f n) = 16%nat) as Hf by (intros; by apply x931_out_ok).
  set (step := λ (k : nat) st, _).
  pose proof (for_loop_ind (λ n st, prng_at be AES_128 k v_lo v_hi n st.1 ∧
    ((n ≤ 8)%nat → st.2 = concat (map f (seq 0 n)) ++ drop (16 * n) prv)) 0 8 step (prng_init AES_128 k v_lo v_hi, prv)) as H.
  destruct H as [_ H].
  - split; [by apply prng_at_init|]. done.
  - intros n [g p] Hn [Hg Hp]. cbn [fst snd] in *. specialize (Hp ltac:(lia)). unfold step.
    assert (length p = 128%nat) as Hpl.
    { rewrite Hp, length_app, length_drop, concat_blocks_length by auto. lia. }
    destruct (prng_at_step svc_aes be AES_128 k v_lo v_hi Hlo Hhi n g (take 16 (drop (16 * n) p))) as [Hg' Ho];
      [lia|done|rewrite length_take, length_drop; lia|].
    destruct (prng_output _ _ _ _) as [g' o]. cbn [fst snd] in *. split; [done|]. intros _. rewrite Ho. fold (f n).
    rewrite Hp. rewrite <- !block_write_loop by (auto || lia). by rewrite for_loop_S_r.
  - rewrite H by lia. rewrite drop_ge by lia. apply app_nil_r.
Qed.

Lemma seed_prv_ok seed : field_ok (seed_prv be seed).
Proof.
  destruct (kdf_spec_ok bulkencryption_master bulkencryption_secret_data seed) as [Hl Hb]. unfold seed_prv.
  set (key := kdf_spec _ _ _) in *.
  assert (∀ n, block_ok (x931_out be AES_128 (take 16 key) (mem_word be (take 8 (drop 16 key))) (mem_word be (take 8 (drop 24 key))) n))
    as Hf by (intros; apply x931_out_ok; apply key_ok_prefix; [done|lia]).
  split; [apply concat_blocks_length; intros; apply Hf|].
  apply Forall_concat, Forall_map, Forall_forall. intros n _. apply Hf.
Qed.

Lemma genkey_ok table seed p : table_ok table → hash_ok seed → pair_wf p →
  ∃ pub', bulkencryption_ecc_genkey svc_aes svc_sha be table seed (prv p) (pub p) = Some (seed_prv be seed, pub') ∧
    pair_wf (EccPair pub' (seed_prv be seed)) ∧ key_pair (EccPair pub' (seed_prv be seed)).
Proof.
  intros Ht Hs [[Hpl Hpb] [Hvl Hvb]]. unfold bulkencryption_ecc_genkey.
  rewrite kdf_ok by (done || by apply bytes_okb_ok). rewrite some_bind.
  destruct (kdf_spec_ok bulkencryption_master bulkencryption_secret_data seed) as [Hl Hb].
  rewrite fill_prv_ok; [|apply key_ok_prefix; [done|lia]| | |done].
  - fold (seed_prv be seed). rewrite memcpy_full by done.
    destruct (msel_ecc_mul_bytes (EccCtx (seed_prv be seed) bulkencryption_curve_base_point)) as (pt & E & Hpt & Hbt);
      [reflexivity|by apply bytes_okb_ok|].
    rewrite E. exists pt. split; [reflexivity|]. unfold pair_wf, key_pair. cbn [prv pub].
    exact (conj (conj (conj Hpt Hbt) (seed_prv_ok seed)) E).
  - apply word_mem_word; [rewrite length_take, length_drop; lia|auto with width].
  - apply word_mem_word; [rewrite length_take, length_drop; lia|auto with width].
Qed.

(** *** The handlers *)

Lemma count_u32 n : 0 <= n <= 4 → u32 (n + 1) = n + 1.
Proof. intros. apply u32_id. unfold is_u32. lia. Qed.

Lemma index_u8 n : 0 <= n <= 4 → u8 n = n.
Proof. intros. apply u8_id. unfold is_u8. lia. Qed.

Lemma secret_halves s a b : length s = 64%nat → length a = 32%nat → length b = 32%nat →
  msel_memcpy (msel_memcpy s 0 a 0 32) 32 b 0 32 = a ++ b.
Proof.
  intros Hs Ha Hb. rewrite (msel_memcpy_blit s) by lia. unfold blit at 1. rewrite drop_0, (take_ge a), take_0 by lia. cbn [app].
  rewrite msel_memcpy_blit by (rewrite ?length_app, ?length_drop; lia). unfold blit. rewrite drop_0, (take_ge b) by lia.
  rewrite take_app_le, (take_ge a) by lia. rewrite drop_ge by (rewrite length_app, length_drop; lia). by rewrite app_nil_r.
Qed.

Lemma point_secret_wf pt : secret_wf (point_secret pt).
Proof.
  unfold point_secret. destruct (kdf_spec_ok bulkencryption_master bulkencryption_secret_data_exchange1 (SHA256 pt)) as [L1 B1].
  destruct (kdf_spec_ok bulkencryption_master bulkencryption_secret_data_exchange2 (SHA256 pt)) as [L2 B2].
  split; [rewrite length_app, L1, L2; reflexivity|apply Forall_app; exact (conj B1 B2)].
Qed.

Lemma GenDHPair_ok table st data cmd : table_ok table → state_wf st → Z.of_nat (length data) = FFS_DATA_SIZE →
  GenDHPair_Cmd_valid cmd → ecc_pairs_count st < 4 →
  ∃ pub', let n := ecc_pairs_count st in let p := EccPair pub' (seed_prv be (seed cmd)) in
    processPacket_GenDHPair svc_aes svc_sha be table st data cmd =
      Some (0, set_pair st (Z.to_nat n) p (n + 1), reply_code BER_DHPAIR) ∧ pair_wf p ∧ key_pair p.
Proof.
  intros Ht Hst Hd [Hl Hb] Hn. destruct (wf_counts st Hst) as (Hc & _). unfold processPacket_GenDHPair.
  destruct (genkey_ok table (seed cmd) (get_pair st (Z.to_nat (ecc_pairs_count st))) Ht (conj Hl Hb)
    (get_pair_wf st Hst (Z.to_nat (ecc_pairs_count st)) ltac:(lia))) as (pub' & E & Hp & Hk).
  exists pub'. cbv zeta. split; [|exact (conj Hp Hk)].
  unfold ECC_PAIRS_LEN. rewrite (proj2 (Z.leb_gt 4 _)) by lia. rewrite E, some_bind, count_u32 by lia. clear E.
  assert (write_data data (ser_if_error (BulkEncryptionResponse_serialize BER_DHPAIR)
    (GenDHPair_Res_serialize (set_privkey_idx (u8 (ecc_pairs_count st)) (set_pubkey
      (msel_memcpy (pubkey (MkGenDHPair_Res (replicate GENDHPAIR_RES_PUBKEY_LENGTH 0) 0)) 0 pub' 0 GENDHPAIR_RES_PUBKEY_LENGTH)
      (MkGenDHPair_Res (replicate GENDHPAIR_RES_PUBKEY_LENGTH 0) 0))))) = (0, reply_code BER_DHPAIR)) as ->; [|done].
  pose proof (puts_response BER_DHPAIR) as Hr. unfold reply_code. rewrite <- (write_data_message data _ _ Hr Hd)
    by (rewrite be_bytes_length; done).
  unfold write_data. rewrite memset_all by lia. unfold ser_if_error.
  rewrite (puts_fit _ _ Hr) by (rewrite ?length_replicate, ?be_bytes_length; done). done.
Qed.

Lemma reply_byte {T} (shape : T → Prop) put rd (e : BulkEncryptionResponse) (t : T) bytes data :
  wire shape put rd t bytes → (length bytes ≤ 129)%nat → Z.of_nat (length data) = FFS_DATA_SIZE →
  write_data data (BulkEncryptionResponse_serialize e ;> put t) = (0, reply e put t).
Proof. intros Hw Hb Hd. eapply reply_ok; [exact Hw|lia|done]. Qed.

Lemma DHExchange_ok t1 t2 st data cmd : table_ok t1 → table_ok t2 → state_wf st → Z.of_nat (length data) = FFS_DATA_SIZE →
  DHExchange_Cmd_valid cmd → shared_count st < 4 → local_privkey_idx cmd < 4 →
  let s := prv (get_pair st (Z.to_nat (local_privkey_idx cmd))) in let n := shared_count st in
  ∃ pt, msel_ecc_mul (EccCtx s (remote_pubkey cmd)) = (MSEL_OK, EccCtx s pt) ∧ field_ok pt ∧
    processPacket_DHExchange svc_sha t1 t2 st data cmd =
      Some (0, set_secret st (Z.to_nat n) (point_secret pt) (n + 1), reply BER_DH_EXCHANGED DHExchange_Res_serialize (MkDHExchange_Res n)).
Proof.
  intros Ht1 Ht2 Hst Hd (Hl & Hb & Hx) Hn Hi s n. unfold is_u8 in Hx. destruct (wf_counts st Hst) as (_ & Hc & _).
  destruct (get_secret_wf st Hst (Z.to_nat n) ltac:(unfold n; lia)) as [Hsl Hsb].
  destruct (msel_ecc_mul_bytes (EccCtx s (remote_pubkey cmd)) Hl Hb) as (pt & E & Hpl & Hpb). cbn [scalar] in E.
  exists pt. split; [exact E|]. split; [exact (conj Hpl Hpb)|]. unfold processPacket_DHExchange, SHARED_LEN, ECC_PAIRS_LEN.
  rewrite (proj2 (Z.leb_gt 4 (shared_count st))), (proj2 (Z.leb_gt 4 (local_privkey_idx cmd))) by lia.
  rewrite memcpy_full by (apply length_replicate || exact Hl). fold s n. rewrite E. cbn [point].
  rewrite sha256_hash_ok by (exact Hpb || (rewrite Hpl; lia) || done || (change (ECC_POINT_LEN mod 64)%nat with 0%nat; lia)).
  rewrite some_bind, (take_ge pt) by (rewrite Hpl; lia). destruct (SHA256_ok pt) as [L B].
  unfold SECRET_KEY_LEN in Hsl. rewrite kdf_ok by (done || by apply bytes_okb_ok || (rewrite length_take; lia)). rewrite some_bind.
  destruct (kdf_spec_ok bulkencryption_master bulkencryption_secret_data_exchange1 (SHA256 pt)) as [L1 B1].
  destruct (kdf_spec_ok bulkencryption_master bulkencryption_secret_data_exchange2 (SHA256 pt)) as [L2 B2].
  rewrite kdf_ok; [|done|done|by apply bytes_okb_ok|done|].
  - rewrite some_bind, secret_halves by assumption. fold (point_secret pt). rewrite count_u32, index_u8 by lia.
    assert (DHExchange_Res_valid (MkDHExchange_Res n)) as Hv' by (split; [done|]; unfold is_u8, n; cbn [dhr_shared_idx]; lia).
  rewrite (reply_byte _ _ _ _ _ _ data (DHExchange_Res_wire _ Hv')) by (exact Hd || (cbn; lia)).
    reflexivity.
  - rewrite length_drop, msel_memcpy_blit by lia. rewrite blit_length; rewrite ?length_take, ?length_drop; lia.
Qed.

(** A channel on a secret, before its first block. *)
Definition new_channel (s : list Z) : aes_gcm_ctx_t :=
  let k := take 16 s in
  let h := aes_enc AES_128 k (replicate 16 0) in
  let c := hash_iv h (drop 32 s) 32 in
  AesGcmCtx AES_GCM_128 0 0 (replicate 16 0) h c c (AesCtx AES_128 k).

Lemma new_channel_ok s : secret_wf s →
  aes_gcm_setkey svc_aes AES_GCM_128 (take 16 s) (drop AES_GCM_128_KEY_SIZE s) (SECRET_KEY_LEN - AES_GCM_128_KEY_SIZE) = new_channel s ∧
  block_ok (tag (new_channel s)) ∧ block_ok (hkey (new_channel s)) ∧ block_ok (iv (new_channel s)) ∧ block_ok (civ (new_channel s)).
Proof.
  intros [Hl Hb]. unfold SECRET_KEY_LEN in Hl.
  destruct (gcm_setkey_hashed svc_aes AES_128 (take 16 s) (drop 32 s) 32) as (E & Hh & Hc);
    [apply key_ok_prefix; [done|lia]|auto with width|rewrite length_drop; lia|lia|].
  split; [exact E|]. destruct zero_block_poly as [_ Hz]. exact (conj Hz (conj Hh (conj Hc Hc))).
Qed.

Lemma GCMInit_ok st data cmd : state_wf st → Z.of_nat (length data) = FFS_DATA_SIZE →
  GcmInit_Cmd_valid cmd → gcm_count st < 4 → gic_shared_idx cmd < 4 →
  let slot := Z.to_nat (gic_shared_idx cmd) in let n := gcm_count st in
  let g := MkGcm (new_channel (get_secret st slot)) (Some slot) (mode cmd) in
  processPacket_GCMInit svc_aes st data cmd =
    Some (0, set_gcm st (Z.to_nat n) g (n + 1), reply BER_GCM_READY GcmInit_Res_serialize (MkGcmInit_Res n)) ∧ gcm_wf g.
Proof.
  intros Hst Hd (_ & Hm & Hx) Hn Hi slot n g. unfold is_u8 in Hx. destruct (wf_counts st Hst) as (_ & _ & Hc).
  destruct (new_channel_ok (get_secret st slot)) as (E & Ht & Hh & Hv & Hcv); [apply get_secret_wf; [done|unfold slot; lia]|].
  assert (slot < 4)%nat as Hs by (unfold slot; lia).
  split; [|exact (or_intror (conj Hm (conj (ex_intro _ slot (conj eq_refl Hs)) (conj eq_refl (conj Ht (conj Hh (conj Hv Hcv)))))))].
  unfold processPacket_GCMInit, GCM_LEN, SHARED_LEN.
  rewrite (proj2 (Z.leb_gt 4 (gcm_count st))), (proj2 (Z.leb_gt 4 (gic_shared_idx cmd))) by lia.
  fold slot n. rewrite E, count_u32, index_u8 by lia.
  assert (GcmInit_Res_valid (MkGcmInit_Res n)) as Hv' by (split; [done|]; unfold is_u8, n; cbn [gir_gcm_idx]; lia).
  rewrite (reply_byte _ _ _ _ _ _ data (GcmInit_Res_wire _ Hv')) by (exact Hd || (cbn; lia)).
  reflexivity.
Qed.

Lemma gcm_after_ok ctx c : gcm_ok ctx → bytes_ok c → gcm_ok (gcm_after ctx c).
Proof.
  intros (Hk & Ht & Hh & Hv & Hc) Hb. unfold gcm_ok, gcm_after. cbn [gcm_e_ctx tag hkey iv civ].
  split; [exact Hk|]. split; [apply ghash_ok; [done|done|by apply blocks16_ok]|]. split; [exact Hh|]. split; [exact Hv|].
  by apply ctr_at_spec.
Qed.

(** The ciphertext that a block of a channel puts on record. *)
Definition cipher_of (e : GCM_Mode) (inp out : list Z) : list Z :=
  match e with GCM128_ENCRYPT => out | GCM128_DECRYPT => inp end.

Lemma GCMDoBlock_ok st data cmd e : state_wf st → Z.of_nat (length data) = FFS_DATA_SIZE →
  GcmDoBlock_Cmd_valid cmd → gdc_gcm_idx cmd < 4 →
  let i := Z.to_nat (gdc_gcm_idx cmd) in let g := get_gcm st i in
  gcm_mode g = GCM_Mode_val e →
  let out := gctr (load_gcm st g) (gdc_block cmd) in
  let g' := MkGcm (gcm_after (load_gcm st g) (cipher_of e (gdc_block cmd) out)) (gcm_slot g) (gcm_mode g) in
  processPacket_GCMDoBlock svc_aes st data cmd =
    Some (0, set_gcm st i g' (gcm_count st), reply BER_GCM_BLOCKS GcmDoBlock_Res_serialize (MkGcmDoBlock_Res out)) ∧ gcm_wf g' ∧
  length out = 16%nat ∧ bytes_ok out.
Proof.
  intros Hst Hd (Hl & Hb & Hx) Hi i g Hm out g'. unfold is_u8 in Hx. red in Hl. change GCMDOBLOCK_CMD_BLOCK_LENGTH with 16%nat in Hl.
  assert (gcm_wf g) as Hg by (apply get_gcm_wf; [done|unfold i; lia]).
  pose proof (load_gcm_ok st g e Hst Hg Hm) as Hok.
  assert (length out = 16%nat) as Hol by (unfold out; rewrite gctr_length by done; exact Hl).
  assert (bytes_ok out) as Hob by (by apply gctr_bytes).
  assert (bytes_ok (cipher_of e (gdc_block cmd) out)) as Hcb by (destruct e; done).
  pose proof (gcm_after_ok _ _ Hok Hcb) as (_ & Ht & Hh & Hv & Hc).
  split; [|split; [|done]].
  - unfold processPacket_GCMDoBlock, GCM_LEN. rewrite (proj2 (Z.leb_gt 4 _)) by lia. fold i g.
    pose proof (aes_gcm_encrypt_ok svc_aes (load_gcm st g) Hok (gdc_block cmd) (replicate 16 0) Hb ltac:(rewrite length_replicate; lia)) as He.
    pose proof (aes_gcm_decrypt_ok svc_aes (load_gcm st g) Hok (gdc_block cmd) (replicate 16 0) Hb ltac:(rewrite length_replicate; lia)) as Hdc.
    rewrite Hl in He, Hdc. change (drop 16 (replicate 16 0)) with (@nil Z) in He, Hdc. rewrite app_nil_r in He, Hdc.
    rewrite Hm. change GCMDOBLOCK_CMD_BLOCK_LENGTH with 16%nat. change GCMDOBLOCK_RES_BLOCK_LENGTH with 16%nat.
    assert (GcmDoBlock_Res_valid (MkGcmDoBlock_Res out)) as Hv' by (split; done).
    pose proof (reply_byte _ _ _ BER_GCM_BLOCKS _ _ data (GcmDoBlock_Res_wire _ Hv') ltac:(cbn [gdr_block]; lia) Hd) as Hr.
    unfold g'. rewrite Hm. destruct e; cbn [cipher_of]; cbv [GCM_Mode_val Z.eqb Pos.eqb].
    + rewrite He. fold out. rewrite Hr. reflexivity.
    + rewrite Hdc. fold out. rewrite Hr. reflexivity.
  - destruct Hg as [H0|(_ & Hs & Ha & _)]; [rewrite H0 in Hm; by destruct e|]. right.
    exact (conj (ex_intro _ e Hm) (conj Hs (conj Ha (conj Ht (conj Hh (conj Hv Hc)))))).
Qed.

(** A channel that is not in use answers zeros. *)
Lemma GCMDoBlock_idle st data cmd : Z.of_nat (length data) = FFS_DATA_SIZE → gdc_gcm_idx cmd < 4 →
  gcm_mode (get_gcm st (Z.to_nat (gdc_gcm_idx cmd))) = 0 →
  processPacket_GCMDoBlock svc_aes st data cmd =
    Some (0, set_gcm st (Z.to_nat (gdc_gcm_idx cmd)) (get_gcm st (Z.to_nat (gdc_gcm_idx cmd))) (gcm_count st),
      reply BER_GCM_BLOCKS GcmDoBlock_Res_serialize (MkGcmDoBlock_Res (replicate 16 0))).
Proof.
  intros Hd Hi Hm. unfold processPacket_GCMDoBlock, GCM_LEN. rewrite (proj2 (Z.leb_gt 4 _)), Hm by lia.
  cbv [GCM_Mode_val Z.eqb Pos.eqb]. change GCMDOBLOCK_RES_BLOCK_LENGTH with 16%nat.
  assert (GcmDoBlock_Res_valid (MkGcmDoBlock_Res (replicate 16 0))) as Hv by (split; [done|by apply bytes_okb_ok]).
  rewrite (reply_byte _ _ _ BER_GCM_BLOCKS _ _ data (GcmDoBlock_Res_wire _ Hv)) by (exact Hd || (cbn; lia)). reflexivity.
Qed.

(** *** Whole packets *)

Notation process := (packet_reply svc_aes svc_sha be).

Lemma answer_ok pkt st d : answer pkt (0, st, d) = (st, Some (set_data pkt d)).
Proof. reflexivity. Qed.

Lemma answer_error pkt st d : Z.of_nat (length d) = FFS_DATA_SIZE →
  answer pkt (-1, st, d) = (st, Some (set_data pkt (reply_code BER_ERROR))).
Proof.
  intros Hd. unfold answer. cbn [negb Z.eqb].
  by rewrite (write_data_message d _ _ (puts_response BER_ERROR) Hd) by (rewrite be_bytes_length; done).
Qed.

(** A request reaches the handler of its command with its structure. *)
Lemma process_command (e : BulkEncryptionCommand) bytes rest tables st pkt :
  fp_data pkt = be_bytes 4 e ++ bytes ++ rest → Z.of_nat (length bytes) <= 2000 →
  process tables st pkt = r ← dispatch svc_aes svc_sha be tables st (fp_data pkt) e 4; Some (answer pkt r).
Proof. intros Hd Hb. unfold packet_reply. rewrite Hd at 1. by rewrite parse_command. Qed.

Definition handle {T} (rd : deser T) (init : T) (h : T → option (Z * state_t * list Z))
    (st : state_t) (data : list Z) : option (Z * state_t * list Z) :=
  let '(err, (_, c)) := rd data FFS_DATA_SIZE (4, init) in if negb (err =? 0) then Some (err, st, data) else h c.

Lemma process_handle (e : BulkEncryptionCommand) {T} shape put (rd : deser T) init h (t : T) bytes tables st pkt :
  wire shape put rd t bytes → Z.of_nat (length bytes) <= 2000 → shape init → fp_data pkt = request e put t →
  dispatch svc_aes svc_sha be tables st (fp_data pkt) e 4 = handle rd init h st (fp_data pkt) →
  process tables st pkt = r ← h t; Some (answer pkt r).
Proof.
  intros Hw Hb Hi Hd He. rewrite (request_bytes _ _ _ _ _ _ Hw Hb) in Hd. rewrite (process_command _ _ _ _ _ _ Hd Hb), He.
  unfold handle. rewrite Hd at 1. by rewrite (parse_body _ _ _ _ _ _ _ _ Hw Hb Hi).
Qed.

Lemma process_GenDHPair tables st pkt cmd : GenDHPair_Cmd_valid cmd →
  fp_data pkt = request BEC_GEN_DHPAIR GenDHPair_Cmd_serialize cmd →
  process tables st pkt = r ← processPacket_GenDHPair svc_aes svc_sha be tables.1 st (fp_data pkt) cmd; Some (answer pkt r).
Proof.
  intros Hv Hd. apply (process_handle BEC_GEN_DHPAIR GenDHPair_Cmd_shape GenDHPair_Cmd_serialize GenDHPair_Cmd_deserialize
    (GenDHPair_Cmd_init (MkGenDHPair_Cmd [])) (processPacket_GenDHPair svc_aes svc_sha be tables.1 st (fp_data pkt)) cmd _ tables st pkt (GenDHPair_Cmd_wire cmd Hv)); [by rewrite (proj1 Hv)|done|exact Hd|].
  unfold dispatch, switch, handle. cbn [foldr BulkEncryptionCommand_val Z.eqb Pos.eqb]. reflexivity.
Qed.

Lemma process_DHExchange tables st pkt cmd : DHExchange_Cmd_valid cmd →
  fp_data pkt = request BEC_DH_EXCHANGE DHExchange_Cmd_serialize cmd →
  process tables st pkt = r ← processPacket_DHExchange svc_sha tables.1 tables.2 st (fp_data pkt) cmd; Some (answer pkt r).
Proof.
  intros Hv Hd. apply (process_handle BEC_DH_EXCHANGE DHExchange_Cmd_shape DHExchange_Cmd_serialize DHExchange_Cmd_deserialize
    (DHExchange_Cmd_init (MkDHExchange_Cmd [] 0)) (processPacket_DHExchange svc_sha tables.1 tables.2 st (fp_data pkt)) cmd _ tables st pkt (DHExchange_Cmd_wire cmd Hv)); [by rewrite length_app, (proj1 Hv)|done|exact Hd|].
  unfold dispatch, switch, handle. cbn [foldr BulkEncryptionCommand_val Z.eqb Pos.eqb]. reflexivity.
Qed.

Lemma process_GCMInit tables st pkt cmd : GcmInit_Cmd_valid cmd →
  fp_data pkt = request BEC_GCM_INIT GcmInit_Cmd_serialize cmd →
  process tables st pkt = r ← processPacket_GCMInit svc_aes st (fp_data pkt) cmd; Some (answer pkt r).
Proof.
  intros Hv Hd. apply (process_handle BEC_GCM_INIT GcmInit_Cmd_shape GcmInit_Cmd_serialize GcmInit_Cmd_deserialize
    (GcmInit_Cmd_init (MkGcmInit_Cmd 0 0)) (processPacket_GCMInit svc_aes st (fp_data pkt)) cmd _ tables st pkt (GcmInit_Cmd_wire cmd Hv)); [by rewrite length_app, be_bytes_length|done|exact Hd|].
  unfold dispatch, switch, handle. cbn [foldr BulkEncryptionCommand_val Z.eqb Pos.eqb]. reflexivity.
Qed.

Lemma process_GCMDoBlock tables st pkt cmd : GcmDoBlock_Cmd_valid cmd →
  fp_data pkt = request BEC_GCM_DOBLOCK GcmDoBlock_Cmd_serialize cmd →
  process tables st pkt = r ← processPacket_GCMDoBlock svc_aes st (fp_data pkt) cmd; Some (answer pkt r).
Proof.
  intros Hv Hd. apply (process_handle BEC_GCM_DOBLOCK GcmDoBlock_Cmd_shape GcmDoBlock_Cmd_serialize GcmDoBlock_Cmd_deserialize
    (GcmDoBlock_Cmd_init (MkGcmDoBlock_Cmd [] 0)) (processPacket_GCMDoBlock svc_aes st (fp_data pkt)) cmd _ tables st pkt (GcmDoBlock_Cmd_wire cmd Hv)); [by rewrite length_app, (proj1 Hv)|done|exact Hd|].
  unfold dispatch, switch, handle. cbn [foldr BulkEncryptionCommand_val Z.eqb Pos.eqb]. reflexivity.
Qed.

Lemma request_length {T} shape put (rd : deser T) (e : BulkEncryptionCommand) t bytes :
  wire shape put rd t bytes → Z.of_nat (length bytes) <= 2000 → Z.of_nat (length (request e put t)) = FFS_DATA_SIZE.
Proof.
  intros Hw Hb. rewrite (request_bytes _ _ _ _ _ _ Hw Hb), !length_app, length_replicate, be_bytes_length.
  unfold FFS_DATA_SIZE. lia.
Qed.
End handlers.
