(* ===== verification/Channel.v ===== *)
(** * Sessions of the bulk encryption application

    The properties of the task of Bulk.v: it answers every packet and keeps its
    state well formed; two devices that exchange their public keys hold the same
    secret; a channel between them carries any sequence of blocks; and what two
    channels on one secret give away. *)

From S2P Require Import Prelude Msel Words Stdc SwAes Fips197 AesDriver Gcm Prng SwSha Sha2 Kdf.
From S2P Require Import Prime521 Ed521 Curve Tidl Protocols Bulk.

Local Open Scope Z_scope.
Local Open Scope tidl_scope.

#[local] Opaque kdf_spec msel_ecc_mul x931_out prng_output kdf_getkey key_scalar.

(** ** Parsing arbitrary packets *)

(** Packet data: 2044 bytes. *)
Definition data_ok (d : list Z) : Prop := Z.of_nat (length d) = FFS_DATA_SIZE ∧ bytes_ok d.

Definition slice (d : list Z) (n : nat) : list Z := take n (drop 4 d).

Lemma slice_ok d n : data_ok d → (n ≤ 2000)%nat → length (slice d n) = n ∧ bytes_ok (slice d n).
Proof.
  intros [Hl Hb] Hn. unfold FFS_DATA_SIZE in Hl. unfold slice. split; [rewrite length_take, length_drop; lia|auto with width].
Qed.

Lemma slice_S d n : data_ok d → (n < 2000)%nat → slice d (S n) = slice d n ++ [get d (4 + n)].
Proof.
  intros [Hl Hb] Hn. unfold FFS_DATA_SIZE in Hl. unfold slice. apply take_S_r. rewrite lookup_drop. apply lookup_get. lia.
Qed.

Lemma slice_holds d n : holds d 4 (slice d n).
Proof.
  intros i Hi. unfold slice in *. rewrite length_take in Hi. rewrite get_take, get_drop by lia. done.
Qed.

Lemma parse_slice {T} shape put (rd : deser T) t n d old : wire shape put rd t (slice d n) → data_ok d → (n ≤ 2000)%nat →
  shape old → rd d FFS_DATA_SIZE (4, old) = (0, (4 + Z.of_nat n, t)).
Proof.
  intros [_ Hg] Hd Hn Ho. destruct (slice_ok d n Hd Hn) as [Hl _].
  rewrite (gets_ok _ _ _ _ Hg) by (rewrite ?Hl; unfold FFS_DATA_SIZE; done || lia || apply slice_holds). by rewrite Hl.
Qed.

Lemma parse_GenDHPair d old : data_ok d → GenDHPair_Cmd_shape old →
  ∃ c pos, GenDHPair_Cmd_deserialize d FFS_DATA_SIZE (4, old) = (0, (pos, c)) ∧ GenDHPair_Cmd_valid c.
Proof.
  intros Hd Ho. assert (GenDHPair_Cmd_valid (MkGenDHPair_Cmd (slice d 32))) as Hv by exact (slice_ok d 32 Hd ltac:(lia)).
  eexists _, _. split; [|exact Hv]. exact (parse_slice _ _ _ _ 32 d old (GenDHPair_Cmd_wire _ Hv) Hd ltac:(lia) Ho).
Qed.

Lemma parse_DHExchange d old : data_ok d → DHExchange_Cmd_shape old →
  ∃ c pos, DHExchange_Cmd_deserialize d FFS_DATA_SIZE (4, old) = (0, (pos, c)) ∧ DHExchange_Cmd_valid c.
Proof.
  intros Hd Ho. destruct (slice_ok d 128 Hd ltac:(lia)) as [Hl Hb].
  assert (DHExchange_Cmd_valid (MkDHExchange_Cmd (slice d 128) (get d (4 + 128)))) as Hv by (split; [done|]; split; [done|]; apply get_u8, Hd).
  eexists _, _. split; [|exact Hv]. pose proof (DHExchange_Cmd_wire _ Hv) as Hw. cbn [remote_pubkey local_privkey_idx] in Hw.
  rewrite <- slice_S in Hw by (done || lia). exact (parse_slice _ _ _ _ 129 d old Hw Hd ltac:(lia) Ho).
Qed.

Lemma parse_GCMDoBlock d old : data_ok d → GcmDoBlock_Cmd_shape old →
  ∃ c pos, GcmDoBlock_Cmd_deserialize d FFS_DATA_SIZE (4, old) = (0, (pos, c)) ∧ GcmDoBlock_Cmd_valid c.
Proof.
  intros Hd Ho. destruct (slice_ok d 16 Hd ltac:(lia)) as [Hl Hb].
  assert (GcmDoBlock_Cmd_valid (MkGcmDoBlock_Cmd (slice d 16) (get d (4 + 16)))) as Hv by (split; [done|]; split; [done|]; apply get_u8, Hd).
  eexists _, _. split; [|exact Hv]. pose proof (GcmDoBlock_Cmd_wire _ Hv) as Hw. cbn [gdc_block gdc_gcm_idx] in Hw.
  rewrite <- slice_S in Hw by (done || lia). exact (parse_slice _ _ _ _ 17 d old Hw Hd ltac:(lia) Ho).
Qed.

(** A mode that is none is refused. *)
Lemma parse_GCMInit d old : data_ok d →
  (GcmInit_Cmd_deserialize d FFS_DATA_SIZE (4, old)).1 = -1 ∨
  ∃ c pos, GcmInit_Cmd_deserialize d FFS_DATA_SIZE (4, old) = (0, (pos, c)) ∧ GcmInit_Cmd_valid c.
Proof.
  intros [Hl Hb]. unfold GcmInit_Cmd_deserialize, deser_seq, field. cbn [fst snd].
  destruct (enum_any _ _ _ d FFS_DATA_SIZE 4 (mode old) GCM_Mode_codec Hb) as [E|(e & w & Hin & E)]; [unfold FFS_DATA_SIZE in *; lia..| |];
    rewrite E; cbn [negb Z.eqb fst snd]; [by left|right].
  pose proof (gets_u8 (get d 8) (get_u8 d 8 Hb)) as Hg.
  assert (holds d (4 + 4) [get d 8]) as Hh by (intros i Hi; cbn [length] in Hi; by replace i with 0%nat by lia).
  rewrite (gets_ok _ _ _ _ Hg) by (cbn [length]; unfold FFS_DATA_SIZE; done || lia).
  eexists _, _. split; [reflexivity|]. split; [done|]. split; [|apply get_u8, Hb]. cbn [mode set_mode set_gic_shared_idx].
  destruct Hin as [H|[H|[]]]; injection H as <- _; [by exists GCM128_ENCRYPT|by exists GCM128_DECRYPT].
Qed.

(** ** Every packet is answered *)

(** Packet data that opens with a response code. *)
Definition answered (d : list Z) : Prop :=
  Z.of_nat (length d) = FFS_DATA_SIZE ∧ ∃ (e : BulkEncryptionResponse) rest, d = be_bytes 4 e ++ rest.

Lemma reply_code_answered e : answered (reply_code e).
Proof.
  pose proof (puts_response e) as Hp. assert (Z.of_nat (length (be_bytes 4 e)) <= FFS_DATA_SIZE) as Hl by (by rewrite be_bytes_length).
  split; [exact (message_length _ _ Hp Hl)|]. exists e. eexists. exact (message_puts _ _ Hp Hl).
Qed.

Lemma reply_answered {T} shape put (rd : deser T) (e : BulkEncryptionResponse) t bytes :
  wire shape put rd t bytes → Z.of_nat (length bytes) <= 2000 → answered (reply e put t).
Proof.
  intros Hw Hb. split; [eapply (proj2 (reply_ok _ _ _ _ _ _ (replicate 2044 0) Hw Hb ltac:(by rewrite length_replicate)))|].
  destruct Hw as [Hp _]. exists e. unfold reply. rewrite (message_puts _ (be_bytes 4 e ++ bytes)).
  - rewrite <- app_assoc. by eexists.
  - apply puts_seq; [apply puts_response|exact Hp].
  - rewrite length_app, be_bytes_length. unfold FFS_DATA_SIZE. lia.
Qed.

(** What every handler promises: it ends, keeps the state well formed, and has
    an answer in the packet or reports an error. *)
Definition handled (r : option (Z * state_t * list Z)) : Prop :=
  ∃ err st d, r = Some (err, st, d) ∧ state_wf st ∧ Z.of_nat (length d) = FFS_DATA_SIZE ∧ (err = 0 ∧ answered d ∨ err = -1).

Lemma handled_error st d : state_wf st → Z.of_nat (length d) = FFS_DATA_SIZE → handled (Some (-1, st, d)).
Proof. intros Hst Hd. exists (-1), st, d. auto. Qed.

Lemma handled_ok st d : state_wf st → answered d → handled (Some (0, st, d)).
Proof. intros Hst Hd. exists 0, st, d. split; [done|]. split; [done|]. split; [apply Hd|]. by left. Qed.

Lemma answer_handled pkt r : handled r → ∃ st d, (r ≫= λ r, Some (answer pkt r)) = Some (st, Some (set_data pkt d)) ∧ state_wf st ∧ answered d.
Proof.
  intros (err & st & d & -> & Hst & Hd & [[-> Ha]| ->]); rewrite some_bind.
  - exists st, d. by rewrite answer_ok.
  - exists st, (reply_code BER_ERROR). rewrite answer_error by done. split; [done|]. split; [done|apply reply_code_answered].
Qed.

Section safety.
Context (svc_aes : aes_driver_ctx_t → msel_status * list Z) (svc_sha : sha_data_t → sha_data_t) (be : bool).
Context `{!AesService svc_aes} `{!ShaCore svc_sha}.
Context (st : state_t) (Hst : state_wf st) (data : list Z) (Hd : Z.of_nat (length data) = FFS_DATA_SIZE).

Lemma Logout_handled : handled (processPacket_Logout st data).
Proof.
  unfold processPacket_Logout. rewrite (write_data_message data _ _ (puts_response BER_GOODBYE) Hd) by (rewrite be_bytes_length; done).
  exact (handled_ok zero_state (reply_code BER_GOODBYE) zero_state_wf (reply_code_answered BER_GOODBYE)).
Qed.

Lemma GenDHPair_handled table cmd : table_ok table → GenDHPair_Cmd_valid cmd →
  handled (processPacket_GenDHPair svc_aes svc_sha be table st data cmd).
Proof.
  intros Ht Hv. destruct (wf_counts st Hst) as (Hc & _). destruct (decide (ecc_pairs_count st < 4)) as [Hn|Hn].
  - destruct (GenDHPair_ok svc_aes svc_sha be table st data cmd Ht Hst Hd Hv Hn) as (pub' & E & Hw & _). rewrite E.
    apply handled_ok; [apply set_pair_wf; [done|done|lia]|apply reply_code_answered].
  - unfold processPacket_GenDHPair. rewrite (proj2 (Z.leb_le ECC_PAIRS_LEN _)) by (unfold ECC_PAIRS_LEN; lia). by apply handled_error.
Qed.

Lemma DHExchange_handled t1 t2 cmd : table_ok t1 → table_ok t2 → DHExchange_Cmd_valid cmd →
  handled (processPacket_DHExchange svc_sha t1 t2 st data cmd).
Proof.
  intros Ht1 Ht2 Hv. destruct (wf_counts st Hst) as (_ & Hc & _).
  destruct (decide (shared_count st < 4)) as [Hn|Hn]; [destruct (decide (local_privkey_idx cmd < 4)) as [Hi|Hi]|].
  - destruct (DHExchange_ok svc_sha t1 t2 st data cmd Ht1 Ht2 Hst Hd Hv Hn Hi) as (pt & _ & _ & E). rewrite E.
    apply handled_ok; [apply set_secret_wf; [done|apply point_secret_wf|lia]|].
    eapply reply_answered; [apply DHExchange_Res_wire; split; [done|unfold is_u8; cbn [dhr_shared_idx]; lia]|done].
  - unfold processPacket_DHExchange. rewrite (proj2 (Z.leb_gt SHARED_LEN _)) by (unfold SHARED_LEN; lia).
    rewrite (proj2 (Z.leb_le ECC_PAIRS_LEN _)) by (unfold ECC_PAIRS_LEN; lia). by apply handled_error.
  - unfold processPacket_DHExchange. rewrite (proj2 (Z.leb_le SHARED_LEN _)) by (unfold SHARED_LEN; lia). by apply handled_error.
Qed.

Lemma GCMInit_handled cmd : GcmInit_Cmd_valid cmd → handled (processPacket_GCMInit svc_aes st data cmd).
Proof.
  intros Hv. destruct (wf_counts st Hst) as (_ & _ & Hc).
  destruct (decide (gcm_count st < 4)) as [Hn|Hn]; [destruct (decide (gic_shared_idx cmd < 4)) as [Hi|Hi]|].
  - destruct (GCMInit_ok svc_aes st data cmd Hst Hd Hv Hn Hi) as [E Hg]. rewrite E.
    apply handled_ok; [apply set_gcm_wf; [done|exact Hg|lia]|].
    eapply reply_answered; [apply GcmInit_Res_wire; split; [done|unfold is_u8; cbn [gir_gcm_idx]; lia]|done].
  - unfold processPacket_GCMInit. rewrite (proj2 (Z.leb_gt GCM_LEN _)) by (unfold GCM_LEN; lia).
    rewrite (proj2 (Z.leb_le SHARED_LEN _)) by (unfold SHARED_LEN; lia). by apply handled_error.
  - unfold processPacket_GCMInit. rewrite (proj2 (Z.leb_le GCM_LEN _)) by (unfold GCM_LEN; lia). by apply handled_error.
Qed.

Lemma GCMDoBlock_handled cmd : GcmDoBlock_Cmd_valid cmd → handled (processPacket_GCMDoBlock svc_aes st data cmd).
Proof.
  intros Hv. destruct (wf_counts st Hst) as (_ & _ & Hc). destruct (decide (gdc_gcm_idx cmd < 4)) as [Hi|Hi].
  - set (i := Z.to_nat (gdc_gcm_idx cmd)). assert (gcm_wf (get_gcm st i)) as Hg.
    { apply get_gcm_wf; [done|]. destruct Hv as (_ & _ & Hx). unfold is_u8 in Hx. unfold i. lia. }
    pose proof Hg as [H0|((e & He) & _)].
    + rewrite GCMDoBlock_idle by done. apply handled_ok; [apply set_gcm_wf; [done|exact Hg|lia]|].
      eapply reply_answered; [apply GcmDoBlock_Res_wire; split; [done|by apply bytes_okb_ok]|done].
    + destruct (GCMDoBlock_ok svc_aes st data cmd e Hst Hd Hv Hi He) as (E & Hg' & Hl & Hb). rewrite E.
      apply handled_ok; [apply set_gcm_wf; [done|exact Hg'|lia]|].
      eapply reply_answered; [apply GcmDoBlock_Res_wire; split; [exact Hl|exact Hb]|cbn [gdr_block]; lia].
  - unfold processPacket_GCMDoBlock. rewrite (proj2 (Z.leb_le GCM_LEN _)) by (unfold GCM_LEN; lia). by apply handled_error.
Qed.
End safety.

Section session.
Context (svc_aes : aes_driver_ctx_t → msel_status * list Z) (svc_sha : sha_data_t → sha_data_t) (be : bool).
Context `{!AesService svc_aes} `{!ShaCore svc_sha}.

Notation process := (packet_reply svc_aes svc_sha be).

Lemma dispatch_handled tables st data (e : BulkEncryptionCommand) : tables_ok tables → state_wf st → data_ok data →
  handled (dispatch svc_aes svc_sha be tables st data e 4).
Proof.
  intros [Ht1 Ht2] Hst Hd. pose proof (proj1 Hd) as Hl. unfold dispatch, switch.
  destruct e; cbn [foldr BulkEncryptionCommand_val Z.eqb Pos.eqb].
  - by apply Logout_handled.
  - destruct (parse_GenDHPair data (GenDHPair_Cmd_init (MkGenDHPair_Cmd [])) Hd) as (c & pos & E & Hv); [done|].
    rewrite E. cbn [negb Z.eqb]. by apply GenDHPair_handled.
  - destruct (parse_DHExchange data (DHExchange_Cmd_init (MkDHExchange_Cmd [] 0)) Hd) as (c & pos & E & Hv); [done|].
    rewrite E. cbn [negb Z.eqb]. by apply DHExchange_handled.
  - destruct (parse_GCMInit data (GcmInit_Cmd_init (MkGcmInit_Cmd 0 0)) Hd) as [E|(c & pos & E & Hv)].
    + destruct (GcmInit_Cmd_deserialize _ _ _) as [r [pos c]]. cbn [fst] in E. subst r. cbn [negb Z.eqb]. by apply handled_error.
    + rewrite E. cbn [negb Z.eqb]. by apply GCMInit_handled.
  - destruct (parse_GCMDoBlock data (GcmDoBlock_Cmd_init (MkGcmDoBlock_Cmd [] 0)) Hd) as (c & pos & E & Hv); [done|].
    rewrite E. cbn [negb Z.eqb]. by apply GCMDoBlock_handled.
Qed.

Lemma process_handled tables st pkt : tables_ok tables → state_wf st → data_ok (fp_data pkt) →
  ∃ st' d, process tables st pkt = Some (st', Some (set_data pkt d)) ∧ state_wf st' ∧ answered d.
Proof.
  intros Ht Hst Hd. unfold packet_reply. pose proof Hd as [Hl Hb].
  destruct (enum_any _ _ _ (fp_data pkt) FFS_DATA_SIZE 0 (BEC_LOGOUT : Z) BulkEncryptionCommand_codec Hb) as [E|(v & w & Hin & E)];
    [unfold FFS_DATA_SIZE in *; lia..| |]; rewrite E; cbn [negb Z.eqb].
  - by apply answer_handled, handled_error.
  - assert (∃ e : BulkEncryptionCommand, v = e) as [e ->].
    { destruct Hin as [H|[H|[H|[H|[H|[]]]]]]; injection H as <- _;
        [by exists BEC_LOGOUT|by exists BEC_GEN_DHPAIR|by exists BEC_DH_EXCHANGE|by exists BEC_GCM_INIT|by exists BEC_GCM_DOBLOCK]. }
    apply answer_handled. by apply dispatch_handled.
Qed.

Lemma send_loop_ok replies p : MSEL_OK ∈ replies →
  ∃ refused, send_loop replies p = Some (flat_map (λ r, [Send p r; Yield]) refused ++ [Send p MSEL_OK]) ∧
    Forall (λ r, r ≠ MSEL_OK) refused ∧ (refused ++ [MSEL_OK]) `prefix_of` replies.
Proof.
  induction replies as [|r replies IH]; intros Hin; [by apply elem_of_nil in Hin|]. cbn [send_loop].
  destruct (decide (r = MSEL_OK)) as [->|Hne].
  - exists []. split; [done|]. split; [constructor|]. by exists replies.
  - destruct IH as (refused & E & Hr & rest & Hrest); [by apply elem_of_cons in Hin as [<-|Hin]|]. rewrite E, some_bind. exists (r :: refused).
    split; [done|]. split; [by constructor|]. exists rest. by rewrite Hrest.
Qed.

(** The calls of a turn: without a packet the task receives and yields; with one
    it also sends an answer in the same session, again and again with a yield in
    between until the kernel takes it. *)
Definition turn_answered (t : turn) (calls : list svc_call) : Prop :=
  let pkt := t_pkt t in
  if fp_session pkt =? 0 then calls = [Recv pkt; Yield]
  else ∃ d refused, answered d ∧ Forall (λ r, r ≠ MSEL_OK) refused ∧ (refused ++ [MSEL_OK]) `prefix_of` t_replies t ∧
    let p := set_data pkt d in
    calls = Recv pkt :: flat_map (λ r, [Send p r; Yield]) refused ++ [Send p MSEL_OK; Yield].

(** The heap has room for the tables, the packet is one, and the kernel takes the
    answer in the end. *)
Definition turn_ok (t : turn) : Prop :=
  tables_ok (t_tables t) ∧ data_ok (fp_data (t_pkt t)) ∧ MSEL_OK ∈ t_replies t.

Lemma turn_ends st t : turn_ok t → state_wf st →
  ∃ st' calls, task_turn svc_aes svc_sha be st t = Some (st', calls) ∧ state_wf st' ∧ turn_answered t calls.
Proof.
  intros (Ht & Hd & Hr) Hst. unfold task_turn, turn_answered. cbv zeta.
  destruct (fp_session (t_pkt t) =? 0); [by eexists st, _|].
  destruct (process_handled (t_tables t) st (t_pkt t) Ht Hst Hd) as (st' & d & E & Hw & Ha).
  destruct (send_loop_ok (t_replies t) (set_data (t_pkt t) d) Hr) as (refused & Es & Hf & Hp).
  unfold processPacket. rewrite E, some_bind. rewrite Es, !some_bind. eexists _, _. split; [reflexivity|]. split; [done|].
  exists d, refused. split; [done|]. split; [done|]. split; [done|]. by rewrite <- app_assoc.
Qed.

Lemma turns_answered turns : Forall turn_ok turns → ∀ st, state_wf st →
  ∃ st' calls, task_turns svc_aes svc_sha be st turns = Some (st', calls) ∧ state_wf st' ∧
    Forall2 turn_answered turns calls.
Proof.
  induction 1 as [|t turns Ht _ IH]; intros st Hst; [by exists st, []|]. cbn [task_turns].
  destruct (turn_ends st t Ht Hst) as (st1 & calls & E & Hst1 & Hs).
  rewrite E, some_bind. destruct (IH st1 Hst1) as (st2 & rest & E2 & Hst2 & Hr). rewrite E2, some_bind.
  exists st2, (calls :: rest). auto.
Qed.

(** C12: The bulk encryption task answers every packet, as long as the heap has
    room for the tables of the key derivation and the kernel takes each answer
    after finitely many refusals.  If the task got its two blocks at the start, then
    for every sequence of received packets with any contents every packet of a
    session is answered in that session with a packet that opens with a response
    code, offered again after every refusal and a yield until it is taken, exactly
    once; nothing is sent when nothing was received; and every state on the way is
    well formed: the counters stay within their tables and every channel in use works
    with a slot of the secrets.  Without one of its two blocks the task ends at once. *)
Theorem bulk_task_answers pkt state turns : Forall turn_ok turns →
  let calls := bulkencryption_task svc_aes svc_sha be pkt state turns in
  if decide (pkt = 0 ∨ state = 0) then calls = Some []
  else (∃ l, calls = Some l ∧ Forall2 turn_answered turns l) ∧
    ∀ n, ∃ st l, task_turns svc_aes svc_sha be zero_state (take n turns) = Some (st, l) ∧ state_wf st.
Proof.
  intros Ht calls. unfold calls, bulkencryption_task. destruct (decide _) as [H|H].
  - destruct (Z.eqb_spec pkt 0), (Z.eqb_spec state 0); (done || by destruct H).
  - assert ((pkt =? 0) || (state =? 0) = false) as -> by (destruct (Z.eqb_spec pkt 0), (Z.eqb_spec state 0); tauto).
    split.
    + destruct (turns_answered turns Ht zero_state zero_state_wf) as (st & l & E & _ & Hf). exists l. by rewrite E.
    + intros n. destruct (turns_answered (take n turns) (Forall_take _ n _ Ht) zero_state zero_state_wf) as (st & l & E & Hw & _).
      by exists st, l.
Qed.

(** ** The exchange of keys *)

Lemma get_set_secret st i s n : state_wf st → (i < 4)%nat → get_secret (set_secret st i s n) i = s.
Proof. intros Hst Hi. unfold get_secret, set_secret. cbn [shared]. destruct (wf_shared st Hst) as [Hl _]. by rewrite list_lookup_insert_eq by lia. Qed.

Lemma exchange_packet tables st pkt k i : tables_ok tables → state_wf st → field_ok k → 0 <= i < 4 → shared_count st < 4 →
  fp_data pkt = request BEC_DH_EXCHANGE DHExchange_Cmd_serialize (MkDHExchange_Cmd k i) →
  let s := prv (get_pair st (Z.to_nat i)) in let n := shared_count st in
  ∃ pt st', msel_ecc_mul (EccCtx s k) = (MSEL_OK, EccCtx s pt) ∧
    process tables st pkt =
      Some (st', Some (set_data pkt (reply BER_DH_EXCHANGED DHExchange_Res_serialize (MkDHExchange_Res n)))) ∧
    state_wf st' ∧ get_secret st' (Z.to_nat n) = point_secret pt.
Proof.
  intros [Ht1 Ht2] Hst [Hl Hb] Hi Hn Hd s n. destruct (wf_counts st Hst) as (_ & Hc & _).
  assert (DHExchange_Cmd_valid (MkDHExchange_Cmd k i)) as Hv.
  { split; [exact Hl|]. split; [exact Hb|]. unfold is_u8. cbn [local_privkey_idx]. lia. }
  assert (Z.of_nat (length (fp_data pkt)) = FFS_DATA_SIZE) as Hlen.
  { rewrite Hd. apply (request_length _ _ _ _ _ _ (DHExchange_Cmd_wire _ Hv)). rewrite length_app, (proj1 Hv). done. }
  destruct (DHExchange_ok svc_sha tables.1 tables.2 st (fp_data pkt) _ Ht1 Ht2 Hst Hlen Hv Hn ltac:(cbn [local_privkey_idx]; lia))
    as (pt & E & _ & Hh). cbn [local_privkey_idx remote_pubkey] in E. fold s in E.
  exists pt. eexists. split; [exact E|]. rewrite (process_DHExchange svc_aes svc_sha be tables st pkt _ Hv Hd), Hh, some_bind.
  split; [reflexivity|]. split; [apply set_secret_wf; [done|apply point_secret_wf|lia]|].
  apply get_set_secret; [done|]. lia.
Qed.

(** C11: Diffie-Hellman agreement: when two devices hold generated key pairs, and
    each receives an exchange request with the public key of the other, both
    answer with the slot of the new secret, and the two slots hold the same 64
    bytes, derived from the point (a b) G, for the private keys a and b, unless
    that point lies on an axis of the curve. *)
Theorem bulk_dh_agreement tA tB stA stB pktA pktB i j :
  tables_ok tA → tables_ok tB → state_wf stA → state_wf stB → 0 <= i < 4 → 0 <= j < 4 →
  shared_count stA < 4 → shared_count stB < 4 →
  let a := get_pair stA (Z.to_nat i) in let b := get_pair stB (Z.to_nat j) in
  key_pair a → key_pair b →
  fp_data pktA = request BEC_DH_EXCHANGE DHExchange_Cmd_serialize (MkDHExchange_Cmd (pub b) i) →
  fp_data pktB = request BEC_DH_EXCHANGE DHExchange_Cmd_serialize (MkDHExchange_Cmd (pub a) j) →
  let P := times (key_scalar (prv a) * key_scalar (prv b)) generator in
  cp_x P ≠ 0 → cp_y P ≠ 0 →
  ∃ pt stA' stB', encodes pt (cp_x P) (cp_y P) ∧
    process tA stA pktA = Some (stA', Some (set_data pktA
      (reply BER_DH_EXCHANGED DHExchange_Res_serialize (MkDHExchange_Res (shared_count stA))))) ∧
    process tB stB pktB = Some (stB', Some (set_data pktB
      (reply BER_DH_EXCHANGED DHExchange_Res_serialize (MkDHExchange_Res (shared_count stB))))) ∧
    get_secret stA' (Z.to_nat (shared_count stA)) = point_secret pt ∧
    get_secret stB' (Z.to_nat (shared_count stB)) = point_secret pt.
Proof.
  intros HtA HtB HA HB Hi Hj HnA HnB a b Ka Kb HdA HdB P Nx Ny.
  destruct (get_pair_wf stA HA (Z.to_nat i) ltac:(lia)) as [Hpa Hva]. fold a in Hpa, Hva.
  destruct (get_pair_wf stB HB (Z.to_nat j) ltac:(lia)) as [Hpb Hvb]. fold b in Hpb, Hvb.
  destruct (exchange_agrees a b (proj2 Hva) (proj2 Hvb) Ka Kb Nx Ny) as (pt & Ea & Eb & He).
  destruct (exchange_packet tA stA pktA (pub b) i HtA HA Hpb Hi HnA HdA) as (ptA & stA' & EA & PA & _ & SA).
  destruct (exchange_packet tB stB pktB (pub a) j HtB HB Hpa Hj HnB HdB) as (ptB & stB' & EB & PB & _ & SB).
  fold a in EA. fold b in EB. rewrite Ea in EA. rewrite Eb in EB. injection EA as <-. injection EB as <-.
  exists pt, stA', stB'. exact (conj He (conj PA (conj PB (conj SA SB)))).
Qed.

(** ** Channels *)

(** A host that sends a request in session 1 and reads the structure of the
    expected answer. *)
Definition ask {T U} (tables : option (list Z) * option (list Z)) (st : state_t) (e : BulkEncryptionCommand) (put : T → ser) (t : T)
    (code : BulkEncryptionResponse) (rd : deser U) (init : U) : option (state_t * U) :=
  '(st, sent) ← process tables st (FfsPacket 1 0 0 (request e put t));
  pkt ← sent;
  let '(err, (pos, c)) := BulkEncryptionResponse_deserialize (fp_data pkt) FFS_DATA_SIZE (0, BER_ERROR : Z) in
  if negb (err =? 0) || negb (c =? code) then None
  else
    let '(err, (_, u)) := rd (fp_data pkt) FFS_DATA_SIZE (pos, init) in
    if negb (err =? 0) then None else Some (st, u).

Definition open_channel (tables : option (list Z) * option (list Z)) (st : state_t) (slot : Z) (e : GCM_Mode) : option (state_t * Z) :=
  '(st, res) ← ask tables st BEC_GCM_INIT GcmInit_Cmd_serialize (MkGcmInit_Cmd e slot)
    BER_GCM_READY GcmInit_Res_deserialize (GcmInit_Res_init (MkGcmInit_Res 0));
  Some (st, gir_gcm_idx res).

Definition do_block (tables : option (list Z) * option (list Z)) (st : state_t) (chan : Z) (block : list Z) : option (state_t * list Z) :=
  '(st, res) ← ask tables st BEC_GCM_DOBLOCK GcmDoBlock_Cmd_serialize (MkGcmDoBlock_Cmd block chan)
    BER_GCM_BLOCKS GcmDoBlock_Res_deserialize (GcmDoBlock_Res_init (MkGcmDoBlock_Res []));
  Some (st, gdr_block res).

(** Blocks sent through a channel of one device and on through one of another. *)
Fixpoint relay (tables : option (list Z) * option (list Z)) (stA stB : state_t) (a b : Z) (blocks : list (list Z)) : option (list (list Z)) :=
  match blocks with
  | [] => Some []
  | p :: blocks =>
      '(stA, c) ← do_block tables stA a p;
      '(stB, p') ← do_block tables stB b c;
      rest ← relay tables stA stB a b blocks;
      Some (p' :: rest)
  end.

Lemma ask_ok {T U} (put : T → ser) (t : T) shape' put' (rd : deser U) u bytes' init tables st st'
    (e : BulkEncryptionCommand) (code : BulkEncryptionResponse) :
  wire shape' put' rd u bytes' → Z.of_nat (length bytes') <= 2000 → shape' init →
  process tables st (FfsPacket 1 0 0 (request e put t)) =
    Some (st', Some (set_data (FfsPacket 1 0 0 (request e put t)) (reply code put' u))) →
  ask tables st e put t code rd init = Some (st', u).
Proof.
  intros Hw Hb Hi E. unfold ask. rewrite E, !some_bind. cbn [set_data fp_data].
  assert (reply code put' u = be_bytes 4 code ++ bytes' ++ replicate (Z.to_nat FFS_DATA_SIZE - length (be_bytes 4 code ++ bytes')) 0) as Hr.
  { unfold reply. rewrite (message_puts _ (be_bytes 4 code ++ bytes')); [by rewrite <- app_assoc| |].
    - apply puts_seq; [apply puts_response|apply Hw].
    - rewrite length_app, be_bytes_length. unfold FFS_DATA_SIZE. lia. }
  rewrite Hr at 1. pose proof (ec_get _ _ _ BulkEncryptionResponse_codec _ _ (response_in code)) as Hg.
  rewrite (gets_ok _ _ _ _ Hg) by (rewrite ?be_bytes_length; done || apply holds_prefix). rewrite be_bytes_length.
  cbn [negb Z.eqb orb]. rewrite Z.eqb_refl. cbn [negb]. change (0 + Z.of_nat 4) with 4.
  by rewrite (parse_reply _ _ _ _ _ _ _ Hw Hb Hi).
Qed.

Lemma get_set_gcm st i g n : state_wf st → (i < 4)%nat → get_gcm (set_gcm st i g n) i = g.
Proof. intros Hst Hi. unfold get_gcm, set_gcm. cbn [gcm]. destruct (wf_gcm st Hst) as [Hl _]. by rewrite list_lookup_insert_eq by lia. Qed.

Lemma get_set_gcm_ne st i j g n : i ≠ j → get_gcm (set_gcm st i g n) j = get_gcm st j.
Proof. intros Hi. unfold get_gcm, set_gcm. cbn [gcm]. by rewrite list_lookup_insert_ne. Qed.

(** The context of the channel numbered [a]. *)
Definition context (st : state_t) (a : Z) : aes_gcm_ctx_t := load_gcm st (get_gcm st (Z.to_nat a)).
Definition is_channel (st : state_t) (a : Z) (e : GCM_Mode) : Prop :=
  0 <= a < 4 ∧ gcm_mode (get_gcm st (Z.to_nat a)) = GCM_Mode_val e.

Lemma open_channel_ok tables st slot e : state_wf st → gcm_count st < 4 → 0 <= slot < 4 →
  ∃ st', open_channel tables st slot e = Some (st', gcm_count st) ∧ state_wf st' ∧ gcm_count st' = gcm_count st + 1 ∧
    is_channel st' (gcm_count st) e ∧ context st' (gcm_count st) = new_channel (get_secret st (Z.to_nat slot)) ∧
    (∀ i, get_secret st' i = get_secret st i) ∧
    (∀ b, 0 <= b → b ≠ gcm_count st → get_gcm st' (Z.to_nat b) = get_gcm st (Z.to_nat b)).
Proof.
  intros Hst Hn Hs. destruct (wf_counts st Hst) as (_ & _ & Hc).
  assert (GcmInit_Cmd_valid (MkGcmInit_Cmd e slot)) as Hv.
  { split; [done|]. split; [by exists e|]. unfold is_u8. cbn [gic_shared_idx]. lia. }
  pose proof (GcmInit_Cmd_wire _ Hv) as Hw.
  pose proof (request_length _ _ _ BEC_GCM_INIT _ _ Hw ltac:(rewrite length_app, be_bytes_length; done)) as Hlen.
  set (n := gcm_count st) in *. set (r := request BEC_GCM_INIT GcmInit_Cmd_serialize (MkGcmInit_Cmd e slot)) in *.
  destruct (GCMInit_ok svc_aes st r _ Hst Hlen Hv Hn ltac:(cbn [gic_shared_idx]; lia)) as [E Hg]. cbn [gic_shared_idx mode] in *.
  pose proof (process_GCMInit svc_aes svc_sha be tables st (FfsPacket 1 0 0 r) _ Hv eq_refl) as Hp. cbn [fp_data] in Hp.
  rewrite E, some_bind, answer_ok in Hp. fold n in Hp. set (g := MkGcm _ _ _) in *.
  exists (set_gcm st (Z.to_nat n) g (n + 1)). unfold open_channel.
  assert (GcmInit_Res_valid (MkGcmInit_Res n)) as Hr by (split; [done|]; unfold is_u8; cbn [gir_gcm_idx]; lia).
  rewrite (ask_ok _ _ _ _ _ _ _ (GcmInit_Res_init (MkGcmInit_Res 0)) tables st _ BEC_GCM_INIT BER_GCM_READY (GcmInit_Res_wire _ Hr) ltac:(done) I Hp).
  split; [reflexivity|]. split; [apply set_gcm_wf; [done|exact Hg|lia]|]. split; [reflexivity|].
  assert (get_gcm (set_gcm st (Z.to_nat n) g (n + 1)) (Z.to_nat n) = g) as Eg by (apply get_set_gcm; [done|lia]).
  unfold is_channel, context. rewrite Eg. split; [split; [lia|reflexivity]|]. split; [reflexivity|]. split; [reflexivity|].
  intros b Hb Hne. apply get_set_gcm_ne. lia.
Qed.

Lemma do_block_ok tables st a e p : state_wf st → is_channel st a e → length p = 16%nat → bytes_ok p →
  let out := gctr (context st a) p in
  ∃ st', do_block tables st a p = Some (st', out) ∧ length out = 16%nat ∧ bytes_ok out ∧ state_wf st' ∧ is_channel st' a e ∧
    context st' a = gcm_after (context st a) (cipher_of e p out) ∧ gcm_ok (context st a) ∧
    (∀ b, 0 <= b → b ≠ a → get_gcm st' (Z.to_nat b) = get_gcm st (Z.to_nat b)) ∧ (∀ i, get_secret st' i = get_secret st i).
Proof.
  intros Hst [Ha Hm] Hl Hb out. destruct (wf_counts st Hst) as (_ & _ & Hc).
  assert (GcmDoBlock_Cmd_valid (MkGcmDoBlock_Cmd p a)) as Hv.
  { split; [exact Hl|]. split; [exact Hb|]. unfold is_u8. cbn [gdc_gcm_idx]. lia. }
  pose proof (request_length _ _ _ BEC_GCM_DOBLOCK _ _ (GcmDoBlock_Cmd_wire _ Hv) ltac:(rewrite length_app, (proj1 Hv); done)) as Hlen.
  set (r := request BEC_GCM_DOBLOCK GcmDoBlock_Cmd_serialize (MkGcmDoBlock_Cmd p a)) in *.
  destruct (GCMDoBlock_ok svc_aes st r _ e Hst Hlen Hv ltac:(cbn [gdc_gcm_idx]; lia) Hm) as (E & Hg & Hol & Hob).
  cbn [gdc_gcm_idx gdc_block] in *. fold (context st a) in *. fold out in E, Hg, Hol, Hob.
  pose proof (process_GCMDoBlock svc_aes svc_sha be tables st (FfsPacket 1 0 0 r) _ Hv eq_refl) as Hp. cbn [fp_data] in Hp.
  rewrite E, some_bind, answer_ok in Hp. set (g := MkGcm _ _ _) in *. set (st' := set_gcm _ _ _ _) in Hp.
  exists st'. unfold do_block. assert (GcmDoBlock_Res_valid (MkGcmDoBlock_Res out)) as Hr by exact (conj Hol Hob).
  rewrite (ask_ok _ _ _ _ _ _ _ (GcmDoBlock_Res_init (MkGcmDoBlock_Res [])) tables st st' BEC_GCM_DOBLOCK BER_GCM_BLOCKS
    (GcmDoBlock_Res_wire _ Hr) ltac:(cbn [gdr_block]; lia) eq_refl Hp).
  split; [reflexivity|]. split; [exact Hol|]. split; [exact Hob|]. split; [apply set_gcm_wf; [done|exact Hg|lia]|].
  assert (get_gcm st' (Z.to_nat a) = g) as Eg by (apply get_set_gcm; [done|lia]).
  unfold is_channel, context. rewrite Eg. split; [exact (conj Ha Hm)|]. split; [reflexivity|].
  split; [apply (load_gcm_ok st _ e Hst); [apply get_gcm_wf; [done|lia]|exact Hm]|]. split; [|reflexivity].
  intros b Hb' Hne. apply get_set_gcm_ne. lia.
Qed.

Lemma relay_ok tables blocks : Forall (λ p, length p = 16%nat ∧ bytes_ok p) blocks → ∀ stA stB a b,
  state_wf stA → state_wf stB → is_channel stA a GCM128_ENCRYPT → is_channel stB b GCM128_DECRYPT →
  context stA a = context stB b → relay tables stA stB a b blocks = Some blocks.
Proof.
  induction 1 as [|p blocks [Hl Hb] _ IH]; intros stA stB a b HA HB Ha Hb' E; [done|]. cbn [relay].
  destruct (do_block_ok tables stA a _ p HA Ha Hl Hb) as (stA' & EA & Lc & Bc & HA' & Ha' & CA & Hok & _). rewrite EA, some_bind.
  destruct (do_block_ok tables stB b _ _ HB Hb' Lc Bc) as (stB' & EB & _ & _ & HB' & Hb'' & CB & _). rewrite EB, some_bind.
  rewrite (IH stA' stB' a b HA' HB' Ha' Hb'') by (rewrite CA, CB, E; reflexivity). rewrite some_bind.
  rewrite <- E, gctr_involutive by exact Hok. reflexivity.
Qed.

(** C13: A channel carries any sequence of blocks: when two devices hold the same
    secret, an encrypting channel opened on it by one and a decrypting channel
    opened on it by the other turn every list of 16-byte blocks, sent through
    the first device and on through the second, back into itself, request by
    request and packet by packet. *)
Theorem bulk_channel_roundtrip tables stA stB i j blocks :
  state_wf stA → state_wf stB → gcm_count stA < 4 → gcm_count stB < 4 → 0 <= i < 4 → 0 <= j < 4 →
  get_secret stA (Z.to_nat i) = get_secret stB (Z.to_nat j) →
  Forall (λ p, length p = 16%nat ∧ bytes_ok p) blocks →
  ('(stA, a) ← open_channel tables stA i GCM128_ENCRYPT;
   '(stB, b) ← open_channel tables stB j GCM128_DECRYPT;
   relay tables stA stB a b blocks) = Some blocks.
Proof.
  intros HA HB HnA HnB Hi Hj Es Hf.
  destruct (open_channel_ok tables stA i GCM128_ENCRYPT HA HnA Hi) as (stA' & EA & HA' & _ & Ha & CA & _). rewrite EA, some_bind.
  destruct (open_channel_ok tables stB j GCM128_DECRYPT HB HnB Hj) as (stB' & EB & HB' & _ & Hb & CB & _). rewrite EB, some_bind.
  apply relay_ok; [done..|]. by rewrite CA, CB, Es.
Qed.

Lemma gctr_difference ctx p q : gcm_ok ctx → length p = length q → xor_list (gctr ctx p) (gctr ctx q) = xor_list p q.
Proof.
  intros Hok Hl. pose proof (gctr_length ctx Hok p) as Lp. pose proof (gctr_length ctx Hok q) as Lq.
  unfold gctr in *. rewrite <- Hl in *. set (k := take (length p) _) in *.
  assert (length k = length p) as Hk.
  { unfold xor_list in Lp. rewrite length_zip_with in Lp. pose proof (length_take_le (concat (map (key_block ctx) (seq 0 ((length p + 15) / 16)))) (length p)).
    unfold k in *. rewrite length_take in *. lia. }
  apply xor_list_same_key; lia.
Qed.

(** C39: Two channels that encrypt under one secret use one key stream: the first
    blocks of two encrypting channels opened on the same slot differ by exactly
    the difference of their plaintexts. *)
Theorem bulk_keystream_repeats tables st i p q :
  state_wf st → gcm_count st < 3 → 0 <= i < 4 → length p = 16%nat → bytes_ok p → length q = 16%nat → bytes_ok q →
  ('(st, a) ← open_channel tables st i GCM128_ENCRYPT;
   '(st, b) ← open_channel tables st i GCM128_ENCRYPT;
   '(st, c) ← do_block tables st a p;
   '(st, d) ← do_block tables st b q;
   Some (xor_list c d)) = Some (xor_list p q).
Proof.
  intros Hst Hn Hi Lp Bp Lq Bq. assert (0 <= gcm_count st) as Hn0 by apply (wf_counts st Hst).
  destruct (open_channel_ok tables st i GCM128_ENCRYPT Hst ltac:(lia) Hi) as (st1 & E1 & W1 & N1 & I1 & C1 & S1 & _).
  rewrite E1, some_bind. set (n := gcm_count st) in *.
  destruct (open_channel_ok tables st1 i GCM128_ENCRYPT W1 ltac:(lia) Hi) as (st2 & E2 & W2 & _ & I2 & C2 & S2 & F2).
  rewrite E2, some_bind. rewrite N1 in *.
  assert (get_gcm st2 (Z.to_nat n) = get_gcm st1 (Z.to_nat n)) as G2 by (apply F2; lia).
  assert (context st2 n = context st1 n) as K2.
  { unfold context, load_gcm. rewrite G2. destruct (gcm_slot _); [|reflexivity]. by rewrite S2. }
  assert (is_channel st2 n GCM128_ENCRYPT) as I1' by (destruct I1 as [H0 H1]; split; [exact H0|by rewrite G2]).
  destruct (do_block_ok tables st2 n _ p W2 I1' Lp Bp) as (st3 & E3 & Lc & Bc & W3 & _ & _ & Hok & F3 & S3). rewrite E3, some_bind.
  assert (get_gcm st3 (Z.to_nat (n + 1)) = get_gcm st2 (Z.to_nat (n + 1))) as G3 by (apply F3; lia).
  assert (is_channel st3 (n + 1) GCM128_ENCRYPT) as I3 by (destruct I2 as [H0 H1]; split; [exact H0|by rewrite G3]).
  assert (context st3 (n + 1) = context st2 n) as K3.
  { transitivity (context st2 (n + 1)); [|by rewrite C2, K2, C1, S1].
    unfold context, load_gcm. rewrite G3. destruct (gcm_slot _); [|reflexivity]. by rewrite S3. }
  destruct (do_block_ok tables st3 (n + 1) _ q W3 I3 Lq Bq) as (st4 & E4 & _). rewrite E4, some_bind, K3. apply (f_equal Some).
  exact (gctr_difference _ p q Hok (eq_trans Lp (eq_sym Lq))).
Qed.

Lemma get_set_pair st i p n : state_wf st → (i < 4)%nat → get_pair (set_pair st i p n) i = p.
Proof. intros Hst Hi. unfold get_pair, set_pair. cbn [ecc_pairs]. destruct (wf_pairs st Hst) as [Hl _]. by rewrite list_lookup_insert_eq by lia. Qed.

(** C40: A key generation request stores, in the next free slot, the private key
    of the seed and the public key that belongs to it, but the answer holds the
    response code and then zeros only: the public key, which the host needs for
    an exchange, and the number of the slot are never sent. *)
Theorem bulk_pubkey_withheld tables st pkt s :
  tables_ok tables → state_wf st → ecc_pairs_count st < 4 → hash_ok s →
  fp_data pkt = request BEC_GEN_DHPAIR GenDHPair_Cmd_serialize (MkGenDHPair_Cmd s) →
  ∃ st' d, process tables st pkt = Some (st', Some (set_data pkt d)) ∧ state_wf st' ∧
    ecc_pairs_count st' = ecc_pairs_count st + 1 ∧
    (let p := get_pair st' (Z.to_nat (ecc_pairs_count st)) in prv p = seed_prv be s ∧ key_pair p) ∧
    d = be_bytes 4 BER_DHPAIR ++ replicate 2040 0.
Proof.
  intros [Ht _] Hst Hn Hs Hd. destruct (wf_counts st Hst) as (Hc & _).
  assert (GenDHPair_Cmd_valid (MkGenDHPair_Cmd s)) as Hv by exact Hs.
  pose proof (request_length _ _ _ BEC_GEN_DHPAIR _ _ (GenDHPair_Cmd_wire _ Hv) ltac:(rewrite (proj1 Hv); done)) as Hlen.
  rewrite <- Hd in Hlen.
  destruct (GenDHPair_ok svc_aes svc_sha be tables.1 st (fp_data pkt) _ Ht Hst Hlen Hv Hn) as (pub' & E & Hp & Hk). cbn [seed] in *.
  eexists _, _. rewrite (process_GenDHPair svc_aes svc_sha be tables st pkt _ Hv Hd), E, some_bind.
  split; [reflexivity|]. split; [apply set_pair_wf; [done|exact Hp|lia]|]. split; [reflexivity|].
  split; [rewrite (get_set_pair st (Z.to_nat (ecc_pairs_count st)) _ _ Hst ltac:(lia)); exact (conj eq_refl Hk)|].
  exact (message_puts _ _ (puts_response BER_DHPAIR) ltac:(rewrite be_bytes_length; done)).
Qed.
End session.

(** ** Examples *)

Definition example_tables : option (list Z) * option (list Z) := (Some (replicate 512 0), Some (replicate 512 7)).

Lemma replicate_bytes n x : 0 <= x < 256 → bytes_ok (replicate n x).
Proof. intros. by apply bytes_ok_replicate. Qed.

Lemma example_tables_ok : tables_ok example_tables.
Proof. split; (eexists; split; [reflexivity|]; split; [apply length_replicate|apply replicate_bytes; lia]). Qed.

Lemma replicate_data x : 0 <= x < 256 → data_ok (replicate (Z.to_nat FFS_DATA_SIZE) x).
Proof. intros. split; [rewrite length_replicate; reflexivity|by apply replicate_bytes]. Qed.

(** A request with an unknown command whose answer is refused once, then a packet
    for no session. *)
Definition example_turns : list turn :=
  [Turn example_tables [MSEL_ERESOURCE; MSEL_OK] (FfsPacket 1 0 0 (replicate (Z.to_nat FFS_DATA_SIZE) 5));
   Turn example_tables [MSEL_OK] (FfsPacket 0 0 0 (replicate (Z.to_nat FFS_DATA_SIZE) 0))].

Lemma example_turns_ok : Forall turn_ok example_turns.
Proof.
  apply Forall_cons_2; [split; [exact example_tables_ok|split; [apply replicate_data; lia|apply (bool_decide_unpack _); reflexivity]]|].
  apply Forall_cons_2; [split; [exact example_tables_ok|split; [apply replicate_data; lia|apply (bool_decide_unpack _); reflexivity]]|apply Forall_nil_2].
Qed.

Lemma bulk_task_answers_witness :
  (∃ l, bulkencryption_task msel_do_aes msel_do_sha true 4096 8192 example_turns = Some l ∧ Forall2 turn_answered example_turns l) ∧
  ∀ n, ∃ st l, task_turns msel_do_aes msel_do_sha true zero_state (take n example_turns) = Some (st, l) ∧ state_wf st.
Proof. exact (bulk_task_answers msel_do_aes msel_do_sha true 4096 8192 example_turns example_turns_ok). Defined.

(** Two devices with the private keys 2 and 1. *)
Definition example_key (x : Z) : list Z := replicate 127 0 ++ [x].
Definition example_pair (x : Z) : ecc_pair_t :=
  EccPair (point (msel_ecc_mul (EccCtx (example_key x) bulkencryption_curve_base_point)).2) (example_key x).
Definition example_device (x : Z) : state_t := set_pair zero_state 0 (example_pair x) 1.

Lemma example_pair_ok x : is_u8 x → pair_wf (example_pair x) ∧ key_pair (example_pair x).
Proof.
  intros Hx. destruct (msel_ecc_mul_bytes (EccCtx (example_key x) bulkencryption_curve_base_point)) as (pt & E & Hl & Hb);
    [reflexivity|by apply bytes_okb_ok|]. cbn [scalar] in E.
  unfold pair_wf, key_pair, example_pair. cbn [prv pub]. rewrite E. cbn [snd point].
  assert (bytes_ok (example_key x)) as Hk by (apply Forall_app; split; [apply replicate_bytes; lia|by constructor]).
  exact (conj (conj (conj Hl Hb) (conj eq_refl Hk)) eq_refl).
Qed.

Lemma double_generator : cp_x (times 2 generator) ≠ 0 ∧ cp_y (times 2 generator) ≠ 0.
Proof.
  cbn [multiple]. rewrite cp_add_zero. destruct (cp_add_law generator generator) as [_ Hx Hy]. revert Hx Hy.
  generalize (cp_x (cp_add generator generator)), (cp_y (cp_add generator generator)). intros x y Hx Hy.
  split; intros ->; [clear Hy; rename Hx into H|clear Hx; rename Hy into H]; rewrite Z.mul_0_l in H; unfold eqm in H; vm_compute in H; discriminate H.
Qed.

Lemma example_device_wf x : is_u8 x → state_wf (example_device x).
Proof. intros Hx. apply set_pair_wf; [exact zero_state_wf|exact (proj1 (example_pair_ok x Hx))|lia]. Qed.

Lemma example_key_pair x : is_u8 x → key_pair (get_pair (example_device x) (Z.to_nat 0)).
Proof. intros Hx. exact (proj2 (example_pair_ok x Hx)). Qed.

Lemma example_product :
  (key_scalar (prv (get_pair (example_device 2) (Z.to_nat 0))) * key_scalar (prv (get_pair (example_device 1) (Z.to_nat 0))) = 2)%nat.
Proof.
  change (key_scalar (example_key 2) * key_scalar (example_key 1) = 2)%nat. vm_compute. reflexivity.
Qed.

Definition example_exchange (st : state_t) : ffs_packet_t :=
  FfsPacket 1 0 0 (request BEC_DH_EXCHANGE DHExchange_Cmd_serialize (MkDHExchange_Cmd (pub (get_pair st (Z.to_nat 0))) 0)).

Lemma bulk_dh_agreement_witness :
  let pktA := example_exchange (example_device 1) in
  let pktB := example_exchange (example_device 2) in
  let P := times 2 generator in
  ∃ pt stA stB, encodes pt (cp_x P) (cp_y P) ∧
    packet_reply msel_do_aes msel_do_sha true example_tables (example_device 2) pktA = Some (stA, Some (set_data pktA
      (reply BER_DH_EXCHANGED DHExchange_Res_serialize (MkDHExchange_Res 0)))) ∧
    packet_reply msel_do_aes msel_do_sha true example_tables (example_device 1) pktB = Some (stB, Some (set_data pktB
      (reply BER_DH_EXCHANGED DHExchange_Res_serialize (MkDHExchange_Res 0)))) ∧
    get_secret stA (Z.to_nat 0) = point_secret pt ∧ get_secret stB (Z.to_nat 0) = point_secret pt.
Proof.
  pose proof (bulk_dh_agreement msel_do_aes msel_do_sha true example_tables example_tables (example_device 2) (example_device 1)
    (example_exchange (example_device 1)) (example_exchange (example_device 2)) 0 0 example_tables_ok example_tables_ok
    (example_device_wf 2 ltac:(unfold is_u8; lia)) (example_device_wf 1 ltac:(unfold is_u8; lia)) ltac:(lia) ltac:(lia)
    eq_refl eq_refl (example_key_pair 2 ltac:(unfold is_u8; lia)) (example_key_pair 1 ltac:(unfold is_u8; lia)) eq_refl eq_refl) as H.
  cbv zeta in H. rewrite example_product in H. exact (H (proj1 double_generator) (proj2 double_generator)).
Defined.

Definition example_state : state_t := set_secret zero_state 0 (replicate 64 9) 1.

Lemma example_state_wf : state_wf example_state.
Proof. apply set_secret_wf; [apply zero_state_wf|split; [reflexivity|apply replicate_bytes; lia]|lia]. Qed.

Lemma bulk_channel_roundtrip_witness :
  let blocks := [replicate 16 1; replicate 16 2] in
  ('(stA, a) ← open_channel msel_do_aes msel_do_sha true example_tables example_state 0 GCM128_ENCRYPT;
   '(stB, b) ← open_channel msel_do_aes msel_do_sha true example_tables example_state 0 GCM128_DECRYPT;
   relay msel_do_aes msel_do_sha true example_tables stA stB a b blocks) = Some blocks.
Proof.
  apply (bulk_channel_roundtrip msel_do_aes msel_do_sha true example_tables example_state example_state 0 0
    [replicate 16 1; replicate 16 2]); [exact example_state_wf|exact example_state_wf|done|done|lia|lia|reflexivity|].
  apply Forall_cons_2; [split; [reflexivity|apply replicate_bytes; lia]|].
  apply Forall_cons_2; [split; [reflexivity|apply replicate_bytes; lia]|apply Forall_nil_2].
Defined.

Lemma bulk_keystream_repeats_witness :
  ('(st, a) ← open_channel msel_do_aes msel_do_sha true example_tables example_state 0 GCM128_ENCRYPT;
   '(st, b) ← open_channel msel_do_aes msel_do_sha true example_tables st 0 GCM128_ENCRYPT;
   '(st, c) ← do_block msel_do_aes msel_do_sha true example_tables st a (replicate 16 1);
   '(st, d) ← do_block msel_do_aes msel_do_sha true example_tables st b (replicate 16 2);
   Some (xor_list c d)) = Some (replicate 16 3).
Proof.
  apply (bulk_keystream_repeats msel_do_aes msel_do_sha true example_tables example_state 0 (replicate 16 1) (replicate 16 2));
    [exact example_state_wf|done|lia|reflexivity|apply replicate_bytes; lia|reflexivity|apply replicate_bytes; lia].
Defined.

Lemma bulk_pubkey_withheld_witness :
  let pkt := FfsPacket 1 0 0 (request BEC_GEN_DHPAIR GenDHPair_Cmd_serialize (MkGenDHPair_Cmd (replicate 32 3))) in
  ∃ st' d, packet_reply msel_do_aes msel_do_sha true example_tables zero_state pkt = Some (st', Some (set_data pkt d)) ∧
    state_wf st' ∧ ecc_pairs_count st' = 1 ∧ (let p := get_pair st' 0 in prv p = seed_prv true (replicate 32 3) ∧ key_pair p) ∧
    d = be_bytes 4 BER_DHPAIR ++ replicate 2040 0.
Proof.
  apply (bulk_pubkey_withheld msel_do_aes msel_do_sha true example_tables zero_state _ (replicate 32 3));
    [exact example_tables_ok|exact zero_state_wf|done|split; [reflexivity|apply replicate_bytes; lia]|reflexivity].
Defined.
