(* ===== verification/Flash.v ===== *)
(** * Flash, monotonic counter, master key

    arch/openrisc/flash.c (buffered access to the flash part page by page),
    arch/openrisc/mtc.c (the monotonic counter, kept as a log in one bank),
    arch/openrisc/master_key.c and driver/provision.c.

    The flash controller is hardware: what erasing a bank and programming a byte
    do to the part, whether it is busy and whether an erase fails are the
    operations of [FlashPart], with the laws [flash.h] and [mtc.h] rely on in
    [FlashLaws].  The busy-wait loops end when the controller is ready. *)

From S2P Require Import Prelude Words Msel Memory.

Local Open Scope Z_scope.
Local Open Scope orp_scope.

(** ** Addresses: arch/openrisc/flash.h *)

Definition FLASH_OFFSET_MASK : Z := 0x7ff.
Definition FLASH_PAGE_BYTES : Z := 2048.
Definition FLASH_PAGE_MASK : Z := 0x1f800.
Definition FLASH_PAGE_SHIFT : Z := 11.
Definition FLASH_BANK_PAGES : Z := 64.
Definition FLASH_BANK_MASK : Z := 0x07fe0000.
Definition FLASH_BANK_SHIFT : Z := 17.
Definition FLASH_PART_BANKS : Z := 1024.
Definition FLASH_PART_BYTES : Z := FLASH_PAGE_BYTES * FLASH_BANK_PAGES * FLASH_PART_BANKS.
Definition FLASH_ADDR_BASE : Z := 0xE0000000.
Definition FLASH_ADDR_MAX : Z := FLASH_ADDR_BASE + FLASH_PART_BYTES.

Definition FLASH_PAGE_ADDR (bank page : Z) : Z :=
  (u32 (bank <<< FLASH_BANK_SHIFT) .& FLASH_BANK_MASK) .| (u32 (page <<< FLASH_PAGE_SHIFT) .& FLASH_PAGE_MASK).
Definition FLASH_ADDR (bank page offset : Z) : Z :=
  FLASH_ADDR_BASE .| (u32 (bank <<< FLASH_BANK_SHIFT) .& FLASH_BANK_MASK)
    .| (u32 (page <<< FLASH_PAGE_SHIFT) .& FLASH_PAGE_MASK) .| (offset .& FLASH_OFFSET_MASK).
Definition FLASH_OFFSET (addr : Z) : Z := addr .& FLASH_OFFSET_MASK.
Definition FLASH_PAGE (addr : Z) : Z := (addr .& FLASH_PAGE_MASK) >>> FLASH_PAGE_SHIFT.
Definition FLASH_BANK (addr : Z) : Z := (addr .& FLASH_BANK_MASK) >>> FLASH_BANK_SHIFT.

(** ** The part and the driver's state *)

(** The part's bytes are numbered from 0 as in [FLASH_PAGE_ADDR]. *)
Class FlashPart := {
  program : Z → Z → Z;
  erase : mem → Z → mem;
  erase_fails : mem → Z → bool;
  is_busy : mem → bool }.

(** An erased byte is 0xff and takes the value programmed into it; programming a
    byte with its own value does nothing; an erase that does not fail erases its
    bank. *)
Class FlashLaws (part : FlashPart) : Prop := {
  program_erased v : is_u8 v → program 255 v = v;
  program_same v : is_u8 v → program v v = v;
  erase_bank m b a : erase_fails m b = false → 0 <= b < FLASH_PART_BANKS → b * 131072 <= a < b * 131072 + 131072 → ldb (erase m b) a = 255;
  erase_other m b a : 0 <= b < FLASH_PART_BANKS → a < b * 131072 ∨ b * 131072 + 131072 <= a →
    ldb (erase m b) a = ldb m a }.

(** The part's contents and the static variables of flash.c and mtc.c. *)
Record nvm : Type := Nvm {
  chip : mem;
  flash_scratch_page : list Z;
  flash_current_bank : Z;
  flash_current_page : Z;
  first_unused : Z }.

Definition set_cache (l : list Z) (b p : Z) (st : nvm) : nvm := Nvm (chip st) l b p (first_unused st).
Definition set_chip (m : mem) (st : nvm) : nvm :=
  Nvm m (flash_scratch_page st) (flash_current_bank st) (flash_current_page st) (first_unused st).
Definition set_first_unused (a : Z) (st : nvm) : nvm :=
  Nvm (chip st) (flash_scratch_page st) (flash_current_bank st) (flash_current_page st) a.

Section flash.
Context {part : FlashPart}.

(** ** Pages: arch/openrisc/flash.c *)

Definition flash_erase_bank (banknum : Z) (st : nvm) : msel_status * nvm :=
  if FLASH_PART_BANKS <? banknum then (MSEL_EINVAL, st)
  else if is_busy (chip st) then (MSEL_EBUSY, st)
  else
    let st' := set_chip (erase (chip st) banknum) (set_cache (flash_scratch_page st) (-1) (-1) st) in
    (if erase_fails (chip st) banknum then MSEL_EUNKNOWN else MSEL_OK, st').

Definition flash_read_page (bank page : Z) (st : nvm) : nvm :=
  if (u32 (flash_current_bank st) =? bank) && (u32 (flash_current_page st) =? page) then st
  else set_cache (mem_bytes (chip st) (FLASH_PAGE_ADDR bank page) (Z.to_nat FLASH_PAGE_BYTES)) bank page st.

Definition program_page (base : Z) (l : list Z) (m : mem) : mem :=
  for_loop 0 (Z.to_nat FLASH_PAGE_BYTES)
    (λ i m, stb m (base + Z.of_nat i) (program (ldb m (base + Z.of_nat i)) (get l i))) m.

Definition flash_flush_page (bank page : Z) (st : nvm) : nvm :=
  set_chip (program_page (FLASH_PAGE_ADDR bank page) (flash_scratch_page st) (chip st)) st.

(** ** Bytes *)

(** The argument check of both copy routines. *)
Definition flash_bad (addr : Z) (sz : nat) : bool :=
  (addr <? FLASH_ADDR_BASE) || (FLASH_ADDR_MAX <=? u32 (addr + Z.of_nat sz)) || (FLASH_PART_BYTES <? Z.of_nat sz).

(** How many bytes to copy at [ptr] when [left] are left. *)
Definition flash_chunk (ptr : Z) (left : nat) : nat :=
  let offset := FLASH_OFFSET ptr in
  let tmpcnt := Z.to_nat (if 0 <? offset then FLASH_PAGE_BYTES - offset else FLASH_PAGE_BYTES) in
  if (left <? tmpcnt)%nat then left else tmpcnt.

(** [msel_memcpy] to position [off] of a buffer. *)
Definition patch (l : list Z) (off : nat) (data : list Z) : list Z :=
  take off l ++ data ++ drop (off + length data) l.

(** The loop of [flash_writemem]; [data] is what is still to be written at [ptr]. *)
Fixpoint flash_write_loop (fuel : nat) (ptr : Z) (data : list Z) (st : nvm) : option nvm :=
  match data with
  | [] => Some st
  | _ =>
      match fuel with
      | O => None
      | S fuel =>
          let bank := FLASH_BANK ptr in
          let page := FLASH_PAGE ptr in
          let st := flash_read_page bank page st in
          let n := flash_chunk ptr (length data) in
          let st := set_cache (patch (flash_scratch_page st) (Z.to_nat (FLASH_OFFSET ptr)) (take n data))
                      (flash_current_bank st) (flash_current_page st) st in
          flash_write_loop fuel (u32 (ptr + Z.of_nat n)) (drop n data) (flash_flush_page bank page st)
      end
  end.

Definition flash_writemem (dst : Z) (src : list Z) (st : nvm) : option (msel_status * nvm) :=
  if flash_bad dst (length src) then Some (MSEL_EINVAL, st)
  else st' ← flash_write_loop (length src) dst src st; Some (MSEL_OK, st').

(** The loop of [flash_readmem]: the bytes read from [ptr] on. *)
Fixpoint flash_read_loop (fuel : nat) (ptr : Z) (left : nat) (st : nvm) : option (list Z * nvm) :=
  match left with
  | O => Some ([], st)
  | _ =>
      match fuel with
      | O => None
      | S fuel =>
          let st := flash_read_page (FLASH_BANK ptr) (FLASH_PAGE ptr) st in
          let n := flash_chunk ptr left in
          let out := take n (drop (Z.to_nat (FLASH_OFFSET ptr)) (flash_scratch_page st)) in
          '(rest, st) ← flash_read_loop fuel (u32 (ptr + Z.of_nat n)) (left - n) st; Some (out ++ rest, st)
      end
  end.

(** With the bytes stored at the destination; none when the arguments are bad. *)
Definition flash_readmem (src : Z) (sz : nat) (st : nvm) : option (msel_status * list Z * nvm) :=
  if flash_bad src sz then Some (MSEL_EINVAL, [], st)
  else '(l, st') ← flash_read_loop sz src sz st; Some (MSEL_OK, l, st').

(** ** The monotonic counter: arch/openrisc/mtc.c *)

Definition MTC_BANK_NUM : Z := 1020.
Definition MTC_ENTRY_UNUSED : Z := 2 ^ 64 - 1.
Definition MTC_START_ADDR : Z := FLASH_ADDR MTC_BANK_NUM 0 0.
Definition sizeof_mtc : nat := 8.

(** [flash_readmem(&x, p, sizeof(x))]: 64-bit values are big-endian. *)
Definition mtc_load (p : Z) (st : nvm) : option (Z * nvm) :=
  '(_, l, st) ← flash_readmem p sizeof_mtc st; Some (be_val l, st).

(** The inner loop of [mtc_find_first_unused], [n] turns left; the address of the
    first unused entry. *)
Fixpoint scan_page (n : nat) (page offset : Z) (st : nvm) : option (option Z * nvm) :=
  if offset <? FLASH_PAGE_BYTES / Z.of_nat sizeof_mtc then
    match n with
    | O => None
    | S n =>
        let check := FLASH_ADDR MTC_BANK_NUM page offset in
        '(v, st) ← mtc_load check st;
        if v =? MTC_ENTRY_UNUSED then Some (Some check, st)
        else scan_page n page (offset + Z.of_nat sizeof_mtc) st
    end
  else Some (None, st).

(** The outer loop, [n] turns left. *)
Fixpoint scan_bank (n : nat) (page offset : Z) (st : nvm) : option (option Z * nvm) :=
  if page <? FLASH_BANK_PAGES then
    match n with
    | O => None
    | S n =>
        '(r, st) ← scan_page 32 page offset st;
        match r with Some a => Some (Some a, st) | None => scan_bank n (page + 1) 0 st end
    end
  else Some (None, st).

Definition mtc_find_first_unused (st : nvm) : option (Z * nvm) :=
  let first := if first_unused st =? 0 then MTC_START_ADDR else first_unused st in
  '(r, st) ← scan_bank 64 (FLASH_PAGE first) (FLASH_OFFSET first) st;
  let a := default MTC_START_ADDR r in
  Some (a, set_first_unused a st).

(** The value is meaningful when the status is MSEL_OK. *)
Definition mtc_increment_store (forced_next : Z) (st : nvm) : option (msel_status * Z * nvm) :=
  '(nextptr, st) ← mtc_find_first_unused st;
  let lastptr := nextptr - Z.of_nat sizeof_mtc in
  let lastptr :=
    if lastptr <? MTC_START_ADDR
    then FLASH_ADDR MTC_BANK_NUM FLASH_BANK_PAGES (FLASH_PAGE_BYTES - Z.of_nat sizeof_mtc) else lastptr in
  '(lastmtc, st) ← mtc_load lastptr st;
  let nextmtc :=
    if negb (forced_next =? 0) && negb (forced_next =? MTC_ENTRY_UNUSED) then forced_next else u64 (lastmtc + 1) in
  let nextmtc := if nextmtc =? MTC_ENTRY_UNUSED then 0 else nextmtc in
  let '(ret, st) := if nextptr =? MTC_START_ADDR then flash_erase_bank MTC_BANK_NUM st else (MSEL_OK, st) in
  if negb (bool_decide (ret = MSEL_OK)) then Some (ret, 0, st)
  else
    '(ret, st) ← flash_writemem nextptr (rev (le_bytes sizeof_mtc nextmtc)) st;
    Some (ret, nextmtc, st).

(** The status and what [*val] holds afterwards. *)
Definition arch_mtc_read_increment (val : Z) (st : nvm) : option (msel_status * option Z * nvm) :=
  if val =? 0 then Some (MSEL_EINVAL, None, st)
  else
    '(ret, v, st) ← mtc_increment_store 0 st;
    Some (ret, Some (if bool_decide (ret = MSEL_OK) then v else MTC_ENTRY_UNUSED), st).

Definition arch_mtc_write (val : Z) (st : nvm) : option (msel_status * nvm) :=
  '(ret, _, st) ← mtc_increment_store val st; Some (ret, st).

(** ** The master key and provisioning *)

Definition MKEY_BANK_NUM : Z := 1022.
Definition MASTER_KEY_SIZE : nat := 256.

Definition arch_master_key_read (st : nvm) : option (msel_status * list Z * nvm) :=
  '(_, l, st) ← flash_readmem (FLASH_ADDR MKEY_BANK_NUM 0 0) MASTER_KEY_SIZE st; Some (MSEL_OK, l, st).

Definition arch_master_key_write (key : list Z) (st : nvm) : option (msel_status * nvm) :=
  let '(_, st) := flash_erase_bank MKEY_BANK_NUM st in
  flash_writemem (FLASH_ADDR MKEY_BANK_NUM 0 0) key st.

Definition msel_provision (mtc_ : Z) (key : list Z) (st : nvm) : option (msel_status * nvm) :=
  '(ret, st) ← arch_mtc_write mtc_ st;
  if negb (bool_decide (ret = MSEL_OK)) then Some (ret, st)
  else
    '(ret, st) ← arch_master_key_write key st;
    if negb (bool_decide (ret = MSEL_OK)) then Some (ret, st) else Some (MSEL_OK, st).
End flash.

(** ** Address arithmetic *)

Local Ltac div_lia := Z.to_euclidean_division_equations; lia.

Lemma land_field x n k : 0 <= n → 0 <= k → x .& (Z.ones n <<< k) = (x / 2 ^ k) mod 2 ^ n * 2 ^ k.
Proof.
  intros Hn Hk. rewrite <- Z.land_ones, <- Z.shiftr_div_pow2, <- Z.shiftl_mul_pow2 by lia.
  apply Z.bits_inj'. intros i Hi. rewrite Z.land_spec, !Z.shiftl_spec by lia. destruct (Z.lt_ge_cases i k).
  - rewrite !(Z.testbit_neg_r _ (i - k)) by lia. apply andb_false_r.
  - rewrite Z.land_spec, Z.shiftr_spec by lia. by replace (i - k + k) with i by lia.
Qed.

Lemma offset_eq a : FLASH_OFFSET (FLASH_ADDR_BASE + a) = a mod 2048.
Proof.
  unfold FLASH_OFFSET. change FLASH_OFFSET_MASK with (Z.ones 11 <<< 0). rewrite land_field by lia.
  unfold FLASH_ADDR_BASE. div_lia.
Qed.

Lemma page_eq a : FLASH_PAGE (FLASH_ADDR_BASE + a) = a / 2048 mod 64.
Proof.
  unfold FLASH_PAGE, FLASH_PAGE_SHIFT. change FLASH_PAGE_MASK with (Z.ones 6 <<< 11). rewrite land_field, Z.shiftr_div_pow2 by (done || lia).
  rewrite Z.div_mul by lia. replace (FLASH_ADDR_BASE + a) with (a + 1835008 * 2 ^ 11) by (unfold FLASH_ADDR_BASE; lia).
  rewrite Z.div_add by lia. by replace 1835008 with (28672 * 2 ^ 6) by lia; rewrite Z.mod_add by lia.
Qed.

Lemma bank_eq a : FLASH_BANK (FLASH_ADDR_BASE + a) = a / 131072 mod 1024.
Proof.
  unfold FLASH_BANK, FLASH_BANK_SHIFT. change FLASH_BANK_MASK with (Z.ones 10 <<< 17). rewrite land_field, Z.shiftr_div_pow2 by (done || lia).
  rewrite Z.div_mul by lia. replace (FLASH_ADDR_BASE + a) with (a + 28672 * 2 ^ 17) by (unfold FLASH_ADDR_BASE; lia).
  rewrite Z.div_add by lia. by replace 28672 with (28 * 2 ^ 10) by lia; rewrite Z.mod_add by lia.
Qed.

Lemma bank_field b : 0 <= b < 1024 → u32 (b <<< FLASH_BANK_SHIFT) .& FLASH_BANK_MASK = b * 131072.
Proof.
  intros Hb. change FLASH_BANK_MASK with (Z.ones 10 <<< 17). rewrite land_field by lia. unfold FLASH_BANK_SHIFT.
  rewrite Z.shiftl_mul_pow2, u32_id by (unfold is_u32; lia). div_lia.
Qed.

(** Page numbers wrap at 64. *)
Lemma page_field p : 0 <= p <= 64 → u32 (p <<< FLASH_PAGE_SHIFT) .& FLASH_PAGE_MASK = p mod 64 * 2048.
Proof.
  intros Hp. change FLASH_PAGE_MASK with (Z.ones 6 <<< 11). rewrite land_field by lia. unfold FLASH_PAGE_SHIFT.
  rewrite Z.shiftl_mul_pow2, u32_id by (unfold is_u32; lia). div_lia.
Qed.

Lemma FLASH_PAGE_ADDR_eq b p : 0 <= b < 1024 → 0 <= p < 64 → FLASH_PAGE_ADDR b p = b * 131072 + p * 2048.
Proof.
  intros Hb Hp. unfold FLASH_PAGE_ADDR. rewrite bank_field, page_field by lia.
  rewrite (lor_disjoint 17) by div_lia. div_lia.
Qed.

Lemma FLASH_ADDR_eq b p o : 0 <= b < 1024 → 0 <= p <= 64 → 0 <= o < 2048 →
  FLASH_ADDR b p o = FLASH_ADDR_BASE + (b * 131072 + p mod 64 * 2048 + o).
Proof.
  intros Hb Hp Ho. unfold FLASH_ADDR. rewrite bank_field, page_field by lia.
  assert (o .& FLASH_OFFSET_MASK = o) as ->.
  { change FLASH_OFFSET_MASK with (Z.ones 11). rewrite Z.land_ones by lia. div_lia. }
  unfold FLASH_ADDR_BASE. rewrite (lor_disjoint 27 0xE0000000) by div_lia.
  rewrite (lor_disjoint 17 (0xE0000000 + b * 131072)), (lor_disjoint 11) by div_lia. lia.
Qed.

(** ** Pages *)

Lemma mem_bytes_app m a n k : mem_bytes m a (n + k) = mem_bytes m a n ++ mem_bytes m (a + Z.of_nat n) k.
Proof.
  unfold mem_bytes. rewrite seq_app, fmap_app. f_equal. cbn.
  replace (seq n k) with (Nat.add n <$> seq 0 k) by (rewrite fmap_add_seq; f_equal; lia). rewrite <- list_fmap_compose.
  apply list_fmap_ext. intros i x _. cbn. f_equal. lia.
Qed.

Lemma mem_bytes_ext m m' a n : (∀ i, (i < n)%nat → ldb m (a + Z.of_nat i) = ldb m' (a + Z.of_nat i)) →
  mem_bytes m a n = mem_bytes m' a n.
Proof. intros H. unfold mem_bytes. apply list_fmap_ext. intros i x [-> Hi]%lookup_seq. by apply H. Qed.

Lemma mem_bytes_sub m a n off k : (off + k ≤ n)%nat →
  take k (drop off (mem_bytes m a n)) = mem_bytes m (a + Z.of_nat off) k.
Proof.
  intros H. replace n with (off + (k + (n - off - k)))%nat by lia. rewrite !mem_bytes_app.
  rewrite drop_app_length' by (by rewrite mem_bytes_length). by rewrite take_app_length' by (by rewrite mem_bytes_length).
Qed.

Lemma mem_bytes_bytes_ok m a n : bytes_ok (mem_bytes m a n).
Proof. unfold mem_bytes, bytes_ok. apply Forall_fmap, Forall_forall. intros i _. apply ldb_range. Qed.

Lemma mem_bytes_eq m a n l : length l = n → (∀ i, (i < n)%nat → ldb m (a + Z.of_nat i) = get l i) → mem_bytes m a n = l.
Proof.
  intros Hl H. apply list_eq. intros i. destruct (Nat.lt_ge_cases i n) as [Hi|Hi].
  - destruct (lookup_lt_is_Some_2 l i ltac:(lia)) as [x Hx]. unfold mem_bytes. rewrite list_lookup_fmap, lookup_seq_lt by done.
    cbn. rewrite H, (get_lookup l i x Hx), Hx by done. done.
  - rewrite !lookup_ge_None_2; [done|lia|rewrite mem_bytes_length; lia].
Qed.

Lemma get_patch l off data i : (off + length data ≤ length l)%nat → (i < length l)%nat →
  get (patch l off data) i = if decide (off ≤ i < off + length data)%nat then get data (i - off) else get l i.
Proof.
  intros Hl Hi. unfold patch. destruct (Nat.lt_ge_cases i off).
  - rewrite decide_False, get_app_l, get_take by (rewrite ?length_take; lia). done.
  - rewrite get_app_r, length_take, Nat.min_l by (rewrite ?length_take; lia). case_decide.
    + by rewrite get_app_l by lia.
    + rewrite get_app_r, get_drop by lia. f_equal. lia.
Qed.

Lemma patch_length l off data : (off + length data ≤ length l)%nat → length (patch l off data) = length l.
Proof. intros H. unfold patch. rewrite !length_app, length_take, length_drop. lia. Qed.

#[local] Opaque mem_bytes.

(** The buffer holds the current page. *)
Definition page_base (b p : Z) : Z := b * 131072 + p * 2048.

Definition coherent (st : nvm) : Prop :=
  (flash_current_bank st = -1 ∧ flash_current_page st = -1) ∨
  (0 <= flash_current_bank st < 1024 ∧ 0 <= flash_current_page st < 64 ∧
   flash_scratch_page st = mem_bytes (chip st) (page_base (flash_current_bank st) (flash_current_page st)) 2048).

Lemma flash_read_page_eq b p st : coherent st → 0 <= b < 1024 → 0 <= p < 64 →
  flash_read_page b p st = Nvm (chip st) (mem_bytes (chip st) (page_base b p) 2048) b p (first_unused st).
Proof.
  intros Hc Hb Hp. unfold flash_read_page. rewrite FLASH_PAGE_ADDR_eq by done. change (Z.to_nat FLASH_PAGE_BYTES) with 2048%nat.
  destruct ((u32 (flash_current_bank st) =? b) && _) eqn:E; [|done].
  apply andb_true_iff in E as [E1%Z.eqb_eq E2%Z.eqb_eq]. destruct Hc as [[H1 H2]|(H1 & H2 & H3)].
  - rewrite H1 in E1. change (u32 (-1)) with 4294967295 in E1. lia.
  - rewrite u32_id in E1, E2 by (unfold is_u32; lia). destruct st as [m l cb cp fu]. cbn in *. by subst.
Qed.

Section laws.
Context {part : FlashPart} {laws : FlashLaws part}.

Lemma program_page_ok base l m : length l = 2048%nat → bytes_ok l →
  (∀ i, (i < 2048)%nat → ldb m (base + Z.of_nat i) = 255 ∨ ldb m (base + Z.of_nat i) = get l i) →
  (∀ i, (i < 2048)%nat → ldb (program_page base l m) (base + Z.of_nat i) = get l i) ∧
  ∀ a, a < base ∨ base + 2048 <= a → ldb (program_page base l m) a = ldb m a.
Proof.
  intros Hl Hok Hpre. unfold program_page. change (Z.to_nat FLASH_PAGE_BYTES) with 2048%nat.
  pose proof (for_loop_ind (λ k m', (∀ i, (i < k)%nat → ldb m' (base + Z.of_nat i) = get l i) ∧
    ∀ a, a < base ∨ base + Z.of_nat k <= a → ldb m' a = ldb m a) 0 2048
    (λ i m, stb m (base + Z.of_nat i) (program (ldb m (base + Z.of_nat i)) (get l i))) m) as H.
  cbv beta in H. apply H; clear H.
  - split; [lia|done].
  - intros i m' Hi [H1 H2]. cbn [Nat.add] in *. pose proof (get_u8 l i Hok) as Hg.
    assert (program (ldb m' (base + Z.of_nat i)) (get l i) = get l i) as ->.
    { rewrite H2 by lia. destruct (Hpre i ltac:(lia)) as [->| ->]; [by apply program_erased|by apply program_same]. }
    split.
    + intros j Hj. destruct (decide (j = i)) as [->|]; [by rewrite ldb_stb_eq, u8_id|].
      rewrite ldb_stb_ne by lia. apply H1. lia.
    + intros a Ha. rewrite ldb_stb_ne by lia. apply H2. lia.
Qed.

(** ** Copying *)

(** A request inside the part. *)
Definition in_part (a : Z) (n : nat) : Prop := 0 <= a ∧ a + Z.of_nat n < FLASH_PART_BYTES.

Lemma flash_chunk_ok a left : 0 <= a → (0 < left)%nat →
  let n := flash_chunk (FLASH_ADDR_BASE + a) left in
  (0 < n ≤ left)%nat ∧ (Z.to_nat (a mod 2048) + n ≤ 2048)%nat.
Proof.
  intros Ha Hl. cbv zeta. unfold flash_chunk. rewrite offset_eq. unfold FLASH_PAGE_BYTES.
  destruct (Z.ltb_spec 0 (a mod 2048)); case_match eqn:E; rewrite ?Nat.ltb_lt, ?Nat.ltb_ge in E; div_lia.
Qed.

Lemma flash_ptr a n : in_part a n → u32 (FLASH_ADDR_BASE + a + Z.of_nat n) = FLASH_ADDR_BASE + (a + Z.of_nat n).
Proof. intros [H1 H2]. rewrite u32_id; [lia|]. unfold is_u32, FLASH_PART_BYTES, FLASH_PAGE_BYTES, FLASH_BANK_PAGES, FLASH_PART_BANKS, FLASH_ADDR_BASE in *. lia. Qed.

(** The page an address of the part is on. *)
Lemma flash_page_of a n : in_part a n →
  0 <= FLASH_BANK (FLASH_ADDR_BASE + a) < 1024 ∧ 0 <= FLASH_PAGE (FLASH_ADDR_BASE + a) < 64 ∧
  page_base (FLASH_BANK (FLASH_ADDR_BASE + a)) (FLASH_PAGE (FLASH_ADDR_BASE + a)) = a - a mod 2048.
Proof.
  intros [H1 H2]. rewrite bank_eq, page_eq. unfold page_base.
  unfold FLASH_PART_BYTES, FLASH_PAGE_BYTES, FLASH_BANK_PAGES, FLASH_PART_BANKS in *. div_lia.
Qed.

Lemma flash_bad_false a n : in_part a n → flash_bad (FLASH_ADDR_BASE + a) n = false.
Proof.
  intros Hp. unfold flash_bad. rewrite (flash_ptr a n Hp). destruct Hp as [H1 H2].
  unfold FLASH_ADDR_MAX, FLASH_PART_BYTES, FLASH_PAGE_BYTES, FLASH_BANK_PAGES, FLASH_PART_BANKS in *.
  rewrite !orb_false_iff, Z.ltb_ge, Z.leb_gt, Z.ltb_ge. lia.
Qed.

(** One turn of the read loop gets the bytes up to the end of the page. *)
Lemma flash_read_loop_ok fuel a left st : coherent st → in_part a left → (left ≤ fuel)%nat →
  ∃ st', flash_read_loop fuel (FLASH_ADDR_BASE + a) left st = Some (mem_bytes (chip st) a left, st') ∧
  coherent st' ∧ chip st' = chip st ∧ first_unused st' = first_unused st.
Proof.
  revert a left st. induction fuel as [|fuel IH]; intros a left st Hc Hp Hf.
  { destruct left; [|lia]. by exists st. }
  destruct left as [|left0]; [by exists st|]. cbn [flash_read_loop]. set (left := S left0) in *.
  destruct (flash_page_of a left Hp) as (Hb & Hpg & Hbase). rewrite flash_read_page_eq by done. rewrite Hbase, offset_eq.
  destruct (flash_chunk_ok a left ltac:(apply Hp) ltac:(lia)) as [Hn Hn2].
  set (n := flash_chunk _ left) in *. cbn [flash_scratch_page].
  rewrite flash_ptr by (unfold in_part in *; lia).
  match goal with |- context [flash_read_loop fuel _ _ ?s] => set (st1 := s) end.
  destruct (IH (a + Z.of_nat n) (left - n)%nat st1) as (st' & E & Hc' & Hch & Hfu).
  { right. cbn. rewrite Hbase. done. }
  { unfold in_part in *. lia. }
  { lia. }
  rewrite E. cbn [mbind option_bind]. exists st'. split; [|done]. f_equal. f_equal.
  rewrite mem_bytes_sub by done. cbn [chip st1].
  replace (a - a mod 2048 + Z.of_nat (Z.to_nat (a mod 2048))) with a by div_lia.
  by rewrite <- mem_bytes_app, Nat.add_sub_assoc, Nat.add_comm, Nat.add_sub by lia.
Qed.

Lemma flash_readmem_ok a sz st : coherent st → in_part a sz →
  ∃ st', flash_readmem (FLASH_ADDR_BASE + a) sz st = Some (MSEL_OK, mem_bytes (chip st) a sz, st') ∧
  coherent st' ∧ chip st' = chip st ∧ first_unused st' = first_unused st.
Proof.
  intros Hc Hp. unfold flash_readmem. rewrite flash_bad_false by done.
  destruct (flash_read_loop_ok sz a sz st Hc Hp ltac:(lia)) as (st' & E & H). rewrite E. by exists st'.
Qed.

(** Erased bytes. *)
Definition blank (m : mem) (a : Z) (n : nat) : Prop := ∀ i, (i < n)%nat → ldb m (a + Z.of_nat i) = 255.

(** [st'] is [st] with [data] in the part at [a]. *)
Definition written (a : Z) (data : list Z) (st st' : nvm) : Prop :=
  coherent st' ∧ first_unused st' = first_unused st ∧ mem_bytes (chip st') a (length data) = data ∧
  ∀ b, b < a ∨ a + Z.of_nat (length data) <= b → ldb (chip st') b = ldb (chip st) b.

(** Programming a page with some of its bytes replaced. *)
Lemma flash_flush_ok b p off data m fu : 0 <= b < 1024 → 0 <= p < 64 → bytes_ok data →
  (off + length data ≤ 2048)%nat → blank m (page_base b p + Z.of_nat off) (length data) →
  written (page_base b p + Z.of_nat off) data (Nvm m [] (-1) (-1) fu)
    (flash_flush_page b p (Nvm m (patch (mem_bytes m (page_base b p) 2048) off data) b p fu)).
Proof.
  intros Hb Hp Hd Hlen Hblank. unfold flash_flush_page, set_chip. cbn [flash_scratch_page chip flash_current_bank
    flash_current_page first_unused]. rewrite FLASH_PAGE_ADDR_eq by done. fold (page_base b p).
  set (base := page_base b p) in *. set (l := patch _ off data).
  assert (length l = 2048%nat) as Hl by (unfold l; rewrite patch_length; by rewrite mem_bytes_length).
  assert (∀ i, (i < 2048)%nat → get l i = if decide (off ≤ i < off + length data)%nat then get data (i - off)
    else ldb m (base + Z.of_nat i)) as Hget.
  { intros i Hi. unfold l. rewrite get_patch by (rewrite mem_bytes_length; lia). case_decide; [done|]. by apply get_mem_bytes. }
  assert (bytes_ok l) as Hlok.
  { unfold l, patch. pose proof (mem_bytes_bytes_ok m base 2048). apply bytes_ok_app. split; [by apply Forall_take|].
    apply bytes_ok_app. split; [done|by apply Forall_drop]. }
  destruct (program_page_ok base l m Hl Hlok) as [H1 H2].
  { intros i Hi. rewrite (Hget i Hi). case_decide; [|by right]. left.
    specialize (Hblank (i - off)%nat ltac:(lia)). by replace (base + Z.of_nat off + Z.of_nat (i - off)) with (base + Z.of_nat i) in Hblank by lia. }
  split; [|split; [done|split]]; cbn [chip].
  - right. cbn. split; [done|]. split; [done|]. symmetry. by apply mem_bytes_eq.
  - apply mem_bytes_eq; [done|]. intros i Hi. replace (base + Z.of_nat off + Z.of_nat i) with (base + Z.of_nat (off + i)) by lia.
    rewrite H1, Hget by lia. rewrite decide_True by lia. f_equal. lia.
  - intros a Ha. destruct (decide (base <= a < base + 2048)) as [Hin|]; [|apply H2; lia].
    replace a with (base + Z.of_nat (Z.to_nat (a - base))) by lia. rewrite H1, Hget by lia. by rewrite decide_False by lia.
Qed.

Lemma flash_write_loop_ok fuel a data st : coherent st → in_part a (length data) → bytes_ok data →
  (length data ≤ fuel)%nat → blank (chip st) a (length data) →
  ∃ st', flash_write_loop fuel (FLASH_ADDR_BASE + a) data st = Some st' ∧ written a data st st'.
Proof.
  revert a data st. induction fuel as [|fuel IH]; intros a data st Hc Hp Hok Hf Hbl.
  { destruct data; [|cbn in Hf; lia]. exists st. split; [done|]. by split. }
  destruct data as [|x data0]; [exists st; split; [done|]; by split|]. set (data := x :: data0) in *.
  change (flash_write_loop (S fuel) ?p data st) with
    (let bank := FLASH_BANK p in let page := FLASH_PAGE p in let st := flash_read_page bank page st in
     let n := flash_chunk p (length data) in
     let st := set_cache (patch (flash_scratch_page st) (Z.to_nat (FLASH_OFFSET p)) (take n data))
                 (flash_current_bank st) (flash_current_page st) st in
     flash_write_loop fuel (u32 (p + Z.of_nat n)) (drop n data) (flash_flush_page bank page st)). cbv zeta.
  destruct (flash_page_of a (length data) Hp) as (Hb & Hpg & Hbase). rewrite flash_read_page_eq by done. rewrite offset_eq.
  destruct (flash_chunk_ok a (length data) ltac:(apply Hp) ltac:(cbn; lia)) as [Hn Hn2].
  set (n := flash_chunk _ _) in *. set (b := FLASH_BANK _) in *. set (p := FLASH_PAGE _) in *.
  unfold set_cache. cbn [flash_scratch_page chip flash_current_bank flash_current_page first_unused].
  rewrite flash_ptr by (unfold in_part in *; lia). assert (length (take n data) = n) as Hlt by (rewrite length_take; lia).
  assert (page_base b p + Z.of_nat (Z.to_nat (a mod 2048)) = a) as Ha by div_lia.
  destruct (flash_flush_ok b p (Z.to_nat (a mod 2048)) (take n data) (chip st) (first_unused st) Hb Hpg) as (W1 & W2 & W3 & W4);
    [by apply Forall_take|lia|rewrite Ha, Hlt; intros i Hi; apply Hbl; lia|]. rewrite Ha, Hlt in W3, W4.
  cbn [first_unused chip] in W2, W4.
  set (st1 := flash_flush_page _ _ _) in *.
  destruct (IH (a + Z.of_nat n) (drop n data) st1) as (st' & E & V1 & V2 & V3 & V4).
  { done. } { unfold in_part in *. rewrite length_drop. lia. } { by apply Forall_drop. } { rewrite length_drop. lia. }
  { intros i Hi. rewrite length_drop in Hi. rewrite W4 by lia. replace (a + Z.of_nat n + Z.of_nat i) with (a + Z.of_nat (n + i)) by lia.
    apply Hbl. lia. }
  exists st'. split; [exact E|]. rewrite length_drop in V3, V4. split; [done|]. split; [congruence|]. split.
  - replace (length data) with (n + (length data - n))%nat by lia. rewrite mem_bytes_app, V3.
    rewrite (mem_bytes_ext _ (chip st1)), W3 by (intros i Hi; apply V4; lia). apply take_drop.
  - intros c Hcc. rewrite V4 by lia. apply W4. lia.
Qed.

Lemma flash_writemem_ok a data st : coherent st → in_part a (length data) → bytes_ok data →
  blank (chip st) a (length data) →
  ∃ st', flash_writemem (FLASH_ADDR_BASE + a) data st = Some (MSEL_OK, st') ∧ written a data st st'.
Proof.
  intros Hc Hp Hok Hbl. unfold flash_writemem. rewrite flash_bad_false by done.
  destruct (flash_write_loop_ok (length data) a data st Hc Hp Hok ltac:(lia) Hbl) as (st' & E & H). rewrite E. by exists st'.
Qed.

(** ** The counter's log *)

Definition mtc_bank : Z := MTC_BANK_NUM * 131072.

(** Where entry [s] is kept: the loops use 32 entries of each page. *)
Definition slot (s : nat) : Z := mtc_bank + Z.of_nat s / 32 * 2048 + 8 * (Z.of_nat s mod 32).

Lemma slot_lt s s' : (s < s')%nat → slot s + 8 <= slot s'.
Proof. intros H. unfold slot. div_lia. Qed.

Lemma slot_bank s : (s < 2048)%nat → mtc_bank <= slot s ∧ slot s + 8 <= mtc_bank + 131072 - 1792.
Proof. intros H. unfold slot. div_lia. Qed.

Lemma slot_addr p j : (p < 64)%nat → (j < 32)%nat →
  FLASH_ADDR MTC_BANK_NUM (Z.of_nat p) (8 * Z.of_nat j) = FLASH_ADDR_BASE + slot (p * 32 + j).
Proof. intros Hp Hj. rewrite FLASH_ADDR_eq by (unfold MTC_BANK_NUM; lia). unfold slot, mtc_bank. div_lia. Qed.

Lemma slot_pos s : (s < 2048)%nat → FLASH_PAGE (FLASH_ADDR_BASE + slot s) = Z.of_nat (s / 32) ∧
  FLASH_OFFSET (FLASH_ADDR_BASE + slot s) = 8 * Z.of_nat (s mod 32).
Proof.
  intros H. rewrite page_eq, offset_eq, Nat2Z.inj_div, Nat2Z.inj_mod. unfold slot, mtc_bank, MTC_BANK_NUM. div_lia.
Qed.

Lemma in_bank_part a n : mtc_bank <= a → a + Z.of_nat n <= mtc_bank + 131072 → in_part a n.
Proof.
  unfold in_part, mtc_bank, MTC_BANK_NUM, FLASH_PART_BYTES, FLASH_PAGE_BYTES, FLASH_BANK_PAGES, FLASH_PART_BANKS. lia.
Qed.

(** The bank holds the values [l] in order and is erased otherwise. *)
Record mtc_log (st : nvm) (l : list Z) : Prop := {
  ml_coherent : coherent st;
  ml_len : (length l ≤ 2048)%nat;
  ml_vals : Forall (λ v, 0 <= v < MTC_ENTRY_UNUSED) l;
  ml_entries : ∀ s v, l !! s = Some v → mem_bytes (chip st) (slot s) 8 = rev (le_bytes 8 v);
  ml_blank : ∀ a, mtc_bank <= a < mtc_bank + 131072 → (∀ s, (s < length l)%nat → a < slot s ∨ slot s + 8 <= a) →
    ldb (chip st) a = 255;
  ml_first : first_unused st = 0 ∨
    ∃ s, (s ≤ length l)%nat ∧ (s < 2048)%nat ∧ first_unused st = FLASH_ADDR_BASE + slot s }.

(** Reading changes the buffer only. *)
Definition quiet (st st' : nvm) : Prop :=
  coherent st' ∧ chip st' = chip st ∧ first_unused st' = first_unused st.

Lemma mtc_log_quiet st st' l : mtc_log st l → quiet st st' → mtc_log st' l.
Proof. intros [A B C D E F] (H1 & H2 & H3). split; rewrite ?H2, ?H3; done. Qed.

Lemma quiet_trans st1 st2 st3 : quiet st1 st2 → quiet st2 st3 → quiet st1 st3.
Proof. intros (A & B & C) (D & E & F). split; [done|]. split; congruence. Qed.

Lemma mtc_load_ok a st : coherent st → in_part a 8 →
  ∃ st', mtc_load (FLASH_ADDR_BASE + a) st = Some (be_val (mem_bytes (chip st) a 8), st') ∧ quiet st st'.
Proof.
  intros Hc Hp. unfold mtc_load. destruct (flash_readmem_ok a 8 st Hc Hp) as (st' & E & H).
  change sizeof_mtc with 8%nat. rewrite E. by exists st'.
Qed.

Lemma blank_unused m a : blank m a 8 → be_val (mem_bytes m a 8) = MTC_ENTRY_UNUSED.
Proof.
  intros H. rewrite (mem_bytes_eq m a 8 (replicate 8 255)); [done|done|]. intros i Hi. rewrite (H i Hi).
  symmetry. apply get_lookup. by rewrite lookup_replicate_2.
Qed.

Lemma be_val_word v : 0 <= v < 2 ^ 64 → be_val (rev (le_bytes 8 v)) = v.
Proof. intros Hv. unfold be_val. rewrite rev_involutive. by apply le_val_bytes. Qed.

Lemma mtc_load_used st l s v : mtc_log st l → l !! s = Some v →
  ∃ st', mtc_load (FLASH_ADDR_BASE + slot s) st = Some (v, st') ∧ quiet st st'.
Proof.
  intros Hl Hs. pose proof (lookup_lt_Some _ _ _ Hs) as Hlt. pose proof (ml_len _ _ Hl). destruct (slot_bank s ltac:(lia)) as [Hb1 Hb2].
  destruct (mtc_load_ok (slot s) st (ml_coherent _ _ Hl)) as (st' & E & Hq); [apply in_bank_part; lia|].
  exists st'. split; [|done]. rewrite E, (ml_entries _ _ Hl s v Hs). pose proof (Forall_lookup_1 _ _ _ _ (ml_vals _ _ Hl) Hs) as Hv.
  cbn in Hv. rewrite be_val_word; [done|]. unfold MTC_ENTRY_UNUSED in Hv. lia.
Qed.

Lemma mtc_load_blank st l a : mtc_log st l → mtc_bank <= a → a + 8 <= mtc_bank + 131072 →
  (∀ s, (s < length l)%nat → a + 8 <= slot s ∨ slot s + 8 <= a) →
  ∃ st', mtc_load (FLASH_ADDR_BASE + a) st = Some (MTC_ENTRY_UNUSED, st') ∧ quiet st st'.
Proof.
  intros Hl Ha Ha' Hfree. destruct (mtc_load_ok a st (ml_coherent _ _ Hl)) as (st' & E & H); [apply in_bank_part; lia|].
  exists st'. split; [|done]. rewrite E, blank_unused; [done|]. intros i Hi. apply (ml_blank _ _ Hl); [lia|].
  intros s Hs. specialize (Hfree s Hs). lia.
Qed.

(** ** Finding the first unused entry *)

Lemma scan_page_ok n p j st l : mtc_log st l → (p < 64)%nat → (j ≤ 32)%nat → (32 - j ≤ n)%nat → (p * 32 + j ≤ length l)%nat →
  ∃ st', scan_page n (Z.of_nat p) (8 * Z.of_nat j) st =
    Some (if (length l <? p * 32 + 32)%nat then Some (FLASH_ADDR_BASE + slot (length l)) else None, st') ∧ quiet st st'.
Proof.
  intros Hl Hp. revert n st Hl. induction (32 - j)%nat as [|d IH] eqn:Hd in j |- *; intros n st Hl Hj Hn Hlen.
  - assert (j = 32%nat) as -> by lia. exists st. destruct n; cbn [scan_page]; rewrite (proj2 (Z.ltb_ge _ _)) by done;
      (rewrite (proj2 (Nat.ltb_ge _ _)) by lia; split; [done|]; split; [apply Hl|done]).
  - destruct n as [|n]; [lia|]. cbn [scan_page]. change (FLASH_PAGE_BYTES / Z.of_nat sizeof_mtc) with 256.
    rewrite (proj2 (Z.ltb_lt _ _)) by lia. rewrite slot_addr by lia. change (Z.of_nat sizeof_mtc) with 8.
    destruct (decide (length l = p * 32 + j)%nat) as [He|Hne].
    + destruct (mtc_load_blank st l (slot (p * 32 + j)) Hl) as (st' & E & Hq);
        [apply slot_bank; lia|destruct (slot_bank (p * 32 + j)); lia|intros s Hs; right; apply slot_lt; lia|].
      rewrite E. cbn [mbind option_bind]. exists st'. rewrite Z.eqb_refl, (proj2 (Nat.ltb_lt _ _)), He by lia. done.
    + destruct (lookup_lt_is_Some_2 l (p * 32 + j) ltac:(lia)) as [v Hv].
      destruct (mtc_load_used st l _ v Hl Hv) as (st1 & E & Hq). rewrite E. cbn [mbind option_bind].
      pose proof (Forall_lookup_1 _ _ _ _ (ml_vals _ _ Hl) Hv) as Hr. cbn in Hr. rewrite (proj2 (Z.eqb_neq _ _)) by lia.
      replace (8 * Z.of_nat j + 8) with (8 * Z.of_nat (S j)) by lia.
      destruct (IH (S j) ltac:(lia) n st1 (mtc_log_quiet _ _ _ Hl Hq)) as (st' & E' & Hq'); [lia|lia|lia|].
      exists st'. split; [exact E'|by eapply quiet_trans].
Qed.

Lemma scan_bank_ok n p j st l : mtc_log st l → (p ≤ 64)%nat → (j ≤ 32)%nat → (64 - p ≤ n)%nat → (p * 32 + j ≤ length l)%nat →
  ∃ st', scan_bank n (Z.of_nat p) (8 * Z.of_nat j) st =
    Some (if (length l <? 2048)%nat then Some (FLASH_ADDR_BASE + slot (length l)) else None, st') ∧ quiet st st'.
Proof.
  revert p j st. induction n as [|n IH]; intros p j st Hl Hp Hj Hn Hlen; cbn [scan_bank].
  - assert (p = 64%nat) as -> by lia. exists st. rewrite (proj2 (Z.ltb_ge _ _)), (proj2 (Nat.ltb_ge _ _)) by (done || lia).
    split; [done|]. split; [apply Hl|done].
  - unfold FLASH_BANK_PAGES. destruct (Z.ltb_spec (Z.of_nat p) 64).
    + destruct (scan_page_ok 32 p j st l Hl) as (st1 & E & Hq); [lia|lia|lia|lia|]. rewrite E. cbn [mbind option_bind].
      destruct (Nat.ltb_spec (length l) (p * 32 + 32)).
      * exists st1. by rewrite (proj2 (Nat.ltb_lt _ _)) by lia.
      * replace (Z.of_nat p + 1) with (Z.of_nat (S p)) by lia.
        destruct (IH (S p) 0%nat st1 (mtc_log_quiet _ _ _ Hl Hq)) as (st' & E' & Hq'); [lia|lia|lia|lia|].
        exists st'. split; [exact E'|by eapply quiet_trans].
    + exists st. rewrite (proj2 (Nat.ltb_ge _ _)) by lia. split; [done|]. split; [apply Hl|done].
Qed.

(** The entry written next. *)
Definition next_slot (l : list Z) : nat := if (length l <? 2048)%nat then length l else 0%nat.

Lemma next_slot_lt l : (next_slot l < 2048)%nat.
Proof. unfold next_slot. destruct (Nat.ltb_spec (length l) 2048); lia. Qed.

Lemma start_addr : MTC_START_ADDR = FLASH_ADDR_BASE + slot 0.
Proof. exact (slot_addr 0 0 ltac:(lia) ltac:(lia)). Qed.

Lemma find_ok st l : mtc_log st l → ∃ st', mtc_find_first_unused st = Some (FLASH_ADDR_BASE + slot (next_slot l), st') ∧
  mtc_log st' l ∧ chip st' = chip st ∧ first_unused st' = FLASH_ADDR_BASE + slot (next_slot l).
Proof.
  intros Hl. unfold mtc_find_first_unused. pose proof (ml_len _ _ Hl) as Hlen.
  assert (∃ s, (s ≤ length l)%nat ∧ (s < 2048)%nat ∧
    (if first_unused st =? 0 then MTC_START_ADDR else first_unused st) = FLASH_ADDR_BASE + slot s) as (s & Hs & Hs2 & ->).
  { destruct (ml_first _ _ Hl) as [->|(s & Hs & Hs2 & Hf)].
    - exists 0%nat. split; [lia|]. split; [lia|]. apply start_addr.
    - exists s. split; [done|]. split; [done|]. rewrite Hf. destruct (slot_bank s Hs2).
      rewrite (proj2 (Z.eqb_neq _ _)); [done|]. unfold FLASH_ADDR_BASE, mtc_bank, MTC_BANK_NUM in *. lia. }
  destruct (slot_pos s Hs2) as [-> ->]. pose proof (Nat.div_mod_eq s 32). pose proof (Nat.mod_upper_bound s 32 ltac:(lia)).
  destruct (scan_bank_ok 64 (s / 32) (s mod 32) st l Hl) as (st1 & E & Hq);
    [apply Nat.Div0.div_le_upper_bound; lia|lia|lia|lia|]. rewrite E. cbn [mbind option_bind].
  assert (default MTC_START_ADDR (if (length l <? 2048)%nat then Some (FLASH_ADDR_BASE + slot (length l)) else None)
    = FLASH_ADDR_BASE + slot (next_slot l)) as ->.
  { unfold next_slot. destruct (length l <? 2048)%nat; [done|apply start_addr]. }
  eexists. split; [done|]. pose proof (mtc_log_quiet _ _ _ Hl Hq) as [A B C D F G]. split; [|split; [apply Hq|done]].
  split; try done. right. exists (next_slot l). split; [|split; [apply next_slot_lt|done]]. unfold next_slot. destruct (length l <? 2048)%nat; lia.
Qed.

(** ** Appending *)

Lemma mtc_append st l v : mtc_log st l → (length l < 2048)%nat → 0 <= v < MTC_ENTRY_UNUSED →
  ∃ st', flash_writemem (FLASH_ADDR_BASE + slot (length l)) (rev (le_bytes 8 v)) st = Some (MSEL_OK, st') ∧
  mtc_log st' (l ++ [v]) ∧ ∀ a, a < mtc_bank ∨ mtc_bank + 131072 <= a → ldb (chip st') a = ldb (chip st) a.
Proof.
  intros Hl Hlt Hv. destruct (slot_bank (length l) Hlt) as [Hb1 Hb2].
  assert (length (rev (le_bytes 8 v)) = 8%nat) as Hlen by (by rewrite length_rev, le_bytes_length).
  destruct (flash_writemem_ok (slot (length l)) (rev (le_bytes 8 v)) st (ml_coherent _ _ Hl)) as (st' & E & W1 & W2 & W3 & W4).
  { rewrite Hlen. apply in_bank_part; lia. }
  { apply Forall_rev, le_bytes_ok. }
  { rewrite Hlen. intros i Hi. apply (ml_blank _ _ Hl); [lia|]. intros s Hs. pose proof (slot_lt s (length l) Hs). lia. }
  rewrite Hlen in W3, W4. exists st'. split; [exact E|]. split; [split|].
  - done.
  - rewrite length_app. cbn. lia.
  - apply Forall_app. split; [apply Hl|by constructor].
  - intros s u Hs. apply lookup_app_Some in Hs as [Hs|[Hs1 Hs2]].
    + pose proof (lookup_lt_Some _ _ _ Hs) as Hlts. rewrite <- (ml_entries _ _ Hl s u Hs). apply mem_bytes_ext.
      intros i Hi. apply W4. pose proof (slot_lt s (length l) Hlts). lia.
    + apply list_lookup_singleton_Some in Hs2 as [Hs2 <-]. replace s with (length l) by lia. done.
  - intros a Ha Hfree. rewrite length_app in Hfree. cbn in Hfree. pose proof (Hfree (length l) ltac:(lia)) as H0. rewrite W4 by lia.
    apply (ml_blank _ _ Hl); [done|]. intros s Hs. apply Hfree. lia.
  - rewrite W2. destruct (ml_first _ _ Hl) as [H0|(s & H1 & H2 & H3)]; [by left|]. right. exists s.
    split; [rewrite length_app; lia|done].
  - intros a Ha. apply W4. lia.
Qed.

(** ** A part that works *)

Context (Hready : ∀ m, is_busy m = false) (Herase : ∀ m b, erase_fails m b = false).

Lemma erase_ok b st : 0 <= b < 1024 → flash_erase_bank b st =
  (MSEL_OK, Nvm (erase (chip st) b) (flash_scratch_page st) (-1) (-1) (first_unused st)).
Proof.
  intros Hb. unfold flash_erase_bank, FLASH_PART_BANKS. rewrite (proj2 (Z.ltb_ge _ _)) by lia. by rewrite Hready, Herase.
Qed.

Lemma mtc_erased st l : mtc_log st l → first_unused st = FLASH_ADDR_BASE + slot 0 →
  ∃ st', flash_erase_bank MTC_BANK_NUM st = (MSEL_OK, st') ∧ mtc_log st' [] ∧
  ∀ a, a < mtc_bank ∨ mtc_bank + 131072 <= a → ldb (chip st') a = ldb (chip st) a.
Proof.
  intros Hl Hf. eexists. split; [by apply erase_ok|]. split; [split|].
  - by left.
  - cbn. lia.
  - constructor.
  - done.
  - intros a Ha _. cbn [chip]. apply erase_bank; [apply Herase|done|exact Ha].
  - right. exists 0%nat. cbn. split; [lia|]. split; [lia|done].
  - intros a Ha. cbn [chip]. apply erase_other; [done|exact Ha].
Qed.

(** The value stored next: the entry in front of the first one of a page is never
    used and reads as erased. *)
Definition mtc_next (forced_next : Z) (l : list Z) : Z :=
  let lastmtc := if (length l mod 32 =? 0)%nat then MTC_ENTRY_UNUSED else default 0 (last l) in
  let v := if negb (forced_next =? 0) && negb (forced_next =? MTC_ENTRY_UNUSED) then forced_next else u64 (lastmtc + 1) in
  if v =? MTC_ENTRY_UNUSED then 0 else v.

Definition mtc_push (l : list Z) (v : Z) : list Z := if (length l <? 2048)%nat then l ++ [v] else [v].

Lemma mtc_next_range f l : 0 <= f < 2 ^ 64 → 0 <= mtc_next f l < MTC_ENTRY_UNUSED.
Proof.
  intros Hf. unfold mtc_next, MTC_ENTRY_UNUSED. set (v := if _ && _ then f else u64 _).
  assert (0 <= v < 2 ^ 64) by (unfold v; destruct (_ && _); [done|apply u64_range]).
  destruct (Z.eqb_spec v (2 ^ 64 - 1)); lia.
Qed.

(** The last value, as [mtc_increment_store] finds it. *)
Lemma mtc_last_ok st l : mtc_log st l → ∃ st',
  mtc_load (let lastptr := FLASH_ADDR_BASE + slot (next_slot l) - 8 in
    if lastptr <? MTC_START_ADDR then FLASH_ADDR MTC_BANK_NUM FLASH_BANK_PAGES (FLASH_PAGE_BYTES - 8) else lastptr) st =
  Some (if (length l mod 32 =? 0)%nat then MTC_ENTRY_UNUSED else default 0 (last l), st') ∧ quiet st st'.
Proof.
  intros Hl. pose proof (ml_len _ _ Hl) as Hlen. rewrite start_addr. cbv zeta.
  destruct (Nat.eqb_spec (length l mod 32) 0) as [Hm|Hm].
  - (* the end of a page *)
    assert (∃ a, (if FLASH_ADDR_BASE + slot (next_slot l) - 8 <? FLASH_ADDR_BASE + slot 0
      then FLASH_ADDR MTC_BANK_NUM FLASH_BANK_PAGES (FLASH_PAGE_BYTES - 8) else FLASH_ADDR_BASE + slot (next_slot l) - 8)
      = FLASH_ADDR_BASE + a ∧ mtc_bank <= a ∧ a + 8 <= mtc_bank + 131072 ∧ a mod 2048 = 2040) as (a & -> & Ha & Ha' & Hmod).
    { destruct (Z.ltb_spec (FLASH_ADDR_BASE + slot (next_slot l) - 8) (FLASH_ADDR_BASE + slot 0)) as [Hlt|Hge].
      - rewrite FLASH_ADDR_eq by done. eexists. split; [done|]. done.
      - exists (slot (next_slot l) - 8). split; [lia|]. pose proof (next_slot_lt l) as Hn. destruct (slot_bank _ Hn).
        assert (Z.of_nat (next_slot l) mod 32 = 0) as Hz.
        { unfold next_slot. destruct (_ <? _)%nat; [|done]. change 32 with (Z.of_nat 32). rewrite <- Nat2Z.inj_mod, Hm. done. }
        unfold slot in *. rewrite Hz in *. change (Z.of_nat 0 / 32) with 0 in *. change (Z.of_nat 0 mod 32) with 0 in *.
        unfold mtc_bank, MTC_BANK_NUM in *. div_lia. }
    apply (mtc_load_blank st l a Hl Ha Ha'). intros s _. unfold slot. unfold mtc_bank, MTC_BANK_NUM in *. div_lia.
  - (* inside a page *)
    assert (length l < 2048)%nat as Hlt by (destruct (decide (length l = 2048%nat)) as [E|]; [by rewrite E in Hm|lia]).
    unfold next_slot. rewrite (proj2 (Nat.ltb_lt _ _)) by done.
    assert (slot (length l) - 8 = slot (length l - 1)) as Hs.
    { unfold slot. assert (Z.of_nat (length l) mod 32 ≠ 0) by (change 32 with (Z.of_nat 32); rewrite <- Nat2Z.inj_mod; lia).
      assert (0 < length l)%nat by (destruct (length l); [done|lia]). rewrite Nat2Z.inj_sub by lia. div_lia. }
    assert (slot 0 <= slot (length l - 1)) as Hs0 by (destruct (length l - 1)%nat; [done|]; pose proof (slot_lt 0 (S n)); lia).
    rewrite (proj2 (Z.ltb_ge _ _)) by lia. replace (FLASH_ADDR_BASE + slot (length l) - 8) with (FLASH_ADDR_BASE + slot (length l - 1)) by lia.
    destruct (last l) as [v|] eqn:E; [|apply last_None in E; by subst l].
    apply (mtc_load_used st l (length l - 1) v Hl). rewrite last_lookup in E. by replace (pred (length l)) with (length l - 1)%nat in E by lia.
Qed.

Lemma mtc_store_ok f st l : mtc_log st l → 0 <= f < 2 ^ 64 →
  ∃ st', mtc_increment_store f st = Some (MSEL_OK, mtc_next f l, st') ∧ mtc_log st' (mtc_push l (mtc_next f l)) ∧
  ∀ a, a < mtc_bank ∨ mtc_bank + 131072 <= a → ldb (chip st') a = ldb (chip st) a.
Proof.
  intros Hl Hf. unfold mtc_increment_store. destruct (find_ok st l Hl) as (st1 & E1 & Hl1 & Hc1 & Hf1).
  rewrite E1. cbn [mbind option_bind]. change (Z.of_nat sizeof_mtc) with 8.
  destruct (mtc_last_ok st1 l Hl1) as (st2 & E2 & Hq). cbv zeta in E2. rewrite E2. cbn [mbind option_bind].
  pose proof (mtc_log_quiet _ _ _ Hl1 Hq) as Hl2. destruct Hq as (_ & Hc2 & Hf2).
  fold (mtc_next f l). pose proof (mtc_next_range f l Hf) as Hr. set (v := mtc_next f l) in *.
  assert (∃ st3, (if FLASH_ADDR_BASE + slot (next_slot l) =? MTC_START_ADDR then flash_erase_bank MTC_BANK_NUM st2 else (MSEL_OK, st2))
    = (MSEL_OK, st3) ∧ mtc_log st3 (if (next_slot l =? 0)%nat then [] else l) ∧
    ∀ a, a < mtc_bank ∨ mtc_bank + 131072 <= a → ldb (chip st3) a = ldb (chip st2) a) as (st3 & E3 & Hl3 & Hout3).
  { rewrite start_addr. destruct (Nat.eqb_spec (next_slot l) 0) as [H0|H0].
    - rewrite H0, Z.eqb_refl. apply (mtc_erased st2 l Hl2). by rewrite Hf2, Hf1, H0.
    - pose proof (slot_lt 0 (next_slot l) ltac:(lia)). rewrite (proj2 (Z.eqb_neq _ _)) by lia. by exists st2. }
  rewrite E3. cbn [bool_decide negb].
  assert (next_slot l = length (if (next_slot l =? 0)%nat then [] else l) ∧
    (if (next_slot l =? 0)%nat then [] else l) ++ [v] = mtc_push l v) as [Hn Hp].
  { unfold mtc_push, next_slot. pose proof (ml_len _ _ Hl). destruct (Nat.ltb_spec (length l) 2048) as [Hlt|Hge]; cbn [Nat.eqb].
    - destruct l as [|x l]; [done|]. by cbn.
    - done. }
  destruct (mtc_append st3 _ v Hl3) as (st4 & E4 & Hl4 & Hout4); [rewrite <- Hn; apply next_slot_lt|done|].
  rewrite <- Hn in E4. change sizeof_mtc with 8%nat. rewrite E4. cbn [mbind option_bind]. exists st4. split; [done|].
  rewrite Hp in Hl4. split; [done|]. intros a Ha. by rewrite Hout4, Hout3, Hc2, Hc1.
Qed.

(** ** Main theorems *)

(** C36: what [flash_writemem] stores in an erased range, [flash_readmem] reads
    back, for any position and length inside the part and across page borders;
    the rest of the part keeps its contents. *)
Theorem flash_roundtrip a data st : coherent st → in_part a (length data) → bytes_ok data → blank (chip st) a (length data) →
  ∃ st1 st2, flash_writemem (FLASH_ADDR_BASE + a) data st = Some (MSEL_OK, st1) ∧
  flash_readmem (FLASH_ADDR_BASE + a) (length data) st1 = Some (MSEL_OK, data, st2) ∧ coherent st2 ∧
  ∀ b, b < a ∨ a + Z.of_nat (length data) <= b → ldb (chip st2) b = ldb (chip st) b.
Proof.
  intros Hc Hp Hok Hbl. destruct (flash_writemem_ok a data st Hc Hp Hok Hbl) as (st1 & E1 & W1 & W2 & W3 & W4).
  destruct (flash_readmem_ok a (length data) st1 W1 Hp) as (st2 & E2 & H1 & H2 & H3). rewrite W3 in E2.
  exists st1, st2. split; [done|]. split; [done|]. split; [done|]. intros b Hb. rewrite H2. by apply W4.
Qed.

Lemma mtc_read_ok val st l : val ≠ 0 → mtc_log st l →
  ∃ st', arch_mtc_read_increment val st = Some (MSEL_OK, Some (mtc_next 0 l), st') ∧ mtc_log st' (mtc_push l (mtc_next 0 l)).
Proof.
  intros Hv Hl. unfold arch_mtc_read_increment. rewrite (proj2 (Z.eqb_neq _ _)) by done.
  destruct (mtc_store_ok 0 st l Hl ltac:(lia)) as (st' & E & Hl' & _). rewrite E. by exists st'.
Qed.

Fixpoint mtc_reads (n : nat) (val : Z) (st : nvm) : option (list (msel_status * option Z) * nvm) :=
  match n with
  | O => Some ([], st)
  | S n =>
      '(ret, v, st) ← arch_mtc_read_increment val st;
      '(rest, st) ← mtc_reads n val st; Some ((ret, v) :: rest, st)
  end.

(** The log after counting from an erased bank. *)
Definition count_log (n : nat) : list Z := (λ i, Z.of_nat (i mod 32)) <$> seq 0 n.

Lemma count_log_next n : mtc_next 0 (count_log n) = Z.of_nat (n mod 32).
Proof.
  unfold mtc_next, count_log. rewrite length_fmap, length_seq. cbn [negb Z.eqb andb].
  assert (n mod 32 < 32)%nat as Hb by (apply Nat.mod_upper_bound; lia).
  destruct (Nat.eqb_spec (n mod 32) 0) as [->|Hne]; [done|].
  assert (default 0 (last ((λ i, Z.of_nat (i mod 32)) <$> seq 0 n)) = Z.of_nat ((n - 1) mod 32)) as ->.
  { rewrite last_lookup, length_fmap, length_seq, list_lookup_fmap, lookup_seq_lt by (destruct n; [done|lia]).
    cbn. by replace (pred n) with (n - 1)%nat by lia. }
  assert ((n - 1) mod 32 = n mod 32 - 1)%nat as ->.
  { pose proof (Nat.div_mod_eq n 32). symmetry. apply (Nat.mod_unique _ _ (n / 32)); lia. }
  rewrite u64_id by (unfold is_u64; lia). rewrite (proj2 (Z.eqb_neq _ _)) by (unfold MTC_ENTRY_UNUSED; lia). lia.
Qed.

Lemma count_log_push n : (n ≤ 2048)%nat → ∃ n', mtc_push (count_log n) (Z.of_nat (n mod 32)) = count_log n' ∧
  (n' ≤ 2048)%nat ∧ (n' mod 32 = S n mod 32)%nat.
Proof.
  intros Hn. unfold mtc_push. unfold count_log at 1. rewrite length_fmap, length_seq. destruct (Nat.ltb_spec n 2048).
  - exists (S n). unfold count_log. rewrite seq_S, fmap_app. split; [done|]. split; [lia|done].
  - assert (n = 2048%nat) as -> by lia. exists 1%nat. split; [reflexivity|]. split; [lia|reflexivity].
Qed.

Lemma mtc_counts n k val st : val ≠ 0 → (k ≤ 2048)%nat → mtc_log st (count_log k) →
  ∃ st', mtc_reads n val st = Some ((λ i, (MSEL_OK, Some (Z.of_nat ((k + i) mod 32)))) <$> seq 0 n, st').
Proof.
  intros Hv. revert k st. induction n as [|n IH]; intros k st Hk Hl; [by exists st|]. cbn [mtc_reads].
  destruct (mtc_read_ok val st _ Hv Hl) as (st1 & E1 & Hl1). rewrite count_log_next in E1, Hl1.
  destruct (count_log_push k Hk) as (k' & Ek & Hk' & Hmod). rewrite Ek in Hl1.
  destruct (IH k' st1 Hk' Hl1) as (st2 & E2). rewrite E1. cbn [mbind option_bind]. rewrite E2. cbn [mbind option_bind].
  exists st2. f_equal. f_equal. rewrite <- cons_seq, fmap_cons, Nat.add_0_r. f_equal.
  rewrite <- fmap_S_seq, <- list_fmap_compose. apply list_fmap_ext. intros i x _.
  unfold compose. cbn beta. do 3 f_equal.
  rewrite <- (Nat.Div0.add_mod_idemp_l k'), Hmod, Nat.Div0.add_mod_idemp_l. f_equal. lia.
Qed.

(** C37: the "monotonic" counter counts modulo 32.  From an erased bank every call
    of [arch_mtc_read_increment] succeeds, and call number i returns i mod 32: the
    loops use only the first 256 bytes of each page, and the value in front of the
    first entry of the next page reads as erased. *)
Theorem mtc_repeats n val st : val ≠ 0 → mtc_log st [] →
  ∃ st', mtc_reads n val st = Some ((λ i, (MSEL_OK, Some (Z.of_nat (i mod 32)))) <$> seq 0 n, st').
Proof. intros Hv Hl. exact (mtc_counts n 0 val st Hv ltac:(lia) Hl). Qed.

(** Writing the key keeps the counter's log. *)
Lemma mtc_log_outside st st' l : mtc_log st l → coherent st' → first_unused st' = first_unused st →
  (∀ a, mtc_bank <= a < mtc_bank + 131072 → ldb (chip st') a = ldb (chip st) a) → mtc_log st' l.
Proof.
  intros [A B C D E F] Hc Hf Hch. split; rewrite ?Hf; try done.
  - intros s v Hs. rewrite <- (D s v Hs). pose proof (lookup_lt_Some _ _ _ Hs). apply mem_bytes_ext. intros i Hi.
    destruct (slot_bank s ltac:(lia)). apply Hch. lia.
  - intros a Ha Hfree. rewrite Hch by done. by apply E.
Qed.

Definition mkey_base : Z := MKEY_BANK_NUM * 131072.

Lemma mkey_addr : FLASH_ADDR MKEY_BANK_NUM 0 0 = FLASH_ADDR_BASE + mkey_base.
Proof. rewrite FLASH_ADDR_eq by done. done. Qed.

Lemma mkey_part : in_part mkey_base MASTER_KEY_SIZE.
Proof. done. Qed.

Lemma master_key_write_ok key st l : mtc_log st l → length key = MASTER_KEY_SIZE → bytes_ok key →
  ∃ st', arch_master_key_write key st = Some (MSEL_OK, st') ∧ mtc_log st' l ∧
  mem_bytes (chip st') mkey_base MASTER_KEY_SIZE = key.
Proof.
  intros Hl Hk Hok. unfold arch_master_key_write. rewrite erase_ok by done. rewrite mkey_addr.
  set (st1 := Nvm (erase _ _) _ _ _ _).
  assert (mtc_log st1 l) as Hl1.
  { apply (mtc_log_outside st); [done|by left|done|]. intros a Ha. cbn [chip st1]. apply erase_other; [done|].
    unfold mtc_bank, MTC_BANK_NUM, MKEY_BANK_NUM in *. lia. }
  destruct (flash_writemem_ok mkey_base key st1 (ml_coherent _ _ Hl1)) as (st2 & E & W1 & W2 & W3 & W4).
  { rewrite Hk. apply mkey_part. } { done. }
  { rewrite Hk. intros i Hi. cbn [chip st1]. apply erase_bank; [apply Herase|done|].
    unfold mkey_base, MKEY_BANK_NUM, MASTER_KEY_SIZE in *. lia. }
  exists st2. split; [done|]. split; [|by rewrite <- Hk]. apply (mtc_log_outside st1); [done|done|done|].
  intros a Ha. apply W4. unfold mtc_bank, MTC_BANK_NUM, mkey_base, MKEY_BANK_NUM in *. lia.
Qed.

(** The value behind [s] in the counter's order, when [n] values are in the log. *)
Definition mtc_after (s : Z) (n : nat) : Z := if (n mod 32 =? 0)%nat || (s + 1 =? MTC_ENTRY_UNUSED) then 0 else s + 1.

Lemma mtc_next_push v l : 0 <= v < MTC_ENTRY_UNUSED → mtc_next 0 (mtc_push l v) = mtc_after v (length (mtc_push l v)).
Proof.
  intros Hv. unfold mtc_next, mtc_after. cbn [negb Z.eqb andb].
  destruct (Nat.eqb_spec (length (mtc_push l v) mod 32) 0); [done|]. cbn [orb].
  assert (default 0 (last (mtc_push l v)) = v) as ->.
  { unfold mtc_push. destruct (_ <? _)%nat; [by rewrite last_snoc|done]. }
  rewrite u64_id by (unfold is_u64, MTC_ENTRY_UNUSED in *; lia). done.
Qed.

(** C38: on a part that is ready and erases without failure, provisioning with a
    64-bit counter value and a 256-byte key succeeds and the key reads back.  The
    value is stored in the counter's log, except that 0 and 2^64 - 1 count as no
    value and the log gets its next value instead.  The next read of the counter
    gives the stored value plus one, but 0 when the stored value was the 32nd of its
    page or 2^64 - 2. *)
Theorem provision_spec v key val st l : mtc_log st l → 0 <= v < 2 ^ 64 → length key = MASTER_KEY_SIZE →
  bytes_ok key → val ≠ 0 →
  let stored := if (v =? 0) || (v =? MTC_ENTRY_UNUSED) then mtc_next 0 l else v in
  ∃ st1 st2 st3, msel_provision v key st = Some (MSEL_OK, st1) ∧ mtc_log st1 (mtc_push l stored) ∧
  arch_master_key_read st1 = Some (MSEL_OK, key, st2) ∧
  arch_mtc_read_increment val st2 = Some (MSEL_OK, Some (mtc_after stored (length (mtc_push l stored))), st3).
Proof.
  intros Hl Hv Hk Hok Hval stored. unfold msel_provision, arch_mtc_write.
  destruct (mtc_store_ok v st l Hl Hv) as (st0 & E0 & Hl0 & _).
  assert (mtc_next v l = stored) as Hnext.
  { unfold stored, mtc_next. destruct (Z.eqb_spec v 0) as [E|], (Z.eqb_spec v MTC_ENTRY_UNUSED) as [E'|Hu]; cbn [negb andb orb]; try done.
    by rewrite (proj2 (Z.eqb_neq v _)). }
  pose proof (mtc_next_range v l Hv) as Hs. rewrite Hnext in E0, Hl0, Hs. clearbody stored.
  rewrite E0. cbn [mbind option_bind bool_decide negb].
  destruct (master_key_write_ok key st0 _ Hl0 Hk Hok) as (st1 & E1 & Hl1 & Hkey). rewrite E1.
  cbn [mbind option_bind bool_decide negb]. unfold arch_master_key_read. rewrite mkey_addr.
  destruct (flash_readmem_ok mkey_base MASTER_KEY_SIZE st1 (ml_coherent _ _ Hl1) mkey_part) as (st2 & E2 & Hq).
  rewrite Hkey in E2. destruct (mtc_read_ok val st2 _ Hval (mtc_log_quiet _ _ _ Hl1 Hq)) as (st3 & E3 & _).
  rewrite mtc_next_push in E3 by done. exists st1, st2, st3. split; [done|]. split; [done|]. split; [by rewrite E2|]. done.
Qed.
End laws.

(** ** A NAND part: programming can only clear bits *)

#[local] Instance nand_part : FlashPart := {
  program := Z.land;
  erase m b := mem_set m (b * 131072) 255 (Z.to_nat 131072);
  erase_fails _ _ := false;
  is_busy _ := false }.

#[local] Instance nand_laws : FlashLaws nand_part.
Proof.
  split.
  - intros v Hv. cbn. change 255 with (Z.ones 8). rewrite Z.land_comm, Z.land_ones by lia. by apply Z.mod_small.
  - intros v _. apply Z.land_diag.
  - intros m b a _ Hb Ha. cbn [erase nand_part]. replace a with (b * 131072 + Z.of_nat (Z.to_nat (a - b * 131072))) by lia.
    apply ldb_mem_set_eq. lia.
  - intros m b a Hb Ha. cbn [erase nand_part]. apply ldb_mem_set_ne. lia.
Qed.

(** A new part, with the counter's and the key's banks erased. *)
Definition new_part : nvm := Nvm (erase (erase ∅ MTC_BANK_NUM) MKEY_BANK_NUM) [] (-1) (-1) 0.

Lemma new_part_coherent : coherent new_part.
Proof. left. split; reflexivity. Qed.

Lemma new_part_log : mtc_log new_part [].
Proof.
  split; [apply new_part_coherent|cbn; lia|constructor|intros s v Hs; discriminate Hs| |left; reflexivity]. intros a Ha _. cbn [chip new_part].
  rewrite erase_other by (done || (unfold mtc_bank, MTC_BANK_NUM, MKEY_BANK_NUM in *; lia)).
  by apply erase_bank.
Qed.

Lemma flash_roundtrip_witness : ∃ st1 st2,
  flash_writemem (FLASH_ADDR_BASE + 133957630) [1; 2; 3; 4] new_part = Some (MSEL_OK, st1) ∧
  flash_readmem (FLASH_ADDR_BASE + 133957630) 4 st1 = Some (MSEL_OK, [1; 2; 3; 4], st2).
Proof.
  destruct (flash_roundtrip 133957630 [1; 2; 3; 4] new_part) as (st1 & st2 & E1 & E2 & _);
    [apply new_part_coherent|done|by repeat constructor| |exists st1, st2; split; assumption].
  intros i Hi. cbn [length] in Hi. cbn [chip new_part]. apply erase_bank; [done|done|]. unfold MKEY_BANK_NUM. lia.
Defined.

Lemma mtc_repeats_witness : ∃ st', mtc_reads 3 0x205000 new_part =
  Some ([(MSEL_OK, Some 0); (MSEL_OK, Some 1); (MSEL_OK, Some 2)], st').
Proof. exact (mtc_repeats (part := nand_part) (λ _, eq_refl) (λ _ _, eq_refl) 3 0x205000 new_part ltac:(done) new_part_log). Defined.

Lemma provision_spec_witness : ∃ st1 st2 st3, msel_provision 41 (replicate 256 7) new_part = Some (MSEL_OK, st1) ∧
  mtc_log st1 [41] ∧
  arch_master_key_read st1 = Some (MSEL_OK, replicate 256 7, st2) ∧
  arch_mtc_read_increment 0x205000 st2 = Some (MSEL_OK, Some 42, st3).
Proof.
  apply (provision_spec (part := nand_part) (λ _, eq_refl) (λ _ _, eq_refl) 41 (replicate 256 7) 0x205000 new_part [] new_part_log);
    [lia|done| |done]. apply Forall_replicate. unfold is_u8. lia.
Defined.
