(* ===== verification/Kernel.v ===== *)
(** * The kernel's state

    The global variables of mselOS on the OpenRISC target, in one record with
    the memory and the device registers they act on, and the monad in which the
    kernel's functions are written.  The variables are apart from the memory: the
    system calls do not check the pointers they are given, and stores through a
    pointer into the kernel's own variables are not modelled.  An interrupt handler runs to its end with
    interrupts disabled, so a handler is a function on this state.

    [Oob] is an access outside one of the kernel's arrays, [Hang] an endless
    loop, and [Panic] the endless loop at the end of [msel_panic], with the state
    it stops in. *)

From stdpp Require Export strings.
From S2P Require Import Prelude Words Msel Memory.

Local Open Scope Z_scope.
Local Open Scope orp_scope.

(** ** Tasks: os/task.h *)

Definition MSEL_TASKS_MAX : nat := 5.
Definition MSEL_TASK_MAIN : Z := 0.

Inductive msel_task_wait_op : Set :=
  | MSEL_TASK_WAIT_NONE | MSEL_TASK_WAIT_TIME | MSEL_TASK_WAIT_UART | MSEL_TASK_WAIT_POL.

#[export] Instance wait_op_eq_dec : EqDecision msel_task_wait_op.
Proof. solve_decision. Defined.

(** Pointers are addresses; [reason] is the string its pointer designates, and
    [state] the word of the union (the result pointer of a suspended
    proof-of-life call). *)
Record msel_tcb : Set := Tcb {
  stack : Z; stack_top : Z; stack_sz : Z;
  heap : Z; heap_sz : Z;
  entry : Z; arg : Z; arg_sz : Z;
  valid : bool; killed : bool; reason : option string; wait_op : msel_task_wait_op;
  state : Z; ctx_id : Z; runs : Z; num : Z }.

(** What [msel_memset(task, 0, sizeof(msel_tcb))] leaves. *)
Definition tcb0 : msel_tcb :=
  Tcb 0 0 0 0 0 0 0 0 false false None MSEL_TASK_WAIT_NONE 0 0 0 0.

Definition set_stack (v : Z) (t : msel_tcb) : msel_tcb :=
  Tcb v (stack_top t) (stack_sz t) (heap t) (heap_sz t) (entry t) (arg t) (arg_sz t)
    (valid t) (killed t) (reason t) (wait_op t) (state t) (ctx_id t) (runs t) (num t).
Definition set_arg (v sz : Z) (t : msel_tcb) : msel_tcb :=
  Tcb (stack t) (stack_top t) (stack_sz t) (heap t) (heap_sz t) (entry t) v sz
    (valid t) (killed t) (reason t) (wait_op t) (state t) (ctx_id t) (runs t) (num t).
Definition set_valid (v : bool) (t : msel_tcb) : msel_tcb :=
  Tcb (stack t) (stack_top t) (stack_sz t) (heap t) (heap_sz t) (entry t) (arg t) (arg_sz t)
    v (killed t) (reason t) (wait_op t) (state t) (ctx_id t) (runs t) (num t).
Definition set_killed (why : string) (t : msel_tcb) : msel_tcb :=
  Tcb (stack t) (stack_top t) (stack_sz t) (heap t) (heap_sz t) (entry t) (arg t) (arg_sz t)
    (valid t) true (Some why) (wait_op t) (state t) (ctx_id t) (runs t) (num t).
Definition set_wait (w : msel_task_wait_op) (t : msel_tcb) : msel_tcb :=
  Tcb (stack t) (stack_top t) (stack_sz t) (heap t) (heap_sz t) (entry t) (arg t) (arg_sz t)
    (valid t) (killed t) (reason t) w (state t) (ctx_id t) (runs t) (num t).
Definition set_state (v : Z) (t : msel_tcb) : msel_tcb :=
  Tcb (stack t) (stack_top t) (stack_sz t) (heap t) (heap_sz t) (entry t) (arg t) (arg_sz t)
    (valid t) (killed t) (reason t) (wait_op t) v (ctx_id t) (runs t) (num t).
Definition set_runs (v : Z) (t : msel_tcb) : msel_tcb :=
  Tcb (stack t) (stack_top t) (stack_sz t) (heap t) (heap_sz t) (entry t) (arg t) (arg_sz t)
    (valid t) (killed t) (reason t) (wait_op t) (state t) (ctx_id t) v (num t).

(** The globals of os/task.c; [msel_active_task] is the index of the block the
    pointer designates. *)
Record sched : Set := Sched {
  msel_task_list : list msel_tcb;
  msel_num_tasks : Z;
  msel_active_task_num : Z;
  msel_active_task : Z }.

(** ** Devices *)

Record uart_queue_entry : Set := UartEntry { buf : Z; len : Z; offset : Z }.

(** driver/uart.c: the queue, the static [task] of [uart_send_next_byte], the
    bytes sent so far and how many more the transmitter takes before it reports
    that it is busy. *)
Record uart : Set := Uart {
  uart_queue : list uart_queue_entry;
  uart_task : nat;
  uart_tx : list Z;
  uart_room : nat }.

(** arch/openrisc/gpio.c: what the port reads as, the static shadows, and the
    configuration register. *)
Record gpio : Set := Gpio {
  port0_in : Z;
  port0_vals_shadow : Z;
  port0_conf_shadow : Z }.

(** The statics of driver/pol.c. *)
Record pol : Set := Pol { starting_systicks : Z; button_val : Z }.

(** The special purpose registers and the statics of the two TLB miss handlers. *)
Record mmu : Type := Mmu {
  sprs : gmap Z Z;
  d_last_eear : Z; d_last_epcr : Z;
  i_last_eear : Z; i_last_epcr : Z }.

(** ** The faux filesystem: driver/ffs_session.c and arch/openrisc/ffs.c *)

(** A circular buffer; the pointers are indices into [cb_data]. *)
Record cbuf (A : Type) : Type := Cbuf { cb_data : list A; cb_size : Z; cb_start : nat; cb_end : nat }.
Arguments Cbuf {A}.
Arguments cb_data {A}.
Arguments cb_size {A}.
Arguments cb_start {A}.
Arguments cb_end {A}.

(** An [ffs_packet_t] is its 2048 bytes: session, nonce, reserved, data. *)
Abbreviation packet := (list Z).

Record ffs_queue_t : Type := Queue {
  q_buf : cbuf packet;
  task_id : Z; endpoint : Z; port : Z; active : bool }.

Record ffs : Type := Ffs {
  rfile_empty : bool;
  rq : cbuf packet;
  wq : list ffs_queue_t;
  s0_rq : cbuf Z;
  s0 : packet;
  num_sessions : Z;
  retry_session_id : Z;
  curr_wfile_status : Z;
  rfile_nonce : Z;
  hasSeenReadAck : bool;
  (* the registers at FFS_RECV_DATA, FFS_RECV_ACK, FFS_SEND_DATA, FFS_SEND_ACK, FFS_CTRL *)
  recv_data : packet;
  recv_ack : Z * Z;
  send_data : packet;
  send_ack : Z;
  ffs_ctrl : Z }.

(** ** The whole state *)

Record kernel : Type := Kernel {
  k_sched : sched;
  msel_systicks : Z;
  ram : mem;
  k_uart : uart;
  k_gpio : gpio;
  k_pol : pol;
  k_mmu : mmu;
  k_ffs : ffs }.

Definition with_sched (s : sched) (k : kernel) : kernel :=
  Kernel s (msel_systicks k) (ram k) (k_uart k) (k_gpio k) (k_pol k) (k_mmu k) (k_ffs k).
Definition with_ticks (t : Z) (k : kernel) : kernel :=
  Kernel (k_sched k) t (ram k) (k_uart k) (k_gpio k) (k_pol k) (k_mmu k) (k_ffs k).
Definition with_ram (m : mem) (k : kernel) : kernel :=
  Kernel (k_sched k) (msel_systicks k) m (k_uart k) (k_gpio k) (k_pol k) (k_mmu k) (k_ffs k).
Definition with_uart (u : uart) (k : kernel) : kernel :=
  Kernel (k_sched k) (msel_systicks k) (ram k) u (k_gpio k) (k_pol k) (k_mmu k) (k_ffs k).
Definition with_gpio (g : gpio) (k : kernel) : kernel :=
  Kernel (k_sched k) (msel_systicks k) (ram k) (k_uart k) g (k_pol k) (k_mmu k) (k_ffs k).
Definition with_pol (p : pol) (k : kernel) : kernel :=
  Kernel (k_sched k) (msel_systicks k) (ram k) (k_uart k) (k_gpio k) p (k_mmu k) (k_ffs k).
Definition with_mmu (m : mmu) (k : kernel) : kernel :=
  Kernel (k_sched k) (msel_systicks k) (ram k) (k_uart k) (k_gpio k) (k_pol k) m (k_ffs k).
Definition with_ffs (f : ffs) (k : kernel) : kernel :=
  Kernel (k_sched k) (msel_systicks k) (ram k) (k_uart k) (k_gpio k) (k_pol k) (k_mmu k) f.

(** Short names for the scheduler's globals. *)
Definition tasks (k : kernel) : list msel_tcb := msel_task_list (k_sched k).
Definition num_tasks (k : kernel) : Z := msel_num_tasks (k_sched k).
Definition active_num (k : kernel) : Z := msel_active_task_num (k_sched k).
Definition active_task (k : kernel) : Z := msel_active_task (k_sched k).

Definition with_tasks (l : list msel_tcb) (k : kernel) : kernel :=
  with_sched (Sched l (num_tasks k) (active_num k) (active_task k)) k.
Definition with_active (n t : Z) (k : kernel) : kernel :=
  with_sched (Sched (tasks k) (num_tasks k) n t) k.
Definition with_num_tasks (n : Z) (k : kernel) : kernel :=
  with_sched (Sched (tasks k) n (active_num k) (active_task k)) k.

(** ** The monad *)

Inductive outcome (A : Type) : Type :=
  | Ok (a : A) (k : kernel)
  | Oob
  | Hang
  | Panic (k : kernel).
Arguments Ok {A}.
Arguments Oob {A}.
Arguments Hang {A}.
Arguments Panic {A}.

Definition M (A : Type) : Type := kernel → outcome A.

Definition ret {A} (a : A) : M A := λ k, Ok a k.
Definition bind {A B} (m : M A) (f : A → M B) : M B := λ k,
  match m k with Ok a k' => f a k' | Oob => Oob | Hang => Hang | Panic k' => Panic k' end.

Declare Scope kernel_scope.
Delimit Scope kernel_scope with kernel.
Notation "'let*' x := m 'in' f" := (bind m (λ x, f))
  (at level 200, x pattern, m at level 100, f at level 200, right associativity) : kernel_scope.
Notation "m ;; f" := (bind m (λ _, f)) (at level 100, f at level 200, right associativity) : kernel_scope.
Local Open Scope kernel_scope.

Definition gets {A} (f : kernel → A) : M A := λ k, Ok (f k) k.
Definition modify (f : kernel → kernel) : M unit := λ k, Ok tt (f k).
Definition oob {A} : M A := λ _, Oob.
Definition hang {A} : M A := λ _, Hang.

(** [for(i = from; i < from + n; i++) f(i)] *)
Fixpoint for_m (from n : nat) (f : nat → M unit) : M unit :=
  match n with
  | O => ret tt
  | S n => f from;; for_m (S from) n f
  end.

(** [msel_task_list[i]] and an assignment to it. *)
Definition tcb_at (i : Z) : M msel_tcb := λ k,
  if i <? 0 then Oob else match tasks k !! Z.to_nat i with Some t => Ok t k | None => Oob end.
Definition tcb_upd (i : Z) (f : msel_tcb → msel_tcb) : M unit :=
  let* t := tcb_at i in modify (λ k, with_tasks (<[Z.to_nat i := f t]> (tasks k)) k).

(** ** Special purpose registers: arch/openrisc/spr.c, spr.h *)

Definition SPR_REG (group reg : Z) : Z := (group <<< 11) .| reg.
Definition SPR_TTMR : Z := SPR_REG 10 0.

Definition spr_read (regnum : Z) : M Z := gets (λ k, default 0 (sprs (k_mmu k) !! regnum)).
Definition spr_write (regnum val : Z) : M unit :=
  modify (λ k, let u := k_mmu k in
    with_mmu (Mmu (<[regnum := u32 val]> (sprs u)) (d_last_eear u) (d_last_epcr u)
      (i_last_eear u) (i_last_epcr u)) k).

(** ** Lemmas *)

Lemma bind_ok {A B} (m : M A) (f : A → M B) k a k' : m k = Ok a k' → bind m f k = f a k'.
Proof. intros H. unfold bind. by rewrite H. Qed.

Lemma bind_oob {A B} (m : M A) (f : A → M B) k : m k = Oob → bind m f k = Oob.
Proof. intros H. unfold bind. by rewrite H. Qed.

Lemma bind_hang {A B} (m : M A) (f : A → M B) k : m k = Hang → bind m f k = Hang.
Proof. intros H. unfold bind. by rewrite H. Qed.

Lemma bind_panic {A B} (m : M A) (f : A → M B) k k' : m k = Panic k' → bind m f k = Panic k'.
Proof. intros H. unfold bind. by rewrite H. Qed.

Lemma bind_ret {A B} (a : A) (f : A → M B) k : bind (ret a) f k = f a k.
Proof. reflexivity. Qed.

Lemma bind_assoc {A B C} (m : M A) (f : A → M B) (g : B → M C) k :
  bind (bind m f) g k = bind m (λ x, bind (f x) g) k.
Proof. unfold bind. by destruct (m k). Qed.

Lemma gets_bind {A B} (g : kernel → A) (f : A → M B) k : bind (gets g) f k = f (g k) k.
Proof. reflexivity. Qed.

Lemma modify_bind {B} g (f : unit → M B) k : bind (modify g) f k = f tt (g k).
Proof. reflexivity. Qed.

Lemma tcb_at_eq (i : nat) k t : tasks k !! i = Some t → tcb_at (Z.of_nat i) k = Ok t k.
Proof. intros H. unfold tcb_at. rewrite Nat2Z.id, H. by destruct (Z.ltb_spec (Z.of_nat i) 0); [lia|]. Qed.

Lemma tcb_at_oob i k : Z.of_nat (length (tasks k)) <= i → tcb_at i k = Oob.
Proof.
  intros H. unfold tcb_at. destruct (i <? 0); [done|]. rewrite lookup_ge_None_2; [done|lia].
Qed.

Lemma tcb_upd_eq (i : nat) f k t : tasks k !! i = Some t →
  tcb_upd (Z.of_nat i) f k = Ok tt (with_tasks (<[i := f t]> (tasks k)) k).
Proof.
  intros H. unfold tcb_upd. rewrite (bind_ok _ _ _ _ _ (tcb_at_eq _ _ _ H)), Nat2Z.id. done.
Qed.

Lemma for_m_S from n f k : for_m from (S n) f k = (f from;; for_m (S from) n f) k.
Proof. reflexivity. Qed.

Lemma tasks_with_tasks l k : tasks (with_tasks l k) = l.
Proof. reflexivity. Qed.

Create HintDb kernel.
#[export] Hint Rewrite @gets_bind @modify_bind @bind_ret tasks_with_tasks : kernel.

(** Run the monadic steps whose results are known. *)
Ltac krun := repeat (rewrite ?bind_assoc, ?gets_bind, ?modify_bind, ?bind_ret).

(** ** Safety

    [wp m Q k]: run from [k], [m] neither leaves an array nor loops; it ends in
    [Q], or in a panic of the main task. *)
Definition wp {A} (m : M A) (Q : A → kernel → Prop) (k : kernel) : Prop :=
  match m k with Ok a k' => Q a k' | Panic k' => active_num k' = 0 | Oob | Hang => False end.

Section wp.
Context {A B : Type}.

Lemma wp_bind (m : M A) (f : A → M B) Q k : wp m (λ a, wp (f a) Q) k → wp (bind m f) Q k.
Proof. unfold wp, bind. by destruct (m k). Qed.

Lemma wp_mono (m : M A) (P Q : A → kernel → Prop) k : wp m P k → (∀ a k', P a k' → Q a k') → wp m Q k.
Proof. unfold wp. intros H HPQ. destruct (m k); auto. Qed.

Lemma wp_ok (m : M A) (Q : A → kernel → Prop) k a k' : m k = Ok a k' → Q a k' → wp m Q k.
Proof. intros H HQ. unfold wp. by rewrite H. Qed.

Lemma wp_ret (a : A) (Q : A → kernel → Prop) k : Q a k → wp (ret a) Q k.
Proof. done. Qed.

Lemma wp_gets (f : kernel → A) (Q : A → kernel → Prop) k : Q (f k) k → wp (gets f) Q k.
Proof. done. Qed.
End wp.

Lemma wp_modify f (Q : unit → kernel → Prop) k : Q tt (f k) → wp (modify f) Q k.
Proof. done. Qed.

Lemma wp_tcb_at i (Q : msel_tcb → kernel → Prop) k : 0 <= i < Z.of_nat (length (tasks k)) →
  (∀ t, tasks k !! Z.to_nat i = Some t → Q t k) → wp (tcb_at i) Q k.
Proof.
  intros Hi HQ. destruct (lookup_lt_is_Some_2 (tasks k) (Z.to_nat i)) as [t Ht]; [lia|].
  pose proof (tcb_at_eq _ _ _ Ht) as E. rewrite Z2Nat.id in E by lia. eapply wp_ok; eauto.
Qed.

Lemma wp_tcb_upd i f (Q : unit → kernel → Prop) k : 0 <= i < Z.of_nat (length (tasks k)) →
  (∀ t, tasks k !! Z.to_nat i = Some t → Q tt (with_tasks (<[Z.to_nat i := f t]> (tasks k)) k)) →
  wp (tcb_upd i f) Q k.
Proof.
  intros Hi HQ. unfold tcb_upd. apply wp_bind, wp_tcb_at; [done|]. intros t Ht. apply wp_modify. by apply HQ.
Qed.
