(* ===== verification/Task.v ===== *)
(** * Tasks and the scheduler

    os/task.c, os/taskmem.c, os/mutex.c, the task part of arch/openrisc/arch.c,
    and what the scheduler drives: the blocking console output of driver/uart.c,
    the GPIO and LED drivers and the status LEDs of os/system.c. *)

From S2P Require Import Prelude Words Msel Memory Malloc Kernel.

Local Open Scope Z_scope.
Local Open Scope orp_scope.
Local Open Scope kernel_scope.

(** ** Console output: driver/uart.c, arch/openrisc/uart.c *)

Definition string_bytes (s : string) : list Z :=
  (λ c, Z.of_nat (Ascii.nat_of_ascii c)) <$> String.list_ascii_of_string s.

Definition arch_uart_is_writable : M bool := gets (λ k, negb (uart_room (k_uart k) =? 0)%nat).

Definition arch_uart_putc (c : Z) : M unit :=
  modify (λ k, let u := k_uart k in
    with_uart (Uart (uart_queue u) (uart_task u) (uart_tx u ++ [u8 c]) (pred (uart_room u))) k).

(** [while(!arch_uart_is_writable());] ends when the transmitter has drained. *)
Definition uart_wait : M unit :=
  let* w := arch_uart_is_writable in
  if w then ret tt
  else modify (λ k, let u := k_uart k in
    with_uart (Uart (uart_queue u) (uart_task u) (uart_tx u) 1) k).

Fixpoint uart_write_now (data : list Z) : M unit :=
  match data with
  | [] => ret tt
  | c :: data => uart_wait;; arch_uart_putc c;; uart_write_now data
  end.

Definition uart_print_now (s : string) : M unit := uart_write_now (string_bytes s).

Definition msel_panic {A} (what : string) : M A := uart_print_now what;; λ k, Panic k.

(** ** GPIO and LEDs *)

Definition MSEL_GPIO_INPUT : Z := 0.
Definition MSEL_GPIO_OUTPUT : Z := 1.

Definition arch_gpio_config (ios conf : Z) : M unit :=
  let port0_ios := ios .& 0xff in
  if port0_ios =? 0 then ret tt
  else modify (λ k, let g := k_gpio k in
    with_gpio (Gpio (port0_in g) (port0_vals_shadow g)
      (if conf =? MSEL_GPIO_INPUT then port0_conf_shadow g .& not8 port0_ios
       else port0_conf_shadow g .| port0_ios)) k).

Definition arch_gpio_write (ios vals : Z) : M unit :=
  let port0_ios := ios .& 0xff in
  let port0_vals := vals .& 0xff in
  if port0_ios =? 0 then ret tt
  else modify (λ k, let g := k_gpio k in
    with_gpio (Gpio (port0_in g)
      (port0_vals_shadow g .& not8 port0_ios .| (port0_ios .& port0_vals)) (port0_conf_shadow g)) k).

Definition arch_gpio_read (ios : Z) : M Z :=
  let port0_ios := ios .& 0xff in
  if port0_ios =? 0 then ret 0 else gets (λ k, port0_in (k_gpio k) .& port0_ios).

Definition MSEL_LED_OFF : Z := 0.
Definition MSEL_LED_ON : Z := 1.
Definition MSEL_LED_ALL : Z := 2 ^ 32 - 1.
Definition LED_MASK : Z := 0xf.

Definition arch_led_set (led val : Z) : M unit := arch_gpio_write (led .& LED_MASK) (val .& LED_MASK).
Definition msel_led_on (led : Z) : M unit := arch_led_set led MSEL_LED_ON.
Definition msel_led_off (led : Z) : M unit := arch_led_set led MSEL_LED_OFF.
Definition msel_init_led : M unit := arch_gpio_config LED_MASK MSEL_GPIO_OUTPUT.

(** ** Task memory: os/taskmem.c with the symbols of arch/openrisc/link.ld *)

Definition RAM_START : Z := 0x00200000.
Definition tasks_start : Z := RAM_START.
Definition tasks_size : Z := 16384.
Definition tasks_stack_size : Z := 2 * 1024.
Definition tasks_heap_size : Z := tasks_size - tasks_stack_size.

Definition taskmem_stack_top (tasknum : Z) : Z := u32 (tasks_start + tasks_size * tasknum + tasks_stack_size).
Definition taskmem_stack_bottom (tasknum : Z) : Z := u32 (tasks_start + tasks_size * tasknum).
Definition taskmem_stack_size (tasknum : Z) : Z := tasks_stack_size.
Definition taskmem_heap_start (tasknum : Z) : Z := taskmem_stack_top tasknum.
Definition taskmem_heap_end (tasknum : Z) : Z := u32 (tasks_start + tasks_size * tasknum + tasks_size).
Definition taskmem_heap_size (tasknum : Z) : Z := tasks_heap_size.

Definition taskmem_init (tasknum : Z) : M unit :=
  (if tasknum =? 0 then ret tt
   else modify (λ k, with_ram (mem_set (ram k) (taskmem_stack_bottom tasknum) 0 (Z.to_nat tasks_size)) k));;
  modify (λ k, with_ram (heap_init (ram k) (taskmem_heap_start tasknum) (taskmem_heap_end tasknum)) k).

Definition msel_init_taskmem : M unit := taskmem_init 0.

(** ** Task state *)

Definition msel_task_is_killed (tcb : msel_tcb) : bool := killed tcb.
Definition msel_task_is_waiting (tcb : msel_tcb) : bool :=
  negb (bool_decide (wait_op tcb = MSEL_TASK_WAIT_NONE)) && valid tcb && negb (msel_task_is_killed tcb).
Definition msel_task_is_valid (tcb : msel_tcb) : bool :=
  valid tcb && negb (msel_task_is_killed tcb) && negb (msel_task_is_waiting tcb).
Definition msel_task_resume (tasknum : Z) : M unit := tcb_upd tasknum (set_wait MSEL_TASK_WAIT_NONE).
Definition msel_task_cleanup (tasknum : Z) : M unit := tcb_upd tasknum (λ _, tcb0).

Definition msel_task_update_ctrs_resume : M unit :=
  let* n := gets active_num in tcb_upd n (λ t, set_runs (u32 (runs t + 1)) t).

(** ** Status LEDs: os/system.c *)

Fixpoint status_leds (n i : nat) (leds : Z) : M Z :=
  match n with
  | O => ret leds
  | S n =>
      let* t := tcb_at (Z.of_nat i) in
      status_leds n (S i)
        (if msel_task_is_valid t && (30 <? runs t mod 100) then leds .| (1 <<< Z.of_nat (i + 1)) else leds)
  end.

Definition msel_set_status_leds : M unit :=
  let* n := gets num_tasks in
  let* leds := status_leds (Nat.min (Z.to_nat n) 8) 0 0 in
  arch_led_set MSEL_LED_ALL leds.

(** ** Scheduling *)

(** A finished task is reported and its block cleared. *)
Definition reap (tnum : nat) : M unit :=
  let* t := tcb_at (Z.of_nat tnum) in
  if msel_task_is_killed t then
    uart_print_now "Killed task ";;
    uart_write_now [u8 (Z.of_nat tnum + 48)];;
    uart_print_now ". REASON: ";;
    match reason t with Some why => uart_print_now why | None => oob end;;
    uart_write_now [13; 10];;
    msel_task_cleanup (Z.of_nat tnum)
  else ret tt.

(** [do { next } while(!valid)], at most [fuel] turns. *)
Fixpoint next_task (fuel : nat) : M unit :=
  match fuel with
  | O => hang
  | S fuel =>
      let* n := gets (λ k, u8 ((active_num k + 1) mod num_tasks k)) in
      modify (with_active n n);;
      let* t := tcb_at n in
      if msel_task_is_valid t then ret tt else next_task fuel
  end.

Definition msel_task_schedule : M msel_status :=
  let* n := gets num_tasks in
  if n =? 0 then ret MSEL_EINVAL
  else
    for_m 0 (Z.to_nat n) reap;;
    next_task (Z.to_nat n);;
    msel_set_status_leds;;
    ret MSEL_OK.

Definition msel_task_force_kill (tasknum : Z) (why : string) : M unit :=
  tcb_upd tasknum (set_killed why);; msel_task_schedule;; ret tt.

(** SPR_TTMR_IP_SET(0) *)
Definition arch_systick_handler : M unit :=
  let* v := spr_read SPR_TTMR in spr_write SPR_TTMR (v .& 0xEFFFFFFF).

Definition msel_systick_handler : M unit :=
  modify (λ k, with_ticks (u64 (msel_systicks k + 1)) k);;
  arch_systick_handler;;
  msel_set_status_leds;;
  msel_task_schedule;; ret tt.

(** ** Creation *)

Definition sizeof_saved_regs : Z := 128.
Definition SPR_SR_TEE : Z := 1 <<< 1.
Definition SPR_SR_IEE : Z := 1 <<< 2.
Definition SPR_SR_DME : Z := 1 <<< 5.
Definition SPR_SR_IME : Z := 1 <<< 6.
Definition SPR_SR_FO : Z := 1 <<< 15.

(** Offsets in [or1k_saved_regs]: r3, r4, r11, sr and pc. *)
Definition off_r3 : Z := 4.
Definition off_r4 : Z := 8.
Definition off_r11 : Z := 36.
Definition off_sr : Z := 120.
Definition off_pc : Z := 124.

Definition or_word (a v : Z) (m : mem) : mem := store32 m a (load32 m a .| v).

(** The registers a new task starts with. *)
Definition init_regs (regs : Z) (t : msel_tcb) (m : mem) : mem :=
  let m := mem_set m regs 0 (Z.to_nat sizeof_saved_regs) in
  let m := or_word (regs + off_sr) SPR_SR_IEE m in
  let m := or_word (regs + off_sr) SPR_SR_TEE m in
  let m := or_word (regs + off_sr) SPR_SR_DME m in
  let m := or_word (regs + off_sr) SPR_SR_IME m in
  let m := or_word (regs + off_sr) SPR_SR_FO m in
  let m := store32 m (regs + off_pc) (entry t) in
  let m := store32 m (regs + off_r3) (arg t) in
  store32 m (regs + off_r4) (arg_sz t).

Definition arch_task_create (tasknum : Z) : M msel_status :=
  tcb_upd tasknum (λ t, set_stack (u32 (stack t - sizeof_saved_regs)) t);;
  tcb_upd tasknum (λ t, set_stack (u32 (stack t - 0x88)) t);;
  let* t := tcb_at tasknum in
  modify (λ k, with_ram (init_regs (stack t) t (ram k)) k);;
  ret MSEL_OK.

(** The first block from [i] on that is not valid, [i + n] when there is none. *)
Fixpoint free_slot (n : nat) (i : nat) : M nat :=
  match n with
  | O => ret i
  | S n => let* t := tcb_at (Z.of_nat i) in if valid t then free_slot n (S i) else ret i
  end.

(** The copy of the argument into the new task's heap. *)
Definition copy_arg (tasknum arg_ arg_sz_ : Z) : M msel_status :=
  if negb (arg_sz_ =? 0) && negb (arg_ =? 0) then
    let* m := gets ram in
    match heap_malloc m (taskmem_heap_start tasknum) arg_sz_ with
    | None => hang
    | Some (m, p) =>
        modify (with_ram m);;
        tcb_upd tasknum (set_arg p arg_sz_);;
        if p =? 0 then ret MSEL_ERESOURCE
        else modify (λ k, with_ram (mem_copy (ram k) p arg_ (Z.to_nat arg_sz_)) k);; ret MSEL_OK
    end
  else ret MSEL_OK.

(** The status, and what [*tid] is set to. *)
Definition msel_task_create (entry_ arg_ arg_sz_ : Z) : M (msel_status * option Z) :=
  let* slot := free_slot MSEL_TASKS_MAX 0 in
  let tasknum := Z.of_nat slot in
  if (slot =? MSEL_TASKS_MAX)%nat then ret (MSEL_ERESOURCE, None)
  else if (entry_ =? 0) || (negb (arg_ =? 0) && (arg_sz_ =? 0)) || (taskmem_heap_size tasknum <? arg_sz_)
  then ret (MSEL_EINVAL, None)
  else
    tcb_upd tasknum (λ _, tcb0);;
    taskmem_init tasknum;;
    tcb_upd tasknum (λ _,
      Tcb (taskmem_stack_top tasknum) (taskmem_stack_top tasknum) (taskmem_stack_size tasknum)
        (taskmem_heap_start tasknum) (taskmem_heap_size tasknum) entry_ 0 0 false false None
        MSEL_TASK_WAIT_NONE 0 0 0 tasknum);;
    let* arch := arch_task_create tasknum in
    if negb (bool_decide (arch = MSEL_OK)) then
      tcb_upd tasknum (set_valid false);; ret (MSEL_EUNKNOWN, None)
    else
      let* status := copy_arg tasknum arg_ arg_sz_ in
      if negb (bool_decide (status = MSEL_OK)) then tcb_upd tasknum (set_valid false);; ret (status, None)
      else
        tcb_upd tasknum (set_valid true);;
        modify (λ k, with_num_tasks (u32 (num_tasks k + 1)) k);;
        ret (MSEL_OK, Some tasknum).

Definition msel_init_task (msel_main : Z) : M unit :=
  modify (with_tasks (replicate MSEL_TASKS_MAX tcb0));;
  msel_task_create msel_main 0 0;;
  modify (with_active 0 0).

(** ** Context save: [or1k_save_context] of arch/openrisc/arch.c *)

(** [false]: the handler is not to be called. *)
Definition or1k_save_context (task_sp : Z) : M bool :=
  let save_sz := 0x108 in
  let regs := 0x220000 - save_sz in
  let* task := gets active_num in
  if (task_sp <=? u32 (taskmem_stack_bottom task + save_sz)) || (taskmem_stack_top task <? task_sp) then
    if negb (task =? MSEL_TASK_MAIN) then msel_task_force_kill task "Stack error";; ret false
    else msel_panic "Stack error in task0"
  else
    let* n := gets active_task in
    tcb_upd n (set_stack (u32 (task_sp - save_sz)));;
    modify (λ k, with_ram (mem_copy (ram k) (u32 (task_sp - save_sz)) regs (Z.to_nat sizeof_saved_regs)) k);;
    ret true.

(** ** Mutexes: os/mutex.c *)

Definition arch_mutex_lock : msel_status := MSEL_ENOTIMPL.
Definition msel_mutex_lock (mut who : Z) : M msel_status := ret arch_mutex_lock.
Definition msel_mutex_is_owned (m : mem) (mut who : Z) : bool :=
  if mut =? 0 then false else load32 m mut =? u32 who.
Definition msel_mutex_unlock (mut who : Z) : M msel_status :=
  if (mut =? 0) || (who =? 0) then ret MSEL_EINVAL
  else
    let* m := gets ram in
    if negb (msel_mutex_is_owned m mut who) then ret MSEL_EBADF
    else modify (with_ram (store32 m mut 0));; ret MSEL_OK.
Definition msel_mutex_initialize (mut : Z) : M unit := modify (λ k, with_ram (store32 (ram k) mut 0) k).

(** ** What the scheduler does *)

Definition runnable (l : list msel_tcb) (i : nat) : Prop :=
  ∃ t, l !! i = Some t ∧ msel_task_is_valid t = true.

(** The console message for a finished task. *)
Definition kill_msg (i : nat) (t : msel_tcb) : list Z :=
  string_bytes "Killed task " ++ [u8 (Z.of_nat i + 48)] ++ string_bytes ". REASON: " ++
  from_option string_bytes [] (reason t) ++ [13; 10].

Definition reap_msg (l : list msel_tcb) (i : nat) : list Z :=
  match l !! i with Some t => if killed t then kill_msg i t else [] | None => [] end.
Definition reap_msgs (l : list msel_tcb) (from n : nat) : list Z := concat (reap_msg l <$> seq from n).

Definition reaped (from n : nat) (i : nat) (t : msel_tcb) : msel_tcb :=
  if killed t && (from <=? i)%nat && (i <? from + n)%nat then tcb0 else t.
Definition reap_list (from n : nat) (l : list msel_tcb) : list msel_tcb := imap (reaped from n) l.

(** Every killed task has a reason to print. *)
Definition reasons_ok (l : list msel_tcb) : Prop :=
  ∀ i t, l !! i = Some t → killed t = true → is_Some (reason t).

(** The console after [data] went out. *)
Definition sent (data : list Z) (room : nat) (k : kernel) : kernel :=
  with_uart (Uart (uart_queue (k_uart k)) (uart_task (k_uart k)) (uart_tx (k_uart k) ++ data) room) k.

Lemma sent_sent a b r r' k : sent b r' (sent a r k) = sent (a ++ b) r' k.
Proof. unfold sent, with_uart. cbn. by rewrite <- app_assoc. Qed.

Lemma string_bytes_ok s : bytes_ok (string_bytes s).
Proof.
  unfold bytes_ok, string_bytes. apply Forall_fmap, Forall_forall. intros c _. unfold compose, is_u8.
  pose proof (Ascii.nat_ascii_bounded c). lia.
Qed.

Lemma uart_write_now_sent data k : bytes_ok data → ∃ r, uart_write_now data k = Ok tt (sent data r k).
Proof.
  revert k. induction data as [|c data IH]; intros k Hd.
  - exists (uart_room (k_uart k)). cbn. unfold sent. rewrite app_nil_r. by destruct k as [? ? ? [] ? ? ? ?].
  - apply Forall_cons in Hd as [Hc Hd]. cbn [uart_write_now].
    assert (∃ r, uart_wait k = Ok tt (sent [] r k)) as [r Hw].
    { unfold uart_wait, arch_uart_is_writable. krun.
      destruct (uart_room (k_uart k) =? 0)%nat; cbn [negb].
      - exists 1%nat. unfold modify, sent. rewrite app_nil_r. done.
      - exists (uart_room (k_uart k)). unfold sent. rewrite app_nil_r. by destruct k as [? ? ? [] ? ? ? ?]. }
    rewrite (bind_ok _ _ _ _ _ Hw). unfold arch_uart_putc. krun. fold (@uart_write_now data).
    destruct (IH (sent [c] (pred r) k) Hd) as [r' Hr].
    exists r'. change (c :: data) with ([c] ++ data). rewrite <- (sent_sent [c] data (pred r)), <- Hr.
    f_equal. unfold sent, with_uart. cbn. by rewrite app_nil_r, u8_id.
Qed.

Lemma with_tasks_id k : with_tasks (tasks k) k = k.
Proof. by destruct k as [[] ? ? ? ? ? ? ?]. Qed.

Lemma write_bind {B} data (Hd : bytes_ok data) (f : unit → M B) k :
  ∃ r, bind (uart_write_now data) f k = f tt (sent data r k).
Proof. destruct (uart_write_now_sent data k Hd) as [r Hr]. exists r. by rewrite (bind_ok _ _ _ _ _ Hr). Qed.

Ltac ksend r H :=
  match goal with |- context [bind (uart_write_now _) ?f ?k] =>
    destruct (write_bind _ H f k) as [r ->]; rewrite ?sent_sent end.

Lemma reap_ok i k t : tasks k !! i = Some t → (killed t = true → is_Some (reason t)) →
  ∃ r, reap i k =
    Ok tt (with_tasks (<[i := if killed t then tcb0 else t]> (tasks k)) (sent (reap_msg (tasks k) i) r k)).
Proof.
  intros Ht Hr. unfold reap. rewrite (bind_ok _ _ _ _ _ (tcb_at_eq _ _ _ Ht)).
  unfold reap_msg, msel_task_is_killed. rewrite Ht. destruct (killed t).
  - destruct (Hr eq_refl) as [why Hw]. rewrite Hw. unfold uart_print_now.
    assert (bytes_ok [u8 (Z.of_nat i + 48)]) by (constructor; [apply u8_range|constructor]).
    ksend r1 (string_bytes_ok "Killed task "). ksend r2 H. ksend r3 (string_bytes_ok ". REASON: ").
    ksend r4 (string_bytes_ok why). ksend r5 (bytes_okb_ok [13; 10] eq_refl).
    exists r5. unfold msel_task_cleanup.
    erewrite tcb_upd_eq by exact Ht. unfold kill_msg. rewrite Hw. cbn [from_option]. by rewrite <- !app_assoc.
  - exists (uart_room (k_uart k)). rewrite list_insert_id by done. unfold ret, sent. rewrite app_nil_r.
    by destruct k as [[] ? ? [] ? ? ? ?].
Qed.

Lemma reap_list_S from n l t : l !! from = Some t →
  reap_list (S from) n (<[from := if killed t then tcb0 else t]> l) = reap_list from (S n) l.
Proof.
  intros Ht. apply list_eq. intros i. unfold reap_list. rewrite !list_lookup_imap, list_lookup_insert.
  destruct (decide (from = i ∧ (from < length l)%nat)) as [[<- _]|Hne].
  - rewrite Ht. cbn. f_equal. unfold reaped. destruct (killed t) eqn:E; cbn [killed tcb0 andb]; [|by rewrite E].
    rewrite Nat.leb_refl. destruct (Nat.ltb_spec from (from + S n)); [done|lia].
  - destruct (l !! i) as [u|] eqn:E; [|done]. cbn. f_equal. unfold reaped.
    apply lookup_lt_Some in Ht, E. destruct (killed u); [|done]. cbn [andb].
    destruct (Nat.leb_spec (S from) i), (Nat.leb_spec from i), (Nat.ltb_spec i (S from + n)),
      (Nat.ltb_spec i (from + S n)); try lia; done.
Qed.

Lemma reap_list_0 from l : reap_list from 0 l = l.
Proof.
  apply list_eq. intros i. unfold reap_list. rewrite list_lookup_imap. destruct (l !! i); [|done]. cbn. f_equal.
  unfold reaped. destruct (Nat.leb_spec from i), (Nat.ltb_spec i (from + 0)); rewrite ?andb_false_r; try done. lia.
Qed.

Lemma reap_msgs_insert l i t from n : (i < from)%nat → reap_msgs (<[i := t]> l) from n = reap_msgs l from n.
Proof.
  intros Hi. unfold reap_msgs. f_equal. apply list_fmap_ext. intros j x [-> _]%lookup_seq.
  unfold reap_msg. by rewrite list_lookup_insert_ne by lia.
Qed.

Lemma reasons_ok_insert l i t : reasons_ok l → l !! i = Some t → reasons_ok (<[i := if killed t then tcb0 else t]> l).
Proof.
  intros H Ht j u Hj Hk. apply list_lookup_insert_Some in Hj as [(-> & <- & _)|[_ Hj]]; [|by eapply H].
  destruct (killed t) eqn:E; [done|]. by eapply H.
Qed.

Lemma reap_all n from k : (from + n ≤ length (tasks k))%nat → reasons_ok (tasks k) →
  ∃ r, for_m from n reap k =
    Ok tt (with_tasks (reap_list from n (tasks k)) (sent (reap_msgs (tasks k) from n) r k)).
Proof.
  revert from k. induction n as [|n IH]; intros from k Hn Hr.
  - exists (uart_room (k_uart k)). rewrite reap_list_0. unfold reap_msgs, sent. cbn. rewrite app_nil_r.
    by destruct k as [[] ? ? [] ? ? ? ?].
  - destruct (lookup_lt_is_Some_2 (tasks k) from) as [t Ht]; [lia|].
    destruct (reap_ok from k t Ht (Hr from t Ht)) as [r1 H1]. rewrite for_m_S, (bind_ok _ _ _ _ _ H1).
    match goal with |- context [for_m _ _ _ ?k1] => destruct (IH (S from) k1) as [r2 H2] end.
    + rewrite tasks_with_tasks, length_insert. lia.
    + rewrite tasks_with_tasks. by apply reasons_ok_insert.
    + exists r2. rewrite H2, tasks_with_tasks, reap_list_S, reap_msgs_insert by (done || lia).
      change (reap_msgs (tasks k) from (S n)) with (reap_msg (tasks k) from ++ reap_msgs (tasks k) (S from) n).
      unfold sent, with_tasks, with_uart, with_sched. cbn. by rewrite <- app_assoc.
Qed.

(** [d] turns of the round-robin from [a] reach the next runnable task. *)
Definition next_of (l : list msel_tcb) (n a d : Z) : Prop :=
  1 <= d ∧ runnable l (Z.to_nat ((a + d) mod n)) ∧
  ∀ e, 1 <= e < d → ¬ runnable l (Z.to_nat ((a + e) mod n)).

#[export] Instance runnable_dec l i : Decision (runnable l i).
Proof.
  unfold runnable. destruct (l !! i) as [t|] eqn:E.
  - destruct (msel_task_is_valid t) eqn:V; [left; eauto|right]. intros (u & [= <-] & Hu). congruence.
  - right. by intros (u & [=] & _).
Defined.

Lemma tcb_at_runnable l n k : tasks k = l → 0 <= n < Z.of_nat (length l) →
  ∃ t, tcb_at n k = Ok t k ∧ l !! Z.to_nat n = Some t ∧ (msel_task_is_valid t = true ↔ runnable l (Z.to_nat n)).
Proof.
  intros <- Hn. destruct (lookup_lt_is_Some_2 (tasks k) (Z.to_nat n)) as [t Ht]; [lia|]. exists t.
  pose proof (tcb_at_eq _ _ _ Ht) as E. rewrite Z2Nat.id in E by lia. split; [done|]. split; [done|].
  unfold runnable. rewrite Ht. split; [eauto|]. by intros (u & [= <-] & Hu).
Qed.

Section round_robin.
Context (k0 : kernel) (Hlen : num_tasks k0 <= Z.of_nat (length (tasks k0))).
Context (Hn : 0 < num_tasks k0) (Hbyte : num_tasks k0 < 256).
#[local] Abbreviation n := (num_tasks k0).
#[local] Abbreviation l := (tasks k0).

Lemma next_exists a i : 0 <= i < n → runnable l (Z.to_nat i) → ∃ d, d <= n ∧ next_of l n a d.
Proof.
  intros Hi Hr.
  assert (∀ D : nat, ∀ b, runnable l (Z.to_nat ((b + 1 + Z.of_nat D) mod n)) →
    ∃ d, d <= 1 + Z.of_nat D ∧ next_of l n b d) as H.
  { induction D as [|D IH]; intros b Hb.
    { exists 1. split; [lia|]. split; [lia|]. split; [by rewrite Z.add_0_r in Hb|]. intros e He. lia. }
    destruct (decide (runnable l (Z.to_nat ((b + 1) mod n)))) as [H1|H1].
    { exists 1. split; [lia|]. split; [lia|]. split; [done|]. intros e He. lia. }
    destruct (IH (b + 1)) as (d & Hd & Hd1 & Hd2 & Hd3).
    { by replace (b + 1 + 1 + Z.of_nat D) with (b + 1 + Z.of_nat (S D)) by lia. }
    exists (1 + d). split; [lia|]. split; [lia|]. split; [by rewrite Z.add_assoc|].
    intros e He. destruct (decide (e = 1)) as [->|He1]; [done|].
    replace (b + e) with (b + 1 + (e - 1)) by lia. apply Hd3. lia. }
  destruct (H (Z.to_nat ((i - a - 1) mod n)) a) as (d & Hd & Hnext).
  - pose proof (Z.mod_pos_bound (i - a - 1) n). rewrite Z2Nat.id by lia.
    rewrite Zplus_mod_idemp_r. replace (a + 1 + (i - a - 1)) with i by lia. by rewrite Z.mod_small.
  - exists d. split; [|done]. pose proof (Z.mod_pos_bound (i - a - 1) n). lia.
Qed.

Lemma next_turn k : tasks k = l → num_tasks k = n →
  u8 ((active_num k + 1) mod num_tasks k) = (active_num k + 1) mod n.
Proof.
  intros Hl HN. rewrite HN. pose proof (Z.mod_pos_bound (active_num k + 1) n Hn). apply u8_id. unfold is_u8. lia.
Qed.

Lemma next_task_ok fuel k d : tasks k = l → num_tasks k = n → next_of l n (active_num k) d →
  d <= Z.of_nat fuel →
  let j := (active_num k + d) mod n in next_task fuel k = Ok tt (with_active j j k).
Proof.
  revert k d. induction fuel as [|fuel IH]; intros k d Hl HN (Hd1 & Hd2 & Hd3) Hf j; [lia|].
  cbn [next_task]. krun. rewrite (next_turn k Hl HN). set (j1 := (active_num k + 1) mod n).
  pose proof (Z.mod_pos_bound (active_num k + 1) n Hn) as Hj. fold j1 in Hj.
  destruct (tcb_at_runnable l j1 (with_active j1 j1 k)) as (t & Ht & _ & Hv); [done|lia|].
  rewrite (bind_ok _ _ _ _ _ Ht). destruct (decide (d = 1)) as [->|Hd].
  - destruct (msel_task_is_valid t); [done|]. exfalso. assert (false = true) by (by apply Hv). done.
  - destruct (msel_task_is_valid t); [exfalso; apply (Hd3 1); [lia|by apply Hv]|].
    assert (∀ e, (active_num (with_active j1 j1 k) + e) mod n = (active_num k + (e + 1)) mod n) as Hmod.
    { intros e. cbn. unfold j1. rewrite Zplus_mod_idemp_l. f_equal. lia. }
    rewrite (IH (with_active j1 j1 k) (d - 1)); [| done | done | | lia].
    + rewrite Hmod. replace (d - 1 + 1) with d by lia. done.
    + split; [lia|]. rewrite Hmod. replace (d - 1 + 1) with d by lia. split; [done|].
      intros e He. rewrite Hmod. apply Hd3. lia.
Qed.

Lemma next_task_hang fuel k : tasks k = l → num_tasks k = n →
  (∀ i, 0 <= i < n → ¬ runnable l (Z.to_nat i)) → next_task fuel k = Hang.
Proof.
  intros Hl HN Hno. revert k Hl HN. induction fuel as [|fuel IH]; intros k Hl HN; [done|].
  cbn [next_task]. krun. rewrite (next_turn k Hl HN). set (j1 := (active_num k + 1) mod n).
  pose proof (Z.mod_pos_bound (active_num k + 1) n Hn) as Hj. fold j1 in Hj.
  destruct (tcb_at_runnable l j1 (with_active j1 j1 k)) as (t & Ht & _ & Hv); [done|lia|].
  rewrite (bind_ok _ _ _ _ _ Ht). destruct (msel_task_is_valid t); [|by apply IH].
  exfalso. apply (Hno j1); [lia|by apply Hv].
Qed.
End round_robin.

Lemma status_leds_ok n i leds k : (i + n ≤ length (tasks k))%nat → ∃ v, status_leds n i leds k = Ok v k.
Proof.
  revert i leds. induction n as [|n IH]; intros i leds Hi; [by eexists|]. cbn [status_leds].
  destruct (lookup_lt_is_Some_2 (tasks k) i) as [t Ht]; [lia|].
  rewrite (bind_ok _ _ _ _ _ (tcb_at_eq _ _ _ Ht)). apply IH. lia.
Qed.

Lemma arch_gpio_write_ok ios vals k : ∃ g, arch_gpio_write ios vals k = Ok tt (with_gpio g k) ∧
  port0_in g = port0_in (k_gpio k) ∧ port0_conf_shadow g = port0_conf_shadow (k_gpio k).
Proof.
  unfold arch_gpio_write. destruct (ios .& 0xff =? 0).
  - exists (k_gpio k). split; [by destruct k|done].
  - by eexists.
Qed.

Lemma set_status_leds_ok k : (Z.to_nat (num_tasks k) ≤ length (tasks k))%nat →
  ∃ g, msel_set_status_leds k = Ok tt (with_gpio g k) ∧
  port0_in g = port0_in (k_gpio k) ∧ port0_conf_shadow g = port0_conf_shadow (k_gpio k).
Proof.
  intros Hn. unfold msel_set_status_leds. krun.
  destruct (status_leds_ok (Nat.min (Z.to_nat (num_tasks k)) 8) 0 0 k) as [v Hv]; [lia|].
  rewrite (bind_ok _ _ _ _ _ Hv). apply arch_gpio_write_ok.
Qed.

(** What every handler may rely on. *)
Record kernel_ok (k : kernel) : Prop := {
  ok_len : length (tasks k) = MSEL_TASKS_MAX;
  ok_num : 0 < num_tasks k <= 5;
  ok_reasons : reasons_ok (tasks k) }.

Lemma lookup_reap_list n l i t : l !! i = Some t → reap_list 0 n l !! i = Some (reaped 0 n i t).
Proof. intros H. unfold reap_list. by rewrite list_lookup_imap, H. Qed.

Lemma reap_runnable n l i : runnable (reap_list 0 n l) i ↔ runnable l i.
Proof.
  unfold runnable, reap_list. rewrite list_lookup_imap. destruct (l !! i) as [t|]; cbn; [|naive_solver].
  split; intros (u & [= <-] & Hu).
  - exists t. split; [done|]. unfold reaped in Hu. destruct (killed t && _ && _); [done|exact Hu].
  - eexists. split; [done|]. unfold reaped. destruct (killed t) eqn:E; [|done].
    unfold msel_task_is_valid, msel_task_is_killed in Hu. rewrite E, andb_false_r in Hu. done.
Qed.

(** The state after a task switch. *)
Definition switched (d : Z) (g : gpio) (r : nat) (k : kernel) : kernel :=
  let j := (active_num k + d) mod num_tasks k in
  let n := Z.to_nat (num_tasks k) in
  with_gpio g (with_active j j (with_tasks (reap_list 0 n (tasks k)) (sent (reap_msgs (tasks k) 0 n) r k))).

Lemma schedule_ok k i : kernel_ok k → 0 <= i < num_tasks k → runnable (tasks k) (Z.to_nat i) →
  ∃ d g r, msel_task_schedule k = Ok MSEL_OK (switched d g r k) ∧ d <= num_tasks k ∧
    next_of (tasks k) (num_tasks k) (active_num k) d ∧ port0_in g = port0_in (k_gpio k) ∧
    port0_conf_shadow g = port0_conf_shadow (k_gpio k).
Proof.
  intros [Hlen Hnum Hreas] Hi Hr. unfold msel_task_schedule. krun.
  destruct (Z.eqb_spec (num_tasks k) 0); [lia|].
  destruct (reap_all (Z.to_nat (num_tasks k)) 0 k) as [r Hreap]; [rewrite Hlen; unfold MSEL_TASKS_MAX; lia|done|].
  rewrite (bind_ok _ _ _ _ _ Hreap). clear Hreap. set (k1 := with_tasks _ _).
  assert (length (tasks k1) = 5%nat) as Hlen1.
  { unfold k1. rewrite tasks_with_tasks. unfold reap_list. by rewrite length_imap. }
  destruct (next_exists k1 ltac:(change (0 < num_tasks k); lia) (active_num k) i)
    as (d & Hd & Hnext); [done|by apply reap_runnable|].
  pose proof (next_task_ok k1 ltac:(change (num_tasks k <= Z.of_nat (length (tasks k1))); lia)
    ltac:(change (0 < num_tasks k); lia) ltac:(change (num_tasks k < 256); lia)
    (Z.to_nat (num_tasks k)) k1 d eq_refl eq_refl Hnext) as HT. cbv zeta in HT.
  change (num_tasks k1) with (num_tasks k) in *. rewrite (bind_ok _ _ _ _ _ (HT ltac:(lia))).
  match goal with |- context [bind _ _ ?s] => set (k2 := s) end.
  destruct (set_status_leds_ok k2) as (g & Hg & Hg1 & Hg2).
  { change (Z.to_nat (num_tasks k) ≤ length (tasks k1))%nat. lia. }
  rewrite (bind_ok _ _ _ _ _ Hg). exists d, g, r. split; [done|]. split; [done|]. split; [|done].
  destruct Hnext as (A & B & C). split; [done|]. split.
  - by apply (reap_runnable (Z.to_nat (num_tasks k))).
  - intros e He Hb. apply (C e He). by apply reap_runnable.
Qed.

(** The invariant survives a task switch. *)
Lemma reasons_ok_reap n l : reasons_ok l → reasons_ok (reap_list 0 n l).
Proof.
  intros H i t Hi Hk. unfold reap_list in Hi. rewrite list_lookup_imap in Hi.
  destruct (l !! i) as [u|] eqn:E; [|done]. injection Hi as <-. unfold reaped in *.
  destruct (killed u && _ && _); [done|]. by eapply H.
Qed.

Lemma kernel_ok_switched d g r k : kernel_ok k → kernel_ok (switched d g r k).
Proof.
  intros [Hlen Hnum Hr]. split; [|done|by apply reasons_ok_reap].
  change (length (reap_list 0 (Z.to_nat (num_tasks k)) (tasks k)) = MSEL_TASKS_MAX).
  unfold reap_list. by rewrite length_imap.
Qed.

(** C15: when some task can run, [msel_task_schedule] ends with MSEL_OK, having
    reported and cleared every finished task and nothing else of the task list,
    and the task it makes active is the first runnable one behind the previous
    one in cyclic order; memory is untouched. *)
Theorem schedule_round_robin k i : kernel_ok k → 0 <= i < num_tasks k → runnable (tasks k) (Z.to_nat i) →
  ∃ k' d, msel_task_schedule k = Ok MSEL_OK k' ∧
  next_of (tasks k) (num_tasks k) (active_num k) d ∧ d <= num_tasks k ∧
  active_num k' = (active_num k + d) mod num_tasks k ∧ active_task k' = active_num k' ∧
  runnable (tasks k') (Z.to_nat (active_num k')) ∧
  (∀ j t, tasks k !! j = Some t →
     tasks k' !! j = Some (if killed t && (j <? Z.to_nat (num_tasks k))%nat then tcb0 else t)) ∧
  uart_tx (k_uart k') = uart_tx (k_uart k) ++ reap_msgs (tasks k) 0 (Z.to_nat (num_tasks k)) ∧
  ram k' = ram k ∧ num_tasks k' = num_tasks k ∧ kernel_ok k'.
Proof.
  intros Hok Hi Hr. destruct (schedule_ok k i Hok Hi Hr) as (d & g & r & E & Hd & Hn & _).
  exists (switched d g r k), d. do 5 (split; [done|]). split; [|split; [|by split_and!; [..|apply kernel_ok_switched]]].
  - apply reap_runnable. apply Hn.
  - intros j t Ht. unfold switched. change (tasks _) with (reap_list 0 (Z.to_nat (num_tasks k)) (tasks k)).
    rewrite (lookup_reap_list _ _ _ _ Ht). unfold reaped. by rewrite andb_true_r.
Qed.

(** C30: when no task can run, [msel_task_schedule] never returns, however often
    the loop turns; the documented MSEL_EBUSY is not among its results. *)
Theorem schedule_never_busy k : kernel_ok k →
  (∀ i, 0 <= i < num_tasks k → ¬ runnable (tasks k) (Z.to_nat i)) →
  msel_task_schedule k = Hang ∧ ∀ fuel, next_task fuel k = Hang.
Proof.
  intros [Hlen Hnum Hreas] Hno. assert (num_tasks k <= Z.of_nat (length (tasks k))) as Hn by (rewrite Hlen; unfold MSEL_TASKS_MAX; lia).
  split; [|intros fuel; apply (next_task_hang k); (done || lia)].
  unfold msel_task_schedule. krun. destruct (Z.eqb_spec (num_tasks k) 0); [lia|].
  destruct (reap_all (Z.to_nat (num_tasks k)) 0 k) as [r Hreap]; [rewrite Hlen; unfold MSEL_TASKS_MAX; lia|done|].
  rewrite (bind_ok _ _ _ _ _ Hreap). clear Hreap. set (k1 := with_tasks _ _).
  assert (length (tasks k1) = length (tasks k)) as Hlen1
    by (unfold k1; rewrite tasks_with_tasks; unfold reap_list; by rewrite length_imap).
  assert (num_tasks k1 = num_tasks k) as Hn1 by done.
  apply bind_hang, (next_task_hang k1); [lia|lia|lia|done|done|].
  intros i Hi. unfold k1. rewrite tasks_with_tasks, reap_runnable. by apply Hno.
Qed.

(** [m] task switches in a row. *)
Fixpoint schedules (m : nat) : M unit :=
  match m with O => ret tt | S m => msel_task_schedule;; schedules m end.

(** C16: the scheduler is fair: a task that can run becomes active after at most
    [msel_num_tasks] switches. *)
Theorem schedule_fair k i : kernel_ok k → 0 <= i < num_tasks k → runnable (tasks k) (Z.to_nat i) →
  ∃ m k', (1 ≤ m)%nat ∧ Z.of_nat m <= num_tasks k ∧ schedules m k = Ok tt k' ∧ active_num k' = i.
Proof.
  intros Hok Hi Hr.
  assert (∀ D : nat, ∀ k, kernel_ok k → 0 <= i < num_tasks k → runnable (tasks k) (Z.to_nat i) →
    (active_num k + 1 + Z.of_nat D) mod num_tasks k = i →
    ∃ m k', (1 ≤ m)%nat ∧ Z.of_nat m <= 1 + Z.of_nat D ∧ schedules m k = Ok tt k' ∧ active_num k' = i) as H.
  { clear k Hok Hi Hr. induction D as [D IH] using lt_wf_ind. intros k Hok Hi Hr HD.
    destruct (schedule_ok k i Hok Hi Hr) as (d & g & r & E & Hd & (Hd1 & Hd2 & Hd3) & _).
    assert (d <= 1 + Z.of_nat D) as HdD.
    { destruct (Z.le_gt_cases d (1 + Z.of_nat D)) as [|Hgt]; [done|]. exfalso.
      apply (Hd3 (1 + Z.of_nat D)); [lia|]. by rewrite Z.add_assoc, HD. }
    destruct (decide (d = 1 + Z.of_nat D)) as [->|Hne].
    - exists 1%nat, (switched (1 + Z.of_nat D) g r k). split; [lia|]. split; [lia|]. split.
      + cbn [schedules]. by rewrite (bind_ok _ _ _ _ _ E).
      + change ((active_num k + (1 + Z.of_nat D)) mod num_tasks k = i). by rewrite Z.add_assoc.
    - destruct (IH (Z.to_nat (Z.of_nat D - d)) ltac:(lia) (switched d g r k)) as (m & k' & Hm1 & Hm2 & Hm3 & Hm4).
      + by apply kernel_ok_switched.
      + done.
      + by apply reap_runnable.
      + change (((active_num k + d) mod num_tasks k + 1 + Z.of_nat (Z.to_nat (Z.of_nat D - d))) mod num_tasks k = i).
        etransitivity; [|exact HD]. rewrite <- Z.add_assoc, Zplus_mod_idemp_l. f_equal. lia.
      + exists (S m), k'. split; [lia|]. split; [lia|]. split; [|done]. cbn [schedules].
        by rewrite (bind_ok _ _ _ _ _ E). }
  set (a := active_num k). destruct (H (Z.to_nat ((i - a - 1) mod num_tasks k)) k Hok Hi Hr) as (m & k' & A & B & C & E).
  - pose proof (Z.mod_pos_bound (i - a - 1) (num_tasks k)). rewrite Z2Nat.id, Zplus_mod_idemp_r by lia.
    fold a. replace (a + 1 + (i - a - 1)) with i by lia. by rewrite Z.mod_small.
  - exists m, k'. pose proof (Z.mod_pos_bound (i - a - 1) (num_tasks k)). split; [done|]. split; [lia|done].
Qed.

(** ** Creation *)

Lemma taskmem_eq s : 0 <= s <= 4 →
  taskmem_stack_bottom s = 0x200000 + 16384 * s ∧ taskmem_stack_top s = 0x200000 + 16384 * s + 2048 ∧
  taskmem_heap_start s = 0x200000 + 16384 * s + 2048 ∧ taskmem_heap_end s = 0x200000 + 16384 * s + 16384.
Proof.
  intros Hs. unfold taskmem_heap_start, taskmem_stack_bottom, taskmem_stack_top, taskmem_heap_end, tasks_start,
    RAM_START, tasks_size, tasks_stack_size. rewrite !u32_id by (unfold is_u32; lia). lia.
Qed.

Lemma load32_mem_set m dst v n a : dst <= a → a + 4 <= dst + Z.of_nat n →
  load32 (mem_set m dst v n) a = be32 (u8 v) (u8 v) (u8 v) (u8 v).
Proof.
  intros Ha Ha'. rewrite load32_eq.
  assert (∀ b, dst <= b < dst + Z.of_nat n → ldb (mem_set m dst v n) b = u8 v) as H.
  { intros b Hb. replace b with (dst + Z.of_nat (Z.to_nat (b - dst))) by lia. apply ldb_mem_set_eq. lia. }
  by rewrite !H by lia.
Qed.

Section regs.
Context (regs : Z) (t : msel_tcb) (m : mem).

Lemma init_regs_outside b : b < regs ∨ regs + 128 <= b → ldb (init_regs regs t m) b = ldb m b.
Proof.
  intros Hb. unfold init_regs, or_word, off_sr, off_pc, off_r3, off_r4, sizeof_saved_regs.
  rewrite !ldb_store32_ne by lia. apply ldb_mem_set_ne. lia.
Qed.

Lemma init_regs_pc : load32 (init_regs regs t m) (regs + off_pc) = u32 (entry t).
Proof.
  unfold init_regs, off_pc, off_r3, off_r4. rewrite 2!load32_store32_ne by lia. apply load32_store32_eq.
Qed.

Lemma init_regs_r3 : load32 (init_regs regs t m) (regs + off_r3) = u32 (arg t).
Proof. unfold init_regs, off_r3, off_r4. rewrite load32_store32_ne by lia. apply load32_store32_eq. Qed.

Lemma init_regs_r4 : load32 (init_regs regs t m) (regs + off_r4) = u32 (arg_sz t).
Proof. unfold init_regs. apply load32_store32_eq. Qed.

Lemma init_regs_sr : load32 (init_regs regs t m) (regs + off_sr) = 0x8066.
Proof.
  unfold init_regs, off_pc, off_r3, off_r4, off_sr. rewrite 3!load32_store32_ne by lia.
  unfold or_word. rewrite !load32_store32_eq, load32_mem_set by (unfold sizeof_saved_regs; lia). done.
Qed.
End regs.

Lemma free_slot_ok n i k : (i + n ≤ length (tasks k))%nat →
  ∃ s, free_slot n i k = Ok s k ∧ (i ≤ s ≤ i + n)%nat ∧
  (∀ j, (i ≤ j < s)%nat → ∃ t, tasks k !! j = Some t ∧ valid t = true) ∧
  ((s < i + n)%nat → ∃ t, tasks k !! s = Some t ∧ valid t = false).
Proof.
  revert i. induction n as [|n IH]; intros i Hi; cbn [free_slot].
  - exists i. split; [done|]. split; [lia|]. split; [intros; lia|lia].
  - destruct (lookup_lt_is_Some_2 (tasks k) i) as [t Ht]; [lia|].
    rewrite (bind_ok _ _ _ _ _ (tcb_at_eq _ _ _ Ht)). destruct (valid t) eqn:V.
    + destruct (IH (S i)) as (s & Es & Hs & H1 & H2); [lia|]. exists s. split; [done|]. split; [lia|].
      split; [|intros; apply H2; lia]. intros j Hj. destruct (decide (j = i)) as [->|]; [eauto|]. apply H1. lia.
    + exists i. split; [done|]. split; [lia|]. split; [intros; lia|eauto].
Qed.

(** What [taskmem_init] leaves in memory, and where. *)
Lemma taskmem_init_eq tn k : taskmem_init tn k =
  Ok tt (with_ram (heap_init (if tn =? 0 then ram k
    else mem_set (ram k) (taskmem_stack_bottom tn) 0 (Z.to_nat tasks_size))
    (taskmem_heap_start tn) (taskmem_heap_end tn)) k).
Proof.
  unfold taskmem_init. generalize (Z.to_nat tasks_size). intros n.
  destruct (tn =? 0); [by destruct k|reflexivity].
Qed.

Lemma ldb_block_cleared tn m b : 0 <= tn <= 4 → b < taskmem_stack_bottom tn ∨ taskmem_heap_end tn <= b →
  ldb (mem_set m (taskmem_stack_bottom tn) 0 (Z.to_nat tasks_size)) b = ldb m b.
Proof.
  intros Ht Hb. destruct (taskmem_eq tn Ht) as (E1 & E2 & E3 & E4). apply ldb_mem_set_ne.
  rewrite Z2Nat.id by done. unfold tasks_size. lia.
Qed.

(** A state that differs from [k] in memory and in one control block. *)
Definition touched (s : nat) (m : mem) (t : msel_tcb) (k : kernel) : kernel :=
  with_ram m (with_tasks (<[s := t]> (tasks k)) k).

Section touch.
Context (s : nat) (k : kernel) (Hs : (s < length (tasks k))%nat).

Lemma touched_tcb m t : tasks (touched s m t k) !! s = Some t.
Proof. cbn. by rewrite list_lookup_insert_eq. Qed.

Lemma touched_at m t : tcb_at (Z.of_nat s) (touched s m t k) = Ok t (touched s m t k).
Proof. apply tcb_at_eq, touched_tcb. Qed.

Lemma touched_upd m t f : tcb_upd (Z.of_nat s) f (touched s m t k) = Ok tt (touched s m (f t) k).
Proof.
  rewrite (tcb_upd_eq _ _ _ _ (touched_tcb m t)). f_equal. unfold touched. cbn. unfold with_tasks. cbn.
  by rewrite list_insert_insert_eq.
Qed.

Lemma touched_init m t : (s ≤ 4)%nat → ∃ m0, taskmem_init (Z.of_nat s) (touched s m t k) =
    Ok tt (touched s (heap_init m0 (taskmem_heap_start (Z.of_nat s)) (taskmem_heap_end (Z.of_nat s))) t k) ∧
  ∀ b, b < taskmem_stack_bottom (Z.of_nat s) ∨ taskmem_heap_end (Z.of_nat s) <= b → ldb m0 b = ldb m b.
Proof.
  intros Hs4. rewrite taskmem_init_eq. eexists. split; [reflexivity|]. intros b Hb.
  destruct (Z.of_nat s =? 0); [done|]. apply ldb_block_cleared; [lia|done].
Qed.

Lemma touched_arch m t : stack t = taskmem_stack_top (Z.of_nat s) → (s ≤ 4)%nat →
  let regs := taskmem_stack_top (Z.of_nat s) - 264 in
  arch_task_create (Z.of_nat s) (touched s m t k) =
  Ok MSEL_OK (touched s (init_regs regs (set_stack regs t) m) (set_stack regs t) k).
Proof.
  intros Hst Hs4 regs. unfold arch_task_create. destruct (taskmem_eq (Z.of_nat s)) as (_ & E2 & _); [lia|].
  rewrite !(bind_ok _ _ _ _ _ (touched_upd _ _ _)), (bind_ok _ _ _ _ _ (touched_at _ _)). krun.
  unfold sizeof_saved_regs. cbn [stack set_stack]. rewrite Hst.
  rewrite !u32_id; [|unfold is_u32; lia..|unfold is_u32; rewrite u32_id by (unfold is_u32; lia); lia].
  unfold ret. f_equal.
  replace (taskmem_stack_top (Z.of_nat s) - 128 - 136) with regs by (unfold regs; lia). done.
Qed.
End touch.

(** *** The argument

    [base, e) is the heap of the new task: one free chunk. *)
Lemma task_region s : (s ≤ 4)%nat →
  region_ok (taskmem_heap_start (Z.of_nat s)) (taskmem_heap_end (Z.of_nat s)).
Proof.
  intros Hs4. destruct (taskmem_eq (Z.of_nat s)) as (_ & _ & -> & ->); [lia|]. unfold region_ok. split_and!; align.
Qed.

Section new_heap.
Context (s : nat) (k : kernel) (Hs : (s < length (tasks k))%nat) (Hs4 : (s ≤ 4)%nat).
#[local] Abbreviation base := (taskmem_heap_start (Z.of_nat s)).
#[local] Abbreviation e := (taskmem_heap_end (Z.of_nat s)).

#[local] Abbreviation free_size := (e - heap_first base - 32).

Lemma free_size_eq : free_size = 14272.
Proof. destruct (taskmem_eq (Z.of_nat s)) as (_ & _ & -> & ->); [lia|]. unfold heap_first. lia. Qed.

(** The copy of the argument: in a block of the new heap. *)
Record arg_copied (m : mem) (arg_ arg_sz_ : Z) (m' : mem) (p : Z) : Prop := {
  copy_nonnull : p ≠ 0;
  copy_client : client_ok base e m' {[p := arg_sz_]};
  copy_outside : same_outside base e m m';
  copy_data : ∀ i, 0 <= i < arg_sz_ → arg_ + i < base ∨ e <= arg_ + i → ldb m' (p + i) = ldb m (arg_ + i) }.

Lemma malloc_arg m arg_ n : heap_inv base e m [(free_size, true)] → 0 <= n <= tasks_heap_size →
  (14272 < round_size n ∧ heap_malloc m base n = Some (m, 0)) ∨
  (round_size n <= 14272 ∧ ∃ m1 p, heap_malloc m base n = Some (m1, p) ∧
    arg_copied m arg_ n (mem_copy m1 p arg_ (Z.to_nat n)) p).
Proof.
  intros Hinv Hn. unfold tasks_heap_size, tasks_size, tasks_stack_size in Hn.
  pose proof (region_base _ _ (task_region s Hs4)) as Hb. pose proof (region_end _ _ (task_region s Hs4)) as He.
  pose proof (al_first base e Hb) as Ha. pose proof free_size_eq as Hf.
  assert (∀ x t, is_live (heap_first base) [(free_size, true)] x t → False) as Hno
    by (cbn [is_live]; intuition congruence).
  destruct (round_size_spec n) as (_ & Hr & _); [lia|lia|].
  destruct (heap_malloc_ok base e Hb He m _ n Hinv) as (m1 & p & E & Hp); [lia|lia|].
  destruct (heap_malloc_client base e Hb He m _ n Hinv) as (m1' & p' & E' & Hp'); [lia|lia|].
  rewrite E in E'. injection E' as <- <-.
  destruct Hp as [(-> & -> & Hnone)|(l & t & r & El & Hfit & _)].
  { left. split; [|done]. rewrite <- Hf. apply (Hnone (heap_first base)). cbn [is_free]. by left. }
  right. assert (round_size n <= 14272) as Hle.
  { destruct l as [|? []]; [|done|done]. injection El as <- _. lia. }
  split; [done|]. exists m1, p. split; [done|].
  destruct Hp' as [(-> & -> & Hnone)|(h & t' & cs' & -> & Hinv' & Ht & Hnew & HL & HD & HO)].
  { assert (free_size < round_size n) by (apply (Hnone (heap_first base)); cbn [is_free]; by left). lia. }
  assert (is_live (heap_first base) cs' h t') as Hl by (apply HL; by left).
  pose proof (is_live_bounds _ _ _ _ _ (at_tiled _ _ _ _ _ (proj1 Hinv')) Ha Hl) as (_ & _ & Hlow & Hhi & _).
  rewrite (at_span _ _ _ _ _ (proj1 Hinv')) in Hhi. unfold heap_first in Hlow.
  set (m2 := mem_copy m1 (h + 16) arg_ (Z.to_nat n)).
  assert (∀ b, b < h + 16 ∨ h + 16 + n <= b → ldb m2 b = ldb m1 b) as Hframe
    by (intros b Hbb; apply ldb_mem_copy_ne; lia).
  split; [lia| | |].
  - exists cs'. split; [apply (heap_inv_write base e Hb He m1 m2 cs' h t' Hinv' Hl); intros; apply Hframe; lia|]. split.
    + intros q j Hq. apply lookup_singleton_Some in Hq as [<- <-]. exists t'.
      replace (h + 16 - 16) with h by lia. split; [done|lia].
    + intros x u Hx. apply HL in Hx as [[-> ->]|Hx]; [|by apply Hno in Hx]. by rewrite lookup_singleton_eq.
  - intros b Hbb. rewrite Hframe by lia. by apply HO.
  - intros i Hi Hout. unfold m2. replace i with (Z.of_nat (Z.to_nat i)) by lia.
    rewrite ldb_mem_copy_eq by lia. apply HO. lia.
Qed.

Definition has_arg (arg_ arg_sz_ : Z) : bool := negb (arg_sz_ =? 0) && negb (arg_ =? 0).

Lemma copy_arg_ok m t arg_ n : heap_inv base e m [(free_size, true)] → 0 <= n <= tasks_heap_size →
  (has_arg arg_ n = false ∧ copy_arg (Z.of_nat s) arg_ n (touched s m t k) = Ok MSEL_OK (touched s m t k)) ∨
  (has_arg arg_ n = true ∧ 14272 < round_size n ∧ copy_arg (Z.of_nat s) arg_ n (touched s m t k) =
     Ok MSEL_ERESOURCE (touched s m (set_arg 0 n t) k)) ∨
  (has_arg arg_ n = true ∧ round_size n <= 14272 ∧ ∃ m' p, copy_arg (Z.of_nat s) arg_ n (touched s m t k) =
     Ok MSEL_OK (touched s m' (set_arg p n t) k) ∧ arg_copied m arg_ n m' p).
Proof.
  intros Hinv Hn. unfold copy_arg, has_arg. destruct (negb (n =? 0) && negb (arg_ =? 0)); [right|by left].
  krun. change (ram (touched s m t k)) with m.
  destruct (malloc_arg m arg_ n Hinv Hn) as [[Hr ->]|(Hr & m1 & p & -> & Hc)].
  - left. split; [done|]. split; [done|]. krun. change (with_ram m (touched s m t k)) with (touched s m t k).
    by rewrite (bind_ok _ _ _ _ _ (touched_upd s k Hs _ _ _)).
  - right. split; [done|]. split; [done|]. krun. exists (mem_copy m1 p arg_ (Z.to_nat n)), p. split; [|done].
    change (with_ram m1 (touched s m t k)) with (touched s m1 t k).
    rewrite (bind_ok _ _ _ _ _ (touched_upd s k Hs _ _ _)).
    destruct (Z.eqb_spec p 0); [by destruct (copy_nonnull _ _ _ _ _ Hc)|]. done.
Qed.
End new_heap.

(** What a new task starts with: its control block [t], the saved registers its
    first switch restores, and a heap with at most the argument's block. *)
Record task_started (s : Z) (entry_ arg_ arg_sz_ : Z) (k k' : kernel) (t : msel_tcb) : Prop := {
  st_tcb : tasks k' !! Z.to_nat s = Some t;
  st_runnable : msel_task_is_valid t = true;
  st_entry : entry t = entry_;
  st_num : num t = s;
  st_ctx : ctx_id t = 0;
  st_stack : stack t = taskmem_stack_top s - 264;
  st_pc : load32 (ram k') (stack t + off_pc) = entry_;
  st_sr : load32 (ram k') (stack t + off_sr) = 0x8066;
  st_regs : load32 (ram k') (stack t + off_r3) = 0 ∧ load32 (ram k') (stack t + off_r4) = 0;
  st_heap : client_ok (taskmem_heap_start s) (taskmem_heap_end s) (ram k')
    (if has_arg arg_ arg_sz_ then {[arg t := arg_sz_]} else ∅);
  st_arg : has_arg arg_ arg_sz_ = true → ∀ i, 0 <= i < arg_sz_ →
    arg_ + i < taskmem_stack_bottom s ∨ taskmem_heap_end s <= arg_ + i →
    ldb (ram k') (arg t + i) = ldb (ram k) (arg_ + i) }.

(** Nothing outside the memory block of task [s] and its control block changes. *)
Record task_confined (s : Z) (k k' : kernel) : Prop := {
  cf_mem : ∀ b, b < taskmem_stack_bottom s ∨ taskmem_heap_end s <= b → ldb (ram k') b = ldb (ram k) b;
  cf_tcbs : ∀ j, j ≠ Z.to_nat s → tasks k' !! j = tasks k !! j;
  cf_len : length (tasks k') = length (tasks k);
  cf_active : active_num k' = active_num k ∧ active_task k' = active_task k;
  cf_rest : k_uart k' = k_uart k ∧ k_ffs k' = k_ffs k }.

Definition bad_args (entry_ arg_ arg_sz_ : Z) : bool :=
  (entry_ =? 0) || (negb (arg_ =? 0) && (arg_sz_ =? 0)) || (tasks_heap_size <? arg_sz_).

(** The control block before the argument is copied. *)
Definition fresh_tcb (s entry_ : Z) : msel_tcb :=
  Tcb (taskmem_stack_top s - 264) (taskmem_stack_top s) (taskmem_stack_size s)
    (taskmem_heap_start s) (taskmem_heap_size s) entry_ 0 0 false false None
    MSEL_TASK_WAIT_NONE 0 0 0 s.

Lemma load32_same m m' a : (∀ b, a <= b < a + 4 → ldb m' b = ldb m b) → load32 m' a = load32 m a.
Proof. intros H. rewrite !load32_eq. by rewrite !H by lia. Qed.

Section create.
Context (s : nat) (k : kernel) (Hs : (s < length (tasks k))%nat) (Hs4 : (s ≤ 4)%nat).
#[local] Abbreviation z := (Z.of_nat s).
#[local] Abbreviation regs := (taskmem_stack_top z - 264).

(** The memory when the new heap and registers are in place. *)
Definition prepared (entry_ : Z) (m : mem) : Prop :=
  heap_inv (taskmem_heap_start z) (taskmem_heap_end z) m
    [(taskmem_heap_end z - heap_first (taskmem_heap_start z) - 32, true)] ∧
  (∀ b, b < taskmem_stack_bottom z ∨ taskmem_heap_end z <= b → ldb m b = ldb (ram k) b) ∧
  load32 m (regs + off_pc) = u32 entry_ ∧ load32 m (regs + off_sr) = 0x8066 ∧
  load32 m (regs + off_r3) = 0 ∧ load32 m (regs + off_r4) = 0.

Lemma prepare_ok entry_ (f : unit → M (msel_status * option Z)) (t0 : msel_tcb) : tasks k !! s = Some t0 →
  ∃ m, prepared entry_ m ∧
  (tcb_upd z (λ _, tcb0);; taskmem_init z;;
   tcb_upd z (λ _, Tcb (taskmem_stack_top z) (taskmem_stack_top z) (taskmem_stack_size z)
     (taskmem_heap_start z) (taskmem_heap_size z) entry_ 0 0 false false None MSEL_TASK_WAIT_NONE 0 0 0 z);;
   let* arch := arch_task_create z in
   if negb (bool_decide (arch = MSEL_OK)) then
     tcb_upd z (set_valid false);; ret (MSEL_EUNKNOWN, None)
   else f tt) k = f tt (touched s m (fresh_tcb z entry_) k).
Proof.
  intros Ht. destruct (taskmem_eq z) as (E1 & E2 & E3 & E4); [lia|].
  rewrite (bind_ok _ _ _ _ _ (tcb_upd_eq s _ k t0 Ht)).
  change (with_tasks (<[s := tcb0]> (tasks k)) k) with (touched s (ram k) tcb0 k).
  destruct (touched_init s k Hs (ram k) tcb0 Hs4) as (m0 & Hi & Hm0). rewrite (bind_ok _ _ _ _ _ Hi).
  rewrite (bind_ok _ _ _ _ _ (touched_upd s k Hs _ _ _)).
  match goal with |- context [touched s ?m ?t k] => pose proof (touched_arch s k Hs m t eq_refl Hs4) as Harch end.
  cbv zeta in Harch. rewrite (bind_ok _ _ _ _ _ Harch). rewrite bool_decide_true by done. cbn [negb].
  eexists. split; [|reflexivity].
  pose proof (region_base _ _ (task_region s Hs4)) as Hb. pose proof (region_end _ _ (task_region s Hs4)) as He.
  split; [|split; [|split; [apply init_regs_pc|split; [apply init_regs_sr|split; [apply init_regs_r3|apply init_regs_r4]]]]].
  - eapply (heap_inv_outside _ _ Hb He); [apply (heap_init_ok _ _ Hb He)|].
    + unfold heap_first. lia.
    + intros b Hbb. apply init_regs_outside. lia.
  - intros b Hbb. rewrite init_regs_outside by lia. rewrite (heap_init_outside _ _ (task_region s Hs4)) by lia.
    apply Hm0. lia.
Qed.

Lemma prepared_started entry_ m t (a n : Z) k' : is_u32 entry_ → prepared entry_ m →
  t = set_valid true (set_arg a n (fresh_tcb z entry_)) → tasks k' = <[s := t]> (tasks k) →
  same_outside (taskmem_heap_start z) (taskmem_heap_end z) m (ram k') →
  ∀ arg_ arg_sz_,
  client_ok (taskmem_heap_start z) (taskmem_heap_end z) (ram k')
    (if has_arg arg_ arg_sz_ then {[a := arg_sz_]} else ∅) →
  (has_arg arg_ arg_sz_ = true → ∀ i, 0 <= i < arg_sz_ →
    arg_ + i < taskmem_heap_start z ∨ taskmem_heap_end z <= arg_ + i → ldb (ram k') (a + i) = ldb m (arg_ + i)) →
  task_started z entry_ arg_ arg_sz_ k k' t.
Proof.
  intros He (Hinv & Hout & Hpc & Hsr & Hr3 & Hr4) -> Hl Hsame arg_ arg_sz_ Hc Hd.
  destruct (taskmem_eq z) as (E1 & E2 & E3 & E4); [lia|].
  assert (∀ o, 0 <= o → o + 4 <= 128 → load32 (ram k') (regs + o) = load32 m (regs + o)) as HW.
  { intros o Ho Ho'. apply load32_same. intros b Hb. apply Hsame. lia. }
  split; try done.
  - by rewrite Hl, Nat2Z.id, list_lookup_insert_eq.
  - cbn. rewrite HW by (unfold off_pc; lia). by rewrite Hpc, u32_id.
  - cbn. by rewrite HW by (unfold off_sr; lia).
  - cbn. rewrite !HW by (unfold off_r3, off_r4; lia). done.
  - intros Ha i Hi Hib. cbn. rewrite Hd by (done || lia). apply Hout. lia.
Qed.
End create.

(** The four outcomes of [msel_task_create]. *)
Inductive create_outcome (k : kernel) (entry_ arg_ arg_sz_ : Z) : msel_status * option Z → kernel → Prop :=
  | create_full :
      (∀ j t, tasks k !! j = Some t → valid t = true) →
      create_outcome k entry_ arg_ arg_sz_ (MSEL_ERESOURCE, None) k
  | create_invalid :
      bad_args entry_ arg_ arg_sz_ = true →
      create_outcome k entry_ arg_ arg_sz_ (MSEL_EINVAL, None) k
  | create_no_heap s k' :
      bad_args entry_ arg_ arg_sz_ = false → has_arg arg_ arg_sz_ = true → 14272 < round_size arg_sz_ →
      task_confined s k k' → num_tasks k' = num_tasks k →
      (∃ t, tasks k' !! Z.to_nat s = Some t ∧ valid t = false) →
      create_outcome k entry_ arg_ arg_sz_ (MSEL_ERESOURCE, None) k'
  | create_done s t k' :
      bad_args entry_ arg_ arg_sz_ = false →
      (∀ j, (j < Z.to_nat s)%nat → ∃ u, tasks k !! j = Some u ∧ valid u = true) →
      (∃ u, tasks k !! Z.to_nat s = Some u ∧ valid u = false) →
      task_confined s k k' → num_tasks k' = u32 (num_tasks k + 1) →
      task_started s entry_ arg_ arg_sz_ k k' t →
      create_outcome k entry_ arg_ arg_sz_ (MSEL_OK, Some s) k'.

Section created.
Context (s : nat) (k : kernel) (Hs : (s < length (tasks k))%nat) (Hs4 : (s ≤ 4)%nat).
Context (entry_ : Z) (m : mem) (Hp : prepared s k entry_ m).

Lemma touched_confined m' t :
  same_outside (taskmem_heap_start (Z.of_nat s)) (taskmem_heap_end (Z.of_nat s)) m m' →
  task_confined (Z.of_nat s) k (touched s m' t k).
Proof.
  intros Hsame. destruct Hp as (_ & Hout & _). destruct (taskmem_eq (Z.of_nat s)) as (E1 & E2 & E3 & E4); [lia|].
  split; [|intros j Hj; rewrite Nat2Z.id in Hj; cbn; by rewrite list_lookup_insert_ne|cbn; by rewrite length_insert|done|done].
  intros b Hb. cbn. rewrite Hsame by lia. by apply Hout.
Qed.

Lemma prepared_client : client_ok (taskmem_heap_start (Z.of_nat s)) (taskmem_heap_end (Z.of_nat s)) m ∅.
Proof.
  destruct Hp as (Hinv & _). eexists. split; [exact Hinv|]. split.
  - intros p n Hn. by rewrite lookup_empty in Hn.
  - cbn [is_live]. intuition congruence.
Qed.
End created.

Lemma bad_args_size entry_ arg_ n : bad_args entry_ arg_ n = false → n <= tasks_heap_size.
Proof. unfold bad_args. intros [_ H]%orb_false_iff. by apply Z.ltb_ge. Qed.

Lemma task_create_ok k entry_ arg_ arg_sz_ : length (tasks k) = MSEL_TASKS_MAX → is_u32 entry_ → 0 <= arg_sz_ →
  ∃ r k', msel_task_create entry_ arg_ arg_sz_ k = Ok r k' ∧ create_outcome k entry_ arg_ arg_sz_ r k'.
Proof.
  intros Hlen He Hn. unfold MSEL_TASKS_MAX in Hlen. unfold msel_task_create.
  destruct (free_slot_ok MSEL_TASKS_MAX 0 k) as (s & Es & Hs & Hbelow & Hfree); [rewrite Hlen; done|].
  rewrite (bind_ok _ _ _ _ _ Es). unfold MSEL_TASKS_MAX in *. destruct (Nat.eqb_spec s 5) as [->|Hne].
  { eexists _, _. split; [done|]. constructor. intros j t Ht. pose proof (lookup_lt_Some _ _ _ Ht).
    destruct (Hbelow j) as (u & Hu & Hv); [lia|]. congruence. }
  change ((entry_ =? 0) || (negb (arg_ =? 0) && (arg_sz_ =? 0)) || (taskmem_heap_size (Z.of_nat s) <? arg_sz_))
    with (bad_args entry_ arg_ arg_sz_).
  destruct (bad_args entry_ arg_ arg_sz_) eqn:Hbad; [eexists _, _; split; [done|by constructor]|].
  assert (s < length (tasks k))%nat as Hsl by lia. assert (s ≤ 4)%nat as Hs4 by lia.
  destruct Hfree as (t0 & Ht0 & Hv0); [lia|].
  match goal with |- context [bind (arch_task_create _) (λ a, if negb (bool_decide (a = MSEL_OK)) then _ else ?g)] =>
    destruct (prepare_ok s k Hsl Hs4 entry_ (λ _, g) t0 Ht0) as (m & Hp & ->) end.
  pose proof (bad_args_size _ _ _ Hbad) as Hmax.
  destruct (copy_arg_ok s k Hsl Hs4 m (fresh_tcb (Z.of_nat s) entry_) arg_ arg_sz_ (proj1 Hp) ltac:(lia))
    as [(Ha & Ec)|[(Ha & Hbig & Ec)|(Ha & Hfit & m' & p & Ec & Hc)]];
    rewrite (bind_ok _ _ _ _ _ Ec).
  - rewrite bool_decide_true by done. cbn [negb]. rewrite (bind_ok _ _ _ _ _ (touched_upd s k Hsl _ _ _)). krun.
    eexists _, _. split; [done|]. eapply create_done; [done|by rewrite Nat2Z.id; intros; apply Hbelow; lia|
      rewrite Nat2Z.id; by eexists| |done|].
    + destruct (touched_confined s k Hsl Hs4 entry_ m Hp m (set_valid true (fresh_tcb (Z.of_nat s) entry_))) as [C1 C2 C3 C4 C5];
        [by intros b _|]. by split.
    + eapply (prepared_started s k Hsl Hs4 entry_ m _ 0 0); [done|done|reflexivity|done|by intros b _| |].
      * rewrite Ha. exact (prepared_client s k entry_ m Hp).
      * by rewrite Ha.
  - rewrite bool_decide_false by done. cbn [negb]. rewrite (bind_ok _ _ _ _ _ (touched_upd s k Hsl _ _ _)).
    eexists _, _. split; [done|]. eapply (create_no_heap _ _ _ _ (Z.of_nat s)); try done.
    + apply (touched_confined s k Hsl Hs4 entry_ m Hp m). by intros b _.
    + rewrite Nat2Z.id, touched_tcb by done. by eexists.
  - rewrite bool_decide_true by done. cbn [negb]. rewrite (bind_ok _ _ _ _ _ (touched_upd s k Hsl _ _ _)). krun.
    eexists _, _. split; [done|]. eapply create_done; [done|by rewrite Nat2Z.id; intros; apply Hbelow; lia|
      rewrite Nat2Z.id; by eexists| |done|].
    + destruct (touched_confined s k Hsl Hs4 entry_ m Hp m' (set_valid true (set_arg p arg_sz_ (fresh_tcb (Z.of_nat s) entry_))))
        as [C1 C2 C3 C4 C5]; [apply Hc|]. by split.
    + eapply (prepared_started s k Hsl Hs4 entry_ m _ p arg_sz_); [done|done|reflexivity|done|apply Hc| |].
      * rewrite Ha. apply Hc.
      * intros _. apply Hc.
Qed.

(** C17: [msel_task_create] takes the lowest free slot or fails as documented.
    Whatever happens, it changes no byte outside the new task's memory block and
    no other control block.  A created task is runnable at its entry point, with
    interrupts, timer and both MMUs enabled, a working heap, and the caller's
    argument copied into that heap; but the registers through which the entry
    function receives the argument and its size are always 0. *)
Theorem task_create_spec k entry_ arg_ arg_sz_ : length (tasks k) = MSEL_TASKS_MAX → is_u32 entry_ → 0 <= arg_sz_ →
  ∃ r k', msel_task_create entry_ arg_ arg_sz_ k = Ok r k' ∧ create_outcome k entry_ arg_ arg_sz_ r k'.
Proof. apply task_create_ok. Qed.

(** ** Reusing slots *)

(** A task is created and ends, [n] times. *)
Fixpoint churn (entry_ : Z) (n : nat) : M unit :=
  match n with
  | O => ret tt
  | S n =>
      let* r := msel_task_create entry_ 0 0 in
      match snd r with
      | Some tid => msel_task_force_kill tid "exited";; churn entry_ n
      | None => ret tt
      end
  end.

(** The kernel when only [msel_main] runs, with [n] tasks counted. *)
Record idle (n : Z) (k : kernel) : Prop := {
  idle_len : length (tasks k) = MSEL_TASKS_MAX;
  idle_reasons : reasons_ok (tasks k);
  idle_num : num_tasks k = n;
  idle_main : runnable (tasks k) 0;
  idle_free : ∃ t, tasks k !! 1%nat = Some t ∧ valid t = false }.

Lemma runnable_valid l i : runnable l i → ∃ t, l !! i = Some t ∧ valid t = true ∧ killed t = false.
Proof.
  intros (t & Ht & Hv). exists t. split; [done|]. unfold msel_task_is_valid, msel_task_is_killed in Hv.
  destruct (valid t), (killed t); done.
Qed.

Lemma reap_overrun n from k : (from ≤ length (tasks k))%nat → (length (tasks k) < from + n)%nat →
  reasons_ok (tasks k) → for_m from n reap k = Oob.
Proof.
  revert from k. induction n as [|n IH]; intros from k H1 H2 Hr; [lia|]. rewrite for_m_S.
  destruct (decide (from = length (tasks k))) as [->|Hne].
  - apply bind_oob. unfold reap. apply bind_oob. by apply tcb_at_oob.
  - destruct (lookup_lt_is_Some_2 (tasks k) from) as [t Ht]; [lia|].
    destruct (reap_ok from k t Ht (Hr from t Ht)) as [r1 E1]. rewrite (bind_ok _ _ _ _ _ E1).
    apply IH; rewrite ?tasks_with_tasks, ?length_insert; [lia|lia|by apply reasons_ok_insert].
Qed.

Lemma started_reasons s entry_ arg_ arg_sz_ k k' t : reasons_ok (tasks k) → task_confined s k k' →
  task_started s entry_ arg_ arg_sz_ k k' t → reasons_ok (tasks k').
Proof.
  intros Hreas Hcf Hst j v Hv Hk. destruct (decide (j = Z.to_nat s)) as [->|Hne].
  - rewrite (st_tcb _ _ _ _ _ _ _ Hst) in Hv. injection Hv as <-. pose proof (st_runnable _ _ _ _ _ _ _ Hst) as Hr.
    unfold msel_task_is_valid, msel_task_is_killed in Hr. rewrite Hk, andb_false_r in Hr. done.
  - rewrite (cf_tcbs _ _ _ Hcf) in Hv by done. by eapply Hreas.
Qed.

(** Creating a task next to [msel_main] takes slot 1. *)
Lemma idle_create n k entry_ : idle n k → 1 <= n <= 5 → 0 < entry_ < 2 ^ 32 →
  ∃ k1 t, msel_task_create entry_ 0 0 k = Ok (MSEL_OK, Some 1) k1 ∧ num_tasks k1 = n + 1 ∧
  length (tasks k1) = MSEL_TASKS_MAX ∧ reasons_ok (tasks k1) ∧ runnable (tasks k1) 0 ∧ tasks k1 !! 1%nat = Some t.
Proof.
  intros [Hlen Hreas Hnum Hmain (t1 & Ht1 & Hv1)] Hn He.
  destruct (task_create_ok k entry_ 0 0 Hlen) as (r & k1 & E & Hc); [unfold is_u32; lia|lia|].
  destruct (runnable_valid _ _ Hmain) as (t0 & Ht0 & Hv0 & _).
  destruct Hc as [Hfull|Hbad|s k1 _ Hf|s t k1 _ Hbelow (u & Hu & Hvu) Hcf Hnum1 Hst].
  - rewrite (Hfull 1%nat t1 Ht1) in Hv1. done.
  - unfold bad_args in Hbad. destruct (Z.eqb_spec entry_ 0); [lia|done].
  - done.
  - assert (Z.to_nat s = 1%nat) as Es.
    { destruct (Z.to_nat s) as [|[|j]] eqn:Ej; [|done|].
      - rewrite Ht0 in Hu. congruence.
      - destruct (Hbelow 1%nat) as (v & Hv & Hvv); [lia|]. congruence. }
    assert (s = 1) as -> by lia. exists k1, t. split; [done|].
    split; [rewrite Hnum1, Hnum; apply u32_id; unfold is_u32; lia|].
    pose proof (st_tcb _ _ _ _ _ _ _ Hst) as Ht. change (Z.to_nat 1) with 1%nat in *.
    assert (∀ j, j ≠ 1%nat → tasks k1 !! j = tasks k !! j) as Hother by (apply Hcf).
    split; [|split; [|split; [|done]]].
    + by rewrite (cf_len _ _ _ Hcf).
    + by eapply started_reasons.
    + unfold runnable. by rewrite Hother.
Qed.

Lemma reasons_ok_kill l i t why : reasons_ok l → reasons_ok (<[i := set_killed why t]> l).
Proof.
  intros H j u Hj Hk. apply list_lookup_insert_Some in Hj as [(-> & <- & _)|[_ Hj]]; [by eexists|by eapply H].
Qed.

Lemma runnable_insert_ne l i j t : i ≠ j → runnable (<[i := t]> l) j ↔ runnable l j.
Proof. intros H. unfold runnable. by rewrite list_lookup_insert_ne. Qed.

Lemma idle_churn n k entry_ m : idle n k → 1 <= n <= 4 → 0 < entry_ < 2 ^ 32 →
  ∃ k2, idle (n + 1) k2 ∧ churn entry_ (S m) k = churn entry_ m k2.
Proof.
  intros Hidle Hn He.
  destruct (idle_create n k entry_ Hidle ltac:(lia) He) as (k1 & t & E & Hnum & Hlen & Hreas & Hmain & Ht).
  cbn [churn]. rewrite (bind_ok _ _ _ _ _ E). cbn [snd]. unfold msel_task_force_kill. rewrite !bind_assoc.
  rewrite (bind_ok _ _ _ _ _ (tcb_upd_eq 1 _ k1 t Ht)). set (k2 := with_tasks _ k1).
  assert (kernel_ok k2) as Hok2.
  { split; [unfold k2; by rewrite tasks_with_tasks, length_insert|change (0 < num_tasks k1 <= 5); lia|].
    unfold k2. rewrite tasks_with_tasks. by apply reasons_ok_kill. }
  assert (runnable (tasks k2) 0) as Hmain2 by (unfold k2; rewrite tasks_with_tasks; by apply runnable_insert_ne).
  destruct (schedule_ok k2 0 Hok2) as (d & g & r & Es & _); [change (0 <= 0 < num_tasks k1); lia|done|].
  rewrite !bind_assoc, (bind_ok _ _ _ _ _ Es), bind_ret. eexists. split; [|done].
  destruct (kernel_ok_switched d g r k2 Hok2) as [A B C]. split; [done|done|exact Hnum|by apply reap_runnable|].
  exists tcb0. split; [|done]. change (tasks (switched d g r k2)) with (reap_list 0 (Z.to_nat (num_tasks k1)) (tasks k2)).
  rewrite (lookup_reap_list _ _ 1 (set_killed "exited" t)).
  - unfold reaped. cbn [killed set_killed]. rewrite Hnum. destruct (Nat.ltb_spec 1 (0 + Z.to_nat (n + 1))); [done|lia].
  - unfold k2. rewrite tasks_with_tasks. apply list_lookup_insert_eq. rewrite Hlen. unfold MSEL_TASKS_MAX. lia.
Qed.

(** C31: [msel_num_tasks] only grows: after four tasks have come and gone the
    fifth, although every slot is free again, makes the scheduler read behind the
    end of [msel_task_list]. *)
Theorem task_churn_overruns k entry_ : idle 1 k → 0 < entry_ < 2 ^ 32 →
  (∃ k', churn entry_ 4 k = Ok tt k' ∧ idle 5 k') ∧ churn entry_ 5 k = Oob.
Proof.
  intros H1 He. assert (∀ m, ∃ k5, idle 5 k5 ∧ churn entry_ (4 + m) k = churn entry_ m k5) as H.
  { intros m. destruct (idle_churn 1 k entry_ (3 + m) H1 ltac:(lia) He) as (k2 & H2 & E2).
    destruct (idle_churn 2 k2 entry_ (2 + m) H2 ltac:(lia) He) as (k3 & H3 & E3).
    destruct (idle_churn 3 k3 entry_ (1 + m) H3 ltac:(lia) He) as (k4 & H4 & E4).
    destruct (idle_churn 4 k4 entry_ m H4 ltac:(lia) He) as (k5 & H5 & E5).
    exists k5. split; [done|]. exact (eq_trans E2 (eq_trans E3 (eq_trans E4 E5))). }
  split.
  { destruct (H 0%nat) as (k5 & H5 & E5). by exists k5. }
  destruct (H 1%nat) as (k5 & H5 & E5). change 5%nat with (4 + 1)%nat. rewrite E5.
  destruct (idle_create 5 k5 entry_ H5 ltac:(lia) He) as (k6 & t & E & Hnum & Hlen & Hreas & Hmain & Ht).
  cbn [churn]. rewrite (bind_ok _ _ _ _ _ E). cbn [snd]. unfold msel_task_force_kill. rewrite !bind_assoc.
  rewrite (bind_ok _ _ _ _ _ (tcb_upd_eq 1 _ k6 t Ht)). set (k7 := with_tasks _ k6).
  apply bind_oob, bind_oob. unfold msel_task_schedule. rewrite gets_bind.
  change (num_tasks k7) with (num_tasks k6). rewrite Hnum. cbn [Z.eqb].
  apply bind_oob, reap_overrun; unfold k7; rewrite ?tasks_with_tasks, ?length_insert, ?Hlen;
    [lia|unfold MSEL_TASKS_MAX; lia|by apply reasons_ok_kill].
Qed.

(** ** Examples *)

(** A kernel with the given task list. *)
Definition example_kernel (l : list msel_tcb) (n a : Z) : kernel :=
  Kernel (Sched l n a a) 0 ∅ (Uart (replicate MSEL_TASKS_MAX (UartEntry 0 0 0)) 0 [] 0) (Gpio 0 0 0) (Pol 0 0)
    (Mmu ∅ 0 0 0 0)
    (Ffs false (Cbuf [] 0 0 0) [] (Cbuf [] 0 0 0) [] 0 0 0 0 false [] (0, 0) [] 0 0).

Definition ready_tcb : msel_tcb := set_valid true tcb0.

(** The main task, one that has just been killed, and one that can run. *)
Definition example_trio : list msel_tcb := [ready_tcb; set_killed "exited" ready_tcb; ready_tcb; tcb0; tcb0].

Lemma example_ok l n a : length l = 5%nat → 0 < n <= 5 →
  Forall (λ t, killed t = true → is_Some (reason t)) l → kernel_ok (example_kernel l n a).
Proof.
  intros Hl Hn Hr. split; [done|done|]. intros i t Ht Hk. eapply Forall_lookup in Hr; [|exact Ht]. by apply Hr.
Qed.

Lemma example_trio_ok a : kernel_ok (example_kernel example_trio 3 a).
Proof. apply example_ok; [done|lia|]. repeat constructor; done. Qed.

Lemma example_trio_runnable : runnable example_trio 0 ∧ runnable example_trio 2.
Proof. split; by eexists. Qed.

Lemma schedule_round_robin_witness : ∃ k' d, msel_task_schedule (example_kernel example_trio 3 0) = Ok MSEL_OK k' ∧
  next_of example_trio 3 0 d ∧ active_num k' = (0 + d) mod 3 ∧ tasks k' !! 1%nat = Some tcb0.
Proof.
  destruct (schedule_round_robin (example_kernel example_trio 3 0) 2 (example_trio_ok 0) ltac:(cbn; lia)
    (proj2 example_trio_runnable)) as (k' & d & E & Hn & _ & Ha & _ & _ & Ht & _).
  exists k', d. split; [exact E|]. split; [exact Hn|]. split; [exact Ha|]. exact (Ht 1%nat _ eq_refl).
Defined.

Lemma schedule_never_busy_witness : msel_task_schedule (example_kernel (replicate 5 tcb0) 2 0) = Hang.
Proof.
  apply (schedule_never_busy (example_kernel (replicate 5 tcb0) 2 0)).
  - apply example_ok; [done|lia|]. by repeat constructor.
  - intros i Hi (t & Ht & Hv). apply lookup_replicate_1 in Ht as [-> _]. done.
Defined.

Lemma schedule_fair_witness : ∃ m k', (1 ≤ m)%nat ∧ Z.of_nat m <= 3 ∧
  schedules m (example_kernel example_trio 3 0) = Ok tt k' ∧ active_num k' = 2.
Proof.
  exact (schedule_fair (example_kernel example_trio 3 0) 2 (example_trio_ok 0) ltac:(cbn; lia) (proj2 example_trio_runnable)).
Defined.

Lemma task_create_spec_witness : ∃ r k',
  msel_task_create 0x100400 0 0 (example_kernel example_trio 3 0) = Ok r k' ∧
  create_outcome (example_kernel example_trio 3 0) 0x100400 0 0 r k'.
Proof. apply (task_create_spec (example_kernel example_trio 3 0) 0x100400 0 0); [done|unfold is_u32; lia|done]. Defined.

Lemma task_churn_overruns_witness : churn 0x100400 5 (example_kernel (ready_tcb :: replicate 4 tcb0) 1 0) = Oob.
Proof.
  apply (task_churn_overruns (example_kernel (ready_tcb :: replicate 4 tcb0) 1 0) 0x100400); [|lia].
  split; [done| |done|by eexists|by eexists].
  apply (example_ok (ready_tcb :: replicate 4 tcb0) 1 0); [done|lia|]. by repeat constructor.
Defined.
