(* ===== verification/Session.v ===== *)
(** * Sessions over the faux filesystem

    driver/ffs_session.c and arch/openrisc/ffs.c: packets written by the host
    are routed to the queue of a session or handled by the session manager,
    which creates and kills tasks; packets sent by the tasks go out through one
    queue. *)

From S2P Require Import Prelude Words Msel Memory Malloc Kernel Task.

Local Open Scope Z_scope.
Local Open Scope orp_scope.
Local Open Scope kernel_scope.

(** ** Circular buffers *)

Definition MAX_QUEUE_SIZE : nat := 2.

Definition CBUF_ADD {A} (b : cbuf A) : cbuf A :=
  let e := S (cb_end b) in
  Cbuf (cb_data b) (u8 (cb_size b + 1)) (cb_start b) (if (MAX_QUEUE_SIZE <=? e)%nat then 0%nat else e).

Definition CBUF_REM {A} (b : cbuf A) : cbuf A :=
  let s := S (cb_start b) in
  Cbuf (cb_data b) (u8 (cb_size b - 1)) (if (MAX_QUEUE_SIZE <=? s)%nat then 0%nat else s) (cb_end b).

(** [*buf.end = x] and [*buf.start]. *)
Definition cb_put {A} (b : cbuf A) (x : A) : cbuf A :=
  Cbuf (<[cb_end b := x]> (cb_data b)) (cb_size b) (cb_start b) (cb_end b).
Definition cb_front {A} (b : cbuf A) : option A := cb_data b !! cb_start b.

(** ** Packets *)

Definition FFS_HDR_SIZE : nat := 4.
Definition FFS_DATA_SIZE : nat := 2044.
Definition sizeof_packet : nat := 2048.

Definition pkt_session (p : packet) : Z := get p 0 * 256 + get p 1.
Definition pkt_nonce (p : packet) : Z := get p 2.
Definition pkt_data (p : packet) (i : nat) : Z := get p (FFS_HDR_SIZE + i).

(** ** The device: arch/openrisc/ffs.c *)

Definition FFS_CHANNEL_READY : Z := 0x10.
Definition FFS_CHANNEL_LAST_FAIL : Z := 0x11.
Definition FFS_CHANNEL_LAST_SUCC : Z := 0x12.
Definition FFS_CHANNEL_LAST_RETRY : Z := 0x13.
Definition FFS_CHANNEL_LAST_EINPUT : Z := 0x14.

Definition ffs_upd (f : ffs → ffs) : M unit := modify (λ k, with_ffs (f (k_ffs k)) k).

Definition set_s0 (p : packet) (f : ffs) : ffs :=
  Ffs (rfile_empty f) (rq f) (wq f) (s0_rq f) p (num_sessions f) (retry_session_id f)
    (curr_wfile_status f) (rfile_nonce f) (hasSeenReadAck f) (recv_data f) (recv_ack f)
    (send_data f) (send_ack f) (ffs_ctrl f).

Definition arch_ffs_wfile_read : M unit :=
  ffs_upd (λ f, set_s0 (take 3 (recv_data f) ++ [get (s0 f) 3] ++ drop FFS_HDR_SIZE (recv_data f)) f).

Definition arch_ffs_wfile_set_status (status nonce : Z) : M unit :=
  ffs_upd (λ f, Ffs (rfile_empty f) (rq f) (wq f) (s0_rq f) (s0 f) (num_sessions f) (retry_session_id f)
    (u8 status) (rfile_nonce f) (hasSeenReadAck f) (recv_data f) (u8 status, u8 nonce)
    (send_data f) (send_ack f) (ffs_ctrl f)).

Definition arch_ffs_wfile_get_status : M Z := gets (λ k, curr_wfile_status (k_ffs k)).

Definition arch_ffs_rfile_get_status : M Z :=
  gets (λ k, if hasSeenReadAck (k_ffs k) then send_ack (k_ffs k) else FFS_CHANNEL_READY).

Definition arch_ffs_rfile_write (pkt : packet) : M msel_status :=
  let* st := arch_ffs_rfile_get_status in
  if negb (st =? FFS_CHANNEL_LAST_SUCC) && negb (st =? FFS_CHANNEL_READY) then ret MSEL_EAGAIN
  else
    ffs_upd (λ f,
      let nonce := u8 (rfile_nonce f + 1) in
      let nonce := if nonce =? 0 then 1 else nonce in
      let hdr := (pkt_session pkt <<< 16) .| (nonce <<< 8) in
      Ffs (rfile_empty f) (rq f) (wq f) (s0_rq f) (s0 f) (num_sessions f) (retry_session_id f)
        (curr_wfile_status f) nonce (hasSeenReadAck f) (recv_data f) (recv_ack f)
        ([byte3 hdr; byte2 hdr; byte1 hdr; byte0 hdr] ++ drop FFS_HDR_SIZE pkt) (send_ack f) (ffs_ctrl f));;
    ret MSEL_OK.

Definition arch_ffs_rfile_clear : M unit :=
  ffs_upd (λ f, Ffs (rfile_empty f) (rq f) (wq f) (s0_rq f) (s0 f) (num_sessions f) (retry_session_id f)
    (curr_wfile_status f) (rfile_nonce f) (hasSeenReadAck f) (recv_data f) (recv_ack f)
    (replicate sizeof_packet 0) (send_ack f) (ffs_ctrl f)).

(** ** Session bookkeeping *)

Definition MAX_NUM_SESSIONS : Z := 5.
Definition CMD_START_SESSION : Z := 0x1.
Definition CMD_KILL_SESSION : Z := 0x2.
Definition S0_CMD_SIZE : nat := 1.

Definition set_wq (l : list ffs_queue_t) (n : Z) (f : ffs) : ffs :=
  Ffs (rfile_empty f) (rq f) l (s0_rq f) (s0 f) n (retry_session_id f)
    (curr_wfile_status f) (rfile_nonce f) (hasSeenReadAck f) (recv_data f) (recv_ack f)
    (send_data f) (send_ack f) (ffs_ctrl f).
Definition set_retry (sid : Z) (f : ffs) : ffs :=
  Ffs (rfile_empty f) (rq f) (wq f) (s0_rq f) (s0 f) (num_sessions f) sid
    (curr_wfile_status f) (rfile_nonce f) (hasSeenReadAck f) (recv_data f) (recv_ack f)
    (send_data f) (send_ack f) (ffs_ctrl f).
Definition set_rq (b : cbuf packet) (f : ffs) : ffs :=
  Ffs (rfile_empty f) b (wq f) (s0_rq f) (s0 f) (num_sessions f) (retry_session_id f)
    (curr_wfile_status f) (rfile_nonce f) (hasSeenReadAck f) (recv_data f) (recv_ack f)
    (send_data f) (send_ack f) (ffs_ctrl f).
Definition set_s0_rq (b : cbuf Z) (f : ffs) : ffs :=
  Ffs (rfile_empty f) (rq f) (wq f) b (s0 f) (num_sessions f) (retry_session_id f)
    (curr_wfile_status f) (rfile_nonce f) (hasSeenReadAck f) (recv_data f) (recv_ack f)
    (send_data f) (send_ack f) (ffs_ctrl f).
Definition set_rfile_empty (b : bool) (f : ffs) : ffs :=
  Ffs b (rq f) (wq f) (s0_rq f) (s0 f) (num_sessions f) (retry_session_id f)
    (curr_wfile_status f) (rfile_nonce f) (hasSeenReadAck f) (recv_data f) (recv_ack f)
    (send_data f) (send_ack f) (ffs_ctrl f).

(** [wq_1[sid]] and an assignment to it. *)
Definition wq_1 (sid : Z) : M ffs_queue_t := λ k,
  if sid <? 1 then Oob
  else match wq (k_ffs k) !! Z.to_nat (sid - 1) with Some q => Ok q k | None => Oob end.
Definition wq_upd (sid : Z) (g : ffs_queue_t → ffs_queue_t) : M unit :=
  let* q := wq_1 sid in
  ffs_upd (λ f, set_wq (<[Z.to_nat (sid - 1) := g q]> (wq f)) (num_sessions f) f).

Definition on_buf (g : cbuf packet → cbuf packet) (q : ffs_queue_t) : ffs_queue_t :=
  Queue (g (q_buf q)) (task_id q) (endpoint q) (port q) (active q).

(** What [msel_memset(&queue, 0, sizeof(ffs_queue_t))] leaves.  [start] and [end]
    are NULL then; they are written as position 0, which [init_session] sets before
    the queue is used. *)
Definition packet0 : packet := replicate sizeof_packet 0.
Definition queue0 : ffs_queue_t := Queue (Cbuf (replicate MAX_QUEUE_SIZE packet0) 0 0 0) 0 0 0 false.

Definition clear_retry_id : M unit :=
  let* st := arch_ffs_wfile_get_status in
  if st =? FFS_CHANNEL_LAST_RETRY then
    ffs_upd (set_retry (MAX_NUM_SESSIONS + 1));;
    arch_ffs_wfile_set_status FFS_CHANNEL_READY 0
  else ret tt.

(** [for(sid = ...; sid <= MAX_NUM_SESSIONS; ++sid) if(p(wq_1[sid])) break;] *)
Fixpoint find_session (p : ffs_queue_t → bool) (n : nat) (sid : Z) : M Z :=
  match n with
  | O => ret sid
  | S n => let* q := wq_1 sid in if p q then ret sid else find_session p n (sid + 1)
  end.

Definition init_session (task_id_ endpoint_ port_ : Z) : M Z :=
  let* sid := find_session (λ q, negb (active q)) 5 1 in
  wq_upd sid (λ q, Queue (Cbuf (cb_data (q_buf q)) 0 0 0) task_id_ endpoint_ port_ true);;
  ffs_upd (λ f, set_wq (wq f) (u16 (num_sessions f + 1)) f);;
  ret sid.

Definition end_session (sid : Z) : M unit :=
  let* q := wq_1 sid in
  msel_task_force_kill (task_id q) "Force quit by Android";;
  wq_upd sid (λ _, queue0);;
  ffs_upd (λ f, set_wq (wq f) (u16 (num_sessions f - 1)) f);;
  let* retry := gets (λ k, retry_session_id (k_ffs k)) in
  if sid =? retry then clear_retry_id else ret tt.

(** ** Outgoing packets *)

Definition msel_rfile_step_queue : M unit :=
  ffs_upd (set_rfile_empty false);;
  let* f := gets k_ffs in
  if 0 <? cb_size (s0_rq f) then
    match cb_front (s0_rq f) with
    | None => oob
    | Some w =>
        ffs_upd (set_s0 (<[5%nat := u8 w]> (<[4%nat := u8 (w >>> 8)]> packet0)));;
        let* p := gets (λ k, s0 (k_ffs k)) in
        let* st := arch_ffs_rfile_write p in
        if bool_decide (st = MSEL_OK) then ffs_upd (λ f, set_s0_rq (CBUF_REM (s0_rq f)) f) else ret tt
    end
  else if 0 <? cb_size (rq f) then
    match cb_front (rq f) with
    | None => oob
    | Some p =>
        let* st := arch_ffs_rfile_write p in
        if bool_decide (st = MSEL_OK) then ffs_upd (λ f, set_rq (CBUF_REM (rq f)) f) else ret tt
    end
  else
    ffs_upd (set_rfile_empty true);;
    arch_ffs_rfile_clear.

(** The session the active task owns: the first active one with its number. *)
Definition own_session (tid : Z) (q : ffs_queue_t) : bool := active q && (task_id q =? tid).

Definition store16 (m : mem) (a v : Z) : mem := stb (stb m a (byte1 v)) (a + 1) (byte0 v).

Definition msel_ffs_session_send (pkt : Z) : M msel_status :=
  let* tid := gets active_num in
  let* sid := find_session (own_session tid) 5 1 in
  modify (λ k, with_ram (store16 (ram k) pkt sid) k);;
  let* f := gets k_ffs in
  if (0 <? sid) && (sid <=? MAX_NUM_SESSIONS) && (cb_size (rq f) <? Z.of_nat MAX_QUEUE_SIZE) then
    let* m := gets ram in
    ffs_upd (λ f, set_rq (CBUF_ADD (cb_put (rq f) (mem_bytes m pkt sizeof_packet))) f);;
    (if rfile_empty f then msel_rfile_step_queue else ret tt);;
    ret MSEL_OK
  else ret MSEL_ERESOURCE.

Definition msel_ffs_session_recv (pkt : Z) : M msel_status :=
  let* tid := gets active_num in
  let* sid := find_session (own_session tid) 5 1 in
  if (0 <? sid) && (sid <=? MAX_NUM_SESSIONS) then
    let* q := wq_1 sid in
    if 0 <? cb_size (q_buf q) then
      match cb_front (q_buf q) with
      | None => oob
      | Some p =>
          modify (λ k, with_ram (mem_write (ram k) pkt p) k);;
          let* retry := gets (λ k, retry_session_id (k_ffs k)) in
          (if sid =? retry then clear_retry_id else ret tt);;
          wq_upd sid (on_buf CBUF_REM);;
          ret MSEL_OK
      end
    else ret MSEL_ERESOURCE
  else ret MSEL_ERESOURCE.

(** ** Incoming packets

    [get_task] is the application's table of endpoints (include/msel/endpoints.h):
    endpoint, entry function and port for the requested endpoint. *)
Section incoming.
Context (get_task : list Z → Z * Z * Z).

Definition start_session : M Z :=
  let* f := gets k_ffs in
  if Z.of_nat MAX_QUEUE_SIZE <=? cb_size (s0_rq f) then ret FFS_CHANNEL_LAST_RETRY
  else if MAX_NUM_SESSIONS <=? num_sessions f then ret FFS_CHANNEL_LAST_FAIL
  else
    let '(endpoint_, task_fn, port_) := get_task (drop (FFS_HDR_SIZE + S0_CMD_SIZE) (s0 f)) in
    if (endpoint_ =? 0) || (task_fn =? 0) then ret FFS_CHANNEL_LAST_FAIL
    else
      let* r := msel_task_create task_fn 0 0 in
      match r with
      | (MSEL_OK, Some tid) =>
          let* sid := init_session tid endpoint_ port_ in
          ffs_upd (λ f, set_s0_rq (CBUF_ADD (cb_put (s0_rq f) sid)) f);;
          let* empty := gets (λ k, rfile_empty (k_ffs k)) in
          (if empty then msel_rfile_step_queue else ret tt);;
          ret FFS_CHANNEL_LAST_SUCC
      | _ => ret FFS_CHANNEL_LAST_FAIL
      end.

Definition kill_session : M Z :=
  let* p := gets (λ k, s0 (k_ffs k)) in
  let sid := (pkt_data p S0_CMD_SIZE <<< 8) .| pkt_data p (S S0_CMD_SIZE) in
  if (0 <? sid) && (sid <=? MAX_NUM_SESSIONS) then
    let* q := wq_1 sid in
    if active q then end_session sid;; ret FFS_CHANNEL_LAST_SUCC else ret FFS_CHANNEL_LAST_FAIL
  else ret FFS_CHANNEL_LAST_FAIL.

Definition route_packet (sid : Z) : M Z :=
  if (sid =? 0) || (MAX_NUM_SESSIONS <? sid) then ret FFS_CHANNEL_LAST_FAIL
  else
    let* q := wq_1 sid in
    if negb (active q) then ret FFS_CHANNEL_LAST_FAIL
    else if Z.of_nat MAX_QUEUE_SIZE <=? cb_size (q_buf q) then
      ffs_upd (set_retry sid);; ret FFS_CHANNEL_LAST_RETRY
    else
      let* p := gets (λ k, s0 (k_ffs k)) in
      wq_upd sid (on_buf (λ b, CBUF_ADD (cb_put b p)));;
      ret FFS_CHANNEL_LAST_SUCC.

Definition msel_wfile_get_packet : M unit :=
  arch_ffs_wfile_read;;
  let* p := gets (λ k, s0 (k_ffs k)) in
  let sid := pkt_session p in
  let in_nonce := pkt_nonce p in
  arch_ffs_wfile_set_status FFS_CHANNEL_READY in_nonce;;
  let* status :=
    (if sid =? 0 then
       let ctrl := pkt_data p 0 in
       if ctrl =? CMD_START_SESSION then start_session
       else if ctrl =? CMD_KILL_SESSION then kill_session
       else ret FFS_CHANNEL_LAST_EINPUT
     else route_packet sid) in
  arch_ffs_wfile_set_status status in_nonce.

(** The interrupt handlers of arch/openrisc/isr.c. *)
Definition set_ctrl (bits : Z) (f : ffs) : ffs :=
  Ffs (rfile_empty f) (rq f) (wq f) (s0_rq f) (s0 f) (num_sessions f) (retry_session_id f)
    (curr_wfile_status f) (rfile_nonce f) (hasSeenReadAck f) (recv_data f) (recv_ack f)
    (send_data f) (send_ack f) (ffs_ctrl f .| bits).

Definition FauxFileSystemWrite : M unit := msel_wfile_get_packet;; ffs_upd (set_ctrl 1).
End incoming.

Definition FauxFileSystemReadAck : M unit :=
  ffs_upd (λ f, Ffs (rfile_empty f) (rq f) (wq f) (s0_rq f) (s0 f) (num_sessions f) (retry_session_id f)
    (curr_wfile_status f) (rfile_nonce f) true (recv_data f) (recv_ack f)
    (send_data f) (send_ack f) (ffs_ctrl f));;
  let* status := arch_ffs_rfile_get_status in
  (if (status =? FFS_CHANNEL_READY) || (status =? FFS_CHANNEL_LAST_SUCC) then msel_rfile_step_queue else ret tt);;
  ffs_upd (set_ctrl 2).

Definition msel_init_ffs_queues : M unit :=
  ffs_upd (λ f, Ffs true (Cbuf (replicate MAX_QUEUE_SIZE packet0) 0 0 0) (replicate 5 queue0)
    (Cbuf (cb_data (s0_rq f)) 0 0 0) (s0 f) (num_sessions f) (retry_session_id f)
    (curr_wfile_status f) (rfile_nonce f) false (recv_data f) (recv_ack f)
    (send_data f) (send_ack f) (ffs_ctrl f));;
  arch_ffs_wfile_set_status FFS_CHANNEL_READY 0;;
  arch_ffs_rfile_clear.

(** ** Circular buffers are queues *)

Record cb_ok {A} (b : cbuf A) : Prop := {
  cb_len : length (cb_data b) = MAX_QUEUE_SIZE;
  cb_start_ok : (cb_start b < 2)%nat;
  cb_size_ok : 0 <= cb_size b <= 2;
  cb_end_ok : cb_end b = ((cb_start b + Z.to_nat (cb_size b)) mod 2)%nat }.

Lemma cb_ok_queue0 : cb_ok (q_buf queue0).
Proof. split; cbn; (done || lia). Qed.

(** The elements, oldest first. *)
Definition contents {A} (b : cbuf A) : list A :=
  omap (λ i, cb_data b !! ((cb_start b + i) mod 2)%nat) (seq 0 (Z.to_nat (cb_size b))).

(** A buffer is one of six shapes. *)
Lemma cb_cases {A} (b : cbuf A) : cb_ok b → ∃ x y,
  b = Cbuf [x; y] 0 0 0 ∨ b = Cbuf [x; y] 0 1 1 ∨ b = Cbuf [x; y] 1 0 1 ∨ b = Cbuf [x; y] 1 1 0 ∨
  b = Cbuf [x; y] 2 0 0 ∨ b = Cbuf [x; y] 2 1 1.
Proof.
  destruct b as [d n s e]. intros [Hl Hs Hn He]. cbn in *. unfold MAX_QUEUE_SIZE in Hl.
  destruct d as [|x [|y [|]]]; try done. exists x, y.
  assert (n = 0 ∨ n = 1 ∨ n = 2) as [-> | [-> | ->]] by lia; destruct s as [|[|]]; try lia; cbn in He; subst e; tauto.
Qed.

Ltac cb_shape := constructor; [done | cbn; lia | vm_compute; split; discriminate | reflexivity].

Lemma cbuf_put {A} (b : cbuf A) x : cb_ok b → cb_size b < 2 →
  cb_ok (CBUF_ADD (cb_put b x)) ∧ contents (CBUF_ADD (cb_put b x)) = contents b ++ [x].
Proof.
  intros (y & z & H)%cb_cases Hn.
  destruct H as [-> | [-> | [-> | [-> | [-> | ->]]]]]; cbn in Hn; try lia; (split; [cb_shape|done]).
Qed.

Lemma cbuf_take {A} (b : cbuf A) : cb_ok b → 0 < cb_size b →
  ∃ x, cb_front b = Some x ∧ cb_ok (CBUF_REM b) ∧ contents b = x :: contents (CBUF_REM b).
Proof.
  intros (y & z & H)%cb_cases Hn.
  destruct H as [-> | [-> | [-> | [-> | [-> | ->]]]]]; cbn in Hn; try lia;
    (eexists; split; [done|split; [cb_shape|done]]).
Qed.

Lemma contents_length {A} (b : cbuf A) : cb_ok b → Z.of_nat (length (contents b)) = cb_size b.
Proof. intros (y & z & H)%cb_cases. by destruct H as [-> | [-> | [-> | [-> | [-> | ->]]]]]. Qed.

(** ** Sessions as message queues *)

Definition sessions_ok (k : kernel) : Prop :=
  length (wq (k_ffs k)) = 5%nat ∧ Forall (λ q, cb_ok (q_buf q)) (wq (k_ffs k)).

(** The packets waiting in a session. *)
Definition inbox (k : kernel) (sid : Z) : list packet :=
  match wq (k_ffs k) !! Z.to_nat (sid - 1) with
  | Some q => if active q then contents (q_buf q) else []
  | None => []
  end.

(** Session [sid] is in use, and the one the active task finds. *)
Definition session_of (k : kernel) (sid : Z) : Prop :=
  1 <= sid <= 5 ∧
  (∃ q, wq (k_ffs k) !! Z.to_nat (sid - 1) = Some q ∧ own_session (active_num k) q = true) ∧
  ∀ j q, 1 <= j < sid → wq (k_ffs k) !! Z.to_nat (j - 1) = Some q → own_session (active_num k) q = false.

Lemma wq_1_eq k sid q : 1 <= sid → wq (k_ffs k) !! Z.to_nat (sid - 1) = Some q → wq_1 sid k = Ok q k.
Proof. intros Hs Hq. unfold wq_1. rewrite Hq. destruct (Z.ltb_spec sid 1); [lia|done]. Qed.

Lemma wq_upd_eq k sid q g : 1 <= sid → wq (k_ffs k) !! Z.to_nat (sid - 1) = Some q →
  wq_upd sid g k =
  Ok tt (with_ffs (set_wq (<[Z.to_nat (sid - 1) := g q]> (wq (k_ffs k))) (num_sessions (k_ffs k)) (k_ffs k)) k).
Proof. intros Hs Hq. unfold wq_upd. by rewrite (bind_ok _ _ _ _ _ (wq_1_eq _ _ _ Hs Hq)). Qed.

Lemma session_lookup k sid : sessions_ok k → 1 <= sid <= 5 →
  ∃ q, wq (k_ffs k) !! Z.to_nat (sid - 1) = Some q ∧ cb_ok (q_buf q).
Proof.
  intros [Hl HF] Hs. destruct (lookup_lt_is_Some_2 (wq (k_ffs k)) (Z.to_nat (sid - 1))) as [q Hq]; [lia|].
  exists q. split; [done|]. by eapply Forall_lookup_1 in HF.
Qed.

Lemma find_own k sid : sessions_ok k → session_of k sid →
  find_session (own_session (active_num k)) 5 1 k = Ok sid k.
Proof.
  intros Hok (Hs & (q & Hq & Hown) & Hless).
  assert (∀ n j, 1 <= j <= sid → sid < j + Z.of_nat n →
    find_session (own_session (active_num k)) n j k = Ok sid k) as H; [|apply (H 5%nat); lia].
  induction n as [|n IH]; intros j Hj Hn; [lia|]. cbn [find_session].
  destruct (session_lookup k j Hok ltac:(lia)) as (u & Hu & _).
  rewrite (bind_ok _ _ _ _ _ (wq_1_eq k j u ltac:(lia) Hu)).
  destruct (decide (j = sid)) as [->|Hne].
  - rewrite Hq in Hu. injection Hu as <-. by rewrite Hown.
  - rewrite (Hless j u) by (done || lia). apply IH; lia.
Qed.

(** Replacing the buffer of one session. *)
Definition rebuf (sid : Z) (q : ffs_queue_t) (b : cbuf packet) (l : list ffs_queue_t) : list ffs_queue_t :=
  <[Z.to_nat (sid - 1) := on_buf (λ _, b) q]> l.

Section rebuf.
Context (k k' : kernel) (sid : Z) (q : ffs_queue_t) (b : cbuf packet).
Context (Hok : sessions_ok k) (Hs : 1 <= sid <= 5) (Hq : wq (k_ffs k) !! Z.to_nat (sid - 1) = Some q).
Context (Hb : cb_ok b) (Hk : wq (k_ffs k') = rebuf sid q b (wq (k_ffs k))).

Lemma rebuf_lookup : wq (k_ffs k') !! Z.to_nat (sid - 1) = Some (on_buf (λ _, b) q).
Proof. rewrite Hk. apply list_lookup_insert_eq. by eapply lookup_lt_Some. Qed.

Lemma rebuf_ok : sessions_ok k'.
Proof.
  destruct Hok as [Hl HF]. unfold sessions_ok. rewrite Hk. unfold rebuf. rewrite length_insert. split; [done|].
  by apply Forall_insert.
Qed.

Lemma rebuf_inbox : inbox k' sid = if active q then contents b else [].
Proof. unfold inbox. by rewrite rebuf_lookup. Qed.

Lemma rebuf_other sid' : 1 <= sid' → sid' ≠ sid → inbox k' sid' = inbox k sid'.
Proof. intros H1 H2. unfold inbox. rewrite Hk. unfold rebuf. by rewrite list_lookup_insert_ne by lia. Qed.

Lemma rebuf_session : active_num k' = active_num k → session_of k sid → session_of k' sid.
Proof.
  intros Ha (_ & (u & Hu & Hown) & Hless). rewrite Hq in Hu. injection Hu as <-.
  unfold session_of. rewrite Ha. split; [done|]. split; [exists (on_buf (λ _, b) q); split; [apply rebuf_lookup|done]|].
  intros j v Hj Hv. rewrite Hk in Hv. unfold rebuf in Hv. rewrite list_lookup_insert_ne in Hv by lia. eauto.
Qed.
End rebuf.

(** The host writes a packet into the device. *)
Definition host_write (p : packet) : M unit :=
  ffs_upd (λ f, Ffs (rfile_empty f) (rq f) (wq f) (s0_rq f) (s0 f) (num_sessions f) (retry_session_id f)
    (curr_wfile_status f) (rfile_nonce f) (hasSeenReadAck f) p (recv_ack f) (send_data f) (send_ack f) (ffs_ctrl f)).

Inductive fifo_event : Type := Deliver (p : packet) | Receive.
Inductive fifo_out : Type := Acked (status : Z) | Got (p : packet) | Nothing.

(** The promise: a queue of at most two packets. *)
Definition fifo_step (ev : fifo_event) (box : list packet) : fifo_out * list packet :=
  match ev with
  | Deliver p =>
      if (length box <? 2)%nat then (Acked FFS_CHANNEL_LAST_SUCC, box ++ [p])
      else (Acked FFS_CHANNEL_LAST_RETRY, box)
  | Receive => match box with [] => (Nothing, []) | p :: box => (Got p, box) end
  end.

Fixpoint fifo_run (evs : list fifo_event) (box : list packet) : list fifo_out * list packet :=
  match evs with
  | [] => ([], box)
  | ev :: evs =>
      let '(o, box) := fifo_step ev box in
      let '(os, box) := fifo_run evs box in (o :: os, box)
  end.

(** The code: the interrupt for a packet, and the task's call with the buffer
    at [pkt]. *)
Definition ffs_event (get_task : list Z → Z * Z * Z) (pkt : Z) (ev : fifo_event) : M fifo_out :=
  match ev with
  | Deliver p =>
      host_write p;; FauxFileSystemWrite get_task;;
      let* ack := gets (λ k, recv_ack (k_ffs k)) in ret (Acked (fst ack))
  | Receive =>
      let* st := msel_ffs_session_recv pkt in
      let* m := gets ram in
      ret (if bool_decide (st = MSEL_OK) then Got (mem_bytes m pkt sizeof_packet) else Nothing)
  end.

Fixpoint ffs_run (get_task : list Z → Z * Z * Z) (pkt : Z) (evs : list fifo_event) : M (list fifo_out) :=
  match evs with
  | [] => ret []
  | ev :: evs =>
      let* o := ffs_event get_task pkt ev in
      let* os := ffs_run get_task pkt evs in ret (o :: os)
  end.

(** The reserved byte is not read from the device. *)
Definition stored (k : kernel) (p : packet) : packet := <[3%nat := get (s0 (k_ffs k)) 3]> p.

Lemma stored_eq k p : length p = sizeof_packet →
  take 3 p ++ [get (s0 (k_ffs k)) 3] ++ drop FFS_HDR_SIZE p = stored k p.
Proof. intros Hp. unfold stored. rewrite insert_take_drop by (rewrite Hp; unfold sizeof_packet; lia). done. Qed.

Lemma get_stored k p i : i ≠ 3%nat → get (stored k p) i = get p i.
Proof. intros. unfold stored. by rewrite get_insert_ne. Qed.

Section deliver.
Context (get_task : list Z → Z * Z * Z) (k : kernel) (sid : Z) (q : ffs_queue_t) (p : packet).
Context (Hs : 1 <= sid <= 5) (Hq : wq (k_ffs k) !! Z.to_nat (sid - 1) = Some q) (Ha : active q = true).
Context (Hp : length p = sizeof_packet) (Hsid : pkt_session p = sid).

(** What the interrupt does before the packet is routed. *)
Lemma deliver_start : ∃ f1,
  bind (host_write p) (λ _, FauxFileSystemWrite get_task) k =
  (let* status := route_packet sid in arch_ffs_wfile_set_status status (get p 2);; ffs_upd (set_ctrl 1)) (with_ffs f1 k) ∧
  wq f1 = wq (k_ffs k) ∧ s0 f1 = stored k p ∧ num_sessions f1 = num_sessions (k_ffs k).
Proof.
  unfold FauxFileSystemWrite, msel_wfile_get_packet, host_write, arch_ffs_wfile_read, arch_ffs_wfile_set_status, ffs_upd.
  krun. eexists. split; [|split; [|split]].
  - cbn [k_ffs with_ffs s0 set_s0 recv_data].
    rewrite stored_eq by done.
    assert (pkt_session (stored k p) = sid) as ->.
    { unfold pkt_session. rewrite !get_stored by lia. exact Hsid. }
    unfold pkt_nonce. rewrite get_stored by lia.
    destruct (Z.eqb_spec sid 0) as [?|_]; [lia|].
    reflexivity.
  - reflexivity.
  - reflexivity.
  - reflexivity.
Qed.

Lemma deliver_ok : ∃ f', bind (host_write p) (λ _, FauxFileSystemWrite get_task) k = Ok tt (with_ffs f' k) ∧
  s0 f' = stored k p ∧
  (if cb_size (q_buf q) <? 2 then
     fst (recv_ack f') = FFS_CHANNEL_LAST_SUCC ∧
     wq f' = rebuf sid q (CBUF_ADD (cb_put (q_buf q) (stored k p))) (wq (k_ffs k))
   else fst (recv_ack f') = FFS_CHANNEL_LAST_RETRY ∧ wq f' = wq (k_ffs k)).
Proof.
  destruct deliver_start as (f1 & E & Hw & Hs0 & Hn). unfold route_packet in E.
  destruct (Z.eqb_spec sid 0) as [?|_]; [lia|]. destruct (Z.ltb_spec MAX_NUM_SESSIONS sid) as [?|_];
    [unfold MAX_NUM_SESSIONS in *; lia|]. cbn [orb] in E.
  assert (wq (k_ffs (with_ffs f1 k)) !! Z.to_nat (sid - 1) = Some q) as Hq1 by (cbn; by rewrite Hw).
  rewrite bind_assoc, (bind_ok _ _ _ _ _ (wq_1_eq _ _ _ (proj1 Hs) Hq1)), Ha in E. cbn [negb] in E.
  change (Z.of_nat MAX_QUEUE_SIZE) with 2 in E.
  destruct (Z.leb_spec 2 (cb_size (q_buf q))), (Z.ltb_spec (cb_size (q_buf q)) 2); try lia.
  - rewrite E. unfold ffs_upd, arch_ffs_wfile_set_status, ffs_upd. krun. eexists. split; [reflexivity|]. done.
  - rewrite bind_assoc, gets_bind, bind_assoc, (bind_ok _ _ _ _ _ (wq_upd_eq _ _ _ _ (proj1 Hs) Hq1)) in E.
    rewrite E. unfold arch_ffs_wfile_set_status, ffs_upd. krun. eexists. split; [reflexivity|]. cbn.
    split; [done|]. split; [done|]. rewrite Hw. unfold rebuf, on_buf. by rewrite Hs0.
Qed.
End deliver.

(** *** Receiving *)

Section receive.
Context (k : kernel) (sid : Z) (q : ffs_queue_t) (pkt : Z).
Context (Hok : sessions_ok k) (Hses : session_of k sid) (Hq : wq (k_ffs k) !! Z.to_nat (sid - 1) = Some q).

Lemma recv_empty : cb_size (q_buf q) <= 0 → msel_ffs_session_recv pkt k = Ok MSEL_ERESOURCE k.
Proof.
  intros Hn. destruct Hses as [Hs _]. unfold msel_ffs_session_recv. rewrite gets_bind.
  rewrite (bind_ok _ _ _ _ _ (find_own k sid Hok Hses)).
  destruct (Z.ltb_spec 0 sid), (Z.leb_spec sid MAX_NUM_SESSIONS); unfold MAX_NUM_SESSIONS in *; try lia. cbn [andb].
  rewrite (bind_ok _ _ _ _ _ (wq_1_eq _ _ _ (proj1 Hs) Hq)). destruct (Z.ltb_spec 0 (cb_size (q_buf q))); [lia|done].
Qed.

Lemma recv_packet p : 0 < cb_size (q_buf q) → cb_front (q_buf q) = Some p →
  ∃ f', msel_ffs_session_recv pkt k = Ok MSEL_OK (with_ffs f' (with_ram (mem_write (ram k) pkt p) k)) ∧
  wq f' = rebuf sid q (CBUF_REM (q_buf q)) (wq (k_ffs k)) ∧ s0 f' = s0 (k_ffs k).
Proof.
  intros Hn Hp. pose proof Hses as [Hs _]. unfold msel_ffs_session_recv. rewrite gets_bind.
  rewrite (bind_ok _ _ _ _ _ (find_own k sid Hok Hses)).
  destruct (Z.ltb_spec 0 sid), (Z.leb_spec sid MAX_NUM_SESSIONS); unfold MAX_NUM_SESSIONS in *; try lia. cbn [andb].
  rewrite (bind_ok _ _ _ _ _ (wq_1_eq _ _ _ (proj1 Hs) Hq)). destruct (Z.ltb_spec 0 (cb_size (q_buf q))); [|lia].
  rewrite Hp. krun. set (k1 := with_ram _ k).
  assert (∃ f1, (if sid =? retry_session_id (k_ffs k1) then clear_retry_id else ret tt) k1 = Ok tt (with_ffs f1 k1) ∧
    wq f1 = wq (k_ffs k) ∧ s0 f1 = s0 (k_ffs k)) as (f1 & E1 & Hw1 & Hs1).
  { unfold clear_retry_id, arch_ffs_wfile_get_status, arch_ffs_wfile_set_status, ffs_upd.
    destruct (sid =? _); [krun; destruct (_ =? FFS_CHANNEL_LAST_RETRY)|]; krun; by eexists. }
  rewrite (bind_ok _ _ _ _ _ E1).
  assert (wq (k_ffs (with_ffs f1 k1)) !! Z.to_nat (sid - 1) = Some q) as Hq1 by (cbn; by rewrite Hw1).
  rewrite (bind_ok _ _ _ _ _ (wq_upd_eq _ _ _ _ (proj1 Hs) Hq1)). eexists. split; [reflexivity|].
  cbn. split; [|done]. by rewrite Hw1.
Qed.
End receive.

Definition packet_ok (p : packet) : Prop := length p = sizeof_packet ∧ bytes_ok p.

Definition event_ok (sid : Z) (ev : fifo_event) : Prop :=
  match ev with Deliver p => packet_ok p ∧ pkt_session p = sid | Receive => True end.

Definition map_event (g : packet → packet) (ev : fifo_event) : fifo_event :=
  match ev with Deliver p => Deliver (g p) | Receive => Receive end.

(** What holds between events: [k] is a state reached from [k0]. *)
Record fifo_inv (k0 : kernel) (pkt sid : Z) (k : kernel) : Prop := {
  fi_ok : sessions_ok k;
  fi_session : session_of k sid;
  fi_packets : Forall packet_ok (inbox k sid);
  fi_reserved : get (s0 (k_ffs k)) 3 = get (s0 (k_ffs k0)) 3 ∧ is_u8 (get (s0 (k_ffs k)) 3);
  fi_others : ∀ j, 1 <= j → j ≠ sid → inbox k j = inbox k0 j;
  fi_sched : k_sched k = k_sched k0;
  fi_mem : ∀ b, b < pkt ∨ pkt + 2048 <= b → ldb (ram k) b = ldb (ram k0) b }.

Lemma stored_ok k p : packet_ok p → is_u8 (get (s0 (k_ffs k)) 3) → packet_ok (stored k p).
Proof.
  intros [Hl Hb] Hr. unfold stored. split; [by rewrite length_insert|by apply bytes_ok_insert].
Qed.

Lemma own_session_active t q : own_session t q = true → active q = true.
Proof. unfold own_session. by intros [H _]%andb_prop. Qed.

Section events.
Context (get_task : list Z → Z * Z * Z) (k0 : kernel) (pkt sid : Z).

Lemma ffs_event_ok k ev : fifo_inv k0 pkt sid k → event_ok sid ev →
  ∃ k', ffs_event get_task pkt ev k = Ok (fst (fifo_step (map_event (stored k0) ev) (inbox k sid))) k' ∧
  inbox k' sid = snd (fifo_step (map_event (stored k0) ev) (inbox k sid)) ∧ fifo_inv k0 pkt sid k'.
Proof.
  intros [Hok Hses Hpk [Hres Hr8] Hoth Hsch Hmem] Hev.
  pose proof Hses as (Hs & (q & Hq & Hown) & _). pose proof (own_session_active _ _ Hown) as Ha.
  assert (cb_ok (q_buf q)) as Hb by (destruct Hok as [_ HF]; by eapply Forall_lookup_1 in HF).
  pose proof (contents_length _ Hb) as Hlen.
  assert (inbox k sid = contents (q_buf q)) as Hin by (unfold inbox; by rewrite Hq, Ha).
  rewrite Hin in *. destruct ev as [p|]; cbn [map_event fifo_step ffs_event].
  - destruct Hev as [Hp Hsid]. assert (stored k0 p = stored k p) as -> by (unfold stored; by rewrite Hres).
    destruct (deliver_ok get_task k sid q p Hs Hq Ha (proj1 Hp) Hsid) as (f' & E & Hs0 & Hcase).
    rewrite <- bind_assoc, (bind_ok _ _ _ _ _ E), gets_bind. cbn [k_ffs with_ffs]. unfold ret.
    assert (get (s0 f') 3 = get (s0 (k_ffs k)) 3) as Hres'.
    { rewrite Hs0. unfold stored. apply get_insert_eq. rewrite (proj1 Hp). unfold sizeof_packet. lia. }
    destruct (Z.ltb_spec (cb_size (q_buf q)) 2) as [Hlt|Hge], (Nat.ltb_spec (length (contents (q_buf q))) 2); try lia;
      destruct Hcase as [-> Hw]; eexists; (split; [done|]); cbn [fst snd].
    + destruct (cbuf_put (q_buf q) (stored k p) Hb Hlt) as [Hb' Hc'].
      pose proof (rebuf_inbox k (with_ffs f' k) sid q _ Hq Hw) as Hin'. rewrite Ha, Hc' in Hin'.
      split; [done|]. split; [by eapply rebuf_ok|by eapply rebuf_session| | |
        intros j Hj Hne; rewrite <- Hoth by done; by eapply rebuf_other|done|done].
      * rewrite Hin'. apply Forall_app. split; [done|]. constructor; [by apply stored_ok|done].
      * cbn. by rewrite Hres', <- Hres.
    + assert (∀ j, inbox (with_ffs f' k) j = inbox k j) as Hsame by (intros j; unfold inbox; cbn; by rewrite Hw).
      rewrite Hsame, Hin. split; [done|]. split; [| | | |intros; rewrite Hsame; by apply Hoth|done|done].
      * unfold sessions_ok. cbn. by rewrite Hw.
      * unfold session_of. cbn. by rewrite Hw.
      * by rewrite Hsame, Hin.
      * cbn. by rewrite Hres', <- Hres.
  - destruct (Z.lt_ge_cases 0 (cb_size (q_buf q))) as [Hpos|Hneg].
    + destruct (cbuf_take (q_buf q) Hb Hpos) as (p & Hfront & Hb' & Hc). rewrite Hc in *. cbn [fst snd].
      apply Forall_cons in Hpk as [[Hpl Hpb] Hpk].
      destruct (recv_packet k sid q pkt Hok Hses Hq p Hpos Hfront) as (f' & E & Hw & Hs0).
      rewrite (bind_ok _ _ _ _ _ E), gets_bind, bool_decide_true by done.
      set (k' := with_ffs f' _). assert (wq (k_ffs k') = rebuf sid q (CBUF_REM (q_buf q)) (wq (k_ffs k))) as Hw' by exact Hw.
      pose proof (rebuf_inbox k k' sid q _ Hq Hw') as Hin'. rewrite Ha in Hin'.
      assert (mem_bytes (ram k') pkt sizeof_packet = p) as Hmb by (rewrite <- Hpl; by apply mem_bytes_write).
      exists k'. split; [unfold ret; by rewrite Hmb|]. split; [done|].
      split; [by eapply rebuf_ok|by eapply rebuf_session|by rewrite Hin'| |
        intros j Hj Hne; rewrite <- Hoth by done; by eapply rebuf_other|done|].
      * unfold k'. cbn. by rewrite Hs0.
      * intros b Hbb. unfold k'. cbn. rewrite ldb_mem_write_ne; [by apply Hmem|]. rewrite Hpl. unfold sizeof_packet. lia.
    + rewrite (bind_ok _ _ _ _ _ (recv_empty k sid q pkt Hok Hses Hq Hneg)), gets_bind, bool_decide_false by done.
      destruct (contents (q_buf q)) as [|p l] eqn:Ec; [|cbn [length] in Hlen; lia].
      exists k. split; [done|]. split; [done|]. split; try done. by rewrite Hin.
Qed.
End events.

(** C18: the sessions refine bounded message queues: for any interleaving of
    packets that the host writes for a session and receive calls of the task that
    owns it, the acknowledgements and the packets the task gets are those of a
    FIFO queue of two packets; the other sessions' queues, the task list and the
    memory outside the task's buffer stay as they are. *)
Theorem session_refines_fifo get_task k pkt sid evs :
  sessions_ok k → session_of k sid → Forall packet_ok (inbox k sid) → is_u8 (get (s0 (k_ffs k)) 3) →
  Forall (event_ok sid) evs →
  let '(outs, box) := fifo_run (map_event (stored k) <$> evs) (inbox k sid) in
  ∃ k', ffs_run get_task pkt evs k = Ok outs k' ∧ inbox k' sid = box ∧
  (∀ j, 1 <= j → j ≠ sid → inbox k' j = inbox k j) ∧ k_sched k' = k_sched k ∧
  ∀ b, b < pkt ∨ pkt + 2048 <= b → ldb (ram k') b = ldb (ram k) b.
Proof.
  intros Hok Hses Hpk Hr8 Hevs. assert (fifo_inv k pkt sid k) as Hinv by (by split).
  assert (∀ k1, fifo_inv k pkt sid k1 →
    let '(outs, box) := fifo_run (map_event (stored k) <$> evs) (inbox k1 sid) in
    ∃ k', ffs_run get_task pkt evs k1 = Ok outs k' ∧ inbox k' sid = box ∧ fifo_inv k pkt sid k') as H.
  { clear Hok Hses Hpk Hr8 Hinv. induction Hevs as [|ev evs Hev _ IH]; intros k1 Hinv; cbn [fmap list_fmap fifo_run].
    { by exists k1. }
    destruct (ffs_event_ok get_task k pkt sid k1 ev Hinv Hev) as (k2 & E & Hbox & Hinv2).
    destruct (fifo_step (map_event (stored k) ev) (inbox k1 sid)) as [o box]. cbn [fst snd] in *. subst box.
    specialize (IH k2 Hinv2). destruct (fifo_run _ (inbox k2 sid)) as [os box].
    destruct IH as (k3 & E3 & Hbox3 & Hinv3). exists k3. split; [|done].
    cbn [ffs_run]. by rewrite (bind_ok _ _ _ _ _ E), (bind_ok _ _ _ _ _ E3). }
  specialize (H k Hinv). destruct (fifo_run _ _) as [outs box]. destruct H as (k' & E & Hbox & [_ _ _ _ Ho Hs Hm]).
  by exists k'.
Qed.

(** Session 1 belongs to task 1, which is active. *)
Definition example_session : kernel :=
  with_ffs (Ffs false (Cbuf [packet0; packet0] 0 0 0)
    (Queue (Cbuf [packet0; packet0] 0 0 0) 1 7 1 true :: replicate 4 queue0) (Cbuf [0; 0] 0 0 0)
    packet0 1 6 FFS_CHANNEL_READY 1 false packet0 (0, 0) packet0 0 0) (example_kernel example_trio 3 1).

Definition example_packet : packet := <[1%nat := 1]> packet0.

Lemma example_packet_ok : packet_ok example_packet.
Proof.
  split; [unfold example_packet, packet0; by rewrite length_insert, length_replicate|].
  apply Forall_insert; [|unfold is_u8; lia]. apply Forall_replicate. unfold is_u8. lia.
Qed.

Lemma session_refines_fifo_witness : ∃ outs k',
  ffs_run (λ _, (0, 0, 0)) 0x208000 [Deliver example_packet; Receive; Receive] example_session = Ok outs k'.
Proof.
  pose proof (session_refines_fifo (λ _, (0, 0, 0)) example_session 0x208000 1
    [Deliver example_packet; Receive; Receive]) as H.
  destruct (fifo_run _ _) as [outs box]. destruct H as (k' & E & _); [..|by exists outs, k'].
  - split; [done|]. repeat constructor; cbn; lia.
  - split; [lia|]. split; [by eexists|]. intros j q Hj. lia.
  - constructor.
  - unfold is_u8. cbn. lia.
  - constructor; [split; [apply example_packet_ok|done]|]. constructor; [done|]. by constructor.
Defined.
