(* ===== verification/Syscall.v ===== *)
(** * System calls and interrupts

    os/syscall.c, the main loop of os/system.c, driver/pol.c, the queued console
    output of driver/uart.c, and the handlers of arch/openrisc/isr.c that enter
    them.  The drivers behind the remaining system calls (AES, SHA, ECC, random
    numbers, monotonic counter, provisioning) only read and write the caller's
    memory; they are verified on their own data and appear here as a function
    [driver] on memory. *)

From S2P Require Import Prelude Words Msel Memory Malloc Kernel Task Session.

Local Open Scope Z_scope.
Local Open Scope orp_scope.
Local Open Scope kernel_scope.

(** ** Queued console output: driver/uart.c *)

Definition uart_entry (n : nat) : M uart_queue_entry := λ k,
  match uart_queue (k_uart k) !! n with Some e => Ok e k | None => Oob end.
Definition uart_set_entry (n : nat) (e : uart_queue_entry) : M unit :=
  modify (λ k, let u := k_uart k in
    with_uart (Uart (<[n := e]> (uart_queue u)) (uart_task u) (uart_tx u) (uart_room u)) k).
Definition uart_set_task (n : nat) : M unit :=
  modify (λ k, let u := k_uart k in with_uart (Uart (uart_queue u) n (uart_tx u) (uart_room u)) k).

(** The [for] loop of [uart_send_next_byte] with [cnt] turns left. *)
Fixpoint uart_scan (task cnt modidx : nat) : M bool :=
  match cnt with
  | O => ret false
  | S cnt =>
      let n := ((task + modidx) mod MSEL_TASKS_MAX)%nat in
      let* e := uart_entry n in
      if negb (buf e =? 0) && (offset e <? len e) then
        let* m := gets ram in
        arch_uart_putc (ldb m (u32 (buf e + offset e)));;
        uart_set_entry n (UartEntry (buf e) (len e) (u32 (offset e + 1)));;
        uart_set_task n;;
        ret true
      else uart_scan task cnt (S modidx)
  end.

Definition uart_send_next_byte : M bool :=
  let* task := gets (λ k, uart_task (k_uart k)) in uart_scan task MSEL_TASKS_MAX 0.

(** [while(arch_uart_is_writable() && uart_send_next_byte());] *)
Fixpoint flush_loop (fuel : nat) : M unit :=
  match fuel with
  | O => hang
  | S fuel =>
      let* w := arch_uart_is_writable in
      if w then let* more := uart_send_next_byte in if more then flush_loop fuel else ret tt
      else ret tt
  end.

Definition uart_flush_queue : M unit :=
  let* room := gets (λ k, uart_room (k_uart k)) in flush_loop (S room).

(** What is still to be sent. *)
Definition pending (l : list uart_queue_entry) : Z := foldr (λ e z, Z.max 0 (len e - offset e) + z) 0 l.

(** The [retry] loop of [msel_uart_write]: [true] when everything of the active
    task went out, [false] when the call has to be suspended.  Before main tries
    again the transmitter has drained. *)
Fixpoint uart_retry (fuel : nat) : M bool :=
  match fuel with
  | O => hang
  | S fuel =>
      uart_flush_queue;;
      let* n := gets active_num in
      let* e := uart_entry (Z.to_nat n) in
      if offset e <? len e then
        if n =? MSEL_TASK_MAIN then uart_wait;; uart_retry fuel else ret false
      else ret true
  end.

Definition msel_uart_write (wr_args : Z) : M msel_status :=
  let* m := gets ram in
  let args_buf := load32 m wr_args in
  let args_len := load32 m (wr_args + 4) in
  if (args_buf =? 0) || (args_len =? 0) then ret MSEL_EINVAL
  else
    let* n := gets active_num in
    let* e := uart_entry (Z.to_nat n) in
    (if buf e =? 0 then uart_set_entry (Z.to_nat n) (UartEntry args_buf args_len 0) else ret tt);;
    let* q := gets (λ k, uart_queue (k_uart k)) in
    let* done := uart_retry (S (Z.to_nat (pending q))) in
    if done then uart_set_entry (Z.to_nat n) (UartEntry 0 0 0);; ret MSEL_OK
    else
      let* t := gets active_task in
      tcb_upd t (set_wait MSEL_TASK_WAIT_UART);;
      msel_task_schedule;;
      ret MSEL_ESUSP.

(** ** Proof of life: driver/pol.c *)

Definition POL_WAIT_PERIOD : Z := 100 * 10.
Definition POL_LED : Z := 1 <<< 0.
Definition POL_SWITCH : Z := 1 <<< 5.
Definition POL_TIMEOUT : Z := 0.
Definition POL_USER_PRESENT : Z := 1.

(** Another task than [me] waits for the user. *)
Fixpoint pol_busy (n i : nat) (me : Z) : M bool :=
  match n with
  | O => ret false
  | S n =>
      let* t := tcb_at (Z.of_nat i) in
      if bool_decide (wait_op t = MSEL_TASK_WAIT_POL) && negb (Z.of_nat i =? me) then ret true
      else pol_busy n (S i) me
  end.

(** POL_BLINK_PERIOD is the text [100 / 2], so that
    [elapsed % POL_BLINK_PERIOD > POL_BLINK_PERIOD / 2] groups as
    [((elapsed % 100) / 2) > ((100 / 2) / 2)]. *)
Definition pol_led_off (elapsed : Z) : bool := 100 / 2 / 2 <? elapsed mod 100 / 2.

Definition msel_proof_of_life (retp : Z) : M msel_status :=
  if retp =? 0 then ret MSEL_EINVAL
  else
    let* me := gets active_num in
    if me =? MSEL_TASK_MAIN then ret MSEL_EINVAL
    else
      let* busy := pol_busy MSEL_TASKS_MAX 0 me in
      if busy then ret MSEL_EBUSY
      else
        let* p := gets k_pol in
        (if starting_systicks p =? 0 then
           let* ticks := gets msel_systicks in
           let* b := arch_gpio_read POL_SWITCH in
           modify (with_pol (Pol ticks b))
         else ret tt);;
        let* p := gets k_pol in
        let* ticks := gets msel_systicks in
        let elapsed := u64 (ticks - starting_systicks p) in
        let timedout := POL_WAIT_PERIOD <? elapsed in
        (if pol_led_off elapsed then msel_led_off POL_LED else msel_led_on POL_LED);;
        let* b := arch_gpio_read POL_SWITCH in
        if (b =? button_val p) && negb timedout then
          let* t := gets active_task in
          tcb_upd t (set_wait MSEL_TASK_WAIT_POL);;
          tcb_upd t (set_state retp);;
          msel_task_schedule;;
          ret MSEL_ESUSP
        else
          modify (with_pol (Pol 0 0));;
          msel_led_off POL_LED;;
          modify (λ k, with_ram (store32 (ram k) retp (if timedout then POL_TIMEOUT else POL_USER_PRESENT)) k);;
          ret MSEL_OK.

Definition msel_init_pol : M unit := arch_gpio_config POL_SWITCH MSEL_GPIO_INPUT.

(** ** The dispatcher: os/syscall.c *)

Inductive msel_svc_number : Set :=
  | MSEL_SVC_RESET | MSEL_SVC_HALT | MSEL_SVC_RESTART | MSEL_SVC_WORKER
  | MSEL_SVC_YIELD | MSEL_SVC_EXIT | MSEL_SVC_DEBUG
  | MSEL_SVC_TRNG | MSEL_SVC_AES | MSEL_SVC_SHA | MSEL_SVC_ECC
  | MSEL_SVC_FFS_SESSION_RECV | MSEL_SVC_FFS_SESSION_SEND
  | MSEL_SVC_UART_WRITE | MSEL_SVC_MTC_READ_INC | MSEL_SVC_PROVISION | MSEL_SVC_POL.

#[export] Instance svc_eq_dec : EqDecision msel_svc_number.
Proof. solve_decision. Defined.

Definition svc_val (s : msel_svc_number) : Z :=
  match s with
  | MSEL_SVC_RESET => 42 | MSEL_SVC_HALT => 43 | MSEL_SVC_RESTART => 44 | MSEL_SVC_WORKER => 45
  | MSEL_SVC_YIELD => 46 | MSEL_SVC_EXIT => 47 | MSEL_SVC_DEBUG => 48 | MSEL_SVC_TRNG => 49
  | MSEL_SVC_AES => 50 | MSEL_SVC_SHA => 51 | MSEL_SVC_ECC => 52 | MSEL_SVC_FFS_SESSION_RECV => 53
  | MSEL_SVC_FFS_SESSION_SEND => 54 | MSEL_SVC_UART_WRITE => 55 | MSEL_SVC_MTC_READ_INC => 56
  | MSEL_SVC_PROVISION => 57 | MSEL_SVC_POL => 58
  end.

Definition svc_of (n : Z) : option msel_svc_number :=
  list_find (λ s, svc_val s = n)
    [MSEL_SVC_RESET; MSEL_SVC_HALT; MSEL_SVC_RESTART; MSEL_SVC_WORKER; MSEL_SVC_YIELD; MSEL_SVC_EXIT;
     MSEL_SVC_DEBUG; MSEL_SVC_TRNG; MSEL_SVC_AES; MSEL_SVC_SHA; MSEL_SVC_ECC; MSEL_SVC_FFS_SESSION_RECV;
     MSEL_SVC_FFS_SESSION_SEND; MSEL_SVC_UART_WRITE; MSEL_SVC_MTC_READ_INC; MSEL_SVC_PROVISION;
     MSEL_SVC_POL] ≫= λ p, Some (snd p).

Definition msel_svc_worker : M msel_status :=
  let* n := gets active_num in if negb (n =? 0) then ret MSEL_EPERM else ret MSEL_OK.

Section handler.
Context (driver : msel_svc_number → Z → mem → mem * msel_status).

Definition do_driver (s : msel_svc_number) (arg_ : Z) : M msel_status :=
  let* m := gets ram in
  let '(m, st) := driver s arg_ m in modify (with_ram m);; ret st.

(** The switch of [msel_svc_handler]; [restart] is its call of
    [msel_svc_restart].  The breakpoint of MSEL_SVC_DEBUG is ignored, as the
    comment there allows. *)
Definition svc_switch (restart : Z → M msel_status) (svcnum arg_ : Z) : M msel_status :=
  match svc_of svcnum with
  | Some MSEL_SVC_DEBUG => ret MSEL_OK
  | Some (MSEL_SVC_RESET | MSEL_SVC_HALT) => ret MSEL_ENOTIMPL
  | Some MSEL_SVC_WORKER => msel_svc_worker
  | Some MSEL_SVC_YIELD => msel_task_schedule
  | Some MSEL_SVC_RESTART => restart arg_
  | Some MSEL_SVC_EXIT =>
      let* n := gets active_num in
      (if n =? 0 then msel_panic "Task 0 exited." else ret tt);;
      msel_task_force_kill n "exited";;
      ret MSEL_OK
  | Some (MSEL_SVC_TRNG | MSEL_SVC_AES | MSEL_SVC_SHA | MSEL_SVC_ECC
         | MSEL_SVC_MTC_READ_INC | MSEL_SVC_PROVISION) as s => do_driver (default MSEL_SVC_TRNG s) arg_
  | Some MSEL_SVC_FFS_SESSION_SEND => msel_ffs_session_send arg_
  | Some MSEL_SVC_FFS_SESSION_RECV => msel_ffs_session_recv arg_
  | Some MSEL_SVC_UART_WRITE => msel_uart_write arg_
  | Some MSEL_SVC_POL => msel_proof_of_life arg_
  | None => ret MSEL_EINVSVC
  end.

(** The restarted call is never a restart itself. *)
Definition msel_svc_restart (rs_args : Z) : M msel_status :=
  let* n := gets active_num in
  if negb (n =? 0) then ret MSEL_EPERM
  else
    let* m := gets ram in
    let rs_tasknum := load32 m rs_args in
    let rs_svcnum := load32 m (rs_args + 4) in
    let rs_arg := load32 m (rs_args + 8) in
    if rs_svcnum =? svc_val MSEL_SVC_RESTART then ret MSEL_EINVAL
    else
      modify (with_active (u8 rs_tasknum) rs_tasknum);;
      msel_task_resume rs_tasknum;;
      svc_switch (λ _, hang) rs_svcnum rs_arg.

Definition msel_svc_handler (svcnum arg_ : Z) : M msel_status := svc_switch msel_svc_restart svcnum arg_.

(** The result goes to the task that was active on entry. *)
Definition SystemCallHandler (svcnum arg_ : Z) : M unit :=
  let* task := gets active_task in
  let* retval := msel_svc_handler svcnum arg_ in
  let* t := tcb_at task in
  modify (λ k, with_ram (store32 (ram k) (stack t + off_r11) (u32 (status_val retval))) k).

(** ** The main task: the body of the loop of [msel_main] for one task, with the
    arguments of the restart at [rs_args] on its stack *)
Definition main_poll (rs_args : Z) (task_idx : Z) : M unit :=
  let* t := tcb_at task_idx in
  if msel_task_is_waiting t then
    match wait_op t with
    | MSEL_TASK_WAIT_POL =>
        modify (λ k, with_ram (store32 (store32 (store32 (ram k) rs_args task_idx)
          (rs_args + 4) (svc_val MSEL_SVC_POL)) (rs_args + 8) (state t)) k);;
        SystemCallHandler (svc_val MSEL_SVC_RESTART) rs_args
    | MSEL_TASK_WAIT_TIME => msel_task_resume task_idx
    | _ => ret tt
    end
  else ret tt.
End handler.

(** ** Faults: arch/openrisc/isr.c *)

Definition fault (why why0 : string) : M unit :=
  let* n := gets active_num in
  if negb (n =? 0) then msel_task_force_kill n why else msel_panic why0.

Definition BusError : M unit := fault "Bus error" "Bus error in task0".
Definition AlignmentError : M unit := fault "Alignment error" "Alignment error in task0".
Definition IllegalInstruction : M unit := fault "Illegal Instruction" "Illegal instruction in task0".
Definition DataPageFault : M unit := fault "Data page fault" "Data page fault in task0".
Definition InstructionPageFault : M unit := fault "Instruction page fault" "Instruction page fault in task0".
Definition RangeException : M unit := fault "Range exception" "Range exception in task0".
Definition FloatingPointException : M unit := fault "Floating Point exception" "Floating Point exception in task0".
Definition TrapException : M unit := fault "Trap exception" "Trap exception in task0".

(** ** Interrupt entry and exit: context_save and context_restore of
    arch/openrisc/init.s around a handler; [task_sp] is the interrupted stack
    pointer *)
Definition interrupt (task_sp : Z) (handler : M unit) : M unit :=
  let* call := or1k_save_context task_sp in
  (if call then handler else ret tt);;
  msel_task_update_ctrs_resume.

(** ** Boot: [msel_init] of os/system.c, without the initialisation of the
    interrupt controller and of the UART's registers *)
Definition msel_init_uart : M unit :=
  modify (λ k, let u := k_uart k in
    with_uart (Uart (replicate MSEL_TASKS_MAX (UartEntry 0 0 0)) (uart_task u) (uart_tx u) (uart_room u)) k).

Definition msel_init (msel_main : Z) : M unit :=
  modify (with_ticks 0);;
  msel_init_uart;;
  msel_init_ffs_queues;;
  msel_init_led;;
  msel_init_taskmem;;
  msel_init_task msel_main;;
  msel_init_pol.

(** The statics after the start-up code, with [m] in memory. *)
Definition reset_kernel (m : mem) : kernel :=
  Kernel (Sched (replicate MSEL_TASKS_MAX tcb0) 0 0 0) 0 m
    (Uart (replicate MSEL_TASKS_MAX (UartEntry 0 0 0)) 0 [] 0) (Gpio 0 0 0) (Pol 0 0) (Mmu ∅ 0 0 0 0)
    (Ffs false (Cbuf (replicate MAX_QUEUE_SIZE packet0) 0 0 0) (replicate 5 queue0)
      (Cbuf [0; 0] 0 0 0) packet0 0 (MAX_NUM_SESSIONS + 1) FFS_CHANNEL_READY 1 false
      packet0 (0, 0) packet0 0 0).
