(* ===== verification/Isr.v ===== *)
(** * TLB misses and external interrupts

    The TLB miss handlers and the external interrupt handler of
    arch/openrisc/isr.c with the constants of or1k.h, spr.h and mmio.h.  There is
    no page table: a miss computes the permissions of the page for the active
    task and writes them into the TLB.

    [_data_beg] and [_bss_end] are symbols of the linker script, whose values
    depend on the build: they are parameters. *)

From S2P Require Import Prelude Words Msel Memory Malloc Kernel Task Session Syscall.

Local Open Scope Z_scope.
Local Open Scope orp_scope.
Local Open Scope kernel_scope.

(** ** Constants *)

Definition ROM_START : Z := 0x00100000.
Definition ROM_SIZE : Z := 0x10000.
Definition RAM_SIZE : Z := 0x20000.
Definition PAGE_SIZE : Z := 8192.
Definition PAGE_BITS : Z := 13.
Definition VPN_MASK : Z := not32 (PAGE_SIZE - 1).
Definition TLB_ENTRIES : Z := 64.
Definition TLB_ENTRY_MASK : Z := (TLB_ENTRIES - 1) <<< PAGE_BITS.
Definition TLB_ENTRY (vaddr : Z) : Z := (vaddr .& TLB_ENTRY_MASK) >>> PAGE_BITS.

Definition TLBMR_V : Z := 1.
Definition TLBTR_URE : Z := 1 <<< 6.
Definition TLBTR_UWE : Z := 1 <<< 7.
Definition TLBTR_SRE : Z := 1 <<< 8.
Definition TLBTR_SWE : Z := 1 <<< 9.
Definition TLBTR_SXE : Z := 1 <<< 6.
Definition TLBTR_UXE : Z := 1 <<< 7.

Definition SPR_EPCR (n : Z) : Z := SPR_REG 0 32 + (n .& 15).
Definition SPR_EEAR (n : Z) : Z := SPR_REG 0 48 + (n .& 15).
Definition SPR_DTLBW0MR (n : Z) : Z := SPR_REG 1 512 + (n .& 127).
Definition SPR_DTLBW0TR (n : Z) : Z := SPR_REG 1 640 + (n .& 127).
Definition SPR_ITLBW0MR (n : Z) : Z := SPR_REG 2 512 + (n .& 127).
Definition SPR_ITLBW0TR (n : Z) : Z := SPR_REG 2 640 + (n .& 127).

(** UART, TRNG, AES, SHA, ECC, FFS *)
Definition mmio_addrs : list Z := [0x90000000; 0x92000000; 0x93000000; 0x94000000; 0x95000000; 0x98000000].

Definition in_range (a lo hi : Z) : bool := (lo <=? a) && (a <? hi).

(** ** Handlers *)

Section mmu.
Context (data_beg bss_end : Z).

(** The permissions of a data page for task [task]. *)
Definition data_perms (task eear : Z) : Z :=
  if in_range eear ROM_START (ROM_START + ROM_SIZE) then TLBTR_SRE .| TLBTR_URE
  else if in_range eear RAM_START (RAM_START + RAM_SIZE) then
    let perms := TLBTR_SRE .| TLBTR_SWE in
    if task =? MSEL_TASK_MAIN then perms .| (TLBTR_UWE .| TLBTR_URE)
    else
      let perms :=
        if in_range eear (taskmem_stack_bottom task) (taskmem_heap_end task)
        then perms .| (TLBTR_URE .| TLBTR_UWE) else perms in
      if in_range eear data_beg bss_end then perms .| TLBTR_URE else perms
  else if existsb (λ a, in_range eear a (a + 0x8000)) mmio_addrs then TLBTR_SWE .| TLBTR_SRE
  else 0.

Definition set_last_d (eear epcr : Z) (k : kernel) : kernel :=
  let u := k_mmu k in with_mmu (Mmu (sprs u) eear epcr (i_last_eear u) (i_last_epcr u)) k.
Definition set_last_i (eear epcr : Z) (k : kernel) : kernel :=
  let u := k_mmu k in with_mmu (Mmu (sprs u) (d_last_eear u) (d_last_epcr u) eear epcr) k.

Definition DTLBMiss : M unit :=
  let* eear := spr_read (SPR_EEAR 0) in
  let* epcr := spr_read (SPR_EPCR 0) in
  let* u := gets k_mmu in
  (if (eear =? d_last_eear u) && (epcr =? d_last_epcr u) then msel_panic "The DMMU isn't very happy about this"
   else ret tt);;
  modify (set_last_d eear epcr);;
  let* task := gets active_num in
  let* n := gets active_task in
  let* t := tcb_at n in
  spr_write (SPR_DTLBW0MR (TLB_ENTRY eear)) ((eear .& VPN_MASK) .| (TLBMR_V .| (ctx_id t <<< 2)));;
  spr_write (SPR_DTLBW0TR (TLB_ENTRY eear)) ((eear .& VPN_MASK) .| data_perms task eear).
End mmu.

(** Every page may be executed. *)
Definition ITLBMiss : M unit :=
  let* eear := spr_read (SPR_EEAR 0) in
  let* epcr := spr_read (SPR_EPCR 0) in
  let* u := gets k_mmu in
  (if (eear =? i_last_eear u) && (epcr =? i_last_epcr u) then msel_panic "The IMMU isn't very happy about this"
   else ret tt);;
  modify (set_last_i eear epcr);;
  let* n := gets active_task in
  let* t := tcb_at n in
  spr_write (SPR_ITLBW0MR (TLB_ENTRY eear)) ((eear .& VPN_MASK) .| (TLBMR_V .| (ctx_id t <<< 2)));;
  spr_write (SPR_ITLBW0TR (TLB_ENTRY eear)) ((eear .& VPN_MASK) .| (TLBTR_SXE .| TLBTR_UXE)).

(** ** External interrupts

    [pic i v] is what the interrupt controller's status register reads after the
    [i]-th write of [v] to it: a line may be raised again at any time. *)

Definition SPR_PICSR : Z := SPR_REG 9 2.

Section external.
Context (get_task : list Z → Z * Z * Z) (pic : nat → Z → Z).

(** [do { clear; write; read back } while((i < 1024) && (picsr & bit))], with [n]
    turns left. *)
Fixpoint pic_ack (n i : nat) (bit picsr : Z) : M Z :=
  match n with
  | O => ret picsr
  | S n =>
      let picsr := picsr .& not32 bit in
      spr_write SPR_PICSR picsr;;
      spr_write SPR_PICSR (pic i picsr);;
      let* picsr := spr_read SPR_PICSR in
      if picsr .& bit =? 0 then ret picsr else pic_ack n (S i) bit picsr
  end.

Definition ExternalInterrupt : M unit :=
  let* picsr := spr_read SPR_PICSR in
  let* picsr :=
    (if picsr .& (1 <<< 16) =? 0 then ret picsr
     else FauxFileSystemWrite get_task;; pic_ack 1024 0 (1 <<< 16) picsr) in
  if picsr .& (1 <<< 17) =? 0 then ret tt
  else FauxFileSystemReadAck;; pic_ack 1024 0 (1 <<< 17) picsr;; ret tt.
End external.

(** ** Special purpose registers *)

Definition spr (k : kernel) (r : Z) : Z := default 0 (sprs (k_mmu k) !! r).

(** The state after [spr_write r v]. *)
Definition with_spr (r v : Z) (k : kernel) : kernel :=
  let u := k_mmu k in
  with_mmu (Mmu (<[r := u32 v]> (sprs u)) (d_last_eear u) (d_last_epcr u) (i_last_eear u) (i_last_epcr u)) k.

Lemma spr_with_eq r v k : is_u32 v → spr (with_spr r v k) r = v.
Proof. intros Hv. unfold spr, with_spr. cbn. rewrite lookup_insert_eq. cbn. by apply u32_id. Qed.

Lemma spr_with_ne r r' v k : r ≠ r' → spr (with_spr r v k) r' = spr k r'.
Proof. intros Hne. unfold spr, with_spr. cbn. by rewrite lookup_insert_ne. Qed.

Lemma pair_eqb_ne (a b c d : Z) : (a, b) ≠ (c, d) → (a =? c) && (b =? d) = false.
Proof. intros H. apply not_true_is_false. intros [->%Z.eqb_eq ->%Z.eqb_eq]%andb_true_iff. done. Qed.

Lemma land_bit_0 x n : 0 <= n → Z.testbit x n = false → x .& (1 <<< n) = 0.
Proof.
  intros Hn Hx. apply Z.bits_inj'. intros i Hi. rewrite Z.land_spec, Z.bits_0, Z.shiftl_1_l, Z.pow2_bits_eqb by lia.
  destruct (Z.eqb_spec n i) as [->|]; [by rewrite Hx|apply andb_false_r].
Qed.
