(* ===== verification/Invariant.v ===== *)
(** * The kernel's invariant

    Every interrupt, system call and fault, entered through the context save of
    arch/openrisc/init.s, keeps the kernel's data structures consistent: no
    handler leaves an array or loops, the main task stays runnable, and the task
    that is resumed is a runnable one.  This holds until the host has a sixth task
    created, which the kernel does not prevent. *)

From S2P Require Import Prelude Words Msel Memory Malloc Kernel Task Session Syscall Isr.

Local Open Scope Z_scope.
Local Open Scope orp_scope.
Local Open Scope kernel_scope.

(** ** The invariant *)

Record uart_ok (u : uart) : Prop := {
  uo_len : length (uart_queue u) = MSEL_TASKS_MAX;
  uo_entries : Forall (λ e, 0 <= offset e ∧ 0 <= len e < 2 ^ 32) (uart_queue u) }.

Definition session_count (l : list ffs_queue_t) : Z := foldr (λ q z, Z.b2z (active q) + z) 0 l.

Record ffs_ok (f : ffs) : Prop := {
  fo_len : length (wq f) = 5%nat;
  fo_bufs : Forall (λ q, cb_ok (q_buf q)) (wq f);
  fo_tasks : Forall (λ q, active q = true → 1 <= task_id q <= 4) (wq f);
  fo_rq : cb_ok (rq f);
  fo_s0_rq : cb_ok (s0_rq f);
  fo_count : num_sessions f = session_count (wq f) }.

(** What holds when a handler may call the scheduler. *)
Record steady (k : kernel) : Prop := {
  sd_ok : kernel_ok k;
  sd_main : runnable (tasks k) 0;
  sd_uart : uart_ok (k_uart k);
  sd_ffs : ffs_ok (k_ffs k) }.

(** What holds between interrupts. *)
Record kernel_inv (k : kernel) : Prop := {
  iv_steady : steady k;
  iv_range : 0 <= active_num k < num_tasks k;
  iv_ptr : active_task k = active_num k;
  iv_active : runnable (tasks k) (Z.to_nat (active_num k)) }.

(** ** Frames *)

(** Changes to memory, devices other than the console, and ticks do not matter. *)
Lemma steady_frame k k' : steady k → k_sched k' = k_sched k → k_uart k' = k_uart k → k_ffs k' = k_ffs k → steady k'.
Proof.
  intros [[A B C] D E F] Hs Hu Hf. assert (tasks k' = tasks k ∧ num_tasks k' = num_tasks k) as [Ht Hn]
    by (unfold tasks, num_tasks; by rewrite Hs).
  split; [split|..]; rewrite ?Ht, ?Hn, ?Hu, ?Hf; done.
Qed.

Lemma kernel_inv_frame k k' : kernel_inv k → k_sched k' = k_sched k → k_uart k' = k_uart k → k_ffs k' = k_ffs k →
  kernel_inv k'.
Proof.
  intros [S A B C] Hs Hu Hf. split; [by eapply steady_frame|..];
    unfold active_num, active_task, num_tasks, tasks in *; by rewrite Hs.
Qed.

Lemma steady_len k : steady k → Z.of_nat (length (tasks k)) = 5.
Proof. intros [[A _ _] _ _ _]. rewrite A. done. Qed.

(** ** The scheduler *)

Lemma wp_schedule k Q : steady k →
  (∀ k', kernel_inv k' → ram k' = ram k → k_ffs k' = k_ffs k → num_tasks k' = num_tasks k → Q MSEL_OK k') →
  wp msel_task_schedule Q k.
Proof.
  intros [Hok Hm Hu Hf] HQ. pose proof (ok_num k Hok) as Hn.
  destruct (schedule_ok k 0 Hok ltac:(lia) Hm) as (d & g & r & E & _ & (_ & Hnext & _) & _).
  eapply wp_ok; [exact E|]. pose proof (kernel_ok_switched d g r k Hok) as Hok'.
  apply HQ; [|done|done|done]. split; [split; [done|by apply reap_runnable|by destruct Hu|done]|..].
  - change (0 <= (active_num k + d) mod num_tasks k < num_tasks k). apply Z.mod_pos_bound. lia.
  - done.
  - by apply reap_runnable.
Qed.

(** A control block other than that of the main task may change, as long as a
    killed task has a reason. *)
Lemma steady_upd k i f t : steady k → (0 < i)%nat → tasks k !! i = Some t →
  (killed (f t) = true → is_Some (reason (f t))) → steady (with_tasks (<[i := f t]> (tasks k)) k).
Proof.
  intros [[A B C] D E F] Hi Ht Hf. split; [split| |done|done]; rewrite ?tasks_with_tasks.
  - by rewrite length_insert.
  - done.
  - intros j u Hj Hk. apply list_lookup_insert_Some in Hj as [(-> & <- & _)|[_ Hj]]; [by apply Hf|by eapply C].
  - apply runnable_insert_ne; [lia|done].
Qed.

Lemma wp_force_kill k n why Q : steady k → 1 <= n <= 4 →
  (∀ k', kernel_inv k' → ram k' = ram k → k_ffs k' = k_ffs k → num_tasks k' = num_tasks k → Q tt k') →
  wp (msel_task_force_kill n why) Q k.
Proof.
  intros Hs Hn HQ. pose proof (steady_len k Hs). unfold msel_task_force_kill.
  apply wp_bind, wp_tcb_upd; [lia|]. intros t Ht. apply wp_bind, wp_schedule; [|intros; by apply wp_ret, HQ].
  apply steady_upd; [done|lia|done|by eexists].
Qed.

Lemma wp_panic {A} why (Q : A → kernel → Prop) k : active_num k = 0 → wp (msel_panic why) Q k.
Proof.
  intros Ha. unfold wp, msel_panic, uart_print_now. destruct (write_bind (string_bytes why) (string_bytes_ok why) (λ _ k, @Panic A k) k) as [r E].
  by rewrite E.
Qed.

Lemma active_task_range k : kernel_inv k → active_num k ≠ 0 → 1 <= active_num k <= 4.
Proof. intros [[[_ A _] _ _ _] B _ _] Hne. lia. Qed.

Lemma steady_reason k i t : steady k → tasks k !! i = Some t → killed t = true → is_Some (reason t).
Proof. intros [[_ _ H] _ _ _]. apply H. Qed.

(** ** Faults, ticks and console *)

Lemma wp_fault k why why0 : kernel_inv k → wp (fault why why0) (λ _, kernel_inv) k.
Proof.
  intros Hinv. unfold fault. apply wp_bind, wp_gets. destruct (Z.eqb_spec (active_num k) 0) as [H0|H0]; cbn [negb].
  - by apply wp_panic.
  - apply wp_force_kill; [apply Hinv|by apply active_task_range|done].
Qed.

Lemma wp_gpio_write ios vals k (Q : unit → kernel → Prop) : (∀ g, Q tt (with_gpio g k)) → wp (arch_gpio_write ios vals) Q k.
Proof. intros HQ. destruct (arch_gpio_write_ok ios vals k) as (g & E & _). eapply wp_ok; [exact E|apply HQ]. Qed.

Lemma wp_status_leds k (Q : unit → kernel → Prop) : steady k → (∀ g, Q tt (with_gpio g k)) → wp msel_set_status_leds Q k.
Proof.
  intros Hs HQ. pose proof (steady_len k Hs). pose proof (ok_num k (sd_ok k Hs)).
  destruct (set_status_leds_ok k) as (g & E & _); [lia|]. eapply wp_ok; [exact E|apply HQ].
Qed.

Lemma wp_systick k : kernel_inv k → wp msel_systick_handler (λ _, kernel_inv) k.
Proof.
  intros Hinv. unfold msel_systick_handler, arch_systick_handler, spr_read, spr_write.
  apply wp_bind, wp_modify, wp_bind, wp_bind, wp_gets, wp_modify.
  assert (steady k) as Hs by apply Hinv. apply wp_bind, wp_status_leds; [by eapply steady_frame|].
  intros g. apply wp_bind, wp_schedule; [by eapply steady_frame|]. intros k' Hk' _ _ _. by apply wp_ret.
Qed.

(** ** Proof of life *)

Lemma wp_pol_busy n i me k (Q : bool → kernel → Prop) : (i + n ≤ length (tasks k))%nat → (∀ b, Q b k) →
  wp (pol_busy n i me) Q k.
Proof.
  revert i. induction n as [|n IH]; intros i Hi HQ; [apply HQ|]. cbn [pol_busy].
  apply wp_bind, wp_tcb_at; [lia|]. intros t _. destruct (bool_decide _ && _); [by apply wp_ret|]. apply IH; [lia|done].
Qed.

Lemma wp_gpio_read ios k (Q : Z → kernel → Prop) : (∀ v, Q v k) → wp (arch_gpio_read ios) Q k.
Proof. intros HQ. unfold arch_gpio_read. destruct (_ =? 0); [apply wp_ret|apply wp_gets]; apply HQ. Qed.

Lemma wp_proof_of_life k retp : kernel_inv k → wp (msel_proof_of_life retp) (λ _, kernel_inv) k.
Proof.
  intros Hinv. unfold msel_proof_of_life. destruct (retp =? 0); [by apply wp_ret|]. apply wp_bind, wp_gets.
  destruct (Z.eqb_spec (active_num k) MSEL_TASK_MAIN) as [H0|H0]; [by apply wp_ret|].
  pose proof (active_task_range k Hinv H0) as Hrange. pose proof (steady_len k (iv_steady k Hinv)) as Hlen.
  apply wp_bind, wp_pol_busy; [unfold MSEL_TASKS_MAX; lia|]. intros [|]; [by apply wp_ret|].
  apply wp_bind, wp_gets, wp_bind.
  apply (wp_mono _ (λ _ k', kernel_inv k' ∧ active_num k' = active_num k)).
  { destruct (_ =? 0); [|by apply wp_ret]. apply wp_bind, wp_gets, wp_bind, wp_gpio_read. intros v. apply wp_modify.
    split; [by eapply kernel_inv_frame|done]. }
  clear Hinv Hlen. intros _ k1 [Hinv Ha]. apply wp_bind, wp_gets, wp_bind, wp_gets, wp_bind.
  apply (wp_mono _ (λ _ k', kernel_inv k' ∧ active_num k' = active_num k)).
  { destruct (pol_led_off _); (apply wp_gpio_write; intros g; split; [by eapply kernel_inv_frame|done]). }
  clear Hinv. intros _ k2 [Hinv Ha2]. apply wp_bind, wp_gpio_read. intros v.
  destruct ((v =? _) && _).
  - apply wp_bind, wp_gets. rewrite (iv_ptr k2 Hinv). pose proof (iv_steady k2 Hinv) as Hs. pose proof (steady_len k2 Hs).
    apply wp_bind, wp_tcb_upd; [lia|]. intros t Ht. set (k3 := with_tasks _ k2).
    assert (steady k3) as Hs3 by (apply steady_upd; [done|lia|done|by apply (steady_reason k2 _ _ Hs Ht)]).
    clearbody k3. pose proof (steady_len k3 Hs3).
    apply wp_bind, wp_tcb_upd; [lia|]. intros t3 Ht3. apply wp_bind, wp_schedule.
    + apply steady_upd; [done|lia|done|by apply (steady_reason k3 _ _ Hs3 Ht3)].
    + intros k' Hk' _ _ _. by apply wp_ret.
  - apply wp_bind, wp_modify, wp_bind, wp_gpio_write. intros g. apply wp_bind, wp_modify, wp_ret.
    by eapply kernel_inv_frame.
Qed.

(** ** Console output *)

Definition unsent (e : uart_queue_entry) : Z := Z.max 0 (len e - offset e).
Definition sendable (e : uart_queue_entry) : Prop := buf e ≠ 0 ∧ offset e < len e.

Lemma pending_insert l n e e' : l !! n = Some e → pending (<[n := e']> l) = pending l - unsent e + unsent e'.
Proof.
  revert n. induction l as [|x l IH]; intros [|n] H; try done.
  - injection H as ->. change (unsent e' + pending l = unsent e + pending l - unsent e + unsent e'). lia.
  - change (unsent x + pending (<[n := e']> l) = unsent x + pending l - unsent e + unsent e').
    rewrite (IH n H). lia.
Qed.

Lemma pending_le l n e : l !! n = Some e → unsent e <= pending l.
Proof.
  assert (∀ l, 0 <= pending l) as Hpos.
  { induction l0 as [|y l0 IH]; [done|]. change (0 <= unsent y + pending l0). unfold unsent. lia. }
  revert n. induction l as [|x l IH]; intros [|n] H; try done.
  - injection H as ->. specialize (Hpos l). change (unsent e <= unsent e + pending l). lia.
  - specialize (IH n H). change (unsent e <= unsent x + pending l). unfold unsent in *. lia.
Qed.

(** Progress from [u] to [u']: the same requests, no more left to send. *)
Record uart_le (u u' : uart) : Prop := {
  ul_ok : uart_ok u';
  ul_reqs : (λ e, (buf e, len e)) <$> uart_queue u' = (λ e, (buf e, len e)) <$> uart_queue u;
  ul_pending : pending (uart_queue u') <= pending (uart_queue u) }.

Lemma uart_le_refl u : uart_ok u → uart_le u u.
Proof. intros H. split; [done|done|lia]. Qed.

Lemma uart_le_trans u1 u2 u3 : uart_le u1 u2 → uart_le u2 u3 → uart_le u1 u3.
Proof. intros [A B C] [D E F]. split; [done|congruence|lia]. Qed.

Lemma uart_le_entry u u' n e : uart_le u u' → uart_queue u !! n = Some e →
  ∃ e', uart_queue u' !! n = Some e' ∧ buf e' = buf e ∧ len e' = len e.
Proof.
  intros [_ H _] He.
  assert (((λ e, (buf e, len e)) <$> uart_queue u') !! n = Some (buf e, len e)) as H'
    by (rewrite H; by rewrite list_lookup_fmap, He).
  rewrite list_lookup_fmap in H'. destruct (uart_queue u' !! n) as [e'|]; [|done]. cbn in H'.
  injection H' as H1 H2. by exists e'.
Qed.

Lemma with_uart_id k : with_uart (k_uart k) k = k.
Proof. by destruct k. Qed.

Lemma wp_uart_entry n k (Q : uart_queue_entry → kernel → Prop) : uart_ok (k_uart k) → (n < 5)%nat →
  (∀ e, uart_queue (k_uart k) !! n = Some e → 0 <= offset e → 0 <= len e < 2 ^ 32 → Q e k) → wp (uart_entry n) Q k.
Proof.
  intros [Hl HF] Hn HQ. destruct (lookup_lt_is_Some_2 (uart_queue (k_uart k)) n) as [e He]; [rewrite Hl; done|].
  eapply (wp_ok _ _ _ e k); [unfold uart_entry; by rewrite He|]. eapply Forall_lookup_1 in HF; [|exact He].
  destruct HF as [H1 H2]. by apply HQ.
Qed.

Lemma wp_uart_scan task cnt modidx k (Q : bool → kernel → Prop) : uart_ok (k_uart k) →
  (∀ u', uart_le (k_uart k) u' → pending (uart_queue u') < pending (uart_queue (k_uart k)) →
     (uart_room u' < S (pred (uart_room (k_uart k))))%nat → Q true (with_uart u' k)) →
  ((∀ j e, (modidx ≤ j < modidx + cnt)%nat →
     uart_queue (k_uart k) !! ((task + j) mod MSEL_TASKS_MAX)%nat = Some e → ¬ sendable e) → Q false k) →
  wp (uart_scan task cnt modidx) Q k.
Proof.
  intros Hu HT. revert modidx. induction cnt as [|cnt IH]; intros modidx HF; cbn [uart_scan].
  { apply wp_ret, HF. intros; lia. }
  pose proof (Nat.mod_upper_bound (task + modidx) MSEL_TASKS_MAX ltac:(done)) as Hm. set (n := ((_ + _) mod _)%nat) in *.
  apply wp_bind, wp_uart_entry; [done|done|]. intros e He Ho Hl.
  destruct (Z.eqb_spec (buf e) 0) as [Hb|Hb], (Z.ltb_spec (offset e) (len e)) as [Hlt|Hge]; cbn [negb andb].
  3: { unfold arch_uart_putc, uart_set_entry, uart_set_task. unfold wp. krun. unfold ret.
    apply HT; [split|..]; cbn [k_uart with_uart uart_queue uart_task uart_tx uart_room].
    - destruct Hu as [HuL HuF]. split; cbn; [by rewrite length_insert|]. apply Forall_insert; [done|]. cbn.
      rewrite u32_id by (unfold is_u32; lia). lia.
    - rewrite list_fmap_insert. apply list_insert_id. rewrite list_lookup_fmap, He. done.
    - rewrite (pending_insert _ _ e) by done. unfold unsent. cbn. rewrite u32_id by (unfold is_u32; lia). lia.
    - rewrite (pending_insert _ _ e) by done. unfold unsent. cbn. rewrite u32_id by (unfold is_u32; lia). lia.
    - lia. }
  all: apply IH; intros H; apply HF; intros j x Hj Hx; destruct (decide (j = modidx)) as [->|Hne];
    [fold n in Hx; rewrite He in Hx; injection Hx as <-; unfold sendable; lia|apply (H j); [lia|done]].
Qed.

Definition any_sendable (u : uart) : Prop := ∃ n e, uart_queue u !! n = Some e ∧ sendable e.

Lemma ring_covers task n : (n < 5)%nat → ∃ j, (j < 5)%nat ∧ ((task + j) mod 5 = n)%nat.
Proof.
  intros Hn. pose proof (Nat.mod_upper_bound task 5 ltac:(lia)).
  destruct (decide (task mod 5 ≤ n)%nat) as [Hle|Hlt].
  - exists (n - task mod 5)%nat. split; [lia|]. rewrite <- Nat.Div0.add_mod_idemp_l.
    replace (task mod 5 + (n - task mod 5))%nat with n by lia. by apply Nat.mod_small.
  - exists (n + 5 - task mod 5)%nat. split; [lia|]. rewrite <- Nat.Div0.add_mod_idemp_l.
    replace (task mod 5 + (n + 5 - task mod 5))%nat with (n + 1 * 5)%nat by lia.
    rewrite Nat.Div0.mod_add. by apply Nat.mod_small.
Qed.

Lemma wp_flush fuel k (Q : unit → kernel → Prop) : uart_ok (k_uart k) → (uart_room (k_uart k) < fuel)%nat →
  (∀ u', uart_le (k_uart k) u' →
     ((0 < uart_room (k_uart k))%nat → any_sendable (k_uart k) → pending (uart_queue u') < pending (uart_queue (k_uart k))) →
     Q tt (with_uart u' k)) →
  wp (flush_loop fuel) Q k.
Proof.
  revert k. induction fuel as [|fuel IH]; intros k Hu Hr HQ; [lia|]. cbn [flush_loop].
  pose proof (HQ (k_uart k) (uart_le_refl _ Hu)) as HQid. rewrite with_uart_id in HQid.
  unfold arch_uart_is_writable. apply wp_bind, wp_gets.
  destruct (Nat.eqb_spec (uart_room (k_uart k)) 0) as [H0|H0]; cbn [negb].
  { apply wp_ret, HQid. lia. }
  unfold uart_send_next_byte. apply wp_bind, wp_bind, wp_gets, wp_uart_scan; [done| |].
  - intros u1 Hle Hlt Hroom. apply IH; [apply Hle|cbn; lia|]. intros u' Hle' _. apply HQ.
    + by eapply uart_le_trans.
    + intros _ _. pose proof (ul_pending _ _ Hle'). cbn in *. lia.
  - intros Hnone. apply wp_ret, HQid.
    intros _ (n & e & He & Hs). exfalso. pose proof (lookup_lt_Some _ _ _ He) as Hn. rewrite (uo_len _ Hu) in Hn.
    destruct (ring_covers (uart_task (k_uart k)) n Hn) as (j & Hj & Ej).
    apply (Hnone j e); [unfold MSEL_TASKS_MAX; lia| |done]. unfold MSEL_TASKS_MAX. by rewrite Ej.
Qed.

(** The retry loop ends: each turn after a wait sends at least one byte. *)
Lemma wp_uart_retry_progress fuel k n e (Q : bool → kernel → Prop) : uart_ok (k_uart k) → n = Z.to_nat (active_num k) →
  uart_queue (k_uart k) !! n = Some e → sendable e → (0 < uart_room (k_uart k))%nat →
  pending (uart_queue (k_uart k)) <= Z.of_nat fuel →
  (∀ u' b, uart_ok u' → (b = false → active_num k ≠ 0) → Q b (with_uart u' k)) → wp (uart_retry fuel) Q k.
Proof.
  intros Hu -> He Hs Hr Hf HQ. revert k e Hu He Hs Hr Hf HQ. induction fuel as [|fuel IH]; intros k e Hu He Hs Hr Hf HQ.
  { pose proof (pending_le _ _ _ He). unfold unsent, sendable in *. lia. }
  cbn [uart_retry]. unfold uart_flush_queue. apply wp_bind, wp_bind, wp_gets, wp_flush; [done|lia|].
  intros u1 Hle Hlt. apply wp_bind, wp_gets.
  destruct (uart_le_entry _ _ _ _ Hle He) as (e1 & He1 & Hb1 & Hl1).
  pose proof (lookup_lt_Some _ _ _ He) as Hn. rewrite (uo_len _ Hu) in Hn.
  apply wp_bind, wp_uart_entry; [apply Hle|done|]. intros e' He' _ _.
  change (uart_queue (k_uart (with_uart u1 k))) with (uart_queue u1) in He'.
  change (active_num (with_uart u1 k)) with (active_num k) in *. rewrite He1 in He'. injection He' as <-.
  destruct (Z.ltb_spec (offset e1) (len e1)) as [Hrem|_]; [|apply wp_ret, HQ; [apply Hle|done]].
  destruct (Z.eqb_spec (active_num k) MSEL_TASK_MAIN) as [Hm|Hm]; [|apply wp_ret, HQ; [apply Hle|done]].
  assert (pending (uart_queue u1) <= Z.of_nat fuel) as Hp by (pose proof (Hlt Hr ltac:(by eexists _, _)); lia).
  assert (sendable e1) as Hs1 by (destruct Hs as [Hs _]; split; [rewrite Hb1; exact Hs|exact Hrem]).
  unfold uart_wait, arch_uart_is_writable. apply wp_bind, wp_bind, wp_gets. cbn [k_uart with_uart].
  destruct (Nat.eqb_spec (uart_room u1) 0) as [H0|H0]; cbn [negb]; [apply wp_modify|apply wp_ret].
  - eapply IH; cbn [k_uart with_uart uart_queue uart_room]; [by destruct Hle as [[] _ _]|exact He1|done|lia|done|].
    intros u' b Hu' Hb. exact (HQ u' b Hu' Hb).
  - eapply IH; cbn [k_uart with_uart]; [apply Hle|exact He1|done|lia|done|]. intros u' b Hu' Hb. exact (HQ u' b Hu' Hb).
Qed.

Lemma wp_uart_retry k n e (Q : bool → kernel → Prop) : uart_ok (k_uart k) → n = Z.to_nat (active_num k) →
  uart_queue (k_uart k) !! n = Some e → buf e ≠ 0 →
  (∀ u' b, uart_ok u' → (b = false → active_num k ≠ 0) → Q b (with_uart u' k)) →
  wp (uart_retry (S (Z.to_nat (pending (uart_queue (k_uart k)))))) Q k.
Proof.
  intros Hu -> He Hbuf HQ. cbn [uart_retry]. unfold uart_flush_queue. apply wp_bind, wp_bind, wp_gets, wp_flush; [done|lia|].
  intros u1 Hle _. apply wp_bind, wp_gets. destruct (uart_le_entry _ _ _ _ Hle He) as (e1 & He1 & Hb1 & Hl1).
  pose proof (lookup_lt_Some _ _ _ He) as Hn. rewrite (uo_len _ Hu) in Hn.
  apply wp_bind, wp_uart_entry; [apply Hle|done|]. intros e' He' _ _.
  change (uart_queue (k_uart (with_uart u1 k))) with (uart_queue u1) in He'.
  change (active_num (with_uart u1 k)) with (active_num k) in *. rewrite He1 in He'. injection He' as <-.
  destruct (Z.ltb_spec (offset e1) (len e1)) as [Hrem|_]; [|apply wp_ret, HQ; [apply Hle|done]].
  destruct (Z.eqb_spec (active_num k) MSEL_TASK_MAIN) as [Hm|Hm]; [|apply wp_ret, HQ; [apply Hle|done]].
  assert (sendable e1) as Hs1 by (split; [by rewrite Hb1|done]). pose proof (ul_pending _ _ Hle) as Hp.
  pose proof (pending_le _ _ _ He1) as Hp1. unfold unsent in Hp1.
  unfold uart_wait, arch_uart_is_writable. apply wp_bind, wp_bind, wp_gets. cbn [k_uart with_uart].
  destruct (Nat.eqb_spec (uart_room u1) 0) as [H0|H0]; cbn [negb]; [apply wp_modify|apply wp_ret];
    (eapply wp_uart_retry_progress; [|reflexivity|exact He1|done| | |]).
  all: cbn [k_uart with_uart uart_queue uart_room]; try lia.
  - by destruct Hle as [[] _ _].
  - intros u' b Hu' Hb. exact (HQ u' b Hu' Hb).
  - apply Hle.
  - intros u' b Hu' Hb. exact (HQ u' b Hu' Hb).
Qed.

Lemma steady_uart k u : steady k → uart_ok u → steady (with_uart u k).
Proof. intros [[] B _ D] Hu. by do 2 (split; try done). Qed.

Lemma kernel_inv_uart k u : kernel_inv k → uart_ok u → kernel_inv (with_uart u k).
Proof. intros [A B C D] Hu. split; [by apply steady_uart|done..]. Qed.

Lemma uart_ok_set u n b l r t : uart_ok u → 0 <= l < 2 ^ 32 →
  uart_ok (Uart (<[n := UartEntry b l 0]> (uart_queue u)) t (uart_tx u) r).
Proof. intros [HL HF] Hl. split; cbn; [by rewrite length_insert|]. apply Forall_insert; [done|cbn; lia]. Qed.

Lemma wp_uart_write k args : kernel_inv k → wp (msel_uart_write args) (λ _, kernel_inv) k.
Proof.
  intros Hinv. unfold msel_uart_write. apply wp_bind, wp_gets.
  pose proof (load32_range (ram k) (args + 4)) as Hlen. unfold is_u32 in Hlen.
  destruct (Z.eqb_spec (load32 (ram k) args) 0) as [|Hbuf]; [by apply wp_ret|]. cbn [orb].
  destruct (load32 (ram k) (args + 4) =? 0); [by apply wp_ret|].
  pose proof (iv_range k Hinv) as Hr. pose proof (ok_num k (sd_ok k (iv_steady k Hinv))) as Hnum.
  pose proof (sd_uart k (iv_steady k Hinv)) as Hu. apply wp_bind, wp_gets. set (n := Z.to_nat (active_num k)).
  apply wp_bind, wp_uart_entry; [done|lia|]. intros e He _ _. apply wp_bind.
  apply (wp_mono _ (λ _ k', ∃ u e, k' = with_uart u k ∧ uart_ok u ∧ uart_queue u !! n = Some e ∧ buf e ≠ 0)).
  { destruct (Z.eqb_spec (buf e) 0) as [H0|H0].
    - unfold uart_set_entry. apply wp_modify. eexists _, _. split; [done|]. split; [by apply uart_ok_set|].
      cbn. split; [apply list_lookup_insert_eq; by eapply lookup_lt_Some|done].
    - apply wp_ret. exists (k_uart k), e. by rewrite with_uart_id. }
  intros _ k1 (u & e' & -> & Hu1 & He' & Hb'). apply wp_bind, wp_gets, wp_bind.
  eapply (wp_uart_retry (with_uart u k)); [done|reflexivity|exact He'|done|]. intros u2 [|] Hu2 Hb2; cbv iota.
  - unfold uart_set_entry. apply wp_bind, wp_modify, wp_ret. apply (kernel_inv_uart k); [done|by apply uart_ok_set].
  - apply wp_bind, wp_gets. change (active_task (with_uart u2 (with_uart u k))) with (active_task k).
    rewrite (iv_ptr k Hinv). pose proof (active_task_range k Hinv (Hb2 eq_refl)).
    assert (steady (with_uart u2 (with_uart u k))) as Hs by (apply (steady_uart k); [apply Hinv|done]).
    pose proof (steady_len _ Hs). apply wp_bind, wp_tcb_upd; [lia|]. intros t Ht.
    apply wp_bind, wp_schedule; [|intros; by apply wp_ret].
    apply steady_upd; [done|lia|done|by apply (steady_reason _ _ _ Hs Ht)].
Qed.

(** ** Sessions *)

Lemma steady_ffs k f : steady k → ffs_ok f → steady (with_ffs f k).
Proof. intros [[] B C _] Hf. by do 2 (split; try done). Qed.

Lemma kernel_inv_ffs k f : kernel_inv k → ffs_ok f → kernel_inv (with_ffs f k).
Proof. intros [A B C D] Hf. split; [by apply steady_ffs|done..]. Qed.

(** [with_ffs] of a state that satisfies the invariant for some queues. *)
Definition ffs_step (k : kernel) (k' : kernel) : Prop := ∃ f, k' = with_ffs f k ∧ ffs_ok f.

Lemma wp_find_session p n sid k (Q : Z → kernel → Prop) : ffs_ok (k_ffs k) → 1 <= sid → sid + Z.of_nat n <= 6 →
  (∀ j, sid <= j <= sid + Z.of_nat n →
    (j < sid + Z.of_nat n → ∃ q, wq (k_ffs k) !! Z.to_nat (j - 1) = Some q ∧ p q = true) →
    (∀ i q, sid <= i < j → wq (k_ffs k) !! Z.to_nat (i - 1) = Some q → p q = false) → Q j k) →
  wp (find_session p n sid) Q k.
Proof.
  intros Hf. revert sid. induction n as [|n IH]; intros sid H1 H6 HQ; cbn [find_session].
  { apply wp_ret, HQ; [lia|lia|intros; lia]. }
  destruct (lookup_lt_is_Some_2 (wq (k_ffs k)) (Z.to_nat (sid - 1))) as [q Hq]; [rewrite (fo_len _ Hf); lia|].
  apply wp_bind. eapply wp_ok; [apply (wq_1_eq k sid q); [lia|done]|]. destruct (p q) eqn:Hp.
  - apply wp_ret, HQ; [lia|by exists q|intros; lia].
  - apply IH; [lia|lia|]. intros j Hj Hfound Hless. apply HQ; [lia|intros; apply Hfound; lia|].
    intros i u Hi Hu. destruct (decide (i = sid)) as [->|]; [congruence|]. apply (Hless i u); [lia|done].
Qed.

Lemma wp_wq_1 sid k (Q : ffs_queue_t → kernel → Prop) : ffs_ok (k_ffs k) → 1 <= sid <= 5 →
  (∀ q, wq (k_ffs k) !! Z.to_nat (sid - 1) = Some q → cb_ok (q_buf q) → (active q = true → 1 <= task_id q <= 4) → Q q k) →
  wp (wq_1 sid) Q k.
Proof.
  intros Hf Hs HQ. destruct (lookup_lt_is_Some_2 (wq (k_ffs k)) (Z.to_nat (sid - 1))) as [q Hq]; [rewrite (fo_len _ Hf); lia|].
  eapply wp_ok; [apply (wq_1_eq k sid q); [lia|done]|]. apply HQ; [done|..].
  - pose proof (fo_bufs _ Hf) as H. by eapply Forall_lookup_1 in H.
  - pose proof (fo_tasks _ Hf) as H. by eapply Forall_lookup_1 in H.
Qed.

(** The parts of the device that the invariant is about. *)
Definition ffs_same (f f' : ffs) : Prop :=
  rq f' = rq f ∧ wq f' = wq f ∧ s0_rq f' = s0_rq f ∧ num_sessions f' = num_sessions f.

Lemma ffs_ok_same f f' : ffs_ok f → ffs_same f f' → ffs_ok f'.
Proof. intros [] (H1 & H2 & H3 & H4). split; rewrite ?H1, ?H2, ?H3, ?H4; done. Qed.

Lemma wp_ffs_same g k (Q : unit → kernel → Prop) : (∀ f, ffs_same f (g f)) →
  (∀ f, ffs_same (k_ffs k) f → Q tt (with_ffs f k)) → wp (ffs_upd g) Q k.
Proof. intros Hg HQ. unfold ffs_upd. apply wp_modify, HQ, Hg. Qed.

Lemma wp_rfile_write p k (Q : msel_status → kernel → Prop) :
  (∀ st f, ffs_same (k_ffs k) f → Q st (with_ffs f k)) → wp (arch_ffs_rfile_write p) Q k.
Proof.
  intros HQ. unfold arch_ffs_rfile_write. apply wp_bind, wp_gets. destruct (_ && _).
  - apply wp_ret. specialize (HQ MSEL_EAGAIN (k_ffs k)). destruct k. by apply HQ.
  - apply wp_bind, wp_ffs_same; [done|]. intros f Hf. apply wp_ret. by apply HQ.
Qed.

Lemma wp_set_status st n k (Q : unit → kernel → Prop) :
  (∀ f, ffs_same (k_ffs k) f → Q tt (with_ffs f k)) → wp (arch_ffs_wfile_set_status st n) Q k.
Proof. intros HQ. by apply wp_ffs_same. Qed.

Lemma with_ffs_id k : with_ffs (k_ffs k) k = k.
Proof. by destruct k. Qed.

Lemma wp_clear_retry k (Q : unit → kernel → Prop) :
  (∀ f, ffs_same (k_ffs k) f → Q tt (with_ffs f k)) → wp clear_retry_id Q k.
Proof.
  intros HQ. unfold clear_retry_id. apply wp_bind, wp_gets. destruct (_ =? _).
  - apply wp_bind, wp_ffs_same; [done|]. intros f (H1 & H2 & H3 & H4). apply wp_set_status. intros f' (H5 & H6 & H7 & H8).
    cbn in *. apply HQ. split_and!; congruence.
  - apply wp_ret. rewrite <- (with_ffs_id k). by apply HQ.
Qed.

(** The outgoing queues. *)
Lemma ffs_ok_rq f b : ffs_ok f → cb_ok b → ffs_ok (set_rq b f).
Proof. intros [] Hb. by split. Qed.
Lemma ffs_ok_s0_rq f b : ffs_ok f → cb_ok b → ffs_ok (set_s0_rq b f).
Proof. intros [] Hb. by split. Qed.

Lemma wp_step_queue k (Q : unit → kernel → Prop) : ffs_ok (k_ffs k) →
  (∀ f, ffs_ok f → Q tt (with_ffs f k)) → wp msel_rfile_step_queue Q k.
Proof.
  intros Hok HQ. unfold msel_rfile_step_queue. apply wp_bind, wp_ffs_same; [done|]. intros f1 Hf1.
  pose proof (ffs_ok_same _ _ Hok Hf1) as Hok1. apply wp_bind, wp_gets. cbn [k_ffs with_ffs].
  destruct (Z.ltb_spec 0 (cb_size (s0_rq f1))) as [Hs|_]; [|destruct (Z.ltb_spec 0 (cb_size (rq f1))) as [Hs|_]].
  - destruct (cbuf_take _ (fo_s0_rq _ Hok1) Hs) as (w & -> & Hrem & _).
    apply wp_bind, wp_ffs_same; [done|]. intros f2 Hf2. apply wp_bind, wp_gets, wp_bind, wp_rfile_write.
    intros st f3 Hf3. cbn [k_ffs with_ffs] in *. pose proof (ffs_ok_same _ _ (ffs_ok_same _ _ Hok1 Hf2) Hf3) as Hok3.
    destruct (bool_decide _); [|by apply wp_ret, (HQ f3)]. unfold ffs_upd. apply wp_modify. cbn [k_ffs with_ffs].
    apply (HQ (set_s0_rq (CBUF_REM (s0_rq f3)) f3)), ffs_ok_s0_rq; [done|].
    destruct Hf2 as (_ & _ & E2 & _), Hf3 as (_ & _ & E3 & _). by rewrite E3, E2.
  - destruct (cbuf_take _ (fo_rq _ Hok1) Hs) as (w & -> & Hrem & _).
    apply wp_bind, wp_rfile_write. intros st f3 Hf3. cbn [k_ffs with_ffs] in *.
    pose proof (ffs_ok_same _ _ Hok1 Hf3) as Hok3.
    destruct (bool_decide _); [|by apply wp_ret, (HQ f3)]. unfold ffs_upd. apply wp_modify. cbn [k_ffs with_ffs].
    apply (HQ (set_rq (CBUF_REM (rq f3)) f3)), ffs_ok_rq; [done|]. destruct Hf3 as (E3 & _). by rewrite E3.
  - apply wp_bind, wp_ffs_same; [done|]. intros f2 Hf2. apply wp_ffs_same; [done|]. intros f3 Hf3.
    cbn [k_ffs with_ffs] in *. apply (HQ f3). by do 2 (eapply ffs_ok_same; [|done]).
Qed.

(** The session table. *)
Lemma session_count_insert l n q q' : l !! n = Some q →
  session_count (<[n := q']> l) = session_count l - Z.b2z (active q) + Z.b2z (active q').
Proof.
  revert n. induction l as [|x l IH]; intros [|n] H; try done.
  - injection H as ->. change (Z.b2z (active q') + session_count l =
      Z.b2z (active q) + session_count l - Z.b2z (active q) + Z.b2z (active q')). lia.
  - change (Z.b2z (active x) + session_count (<[n := q']> l) =
      Z.b2z (active x) + session_count l - Z.b2z (active q) + Z.b2z (active q')). rewrite (IH n H). lia.
Qed.

Lemma session_count_bound l : 0 <= session_count l <= Z.of_nat (length l).
Proof.
  induction l as [|x l IH]; [done|]. change (session_count (x :: l)) with (Z.b2z (active x) + session_count l).
  cbn [length]. destruct (active x); cbn [Z.b2z]; lia.
Qed.

Lemma session_count_full l : (∀ n q, l !! n = Some q → active q = true) → session_count l = Z.of_nat (length l).
Proof.
  induction l as [|x l IH]; intros H; [done|]. change (session_count (x :: l)) with (Z.b2z (active x) + session_count l).
  rewrite (H 0%nat x eq_refl), IH; [cbn; lia|]. intros n q Hq. by apply (H (S n)).
Qed.

Lemma ffs_ok_rebuf f n q b : ffs_ok f → wq f !! n = Some q → cb_ok b →
  ffs_ok (set_wq (<[n := on_buf (λ _, b) q]> (wq f)) (num_sessions f) f).
Proof.
  intros [A B C D E F] Hq Hb. split; cbn; [by rewrite length_insert|by apply Forall_insert| |done|done|].
  - apply Forall_insert; [done|]. exact (Forall_lookup_1 _ _ _ _ C Hq).
  - rewrite F, (session_count_insert _ _ q) by done. cbn [active on_buf]. lia.
Qed.

Lemma wp_session_send k pkt : kernel_inv k → wp (msel_ffs_session_send pkt) (λ _, kernel_inv) k.
Proof.
  intros Hinv. unfold msel_ffs_session_send. pose proof (sd_ffs k (iv_steady k Hinv)) as Hf.
  apply wp_bind, wp_gets, wp_bind, wp_find_session; [done|lia|lia|]. intros sid _ _ _.
  apply wp_bind, wp_modify. set (k1 := with_ram _ k). assert (kernel_inv k1) as Hinv1 by (by eapply kernel_inv_frame).
  apply wp_bind, wp_gets. change (k_ffs k1) with (k_ffs k).
  destruct (_ && (_ <=? _)); cbn [andb]; [|by apply wp_ret].
  destruct (Z.ltb_spec (cb_size (rq (k_ffs k))) (Z.of_nat MAX_QUEUE_SIZE)) as [Hlt|_]; [|by apply wp_ret].
  apply wp_bind, wp_gets, wp_bind. unfold ffs_upd. apply wp_modify. change (k_ffs k1) with (k_ffs k).
  match goal with |- context [set_rq ?b _] => assert (ffs_ok (set_rq b (k_ffs k))) as Hok1 end.
  { apply ffs_ok_rq; [done|]. apply cbuf_put; [apply Hf|done]. }
  apply wp_bind. destruct (rfile_empty (k_ffs k)).
  - apply wp_step_queue; [done|]. intros f Hf'. apply wp_ret. by apply (kernel_inv_ffs k1).
  - apply wp_ret, wp_ret. by apply (kernel_inv_ffs k1).
Qed.

Lemma wp_session_recv k pkt : kernel_inv k → wp (msel_ffs_session_recv pkt) (λ _, kernel_inv) k.
Proof.
  intros Hinv. unfold msel_ffs_session_recv. pose proof (sd_ffs k (iv_steady k Hinv)) as Hf.
  apply wp_bind, wp_gets, wp_bind, wp_find_session; [done|lia|lia|]. intros sid Hsid _ _.
  destruct (Z.ltb_spec 0 sid), (Z.leb_spec sid MAX_NUM_SESSIONS) as [H5|]; cbn [andb]; try by apply wp_ret.
  unfold MAX_NUM_SESSIONS in H5. apply wp_bind, wp_wq_1; [done|lia|]. intros q Hq Hb _.
  destruct (Z.ltb_spec 0 (cb_size (q_buf q))) as [Hs|_]; [|by apply wp_ret].
  destruct (cbuf_take _ Hb Hs) as (p & -> & Hrem & _). apply wp_bind, wp_modify.
  set (k1 := with_ram _ k). assert (kernel_inv k1) as Hinv1 by (by eapply kernel_inv_frame).
  apply wp_bind, wp_gets, wp_bind.
  apply (wp_mono _ (λ _ k', ∃ f, k' = with_ffs f k1 ∧ ffs_same (k_ffs k) f)).
  { destruct (sid =? _); [apply wp_clear_retry; by eexists|]. apply wp_ret. exists (k_ffs k1).
    by rewrite with_ffs_id. }
  intros _ k2 (f & -> & Hsame). pose proof (ffs_ok_same _ _ Hf Hsame) as Hokf.
  assert (wq f !! Z.to_nat (sid - 1) = Some q) as Hq2 by (destruct Hsame as (_ & -> & _); done).
  apply wp_bind. eapply wp_ok; [apply (wq_upd_eq (with_ffs f k1) sid q); [lia|done]|]. apply wp_ret.
  apply (kernel_inv_ffs k1); [done|]. by apply ffs_ok_rebuf.
Qed.

(** ** The session manager *)

(** After the sixth creation the counter is one more than there are slots, and
    everything else is as the invariant says. *)
Definition overrun (k : kernel) : Prop := num_tasks k = 6 ∧ kernel_inv (with_num_tasks 5 k).

(** The scheduler then leaves the task list. *)
Lemma overrun_schedule k : overrun k → msel_task_schedule k = Oob.
Proof.
  intros [Hn Hinv]. destruct (sd_ok _ (iv_steady _ Hinv)) as [Hlen _ Hr]. change (tasks (with_num_tasks 5 k)) with (tasks k) in Hlen, Hr.
  unfold msel_task_schedule. rewrite gets_bind, Hn. apply bind_oob, reap_overrun; [lia|rewrite Hlen; unfold MSEL_TASKS_MAX; lia|done].
Qed.

(** The invariant, or, when [P] allows it, the overrun. *)
Definition inv_or (P : Prop) (k : kernel) : Prop := kernel_inv k ∨ (P ∧ overrun k).

Lemma inv_or_frame P k k' : inv_or P k → k_sched k' = k_sched k → k_uart k' = k_uart k → k_ffs k' = k_ffs k → inv_or P k'.
Proof.
  intros [Hinv|(HP & Hn & Hinv)] Hs Hu Hf; [left; by eapply kernel_inv_frame|right]. split; [done|].
  split; [unfold num_tasks in *; by rewrite Hs|]. eapply kernel_inv_frame; [exact Hinv| |done|done].
  cbn. unfold tasks, active_num, active_task. by rewrite Hs.
Qed.

Lemma inv_or_ffs P k f : inv_or P k → ffs_ok f → inv_or P (with_ffs f k).
Proof.
  intros [Hinv|(HP & Hn & Hinv)] Hf; [left; by apply kernel_inv_ffs|right]. split; [done|]. split; [done|].
  by apply (kernel_inv_ffs (with_num_tasks 5 k)).
Qed.

Lemma inv_or_ffs_ok P k : inv_or P k → ffs_ok (k_ffs k).
Proof. intros [Hinv|(_ & _ & Hinv)]; apply (sd_ffs _ (iv_steady _ Hinv)). Qed.

Lemma with_num_tasks_id k : with_num_tasks (num_tasks k) k = k.
Proof. by destruct k as [[] ? ? ? ? ? ? ?]. Qed.

Lemma wp_task_create k fn (Q : msel_status * option Z → kernel → Prop) : kernel_inv k → is_u32 fn →
  (∀ r k', inv_or (num_tasks k = 5) k' → k_ffs k' = k_ffs k → (∀ t, snd r = Some t → 1 <= t <= 4) → Q r k') →
  wp (msel_task_create fn 0 0) Q k.
Proof.
  intros Hinv Hfn HQ. pose proof (iv_steady k Hinv) as [Hok Hmain Hu Hf]. pose proof (ok_num k Hok) as Hnum0.
  destruct (task_create_ok k fn 0 0 (ok_len k Hok) Hfn ltac:(lia)) as (r & k' & E & Hc). eapply wp_ok; [exact E|].
  destruct Hc as [_|_|s k' _ Ha _ _ _ _|s t k' _ _ (u & Hu0 & Hv0) Hcf Hnum Hst]; [by apply HQ; [left|..]|by apply HQ; [left|..]|done|].
  assert (∀ i, runnable (tasks k) i → runnable (tasks k') i) as Hkeep.
  { intros i Hi. destruct (runnable_valid _ _ Hi) as (v & Hv & Hvv & _). unfold runnable.
    rewrite (cf_tcbs _ _ _ Hcf); [done|]. intros ->. congruence. }
  destruct (cf_active _ _ _ Hcf) as [Han Hat], (cf_rest _ _ _ Hcf) as [Hru Hrf].
  assert (num_tasks k' = num_tasks k + 1) as Hn' by (rewrite Hnum; apply u32_id; unfold is_u32; lia).
  assert (∀ N, num_tasks k <= N <= 5 → kernel_inv (with_num_tasks N k')) as HN.
  { intros N HN. destruct Hinv as [_ Hr Hp Ha]. split; [split; [split|..]|..].
    - change (length (tasks k') = MSEL_TASKS_MAX). by rewrite (cf_len _ _ _ Hcf), (ok_len k Hok).
    - change (0 < N <= 5). lia.
    - change (reasons_ok (tasks k')). eapply started_reasons; [apply Hok|done|done].
    - change (runnable (tasks k') 0). by apply Hkeep.
    - change (uart_ok (k_uart k')). by rewrite Hru.
    - change (ffs_ok (k_ffs k')). by rewrite Hrf.
    - change (0 <= active_num k' < N). rewrite Han. lia.
    - change (active_task k' = active_num k'). by rewrite Han, Hat.
    - change (runnable (tasks k') (Z.to_nat (active_num k'))). rewrite Han. by apply Hkeep. }
  apply HQ; [|done|].
  - destruct (decide (num_tasks k = 5)) as [H5|H5].
    + right. split; [done|]. split; [lia|]. apply HN. lia.
    + left. rewrite <- (with_num_tasks_id k'). apply HN. lia.
  - intros t' [= <-]. pose proof (lookup_lt_Some _ _ _ Hu0) as Hlt. rewrite (ok_len k Hok) in Hlt.
    unfold MSEL_TASKS_MAX in Hlt. destruct (decide (Z.to_nat s = 0%nat)) as [Hz|Hz]; [|lia].
    destruct (runnable_valid _ _ Hmain) as (v & Hv & Hvv & _). rewrite Hz in Hu0. congruence.
Qed.

Lemma ffs_ok_open f n q t e p : ffs_ok f → wq f !! n = Some q → active q = false → 1 <= t <= 4 →
  ffs_ok (set_wq (<[n := Queue (Cbuf (cb_data (q_buf q)) 0 0 0) t e p true]> (wq f)) (u16 (num_sessions f + 1)) f).
Proof.
  intros [A B C D E F] Hq Ha Ht. pose proof (Forall_lookup_1 _ _ _ _ B Hq) as Hb.
  pose proof (session_count_bound (wq f)) as Hc. split; cbn; [by rewrite length_insert| | |done|done|].
  - apply Forall_insert; [done|]. cbn. destruct Hb as [Hl _ _ _]. split; cbn; (done || lia).
  - apply Forall_insert; [done|]. by cbn.
  - rewrite (session_count_insert _ _ q) by done. rewrite Ha. cbn [active Z.b2z]. rewrite F, u16_id; [lia|].
    unfold is_u16. lia.
Qed.

Lemma wp_init_session k t e p (Q : Z → kernel → Prop) : ffs_ok (k_ffs k) → num_sessions (k_ffs k) < 5 → 1 <= t <= 4 →
  (∀ sid f, ffs_ok f → s0_rq f = s0_rq (k_ffs k) → Q sid (with_ffs f k)) → wp (init_session t e p) Q k.
Proof.
  intros Hf Hn Ht HQ. unfold init_session. apply wp_bind, wp_find_session; [done|lia|lia|].
  intros sid Hs Hfound Hless. destruct (decide (sid = 6)) as [->|Hne].
  { exfalso. rewrite (fo_count _ Hf) in Hn. rewrite session_count_full, (fo_len _ Hf) in Hn; [lia|].
    intros n q Hq. pose proof (lookup_lt_Some _ _ _ Hq) as Hlt. rewrite (fo_len _ Hf) in Hlt.
    specialize (Hless (Z.of_nat n + 1) q ltac:(lia)). replace (Z.to_nat (Z.of_nat n + 1 - 1)) with n in Hless by lia.
    specialize (Hless Hq). by destruct (active q). }
  destruct Hfound as (q & Hq & Hact); [lia|]. apply negb_true_iff in Hact.
  apply wp_bind. eapply wp_ok; [apply (wq_upd_eq k sid q); [lia|done]|]. unfold ffs_upd.
  apply wp_bind, wp_modify, wp_ret. apply HQ; [|done]. by apply (ffs_ok_open (k_ffs k)).
Qed.

Lemma ffs_ok_s0 f p : ffs_ok f → ffs_ok (set_s0 p f).
Proof. intros H. by eapply ffs_ok_same. Qed.

(** The application's table gives function addresses. *)
Definition table_ok (get_task : list Z → Z * Z * Z) : Prop := ∀ data, is_u32 (snd (fst (get_task data))).

Lemma wp_start_session get_task k : table_ok get_task → kernel_inv k →
  wp (start_session get_task) (λ _, inv_or (num_tasks k = 5)) k.
Proof.
  intros Htab Hinv. assert (inv_or (num_tasks k = 5) k) as Hinv' by by left. unfold start_session. pose proof (sd_ffs k (iv_steady k Hinv)) as Hf.
  apply wp_bind, wp_gets. change (Z.of_nat MAX_QUEUE_SIZE) with 2.
  destruct (Z.leb_spec 2 (cb_size (s0_rq (k_ffs k)))) as [|Hroom]; [by apply wp_ret|].
  destruct (Z.leb_spec MAX_NUM_SESSIONS (num_sessions (k_ffs k))) as [|Hses]; [by apply wp_ret|].
  unfold MAX_NUM_SESSIONS in Hses. specialize (Htab (drop (FFS_HDR_SIZE + S0_CMD_SIZE) (s0 (k_ffs k)))).
  destruct (get_task _) as [[e fn] p]. cbn [fst snd] in Htab. destruct (_ || _); [by apply wp_ret|].
  apply wp_bind, wp_task_create; [done|done|]. intros [st o] k1 Hinv1 Hf1 Ht. cbn [snd] in Ht.
  destruct st; try by apply wp_ret. destruct o as [t|]; [|by apply wp_ret]. specialize (Ht t eq_refl).
  apply wp_bind, wp_init_session; [by rewrite Hf1|by rewrite Hf1|done|]. intros sid f Hokf Hs0. rewrite Hf1 in Hs0.
  unfold ffs_upd. apply wp_bind, wp_modify. cbn [k_ffs with_ffs].
  assert (ffs_ok (set_s0_rq (CBUF_ADD (cb_put (s0_rq f) sid)) f)) as Hok2.
  { apply ffs_ok_s0_rq; [done|]. apply cbuf_put; [apply Hokf|]. by rewrite Hs0. }
  apply wp_bind, wp_gets, wp_bind. cbn [k_ffs with_ffs]. destruct (rfile_empty _).
  - apply wp_step_queue; [done|]. intros f3 Hf3. apply wp_ret. by apply (inv_or_ffs _ k1).
  - apply wp_ret, wp_ret. by apply (inv_or_ffs _ k1).
Qed.

Lemma ffs_ok_close f n q : ffs_ok f → wq f !! n = Some q → active q = true →
  ffs_ok (set_wq (<[n := queue0]> (wq f)) (u16 (num_sessions f - 1)) f).
Proof.
  intros [A B C D E F] Hq Ha. pose proof (session_count_bound (wq f)) as Hc.
  pose proof (session_count_bound (<[n := queue0]> (wq f))) as Hc'. rewrite length_insert in Hc'.
  rewrite (session_count_insert _ _ q), Ha in Hc' by done. cbn [active queue0 Z.b2z] in Hc'.
  split; cbn; [by rewrite length_insert| | |done|done|].
  - apply Forall_insert; [done|apply cb_ok_queue0].
  - by apply Forall_insert.
  - rewrite (session_count_insert _ _ q) by done. rewrite Ha, F. cbn [active queue0 Z.b2z]. rewrite u16_id; [lia|].
    unfold is_u16. lia.
Qed.

Lemma wp_kill_session k : kernel_inv k → wp kill_session (λ _, kernel_inv) k.
Proof.
  intros Hinv. unfold kill_session. pose proof (sd_ffs k (iv_steady k Hinv)) as Hf. apply wp_bind, wp_gets.
  set (sid := _ .| _). destruct (Z.ltb_spec 0 sid), (Z.leb_spec sid MAX_NUM_SESSIONS) as [H5|];
    cbn [andb]; try by apply wp_ret.
  unfold MAX_NUM_SESSIONS in H5. apply wp_bind, wp_wq_1; [done|lia|]. intros q Hq _ Htask.
  destruct (active q) eqn:Ha; [|by apply wp_ret]. specialize (Htask eq_refl).
  apply wp_bind. unfold end_session. apply wp_bind. eapply wp_ok; [apply (wq_1_eq k sid q); [lia|done]|].
  apply wp_bind, wp_force_kill; [apply Hinv|done|]. intros k1 Hinv1 _ Hf1 _.
  apply wp_bind. eapply wp_ok; [apply (wq_upd_eq k1 sid q); [lia|by rewrite Hf1]|].
  unfold ffs_upd. apply wp_bind, wp_modify, wp_bind, wp_gets. cbn [k_ffs with_ffs wq set_wq num_sessions retry_session_id].
  match goal with |- context [with_ffs ?f (with_ffs _ k1)] => assert (ffs_ok f) as Hok end.
  { rewrite Hf1. by apply (ffs_ok_close (k_ffs k) _ q). }
  match goal with |- wp _ _ ?s => assert (kernel_inv s) as Hinv2 by (by apply (kernel_inv_ffs k1)) end.
  destruct (sid =? _); [|by apply wp_ret, wp_ret]. apply wp_clear_retry. intros f Hsame. apply wp_ret.
  apply kernel_inv_ffs; [done|]. by eapply ffs_ok_same.
Qed.

Lemma wp_route_packet k sid : kernel_inv k → 0 <= sid → wp (route_packet sid) (λ _, kernel_inv) k.
Proof.
  intros Hinv Hpos. unfold route_packet. pose proof (sd_ffs k (iv_steady k Hinv)) as Hf.
  destruct (Z.eqb_spec sid 0), (Z.ltb_spec MAX_NUM_SESSIONS sid) as [|H5]; cbn [orb]; try by apply wp_ret.
  unfold MAX_NUM_SESSIONS in H5. apply wp_bind, wp_wq_1; [done|lia|]. intros q Hq Hb _.
  destruct (active q); cbn [negb]; [|by apply wp_ret]. change (Z.of_nat MAX_QUEUE_SIZE) with 2.
  destruct (Z.leb_spec 2 (cb_size (q_buf q))) as [|Hlt].
  - apply wp_bind, wp_ffs_same; [done|]. intros f Hsame. apply wp_ret. apply kernel_inv_ffs; [done|]. by eapply ffs_ok_same.
  - apply wp_bind, wp_gets, wp_bind. eapply wp_ok; [apply (wq_upd_eq k sid q); [lia|done]|]. apply wp_ret.
    apply kernel_inv_ffs; [done|]. apply (ffs_ok_rebuf _ _ q (CBUF_ADD (cb_put (q_buf q) _))); [done|done|].
    by apply cbuf_put.
Qed.

(** A packet that asks the session manager for a new task. *)
Definition asks_start (p : packet) : bool := (pkt_session p =? 0) && (pkt_data p 0 =? CMD_START_SESSION).

Lemma pkt_session_nonneg p : bytes_ok p → 0 <= pkt_session p.
Proof. intros H. pose proof (get_u8 p 0 H). pose proof (get_u8 p 1 H). unfold pkt_session, is_u8 in *. lia. Qed.

Lemma wp_get_packet get_task k : table_ok get_task → kernel_inv k → packet_ok (recv_data (k_ffs k)) →
  wp (FauxFileSystemWrite get_task) (λ _, inv_or (asks_start (recv_data (k_ffs k)) = true ∧ num_tasks k = 5)) k.
Proof.
  intros Htab Hinv Hp. unfold FauxFileSystemWrite, msel_wfile_get_packet, arch_ffs_wfile_read.
  pose proof (sd_ffs k (iv_steady k Hinv)) as Hf. set (p := recv_data (k_ffs k)) in *.
  unfold ffs_upd at 1. apply wp_bind, wp_bind, wp_modify, wp_bind, wp_gets. cbn [k_ffs with_ffs s0 set_s0].
  fold p. rewrite (stored_eq k p (proj1 Hp)).
  assert (pkt_session (stored k p) = pkt_session p) as -> by (unfold pkt_session; by rewrite !get_stored by lia).
  assert (pkt_data (stored k p) 0 = pkt_data p 0) as ->
    by (unfold pkt_data; rewrite get_stored; [done|unfold FFS_HDR_SIZE; lia]).
  set (k1 := with_ffs _ k). assert (kernel_inv k1) as Hinv1 by (apply kernel_inv_ffs; [done|by apply ffs_ok_s0]).
  apply wp_bind, wp_set_status. intros f Hsame.
  assert (kernel_inv (with_ffs f k1)) as Hinv2.
  { apply kernel_inv_ffs; [done|]. eapply ffs_ok_same; [|exact Hsame]. by apply ffs_ok_s0. }
  set (P := asks_start p = true ∧ num_tasks k = 5). apply wp_bind, (wp_mono _ (λ _, inv_or P)).
  - destruct (pkt_session p =? 0) eqn:E0; [destruct (pkt_data p 0 =? CMD_START_SESSION) eqn:E1|].
    + eapply wp_mono; [by apply wp_start_session|]. intros st k2 [H|[H5 H]]; [by left|right]. split; [|done].
      split; [unfold asks_start; by rewrite E0, E1|exact H5].
    + apply (wp_mono _ (λ _, kernel_inv)); [|intros st k2 H; by left]. destruct (pkt_data p 0 =? CMD_KILL_SESSION); [by apply wp_kill_session|by apply wp_ret].
    + apply (wp_mono _ (λ _, kernel_inv)); [|intros st k2 H; by left]. apply wp_route_packet; [done|]. apply pkt_session_nonneg, Hp.
  - intros st k2 Hk2. apply wp_set_status. intros f2 Hf2. apply wp_ffs_same; [done|]. intros f3 Hf3.
    apply (inv_or_ffs P k2); [done|]. do 2 (eapply ffs_ok_same; [|done]). by eapply inv_or_ffs_ok.
Qed.

Lemma wp_read_ack P k : inv_or P k → wp FauxFileSystemReadAck (λ _, inv_or P) k.
Proof.
  intros Hinv. unfold FauxFileSystemReadAck. apply wp_bind, wp_ffs_same; [done|]. intros f Hsame.
  assert (ffs_ok f) as Hf by (eapply ffs_ok_same; [by eapply inv_or_ffs_ok|done]).
  assert (inv_or P (with_ffs f k)) as Hinv1 by (by apply inv_or_ffs).
  apply wp_bind, wp_gets, wp_bind, (wp_mono _ (λ _, inv_or P)).
  - destruct (_ || _); [|by apply wp_ret]. apply wp_step_queue; [done|]. intros f2 Hf2. by apply (inv_or_ffs P k).
  - intros _ k2 Hk2. apply wp_ffs_same; [done|]. intros f3 Hf3. apply inv_or_ffs; [done|].
    eapply ffs_ok_same; [by eapply inv_or_ffs_ok|done].
Qed.

(** ** System calls *)

(** An update of a control block that the scheduler does not see. *)
Lemma kernel_inv_upd k i f t : kernel_inv k → tasks k !! i = Some t →
  msel_task_is_valid (f t) = msel_task_is_valid t → killed (f t) = killed t → reason (f t) = reason t →
  kernel_inv (with_tasks (<[i := f t]> (tasks k)) k).
Proof.
  intros [[[A B C] D E F] G H I] Ht Hv Hk Hr.
  assert (∀ j, runnable (tasks k) j → runnable (<[i := f t]> (tasks k)) j) as Hrun.
  { intros j Hj. destruct (decide (i = j)) as [<-|Hne]; [|by apply runnable_insert_ne].
    destruct Hj as (u & Hu & Hvu). rewrite Ht in Hu. injection Hu as <-. exists (f t).
    split; [apply list_lookup_insert_eq; by eapply lookup_lt_Some|congruence]. }
  split; [split; [split| |done|done]|done|done|]; rewrite ?tasks_with_tasks.
  - by rewrite length_insert.
  - done.
  - intros j u Hj Hku. apply list_lookup_insert_Some in Hj as [(-> & <- & _)|[_ Hj]]; [|by eapply C].
    rewrite Hr. apply (C j t Ht). congruence.
  - by apply Hrun.
  - by apply Hrun.
Qed.

Section events.
Context (driver : msel_svc_number → Z → mem → mem * msel_status).
Context (get_task : list Z → Z * Z * Z) (Htable : table_ok get_task) (pic : nat → Z → Z) (data_beg bss_end : Z).

Lemma wp_svc_switch k restart num_ arg_ : kernel_inv k →
  (svc_of num_ = Some MSEL_SVC_RESTART → wp (restart arg_) (λ _, kernel_inv) k) →
  wp (svc_switch driver restart num_ arg_) (λ _, kernel_inv) k.
Proof.
  intros Hinv Hr. unfold svc_switch.
  assert (∀ s, wp (do_driver driver s arg_) (λ _, kernel_inv) k) as Hd.
  { intros s. unfold do_driver. apply wp_bind, wp_gets. destruct (driver _ _ _) as [m st].
    apply wp_bind, wp_modify, wp_ret. by eapply kernel_inv_frame. }
  destruct (svc_of num_) as [[]|]; try apply Hd; try by apply wp_ret.
  - by apply Hr.
  - unfold msel_svc_worker. apply wp_bind, wp_gets. destruct (negb _); by apply wp_ret.
  - apply wp_schedule; [apply Hinv|done].
  - apply wp_bind, wp_gets, wp_bind. destruct (Z.eqb_spec (active_num k) 0) as [H0|H0]; [by apply wp_panic|].
    apply wp_ret, wp_bind, wp_force_kill; [apply Hinv|by apply active_task_range|]. intros; by apply wp_ret.
  - by apply wp_session_recv.
  - by apply wp_session_send.
  - by apply wp_uart_write.
  - by apply wp_proof_of_life.
Qed.

(** Whatever the call does, its result reaches the caller's saved registers. *)
Lemma wp_syscall_with k num_ arg_ : kernel_inv k →
  wp (msel_svc_handler driver num_ arg_) (λ _, kernel_inv) k →
  wp (SystemCallHandler driver num_ arg_) (λ _, kernel_inv) k.
Proof.
  intros Hinv H. unfold SystemCallHandler. apply wp_bind, wp_gets, wp_bind.
  eapply wp_mono; [exact H|]. intros st k1 Hk1. cbv beta. rewrite (iv_ptr k Hinv).
  pose proof (steady_len k1 (iv_steady k1 Hk1)). pose proof (iv_range k Hinv).
  pose proof (ok_num k (sd_ok k (iv_steady k Hinv))).
  apply wp_bind, wp_tcb_at; [lia|]. intros t _. apply wp_modify. by eapply kernel_inv_frame.
Qed.

Lemma wp_syscall k num_ arg_ : kernel_inv k → (active_num k = 0 → svc_of num_ ≠ Some MSEL_SVC_RESTART) →
  wp (SystemCallHandler driver num_ arg_) (λ _, kernel_inv) k.
Proof.
  intros Hinv Hmain. apply wp_syscall_with; [done|]. apply wp_svc_switch; [done|]. intros Hs.
  unfold msel_svc_restart. apply wp_bind, wp_gets. destruct (Z.eqb_spec (active_num k) 0) as [H0|H0]; cbn [negb].
  - by destruct (Hmain H0).
  - by apply wp_ret.
Qed.

(** The restart that the main task asks for. *)
Lemma wp_restart k rs idx svc sarg t : kernel_inv k → active_num k = 0 → 1 <= idx < num_tasks k →
  load32 (ram k) rs = idx → load32 (ram k) (rs + 4) = svc → load32 (ram k) (rs + 8) = sarg →
  svc ≠ svc_val MSEL_SVC_RESTART → svc_of svc ≠ Some MSEL_SVC_RESTART →
  tasks k !! Z.to_nat idx = Some t → msel_task_is_waiting t = true →
  wp (msel_svc_restart driver rs) (λ _, kernel_inv) k.
Proof.
  intros Hinv H0 Hidx E1 E2 E3 Hsvc Hsvc' Ht Hw. unfold msel_svc_restart. apply wp_bind, wp_gets. rewrite H0. cbn [Z.eqb negb].
  apply wp_bind, wp_gets. rewrite E1, E2, E3. destruct (Z.eqb_spec svc (svc_val MSEL_SVC_RESTART)); [done|].
  pose proof (ok_num k (sd_ok k (iv_steady k Hinv))). pose proof (steady_len k (iv_steady k Hinv)).
  apply wp_bind, wp_modify. unfold msel_task_resume.
  apply wp_bind, wp_tcb_upd; [cbn; unfold tasks in *; lia|]. intros u Hu.
  change (tasks (with_active (u8 idx) idx k)) with (tasks k) in *. rewrite Ht in Hu. injection Hu as <-.
  apply wp_svc_switch; [|by intros Hr; destruct Hsvc'].
  assert (valid t = true ∧ killed t = false) as [Hv Hk].
  { unfold msel_task_is_waiting, msel_task_is_killed in Hw. destruct (valid t), (killed t); rewrite ?andb_false_r in Hw; done. }
  destruct (steady_upd k (Z.to_nat idx) (set_wait MSEL_TASK_WAIT_NONE) t (iv_steady k Hinv)) as [A B C D];
    [lia|done|cbn; congruence|]. rewrite u8_id by (unfold is_u8; lia).
  split; [split; [by destruct A|done|done|done]|cbn; change (0 <= idx < num_tasks k); lia|done|].
  change (runnable (<[Z.to_nat idx := set_wait MSEL_TASK_WAIT_NONE t]> (tasks k)) (Z.to_nat idx)).
  eexists. split; [apply list_lookup_insert_eq; by eapply lookup_lt_Some|].
  unfold msel_task_is_valid, msel_task_is_waiting, msel_task_is_killed. cbn. by rewrite Hv, Hk.
Qed.

Lemma svc_of_restart : svc_of (svc_val MSEL_SVC_RESTART) = Some MSEL_SVC_RESTART.
Proof. reflexivity. Qed.
Lemma svc_of_pol : svc_of (svc_val MSEL_SVC_POL) = Some MSEL_SVC_POL.
Proof. reflexivity. Qed.

Lemma wp_main_poll k rs idx : kernel_inv k → active_num k = 0 → 1 <= idx < num_tasks k →
  wp (main_poll driver rs idx) (λ _, kernel_inv) k.
Proof.
  intros Hinv H0 Hidx. unfold main_poll. pose proof (steady_len k (iv_steady k Hinv)).
  pose proof (ok_num k (sd_ok k (iv_steady k Hinv))).
  apply wp_bind, wp_tcb_at; [lia|]. intros t Ht. destruct (msel_task_is_waiting t) eqn:Hw; [|by apply wp_ret].
  destruct (wait_op t) eqn:Hop; try by apply wp_ret.
  - unfold msel_task_resume. apply wp_tcb_upd; [lia|]. intros u Hu. rewrite Ht in Hu. injection Hu as <-.
    destruct (steady_upd k (Z.to_nat idx) (set_wait MSEL_TASK_WAIT_NONE) t (iv_steady k Hinv)) as [A B C D];
      [lia|done|apply (steady_reason k _ _ (iv_steady k Hinv) Ht)|].
    destruct Hinv as [_ I J K]. split; [by split|done|done|]. rewrite tasks_with_tasks.
    apply runnable_insert_ne; [|done]. change (active_num _) with (active_num k). rewrite H0. lia.
  - apply wp_bind, wp_modify. set (k1 := with_ram _ k).
    assert (kernel_inv k1) as Hinv1 by (by eapply kernel_inv_frame).
    apply wp_syscall_with; [done|]. apply wp_svc_switch; [done|]. intros _.
    eapply (wp_restart k1 rs idx (svc_val MSEL_SVC_POL)); try done.
    + unfold k1. cbn [ram with_ram]. rewrite 2!load32_store32_ne, load32_store32_eq by lia. apply u32_id. unfold is_u32. lia.
    + unfold k1. cbn [ram with_ram]. by rewrite load32_store32_ne, load32_store32_eq by lia.
Qed.

(** ** Interrupts *)

Lemma wp_save_context k sp : kernel_inv k →
  wp (or1k_save_context sp) (λ call k', kernel_inv k' ∧
    (call = true → active_num k' = active_num k ∧ num_tasks k' = num_tasks k ∧ k_mmu k' = k_mmu k)) k.
Proof.
  intros Hinv. unfold or1k_save_context. apply wp_bind, wp_gets. destruct (_ || _).
  - unfold MSEL_TASK_MAIN. destruct (Z.eqb_spec (active_num k) 0) as [H0|H0]; cbn [negb]; [by apply wp_panic|].
    apply wp_bind, wp_force_kill; [apply Hinv|by apply active_task_range|]. intros; by apply wp_ret.
  - pose proof (steady_len k (iv_steady k Hinv)). pose proof (iv_range k Hinv).
    pose proof (ok_num k (sd_ok k (iv_steady k Hinv))).
    apply wp_bind, wp_gets. rewrite (iv_ptr k Hinv). apply wp_bind, wp_tcb_upd; [lia|]. intros t Ht.
    apply wp_bind, wp_modify, wp_ret. split; [|done].
    eapply (kernel_inv_frame (with_tasks (<[_ := set_stack (u32 (sp - 0x108)) t]> (tasks k)) k)); [|done..].
    by apply kernel_inv_upd.
Qed.

Lemma wp_update_ctrs P k : inv_or P k → wp msel_task_update_ctrs_resume (λ _, inv_or P) k.
Proof.
  intros Hor. assert (0 <= active_num k < Z.of_nat (length (tasks k))) as Hlt.
  { destruct Hor as [Hinv|(_ & _ & Hinv)]; pose proof (steady_len _ (iv_steady _ Hinv)) as Hl; pose proof (iv_range _ Hinv) as Hr;
      pose proof (ok_num _ (sd_ok _ (iv_steady _ Hinv))) as Hn; [lia|]. change (0 <= active_num k < 5) in Hr.
    change (length (tasks (with_num_tasks 5 k))) with (length (tasks k)) in Hl. lia. }
  unfold msel_task_update_ctrs_resume. apply wp_bind, wp_gets, wp_tcb_upd; [done|]. intros t Ht.
  destruct Hor as [Hinv|(HP & Hn & Hinv)]; [left; by apply kernel_inv_upd|right]. split; [done|]. split; [done|].
  by apply (kernel_inv_upd (with_num_tasks 5 k)).
Qed.

(** ** TLB misses and external interrupts *)

Lemma wp_spr_write r v k : kernel_inv k → wp (spr_write r v) (λ _, kernel_inv) k.
Proof. intros Hinv. unfold spr_write. apply wp_modify. by eapply kernel_inv_frame. Qed.

Lemma wp_spr_write_or P r v k : inv_or P k → wp (spr_write r v) (λ _, inv_or P) k.
Proof. intros Hinv. unfold spr_write. apply wp_modify. by eapply inv_or_frame. Qed.

(** A miss that is not the last one again ends. *)
Lemma wp_dtlb k : kernel_inv k →
  (spr k (SPR_EEAR 0), spr k (SPR_EPCR 0)) ≠ (d_last_eear (k_mmu k), d_last_epcr (k_mmu k)) →
  wp (DTLBMiss data_beg bss_end) (λ _, kernel_inv) k.
Proof.
  intros Hinv Hd. pose proof (steady_len k (iv_steady k Hinv)) as Hlen. pose proof (iv_range k Hinv).
  pose proof (ok_num k (sd_ok k (iv_steady k Hinv))). pose proof (iv_ptr k Hinv) as Hp.
  unfold DTLBMiss, spr_read. apply wp_bind, wp_gets, wp_bind, wp_gets, wp_bind, wp_gets.
  fold (spr k (SPR_EEAR 0)) (spr k (SPR_EPCR 0)). rewrite (pair_eqb_ne _ _ _ _ Hd).
  apply wp_bind, wp_ret, wp_bind, wp_modify, wp_bind, wp_gets, wp_bind, wp_gets, wp_bind, wp_tcb_at.
  { change (0 <= active_task k < Z.of_nat (length (tasks k))). lia. }
  intros t _. apply wp_bind. eapply wp_mono; [apply wp_spr_write; by eapply kernel_inv_frame|].
  intros ? k1 Hk1. by apply wp_spr_write.
Qed.

Lemma wp_itlb k : kernel_inv k →
  (spr k (SPR_EEAR 0), spr k (SPR_EPCR 0)) ≠ (i_last_eear (k_mmu k), i_last_epcr (k_mmu k)) →
  wp ITLBMiss (λ _, kernel_inv) k.
Proof.
  intros Hinv Hd. pose proof (steady_len k (iv_steady k Hinv)) as Hlen. pose proof (iv_range k Hinv).
  pose proof (ok_num k (sd_ok k (iv_steady k Hinv))). pose proof (iv_ptr k Hinv) as Hp.
  unfold ITLBMiss, spr_read. apply wp_bind, wp_gets, wp_bind, wp_gets, wp_bind, wp_gets.
  fold (spr k (SPR_EEAR 0)) (spr k (SPR_EPCR 0)). rewrite (pair_eqb_ne _ _ _ _ Hd).
  apply wp_bind, wp_ret, wp_bind, wp_modify, wp_bind, wp_gets, wp_bind, wp_tcb_at.
  { change (0 <= active_task k < Z.of_nat (length (tasks k))). lia. }
  intros t _. apply wp_bind. eapply wp_mono; [apply wp_spr_write; by eapply kernel_inv_frame|].
  intros ? k1 Hk1. by apply wp_spr_write.
Qed.

Lemma wp_pic_ack P n i bit picsr k : inv_or P k → wp (pic_ack pic n i bit picsr) (λ _, inv_or P) k.
Proof.
  revert i picsr k. induction n as [|n IH]; intros i picsr k Hinv; cbn [pic_ack]; [by apply wp_ret|].
  apply wp_bind. eapply wp_mono; [by apply (wp_spr_write_or P)|]. intros ? k1 Hk1.
  apply wp_bind. eapply wp_mono; [by apply (wp_spr_write_or P)|]. intros ? k2 Hk2.
  apply wp_bind, wp_gets. destruct (_ =? 0); [by apply wp_ret|by apply IH].
Qed.

Lemma wp_external k : kernel_inv k → packet_ok (recv_data (k_ffs k)) →
  wp (ExternalInterrupt get_task pic) (λ _, inv_or (asks_start (recv_data (k_ffs k)) = true ∧ num_tasks k = 5)) k.
Proof.
  intros Hinv Hp. unfold ExternalInterrupt, spr_read. apply wp_bind, wp_gets. fold (spr k SPR_PICSR).
  set (P := _ ∧ _). apply wp_bind, (wp_mono _ (λ _, inv_or P)).
  - destruct (spr k SPR_PICSR .& (1 <<< 16) =? 0); [apply wp_ret; by left|].
    apply wp_bind. eapply wp_mono; [by apply wp_get_packet|intros ? k1 Hk1; by apply (wp_pic_ack P)].
  - intros ? k1 Hk1. destruct (_ =? 0); [by apply wp_ret|]. apply wp_bind.
    eapply wp_mono; [by apply (wp_read_ack P)|]. intros ? k2 Hk2. apply wp_bind.
    eapply wp_mono; [by apply (wp_pic_ack P)|]. intros ? k3 Hk3. by apply wp_ret.
Qed.

(** What can interrupt the processor.  A miss leaves the address and the program
    counter in two registers; an external interrupt finds the packet [p] in the
    receive register and [picsr] in the interrupt controller. *)
Inductive event : Type :=
  | Tick
  | Svc (svcnum arg_ : Z)
  | Poll (rs_args task_idx : Z)
  | Fault (why why0 : string)
  | External (p : packet) (picsr : Z)
  | DataMiss (eear epcr : Z)
  | InsnMiss (eear epcr : Z).

Definition handle (ev : event) : M unit :=
  match ev with
  | Tick => msel_systick_handler
  | Svc n a => SystemCallHandler driver n a
  | Poll rs idx => main_poll driver rs idx
  | Fault why why0 => fault why why0
  | External p picsr => host_write p;; spr_write SPR_PICSR picsr;; ExternalInterrupt get_task pic
  | DataMiss e pc => spr_write (SPR_EEAR 0) e;; spr_write (SPR_EPCR 0) pc;; DTLBMiss data_beg bss_end
  | InsnMiss e pc => spr_write (SPR_EEAR 0) e;; spr_write (SPR_EPCR 0) pc;; ITLBMiss
  end.

(** The main task is the kernel's own code: it restarts calls only in its loop.
    A packet is 2048 bytes, an address 32 bits wide. *)
Definition possible (ev : event) (k : kernel) : Prop :=
  match ev with
  | Tick | Fault _ _ => True
  | Svc n _ => active_num k = 0 → svc_of n ≠ Some MSEL_SVC_RESTART
  | Poll _ idx => active_num k = 0 ∧ 1 <= idx < num_tasks k
  | External p _ => packet_ok p
  | DataMiss e pc | InsnMiss e pc => is_u32 e ∧ is_u32 pc
  end.

(** The miss that was handled last, again: the handlers panic. *)
Definition repeated (ev : event) (k : kernel) : bool :=
  match ev with
  | DataMiss e pc => (e =? d_last_eear (k_mmu k)) && (pc =? d_last_epcr (k_mmu k))
  | InsnMiss e pc => (e =? i_last_eear (k_mmu k)) && (pc =? i_last_epcr (k_mmu k))
  | _ => false
  end.

(** The host asks for a task although five have been created. *)
Definition sixth (ev : event) (k : kernel) : Prop :=
  match ev with External p _ => asks_start p = true ∧ num_tasks k = 5 | _ => False end.

Lemma wp_handle k ev : kernel_inv k → possible ev k → repeated ev k = false →
  wp (handle ev) (λ _, inv_or (sixth ev k)) k.
Proof.
  intros Hinv Hal Hnr. destruct ev as [|n a|rs idx|why why0|p picsr|e pc|e pc]; cbn [handle possible repeated sixth] in *.
  - eapply wp_mono; [by apply wp_systick|by left].
  - eapply wp_mono; [by apply wp_syscall|by left].
  - destruct Hal. eapply wp_mono; [by apply wp_main_poll|by left].
  - eapply wp_mono; [by apply wp_fault|by left].
  - unfold host_write, ffs_upd, spr_write. apply wp_bind, wp_modify, wp_bind, wp_modify.
    match goal with |- wp _ _ ?k2 => apply (wp_external k2); [|exact Hal] end.
    match goal with |- kernel_inv (with_mmu _ ?k1) => apply (kernel_inv_frame k1); [|done..] end.
    apply kernel_inv_ffs; [done|]. eapply ffs_ok_same; [apply Hinv|done].
  - destruct Hal as (He & Hpc). unfold spr_write. apply wp_bind, wp_modify, wp_bind, wp_modify.
    eapply wp_mono; [apply (wp_dtlb (with_spr (SPR_EPCR 0) pc (with_spr (SPR_EEAR 0) e k))); [by eapply kernel_inv_frame|]|by left].
    rewrite (spr_with_ne (SPR_EPCR 0)), !spr_with_eq by done. cbn. intros [= -> ->]. by rewrite !Z.eqb_refl in Hnr.
  - destruct Hal as (He & Hpc). unfold spr_write. apply wp_bind, wp_modify, wp_bind, wp_modify.
    eapply wp_mono; [apply (wp_itlb (with_spr (SPR_EPCR 0) pc (with_spr (SPR_EEAR 0) e k))); [by eapply kernel_inv_frame|]|by left].
    rewrite (spr_with_ne (SPR_EPCR 0)), !spr_with_eq by done. cbn. intros [= -> ->]. by rewrite !Z.eqb_refl in Hnr.
Qed.

Lemma event_frame ev k k' : active_num k' = active_num k → num_tasks k' = num_tasks k → k_mmu k' = k_mmu k →
  (possible ev k → possible ev k') ∧ repeated ev k' = repeated ev k ∧ (sixth ev k' → sixth ev k).
Proof. intros Ha Hn Hm. destruct ev; cbn [possible repeated sixth]; rewrite ?Ha, ?Hn, ?Hm; done. Qed.

Lemma wp_interrupt k sp ev : kernel_inv k → possible ev k → repeated ev k = false →
  wp (interrupt sp (handle ev)) (λ _, inv_or (sixth ev k)) k.
Proof.
  intros Hinv Hal Hnr. unfold interrupt. apply wp_bind. eapply wp_mono; [by apply wp_save_context|].
  intros call k1 [Hinv1 Hsame]. apply wp_bind, (wp_mono _ (λ _, inv_or (sixth ev k))).
  - destruct call; [|apply wp_ret; by left]. destruct (Hsame eq_refl) as (Ha & Hn & Hm).
    destruct (event_frame ev k k1 Ha Hn Hm) as (H1 & H2 & H3).
    eapply wp_mono; [apply wp_handle; [done|by apply H1|by rewrite H2]|]. intros _ k2 [H|[Hs H]]; [by left|right; auto].
  - intros _ k2 Hk2. by apply wp_update_ctrs.
Qed.

Lemma panics {A} why k : ∃ k', @msel_panic A why k = Panic k'.
Proof.
  unfold msel_panic, uart_print_now. destruct (write_bind (string_bytes why) (string_bytes_ok why) (λ _ k, @Panic A k) k) as [r E].
  rewrite E. by eexists.
Qed.

Lemma handle_repeated k ev : possible ev k → repeated ev k = true → ∃ k', handle ev k = Panic k'.
Proof.
  intros Hp Hr. destruct ev as [| | | | |e pc|e pc]; try done; destruct Hp as [He Hpc]; cbn [repeated] in Hr;
    cbn [handle]; unfold DTLBMiss, ITLBMiss, spr_write, spr_read; krun;
    fold (with_spr (SPR_EEAR 0) e k); fold (with_spr (SPR_EPCR 0) pc (with_spr (SPR_EEAR 0) e k));
    set (k2 := with_spr (SPR_EPCR 0) pc (with_spr (SPR_EEAR 0) e k));
    assert (spr k2 (SPR_EEAR 0) = e) as E1 by (unfold k2; by rewrite spr_with_ne, spr_with_eq);
    assert (spr k2 (SPR_EPCR 0) = pc) as E2 by (unfold k2; by rewrite spr_with_eq);
    unfold spr in E1, E2; rewrite E1, E2.
  - change (d_last_eear (k_mmu k2)) with (d_last_eear (k_mmu k)). change (d_last_epcr (k_mmu k2)) with (d_last_epcr (k_mmu k)).
    rewrite Hr. destruct (@panics unit "The DMMU isn't very happy about this" k2) as [k' E]. exists k'. by apply bind_panic.
  - change (i_last_eear (k_mmu k2)) with (i_last_eear (k_mmu k)). change (i_last_epcr (k_mmu k2)) with (i_last_epcr (k_mmu k)).
    rewrite Hr. destruct (@panics unit "The IMMU isn't very happy about this" k2) as [k' E]. exists k'. by apply bind_panic.
Qed.

(** The same miss again is a panic, unless the task is killed for its stack
    pointer before the handler runs. *)
Lemma interrupt_repeated k sp ev : kernel_inv k → possible ev k → repeated ev k = true →
  match interrupt sp (handle ev) k with Ok _ k' => kernel_inv k' | Panic _ => True | Oob | Hang => False end.
Proof.
  intros Hinv Hal Hr. unfold interrupt, bind at 1. pose proof (wp_save_context k sp Hinv) as Hs. unfold wp in Hs.
  destruct (or1k_save_context sp k) as [[] k1| | |]; [| |done..].
  - destruct Hs as [_ Hsame]. destruct (Hsame eq_refl) as (Ha & Hn & Hm). destruct (event_frame ev k k1 Ha Hn Hm) as (H1 & H2 & _).
    destruct (handle_repeated k1 ev (H1 Hal) ltac:(congruence)) as [k' E]. by rewrite (bind_panic _ _ _ _ E).
  - destruct Hs as [Hinv1 _]. rewrite bind_ret. pose proof (wp_update_ctrs False k1 (or_introl Hinv1)) as Hu. unfold wp in Hu.
    destruct (msel_task_update_ctrs_resume k1) as [? k2| | |]; try done. by destruct Hu as [|[[] _]].
Qed.

(** ** Boot and reachable states *)

Lemma gpio_config_ok ios conf k : ∃ g, arch_gpio_config ios conf k = Ok tt (with_gpio g k).
Proof.
  unfold arch_gpio_config. destruct (ios .& 0xff =? 0); [|by eexists]. exists (k_gpio k). by destruct k.
Qed.

(** The kernel before the main task is created. *)
Record fresh_kernel (k : kernel) : Prop := {
  fk_tasks : tasks k = replicate MSEL_TASKS_MAX tcb0;
  fk_num : num_tasks k = 0;
  fk_uart : uart_ok (k_uart k);
  fk_ffs : ffs_ok (k_ffs k) }.

Lemma boot_create k main_ : fresh_kernel k → 0 < main_ < 2 ^ 32 →
  ∃ k', (msel_task_create main_ 0 0;; modify (with_active 0 0)) k = Ok tt k' ∧ kernel_inv k'.
Proof.
  intros [Ht Hn Hu Hf] Hm.
  destruct (task_create_ok k main_ 0 0) as (r & k' & E & Hc); [by rewrite Ht|unfold is_u32; lia|lia|].
  rewrite (bind_ok _ _ _ _ _ E). eexists. split; [done|].
  destruct Hc as [Hfull|Hbad|s k' _ Ha|s t k' _ Hbelow _ Hcf Hnum Hst]; [| |done|].
  - specialize (Hfull 0%nat tcb0). rewrite Ht in Hfull. by specialize (Hfull eq_refl).
  - unfold bad_args in Hbad. destruct (Z.eqb_spec main_ 0); [lia|done].
  - assert (Z.to_nat s = 0%nat) as Hs.
    { destruct (decide (Z.to_nat s = 0%nat)) as [|Hne]; [done|]. destruct (Hbelow 0%nat) as (u & Hu0 & Hv); [lia|].
      rewrite Ht in Hu0. injection Hu0 as <-. done. }
    assert (num_tasks k' = 1) as Hn1 by (rewrite Hnum, Hn; done).
    assert (runnable (tasks k') 0) as Hr.
    { exists t. pose proof (st_tcb _ _ _ _ _ _ _ Hst) as H0. rewrite Hs in H0. split; [done|apply Hst]. }
    destruct (cf_rest _ _ _ Hcf) as [Hru Hrf].
    split; [split; [split|..]|..]; try done.
    + change (length (tasks k') = MSEL_TASKS_MAX). by rewrite (cf_len _ _ _ Hcf), Ht.
    + change (0 < num_tasks k' <= 5). lia.
    + change (reasons_ok (tasks k')). eapply started_reasons; [|done|done]. rewrite Ht.
      intros j u Hj. apply lookup_replicate in Hj as [-> _]. done.
    + change (uart_ok (k_uart k')). by rewrite Hru.
    + change (ffs_ok (k_ffs k')). by rewrite Hrf.
    + change (0 <= 0 < num_tasks k'). lia.
Qed.

Lemma boot_inv m main_ : 0 < main_ < 2 ^ 32 → ∃ k, msel_init main_ (reset_kernel m) = Ok tt k ∧ kernel_inv k.
Proof.
  intros Hm. unfold msel_init, msel_init_uart, msel_init_ffs_queues, arch_ffs_wfile_set_status,
    arch_ffs_rfile_clear, ffs_upd. krun. unfold msel_init_led.
  match goal with |- context [bind (arch_gpio_config ?a ?b) _ ?k0] => destruct (gpio_config_ok a b k0) as [g E] end.
  rewrite (bind_ok _ _ _ _ _ E). clear E. unfold msel_init_taskmem, taskmem_init, msel_init_task. cbn [Z.eqb]. krun.
  match goal with |- context [bind (msel_task_create main_ 0 0) _ ?k0] => set (k1 := k0) end.
  destruct (boot_create k1 main_) as (k2 & E & Hinv); [|done|].
  - split; [done|done|split; [done|]|split; try done].
    + cbn. repeat (constructor; [cbn; lia|]). constructor.
    + cbn. repeat (constructor; [apply cb_ok_queue0|]). constructor.
    + cbn. repeat (constructor; [done|]). constructor.
    + split; cbn; (done || lia).
    + split; cbn; (done || lia).
  - rewrite <- bind_assoc, (bind_ok _ _ _ _ _ E). destruct (gpio_config_ok POL_SWITCH MSEL_GPIO_INPUT k2) as [g2 E2].
    unfold msel_init_pol. rewrite E2. eexists. split; [done|]. by eapply kernel_inv_frame.
Qed.

(** States reached from boot by interrupts, as long as at most five tasks have
    been created, and by what tasks and devices do in between: the memory, the pins,
    the transmitter and the acknowledge register may change in any way. *)
Inductive kernel_reachable (main_ : Z) : kernel → Prop :=
  | reach_boot m k : msel_init main_ (reset_kernel m) = Ok tt k → kernel_reachable main_ k
  | reach_event k sp ev k' : kernel_reachable main_ k → num_tasks k <= 5 → possible ev k → interrupt sp (handle ev) k = Ok tt k' →
      kernel_reachable main_ k'
  | reach_user k m : kernel_reachable main_ k → kernel_reachable main_ (with_ram m k)
  | reach_pins k v : kernel_reachable main_ k →
      kernel_reachable main_ (with_gpio (Gpio v (port0_vals_shadow (k_gpio k)) (port0_conf_shadow (k_gpio k))) k)
  | reach_drain k n : kernel_reachable main_ k →
      kernel_reachable main_ (with_uart (Uart (uart_queue (k_uart k)) (uart_task (k_uart k)) (uart_tx (k_uart k)) n) k)
  | reach_ack k v : kernel_reachable main_ k →
      kernel_reachable main_ (with_ffs (Ffs (rfile_empty (k_ffs k)) (rq (k_ffs k)) (wq (k_ffs k)) (s0_rq (k_ffs k))
        (s0 (k_ffs k)) (num_sessions (k_ffs k)) (retry_session_id (k_ffs k)) (curr_wfile_status (k_ffs k))
        (rfile_nonce (k_ffs k)) (hasSeenReadAck (k_ffs k)) (recv_data (k_ffs k)) (recv_ack (k_ffs k))
        (send_data (k_ffs k)) v (ffs_ctrl (k_ffs k))) k).

Lemma kernel_inv_num k : kernel_inv k → num_tasks k <= 5.
Proof. intros Hinv. pose proof (ok_num k (sd_ok k (iv_steady k Hinv))). lia. Qed.

Lemma inv_or_uart P k u : inv_or P k → uart_ok u → inv_or P (with_uart u k).
Proof.
  intros [Hinv|(HP & Hn & Hinv)] Hu; [left; by apply kernel_inv_uart|right]. split; [done|]. split; [done|].
  by apply (kernel_inv_uart (with_num_tasks 5 k)).
Qed.

Lemma reachable_inv main_ k : 0 < main_ < 2 ^ 32 → kernel_reachable main_ k → inv_or True k.
Proof.
  intros Hm. induction 1 as [m k E|k sp ev k' _ IH Hn Hal E|k m _ IH|k v _ IH|k n _ IH|k v _ IH].
  - destruct (boot_inv m main_ Hm) as (k' & E' & Hinv). left. congruence.
  - destruct IH as [IH|(_ & H6 & _)]; [|lia]. destruct (repeated ev k) eqn:Hr.
    + pose proof (interrupt_repeated k sp ev IH Hal Hr) as H. rewrite E in H. by left.
    + pose proof (wp_interrupt k sp ev IH Hal Hr) as H. unfold wp in H. rewrite E in H. destruct H as [H|[_ H]]; [by left|by right].
  - by eapply inv_or_frame.
  - by eapply inv_or_frame.
  - apply inv_or_uart; [done|].
    destruct IH as [IH|(_ & _ & IH)]; destruct (sd_uart _ (iv_steady _ IH)) as [H1 H2]; split; [exact H1|exact H2|exact H1|exact H2].
  - apply inv_or_ffs; [done|]. eapply ffs_ok_same; [by eapply inv_or_ffs_ok|done].
Qed.

End events.


(** ** Example states *)

Definition example_state (l : list msel_tcb) (n a : Z) : kernel :=
  with_ffs (k_ffs (reset_kernel ∅)) (example_kernel l n a).

Lemma example_inv l n a : length l = 5%nat → 0 <= a < n → n <= 5 →
  Forall (λ t, killed t = true → is_Some (reason t)) l → runnable l 0 → runnable l (Z.to_nat a) →
  kernel_inv (example_state l n a).
Proof.
  intros Hl Ha Hn Hr H0 H1. pose proof (example_ok l n a Hl ltac:(lia) Hr) as [A B C].
  split; [split; [by split|done|split; [done|]|split; try done]|done|done|done].
  - cbn. repeat (constructor; [cbn; lia|]). constructor.
  - cbn. repeat (constructor; [apply cb_ok_queue0|]). constructor.
  - cbn. repeat (constructor; [done|]). constructor.
  - split; cbn; (done || lia).
  - split; cbn; (done || lia).
Qed.
