(* ===== verification/Calls.v ===== *)
(** * What the system calls do

    The outcome of individual system calls on every branch: proof of life, exit,
    and the restart of a suspended call by the main task. *)

From S2P Require Import Prelude Words Msel Memory Malloc Kernel Task Session Syscall Invariant.

Local Open Scope Z_scope.
Local Open Scope orp_scope.
Local Open Scope kernel_scope.

(** ** Proof of life *)

(** No other task waits for the user. *)
Definition pol_free (k : kernel) : Prop :=
  ∀ i t, tasks k !! i = Some t → Z.of_nat i ≠ active_num k → wait_op t ≠ MSEL_TASK_WAIT_POL.

Lemma pol_busy_false n i k : (i + n ≤ length (tasks k))%nat → pol_free k → pol_busy n i (active_num k) k = Ok false k.
Proof.
  intros Hi Hfree. revert i Hi. induction n as [|n IH]; intros i Hi; [done|]. cbn [pol_busy].
  destruct (lookup_lt_is_Some_2 (tasks k) i) as [t Ht]; [lia|].
  rewrite (bind_ok _ _ _ _ _ (tcb_at_eq _ _ _ Ht)). destruct (Z.eqb_spec (Z.of_nat i) (active_num k)) as [E|E]; cbn [negb].
  - rewrite andb_false_r. apply IH. lia.
  - rewrite bool_decide_false by (by eapply Hfree). cbn [andb]. apply IH. lia.
Qed.

(** The state of the button; the start of the operation that the statics record,
    or now when they record none; and how long ago it was. *)
Definition button (k : kernel) : Z := port0_in (k_gpio k) .& (POL_SWITCH .& 0xff).
Definition pol_started (k : kernel) : pol :=
  if starting_systicks (k_pol k) =? 0 then Pol (msel_systicks k) (button k) else k_pol k.
Definition pol_elapsed (k : kernel) : Z := u64 (msel_systicks k - starting_systicks (pol_started k)).

(** The user has reacted, or the time is over. *)
Definition pol_over (k : kernel) : bool :=
  negb ((button k =? button_val (pol_started k)) && (pol_elapsed k <=? 1000)).

Lemma gpio_read_button k : arch_gpio_read POL_SWITCH k = Ok (button k) k.
Proof. reflexivity. Qed.

(** The call up to the decision: the start is recorded and the LED set. *)
Lemma pol_prefix k retp : retp ≠ 0 → active_num k ≠ 0 → length (tasks k) = MSEL_TASKS_MAX → pol_free k →
  ∃ g, port0_in g = port0_in (k_gpio k) ∧ port0_conf_shadow g = port0_conf_shadow (k_gpio k) ∧
  msel_proof_of_life retp k =
  (if pol_over k then
     modify (with_pol (Pol 0 0));; msel_led_off POL_LED;;
     modify (λ k', with_ram (store32 (ram k') retp (if 1000 <? pol_elapsed k then POL_TIMEOUT else POL_USER_PRESENT)) k');;
     ret MSEL_OK
   else
     let* t := gets active_task in
     tcb_upd t (set_wait MSEL_TASK_WAIT_POL);; tcb_upd t (set_state retp);; msel_task_schedule;; ret MSEL_ESUSP)
    (with_gpio g (with_pol (pol_started k) k)).
Proof.
  intros Hr Ha Hlen Hfree. unfold msel_proof_of_life. destruct (Z.eqb_spec retp 0); [done|]. rewrite gets_bind.
  destruct (Z.eqb_spec (active_num k) MSEL_TASK_MAIN); [done|].
  rewrite (bind_ok _ _ _ _ _ (pol_busy_false MSEL_TASKS_MAX 0 k ltac:(rewrite Hlen; lia) Hfree)), gets_bind.
  assert ((if starting_systicks (k_pol k) =? 0 then
     let* ticks := gets msel_systicks in let* b := arch_gpio_read POL_SWITCH in modify (with_pol (Pol ticks b))
     else ret tt) k = Ok tt (with_pol (pol_started k) k)) as E.
  { unfold pol_started. destruct (_ =? 0); [done|]. by destruct k. }
  rewrite (bind_ok _ _ _ _ _ E), 2!gets_bind. cbn [k_pol with_pol msel_systicks]. fold (pol_elapsed k).
  assert (∃ g, (if pol_led_off (pol_elapsed k) then msel_led_off POL_LED else msel_led_on POL_LED) (with_pol (pol_started k) k) =
    Ok tt (with_gpio g (with_pol (pol_started k) k)) ∧ port0_in g = port0_in (k_gpio k) ∧
    port0_conf_shadow g = port0_conf_shadow (k_gpio k)) as (g & Eg & Hg1 & Hg2).
  { destruct (pol_led_off _); apply (arch_gpio_write_ok _ _ (with_pol (pol_started k) k)). }
  exists g. split; [done|]. split; [done|]. rewrite (bind_ok _ _ _ _ _ Eg).
  rewrite (bind_ok _ _ _ _ _ (gpio_read_button _)).
  assert (button (with_gpio g (with_pol (pol_started k) k)) = button k) as -> by (unfold button; cbn; by rewrite Hg1).
  unfold pol_over, POL_WAIT_PERIOD. change (100 * 10) with 1000.
  destruct (button k =? _), (Z.ltb_spec 1000 (pol_elapsed k)), (Z.leb_spec (pol_elapsed k) 1000); try lia; done.
Qed.

(** The task that called in [k] waits for the user, and another one runs. *)
Definition suspended (retp : Z) (k k' : kernel) : Prop :=
  kernel_inv k' ∧ ram k' = ram k ∧ active_num k' ≠ active_num k ∧
  ∃ t, tasks k' !! Z.to_nat (active_num k) = Some t ∧ wait_op t = MSEL_TASK_WAIT_POL ∧ state t = retp ∧
    msel_task_is_valid t = false.

(** The call has an answer, and the statics are clear again. *)
Definition completed (retp answer : Z) (k k' : kernel) : Prop :=
  k_sched k' = k_sched k ∧ k_pol k' = Pol 0 0 ∧ ram k' = store32 (ram k) retp answer.

(** One call, relative to the start that the statics record. *)
Lemma pol_step k retp : kernel_inv k → active_num k ≠ 0 → retp ≠ 0 → pol_free k →
  if pol_over k then
    ∃ k', msel_proof_of_life retp k = Ok MSEL_OK k' ∧
      completed retp (if 1000 <? pol_elapsed k then POL_TIMEOUT else POL_USER_PRESENT) k k'
  else
    ∃ k', msel_proof_of_life retp k = Ok MSEL_ESUSP k' ∧ k_pol k' = pol_started k ∧ suspended retp k k'.
Proof.
  intros Hinv Ha Hr Hfree. pose proof (iv_steady k Hinv) as Hs. pose proof (steady_len k Hs) as Hlen.
  destruct (pol_prefix k retp Hr Ha (ok_len k (sd_ok k Hs)) Hfree) as (g & Hg1 & Hg2 & E). destruct (pol_over k).
  - rewrite modify_bind in E. unfold msel_led_off, arch_led_set in E.
    match type of E with _ = bind (arch_gpio_write ?a ?b) _ ?k0 => destruct (arch_gpio_write_ok a b k0) as (g2 & E2 & _) end.
    rewrite (bind_ok _ _ _ _ _ E2), modify_bind in E. rewrite E. eexists. split; [done|]. done.
  - pose proof (active_task_range k Hinv Ha) as Hrange. rewrite gets_bind in E.
    change (active_task (with_gpio g (with_pol (pol_started k) k))) with (active_task k) in E. rewrite (iv_ptr k Hinv) in E.
    set (k1 := with_gpio _ _) in E. assert (kernel_inv k1) as Hinv1 by (by eapply kernel_inv_frame).
    destruct (runnable_valid _ _ (iv_active k Hinv)) as (t & Ht & Hv & Hk).
    rewrite <- (Z2Nat.id (active_num k)) in E by lia. set (a := Z.to_nat (active_num k)) in *.
    rewrite (bind_ok _ _ _ _ _ (tcb_upd_eq a _ k1 t Ht)) in E. set (k2 := with_tasks _ k1) in E.
    assert (tasks k2 !! a = Some (set_wait MSEL_TASK_WAIT_POL t)) as Ht2.
    { unfold k2. rewrite tasks_with_tasks. apply list_lookup_insert_eq. by eapply lookup_lt_Some. }
    assert (steady k2) as Hs2 by (apply (steady_upd k1); [apply Hinv1|lia|done|cbn; congruence]).
    rewrite (bind_ok _ _ _ _ _ (tcb_upd_eq a _ k2 _ Ht2)) in E. set (k3 := with_tasks _ k2) in E.
    set (t3 := set_state retp (set_wait MSEL_TASK_WAIT_POL t)) in *.
    assert (tasks k3 !! a = Some t3) as Ht3.
    { unfold k3. rewrite tasks_with_tasks. apply list_lookup_insert_eq. by eapply lookup_lt_Some. }
    assert (steady k3) as Hs3 by (apply (steady_upd k2); [done|lia|done|cbn; congruence]).
    assert (msel_task_is_valid t3 = false) as Hv3.
    { unfold msel_task_is_valid, msel_task_is_waiting, msel_task_is_killed. cbn. by rewrite Hv, Hk. }
    pose proof (ok_num k3 (sd_ok k3 Hs3)) as Hn3.
    destruct (schedule_ok k3 0 (sd_ok k3 Hs3) ltac:(lia) (sd_main k3 Hs3)) as (d & g3 & r & E3 & _ & (_ & Hnext & _) & _).
    rewrite (bind_ok _ _ _ _ _ E3) in E. rewrite E.
    pose proof (wp_schedule k3 (λ _ k', kernel_inv k') Hs3 ltac:(done)) as Hinv3. unfold wp in Hinv3. rewrite E3 in Hinv3.
    assert (tasks (switched d g3 r k3) !! a = Some t3) as Hta.
    { change (tasks (switched d g3 r k3)) with (reap_list 0 (Z.to_nat (num_tasks k3)) (tasks k3)).
      rewrite (lookup_reap_list _ _ _ _ Ht3). unfold reaped. cbn [killed t3 set_state set_wait]. by rewrite Hk. }
    exists (switched d g3 r k3). split; [done|]. split; [done|]. split; [done|]. split; [done|]. split; [|by exists t3].
    intros Hcontra. pose proof (iv_active _ Hinv3) as (u & Hu & Hvu). rewrite Hcontra in Hu. fold a in Hu. congruence.
Qed.

Lemma pol_busy_true n i k j t : (i + n ≤ length (tasks k))%nat → (i ≤ j < i + n)%nat → tasks k !! j = Some t →
  wait_op t = MSEL_TASK_WAIT_POL → Z.of_nat j ≠ active_num k → pol_busy n i (active_num k) k = Ok true k.
Proof.
  intros Hi Hj Ht Hw Hne. revert i Hi Hj. induction n as [|n IH]; intros i Hi Hj; [lia|]. cbn [pol_busy].
  destruct (lookup_lt_is_Some_2 (tasks k) i) as [u Hu]; [lia|].
  rewrite (bind_ok _ _ _ _ _ (tcb_at_eq _ _ _ Hu)). destruct (decide (i = j)) as [->|Hij].
  - rewrite Hu in Ht. injection Ht as ->. rewrite Hw. by destruct (Z.eqb_spec (Z.of_nat j) (active_num k)).
  - destruct (_ && _); [done|]. apply IH; lia.
Qed.

(** While a task waits, the calls of the others are refused. *)
Lemma pol_refused k retp j t : length (tasks k) = MSEL_TASKS_MAX → tasks k !! j = Some t → wait_op t = MSEL_TASK_WAIT_POL →
  Z.of_nat j ≠ active_num k → active_num k ≠ 0 → retp ≠ 0 → msel_proof_of_life retp k = Ok MSEL_EBUSY k.
Proof.
  intros Hlen Ht Hw Hne Ha Hr. unfold msel_proof_of_life. destruct (Z.eqb_spec retp 0); [done|]. rewrite gets_bind.
  destruct (Z.eqb_spec (active_num k) MSEL_TASK_MAIN); [done|]. pose proof (lookup_lt_Some _ _ _ Ht).
  by rewrite (bind_ok _ _ _ _ _ (pol_busy_true MSEL_TASKS_MAX 0 k j t ltac:(lia) ltac:(lia) Ht Hw Hne)).
Qed.

(** C32: a proof-of-life operation, from the call of a user task at tick T > 0
    with no other operation pending and none left behind in the statics.  The call
    is always suspended, with T and the state of the button recorded.  As long as
    the record stands, calls of other tasks are refused with MSEL_EBUSY and change
    nothing, and every repeated call of the task ends by the state of the button and
    the time since T: it is suspended again while the button is as it was and at most
    1000 ticks have passed, and it completes otherwise, with POL_TIMEOUT after more
    than 1000 ticks and with POL_USER_PRESENT when the button has changed, and the
    record is cleared.  While it is suspended the task is not runnable and another
    one runs. *)
Theorem pol_outcome k0 retp : kernel_inv k0 → active_num k0 ≠ 0 → retp ≠ 0 → pol_free k0 →
  starting_systicks (k_pol k0) = 0 → 0 < msel_systicks k0 →
  let record := Pol (msel_systicks k0) (button k0) in
  (∃ k', msel_proof_of_life retp k0 = Ok MSEL_ESUSP k' ∧ k_pol k' = record ∧ suspended retp k0 k') ∧
  (∀ k r t, kernel_inv k → active_num k ≠ 0 → r ≠ 0 → active_num k ≠ active_num k0 →
    tasks k !! Z.to_nat (active_num k0) = Some t → wait_op t = MSEL_TASK_WAIT_POL →
    msel_proof_of_life r k = Ok MSEL_EBUSY k) ∧
  (∀ k, kernel_inv k → active_num k = active_num k0 → pol_free k → k_pol k = record →
    msel_systicks k0 <= msel_systicks k < 2 ^ 64 →
    let elapsed := msel_systicks k - msel_systicks k0 in
    if (button k =? button k0) && (elapsed <=? 1000) then
      ∃ k', msel_proof_of_life retp k = Ok MSEL_ESUSP k' ∧ k_pol k' = record ∧ suspended retp k k'
    else
      ∃ k', msel_proof_of_life retp k = Ok MSEL_OK k' ∧
        completed retp (if 1000 <? elapsed then POL_TIMEOUT else POL_USER_PRESENT) k k').
Proof.
  intros Hinv Ha Hr Hfree Hs HT record. split; [|split].
  - pose proof (pol_step k0 retp Hinv Ha Hr Hfree) as H. unfold pol_over, pol_elapsed, pol_started in H.
    rewrite Hs in H. cbn [Z.eqb starting_systicks button_val] in H. rewrite Z.sub_diag, Z.eqb_refl in H. exact H.
  - intros k r t Hk Hak Hrk Hne Ht Hw. apply (pol_refused k r (Z.to_nat (active_num k0)) t); try done.
    + apply (ok_len k (sd_ok k (iv_steady k Hk))).
    + pose proof (iv_range k0 Hinv). lia.
  - intros k Hk Hak Hf Hp Ht elapsed. pose proof (pol_step k retp Hk ltac:(congruence) Hr Hf) as H.
    assert (pol_started k = record) as Hst.
    { unfold pol_started. rewrite Hp. unfold record. cbn [starting_systicks]. by destruct (Z.eqb_spec (msel_systicks k0) 0); [lia|]. }
    assert (pol_elapsed k = elapsed) as He.
    { unfold pol_elapsed. rewrite Hst. cbn [starting_systicks record]. apply u64_id. unfold is_u64. lia. }
    unfold pol_over in H. rewrite Hst, He in H. cbn [button_val record] in H. fold elapsed.
    destruct ((button k =? button k0) && (elapsed <=? 1000)); cbn [negb] in H; exact H.
Qed.

(** When the waiting task is killed the record stays: the next operation, of any
    task and at any time later, takes it for its own start.  With the button in
    another state than then it reports the user as present at once, and after 1000
    ticks it reports a time-out at once. *)
Lemma pol_stale_start k w why : kernel_inv k → 1 <= w <= 4 → starting_systicks (k_pol k) ≠ 0 →
  ∃ k1, msel_task_force_kill w why k = Ok tt k1 ∧ k_pol k1 = k_pol k ∧
  ∀ k2 retp, kernel_inv k2 → active_num k2 ≠ 0 → retp ≠ 0 → pol_free k2 → k_pol k2 = k_pol k1 →
    let elapsed := u64 (msel_systicks k2 - starting_systicks (k_pol k)) in
    button k2 ≠ button_val (k_pol k) ∨ 1000 < elapsed →
    ∃ k', msel_proof_of_life retp k2 = Ok MSEL_OK k' ∧
      completed retp (if 1000 <? elapsed then POL_TIMEOUT else POL_USER_PRESENT) k2 k'.
Proof.
  intros Hinv Hw Hst. pose proof (iv_steady k Hinv) as Hs. pose proof (steady_len k Hs).
  destruct (lookup_lt_is_Some_2 (tasks k) (Z.to_nat w)) as [t Ht]; [lia|].
  assert (steady (with_tasks (<[Z.to_nat w := set_killed why t]> (tasks k)) k)) as Hs1
    by (apply steady_upd; [done|lia|done|by eexists]).
  pose proof (ok_num _ (sd_ok _ Hs1)).
  destruct (schedule_ok _ 0 (sd_ok _ Hs1) ltac:(lia) (sd_main _ Hs1)) as (d & g & r & E1 & _).
  eexists. split; [|split].
  - unfold msel_task_force_kill. rewrite <- (Z2Nat.id w) at 1 by lia.
    rewrite (bind_ok _ _ _ _ _ (tcb_upd_eq _ _ k t Ht)), (bind_ok _ _ _ _ _ E1). reflexivity.
  - done.
  - intros k2 retp Hk2 Ha Hr Hf Hp elapsed Hover. change (k_pol k2 = k_pol k) in Hp.
    assert (pol_started k2 = k_pol k) as Hs2.
    { unfold pol_started. rewrite Hp. by destruct (Z.eqb_spec (starting_systicks (k_pol k)) 0). }
    pose proof (pol_step k2 retp Hk2 Ha Hr Hf) as H2. unfold pol_over, pol_elapsed in H2. rewrite Hs2 in H2. fold elapsed in H2.
    assert ((button k2 =? button_val (k_pol k)) && (elapsed <=? 1000) = false) as E.
    { destruct Hover as [Hb|He]; [by rewrite (proj2 (Z.eqb_neq _ _) Hb)|]. rewrite (proj2 (Z.leb_gt _ _)) by done. apply andb_false_r. }
    rewrite E in H2. exact H2.
Qed.

(** ** Results *)

Section results.
Context (driver : msel_svc_number → Z → mem → mem * msel_status).

(** C33: when a user task exits, its control block is cleared and another task
    becomes active; but the handler then stores the result of the call through
    the cleared stack pointer, at address 36. *)
Theorem exit_result_to_null k arg_ : kernel_inv k → active_num k ≠ 0 →
  ∃ k', SystemCallHandler driver (svc_val MSEL_SVC_EXIT) arg_ k = Ok tt k' ∧ kernel_inv k' ∧
  active_num k' ≠ active_num k ∧ tasks k' !! Z.to_nat (active_num k) = Some tcb0 ∧ k_ffs k' = k_ffs k ∧
  ram k' = store32 (ram k) 36 (status_val MSEL_OK).
Proof.
  intros Hinv Ha. pose proof (iv_steady k Hinv) as Hs. pose proof (active_task_range k Hinv Ha) as Hrange.
  pose proof (iv_range k Hinv) as Hlt. destruct (runnable_valid _ _ (iv_active k Hinv)) as (t & Ht & Hv & Hk).
  set (a := Z.to_nat (active_num k)) in *.
  assert (steady (with_tasks (<[a := set_killed "exited" t]> (tasks k)) k)) as Hs1
    by (apply steady_upd; [done|lia|done|by eexists]).
  set (k1 := with_tasks _ k) in *. pose proof (ok_num k1 (sd_ok k1 Hs1)) as Hn1.
  destruct (schedule_ok k1 0 (sd_ok k1 Hs1) ltac:(lia) (sd_main k1 Hs1)) as (d & g & r & E1 & _).
  pose proof (wp_schedule k1 (λ _ k', kernel_inv k') Hs1 ltac:(done)) as Hinv1. unfold wp in Hinv1. rewrite E1 in Hinv1.
  assert (tasks (switched d g r k1) !! a = Some tcb0) as Hta.
  { change (tasks (switched d g r k1)) with (reap_list 0 (Z.to_nat (num_tasks k)) (tasks k1)).
    rewrite (lookup_reap_list _ _ a (set_killed "exited" t)).
    - unfold reaped. cbn [killed set_killed]. destruct (Nat.ltb_spec a (0 + Z.to_nat (num_tasks k))); [done|lia].
    - unfold k1. rewrite tasks_with_tasks. apply list_lookup_insert_eq. by eapply lookup_lt_Some. }
  assert (msel_svc_handler driver (svc_val MSEL_SVC_EXIT) arg_ k = Ok MSEL_OK (switched d g r k1)) as E.
  { change (msel_svc_handler driver (svc_val MSEL_SVC_EXIT) arg_ k) with
      ((let* n := gets active_num in
        (if n =? 0 then msel_panic "Task 0 exited." else ret tt);; msel_task_force_kill n "exited";; ret MSEL_OK) k).
    rewrite gets_bind. destruct (Z.eqb_spec (active_num k) 0); [done|]. unfold msel_task_force_kill. krun.
    rewrite <- (Z2Nat.id (active_num k)) by lia. fold a.
    rewrite (bind_ok _ _ _ _ _ (tcb_upd_eq a _ k t Ht)). krun. by rewrite (bind_ok _ _ _ _ _ E1). }
  unfold SystemCallHandler. rewrite gets_bind, (bind_ok _ _ _ _ _ E), (iv_ptr k Hinv).
  assert (tcb_at (active_num k) (switched d g r k1) = Ok tcb0 (switched d g r k1)) as Eat
    by (rewrite <- (Z2Nat.id (active_num k)) by lia; by apply tcb_at_eq).
  rewrite (bind_ok _ _ _ _ _ Eat).
  eexists. split; [done|]. split; [by eapply kernel_inv_frame|]. split; [|done].
  intros Hcontra. destruct (iv_active _ Hinv1) as (u & Hu & Hvu).
  change (active_num (switched d g r k1) = active_num k) in Hcontra. rewrite Hcontra in Hu. fold a in Hu.
  rewrite Hta in Hu. by injection Hu as <-.
Qed.

Lemma three_words m a x y z : is_u32 x → is_u32 y → is_u32 z →
  let m' := store32 (store32 (store32 m a x) (a + 4) y) (a + 8) z in
  load32 m' a = x ∧ load32 m' (a + 4) = y ∧ load32 m' (a + 8) = z.
Proof.
  intros Hx Hy Hz m'. unfold m'. split_and!.
  - rewrite 2!load32_store32_ne, load32_store32_eq by lia. by apply u32_id.
  - rewrite load32_store32_ne, load32_store32_eq by lia. by apply u32_id.
  - rewrite load32_store32_eq. by apply u32_id.
Qed.

(** C34: a suspended proof-of-life call that the main task restarts and that
    completes hands its status to the main task: the waiting task runs on with
    the MSEL_ESUSP it was suspended with in its result register. *)
Theorem restart_result_lost k rs idx t t0 : kernel_inv k → active_num k = 0 → 1 <= idx < num_tasks k →
  tasks k !! Z.to_nat idx = Some t → msel_task_is_waiting t = true → wait_op t = MSEL_TASK_WAIT_POL →
  state t ≠ 0 → is_u32 (state t) → tasks k !! 0%nat = Some t0 →
  pol_free (with_active idx idx k) → pol_over k = true →
  ∃ k', main_poll driver rs idx k = Ok tt k' ∧ active_num k' = idx ∧ active_task k' = idx ∧
  load32 (ram k') (stack t0 + off_r11) = u32 (status_val MSEL_OK) ∧
  ∀ b, (b < rs ∨ rs + 12 <= b) → (b < state t ∨ state t + 4 <= b) →
    (b < stack t0 + off_r11 ∨ stack t0 + off_r11 + 4 <= b) → ldb (ram k') b = ldb (ram k) b.
Proof.
  intros Hinv H0 Hidx Ht Hw Hop Hst Hst32 Ht0 Hfree Hover. pose proof (iv_steady k Hinv) as Hs.
  pose proof (ok_num k (sd_ok k Hs)) as Hn. unfold main_poll.
  assert (tcb_at idx k = Ok t k) as Eat by (rewrite <- (Z2Nat.id idx) by lia; by apply tcb_at_eq).
  rewrite (bind_ok _ _ _ _ _ Eat), Hw, Hop, modify_bind. set (k1 := with_ram _ k).
  set (k2 := with_tasks (<[Z.to_nat idx := set_wait MSEL_TASK_WAIT_NONE t]> (tasks k)) (with_active idx idx k1)).
  assert (msel_svc_handler driver (svc_val MSEL_SVC_RESTART) rs k1 = msel_proof_of_life (state t) k2) as E.
  { change (msel_svc_handler driver (svc_val MSEL_SVC_RESTART) rs k1) with (msel_svc_restart driver rs k1).
    unfold msel_svc_restart. rewrite gets_bind. change (active_num k1) with (active_num k). rewrite H0. cbn [Z.eqb negb].
    destruct (three_words (ram k) rs idx (svc_val MSEL_SVC_POL) (state t)) as (L1 & L2 & L3);
      [unfold is_u32; lia|done|done|]. rewrite gets_bind. change (ram k1) with
      (store32 (store32 (store32 (ram k) rs idx) (rs + 4) (svc_val MSEL_SVC_POL)) (rs + 8) (state t)).
    rewrite L1, L2, L3. change (svc_val MSEL_SVC_POL =? svc_val MSEL_SVC_RESTART) with false. cbv iota. rewrite modify_bind, u8_id by (unfold is_u8; lia).
    pose proof (tcb_upd_eq (Z.to_nat idx) (set_wait MSEL_TASK_WAIT_NONE) (with_active idx idx k1) t Ht) as Eu.
    rewrite Z2Nat.id in Eu by lia. unfold msel_task_resume. by rewrite (bind_ok _ _ _ _ _ Eu). }
  assert (valid t = true ∧ killed t = false) as [Hv Hk].
  { unfold msel_task_is_waiting, msel_task_is_killed in Hw. destruct (valid t), (killed t); rewrite ?andb_false_r in Hw; done. }
  assert (length (tasks k2) = MSEL_TASKS_MAX) as Hlen2.
  { unfold k2. rewrite tasks_with_tasks, length_insert. apply (ok_len k (sd_ok k Hs)). }
  assert (pol_free k2) as Hfree2.
  { intros i u Hu Hi. unfold k2 in Hu. rewrite tasks_with_tasks in Hu. change (active_num k2) with idx in Hi.
    rewrite list_lookup_insert_ne in Hu by lia. by apply (Hfree i u). }
  destruct (pol_prefix k2 (state t) Hst ltac:(change (idx ≠ 0); lia) Hlen2 Hfree2) as (g & _ & _ & Ep).
  change (pol_over k2) with (pol_over k) in Ep. rewrite Hover, modify_bind in Ep.
  unfold msel_led_off, arch_led_set in Ep.
  match type of Ep with _ = bind (arch_gpio_write ?a ?b) _ ?k0 => destruct (arch_gpio_write_ok a b k0) as (g2 & E2 & _) end.
  rewrite (bind_ok _ _ _ _ _ E2), modify_bind in Ep.
  unfold SystemCallHandler. rewrite gets_bind, (bind_ok _ _ _ _ _ (eq_trans E Ep)).
  change (active_task k1) with (active_task k). rewrite (iv_ptr k Hinv), H0.
  match goal with |- context [bind (tcb_at 0) _ ?k0] => set (k3 := k0) end.
  assert (tcb_at 0 k3 = Ok t0 k3) as E3.
  { apply (tcb_at_eq 0). change (tasks k3) with (<[Z.to_nat idx := set_wait MSEL_TASK_WAIT_NONE t]> (tasks k)).
    by rewrite list_lookup_insert_ne by lia. }
  rewrite (bind_ok _ _ _ _ _ E3). eexists. split; [done|]. split; [done|]. split; [done|]. split.
  - cbn [ram with_ram]. rewrite load32_store32_eq. done.
  - intros b Hb1 Hb2 Hb3. cbn [ram with_ram]. rewrite ldb_store32_ne by lia. unfold k3. cbn [ram with_ram].
    rewrite ldb_store32_ne by lia. cbn. by rewrite !ldb_store32_ne by lia.
Qed.
End results.

(** ** Examples *)

Lemma example_trio_inv a : a = 0 ∨ a = 2 → kernel_inv (example_state example_trio 3 a).
Proof.
  intros Ha. apply example_inv; [done|lia|lia|by repeat constructor|apply example_trio_runnable|].
  destruct Ha as [->| ->]; apply example_trio_runnable.
Qed.

(** Task 2 asks at tick 5; at tick 900 the user has pressed the button. *)
Definition pol_asking : kernel := with_ticks 5 (example_state example_trio 3 2).
Definition pol_again : kernel :=
  with_gpio (Gpio POL_SWITCH 0 0) (with_pol (Pol 5 0) (with_ticks 900 (example_state example_trio 3 2))).

Lemma example_trio_pol_free k : tasks k = example_trio → pol_free k.
Proof. intros Hk i t Ht _. rewrite Hk in Ht. destruct i as [|[|[|[|[|i]]]]]; cbn in Ht; by simplify_eq. Qed.

Lemma pol_outcome_witness :
  (∃ k', msel_proof_of_life 0x208000 pol_asking = Ok MSEL_ESUSP k' ∧ k_pol k' = Pol 5 0 ∧ suspended 0x208000 pol_asking k') ∧
  (∃ k', msel_proof_of_life 0x208000 pol_again = Ok MSEL_OK k' ∧ completed 0x208000 POL_USER_PRESENT pol_again k').
Proof.
  destruct (pol_outcome pol_asking 0x208000) as (H1 & _ & H3).
  - apply (kernel_inv_frame (example_state example_trio 3 2)); [apply example_trio_inv; by right|done|done|done].
  - done.
  - done.
  - by apply example_trio_pol_free.
  - done.
  - done.
  - split; [exact H1|]. apply (H3 pol_again); [|done|by apply example_trio_pol_free|done|cbn; lia].
    apply (kernel_inv_frame (example_state example_trio 3 2)); [apply example_trio_inv; by right|done|done|done].
Defined.

Lemma exit_result_to_null_witness : ∃ k',
  SystemCallHandler (λ _ _ m, (m, MSEL_OK)) (svc_val MSEL_SVC_EXIT) 0 (example_state example_trio 3 2) = Ok tt k' ∧
  ram k' = store32 ∅ 36 (status_val MSEL_OK).
Proof.
  destruct (exit_result_to_null (λ _ _ m, (m, MSEL_OK)) (example_state example_trio 3 2) 0) as (k' & E & _ & _ & _ & _ & Hr);
    [apply example_trio_inv; by right|done|by exists k'].
Defined.

(** Task 1 waits for the user, who has pressed the button. *)
Definition pol_waiter : msel_tcb := Tcb 0x204500 0 0 0 0 0 0 0 true false None MSEL_TASK_WAIT_POL 0x205000 0 0 1.
Definition pol_pressed : kernel :=
  with_gpio (Gpio POL_SWITCH 0 0) (with_pol (Pol 10 0) (with_ticks 20
    (example_state [set_stack 0x200500 ready_tcb; pol_waiter; tcb0; tcb0; tcb0] 2 0))).

Lemma restart_result_lost_witness : ∃ k', main_poll (λ _ _ m, (m, MSEL_OK)) 0x200600 1 pol_pressed = Ok tt k' ∧
  active_num k' = 1 ∧ load32 (ram k') (0x200500 + off_r11) = u32 (status_val MSEL_OK).
Proof.
  destruct (restart_result_lost (λ _ _ m, (m, MSEL_OK)) pol_pressed 0x200600 1 pol_waiter (set_stack 0x200500 ready_tcb))
    as (k' & E & Ha & _ & Hl & _); [| | |done|done|done|done| |done| | |by exists k'].
  - apply (kernel_inv_frame (example_state [set_stack 0x200500 ready_tcb; pol_waiter; tcb0; tcb0; tcb0] 2 0)); [|done|done|done].
    apply example_inv; [done|lia|lia|by repeat constructor|by eexists|by eexists].
  - done.
  - cbn. lia.
  - unfold is_u32. cbn. lia.
  - intros i t Ht Hi. destruct i as [|[|[|[|[|i]]]]]; cbn in Ht; by simplify_eq.
  - done.
Defined.
