(* ===== verification/Mmu.v ===== *)
(** * Memory protection

    What the entries that the data TLB miss handler installs allow user code to
    do, now and after a task switch. *)

From S2P Require Import Prelude Words Msel Memory Malloc Kernel Task Session Syscall Isr Invariant.

Local Open Scope Z_scope.
Local Open Scope orp_scope.
Local Open Scope kernel_scope.

(** ** The processor's use of the TLB

    The OpenRISC 1000 data MMU: the entry selected by the address is used when it
    is valid, its page number is that of the address and its context is the
    current one; the permission bits then decide.  Otherwise a miss is raised. *)

Definition tlb_hit (k : kernel) (ctx v : Z) : bool :=
  let mr := spr k (SPR_DTLBW0MR (TLB_ENTRY v)) in
  Z.testbit mr 0 && (mr .& VPN_MASK =? v .& VPN_MASK) && (((mr >>> 2) .& 0xf) =? ctx).

Definition user_may_write (k : kernel) (ctx v : Z) : bool :=
  tlb_hit k ctx v && Z.testbit (spr k (SPR_DTLBW0TR (TLB_ENTRY v))) 7.
Definition user_may_read (k : kernel) (ctx v : Z) : bool :=
  tlb_hit k ctx v && Z.testbit (spr k (SPR_DTLBW0TR (TLB_ENTRY v))) 6.

(** ** Pages *)

(** Arithmetic with quotients and remainders. *)
Local Ltac page_lia := Z.to_euclidean_division_equations; lia.

Lemma vpn_eq v : is_u32 v → v .& VPN_MASK = v - v mod 8192.
Proof. intros Hv. change VPN_MASK with (Z.shiftl (Z.ones (32 - 13)) 13). by rewrite (land_high 13) by done. Qed.

Lemma tlb_entry_eq v : TLB_ENTRY v = (v / 8192) mod 64.
Proof.
  unfold TLB_ENTRY. rewrite Z.shiftr_land. change (TLB_ENTRY_MASK >>> PAGE_BITS) with (Z.ones 6).
  rewrite Z.land_ones, Z.shiftr_div_pow2 by done. done.
Qed.

Definition same_page (v e : Z) : Prop := v .& VPN_MASK = e .& VPN_MASK.

Lemma same_page_div v e : is_u32 v → is_u32 e → same_page v e → v / 8192 = e / 8192.
Proof. unfold same_page. intros Hv He. rewrite !vpn_eq by done. page_lia. Qed.

Lemma same_page_range v e a b : v / 8192 = e / 8192 → a mod 8192 = 0 → b mod 8192 = 0 → in_range v a b = in_range e a b.
Proof. intros Hp Ha Hb. unfold in_range. destruct (Z.leb_spec a v), (Z.ltb_spec v b), (Z.leb_spec a e), (Z.ltb_spec e b); try done; page_lia. Qed.

(** ** Permissions of a page *)

Lemma perm_bit e perms i : Z.testbit VPN_MASK i = false → Z.testbit ((e .& VPN_MASK) .| perms) i = Z.testbit perms i.
Proof. intros H. by rewrite Z.lor_spec, Z.land_spec, H, andb_false_r. Qed.

Section perms.
Context (data_beg bss_end task e : Z) (Htask : task ≠ 0).

Let rom := in_range e ROM_START (ROM_START + ROM_SIZE).
Let inram := in_range e RAM_START (RAM_START + RAM_SIZE).
Let own := in_range e (taskmem_stack_bottom task) (taskmem_heap_end task).
Let shared := in_range e data_beg bss_end.

Lemma data_perms_bits : Z.testbit (data_perms data_beg bss_end task e) 7 = negb rom && inram && own ∧
  Z.testbit (data_perms data_beg bss_end task e) 6 = rom || inram && (own || shared).
Proof.
  unfold data_perms. rewrite (proj2 (Z.eqb_neq task MSEL_TASK_MAIN)) by done. fold rom inram own shared.
  generalize (existsb (λ a, in_range e a (a + 0x8000)) mmio_addrs). intros mmio.
  destruct rom, inram, own, shared, mmio; done.
Qed.
End perms.

(** ** The entry a miss installs *)

(** The entry that holds [mr] and [tr] for the page of [e]. *)
Definition installed (e mr tr : Z) (k : kernel) : Prop :=
  spr k (SPR_DTLBW0MR (TLB_ENTRY e)) = mr ∧ spr k (SPR_DTLBW0TR (TLB_ENTRY e)) = tr.

Lemma tlb_regs_ne n : 0 <= n < 64 → SPR_DTLBW0MR n ≠ SPR_DTLBW0TR n.
Proof. intros Hn. unfold SPR_DTLBW0MR, SPR_DTLBW0TR. change (SPR_REG 1 512) with 2560. change (SPR_REG 1 640) with 2688. lia. Qed.

Lemma DTLBMiss_ok data_beg bss_end k t e : kernel_inv k → tasks k !! Z.to_nat (active_num k) = Some t →
  e = spr k (SPR_EEAR 0) → (e, spr k (SPR_EPCR 0)) ≠ (d_last_eear (k_mmu k), d_last_epcr (k_mmu k)) →
  ∃ k', DTLBMiss data_beg bss_end k = Ok tt k' ∧ kernel_inv k' ∧ k_sched k' = k_sched k ∧
    installed e (u32 ((e .& VPN_MASK) .| (TLBMR_V .| (ctx_id t <<< 2))))
      (u32 ((e .& VPN_MASK) .| data_perms data_beg bss_end (active_num k) e)) k'.
Proof.
  intros Hinv Ht He Hd. pose proof (iv_ptr k Hinv) as Hp. pose proof (iv_range k Hinv) as Hr. unfold DTLBMiss, spr_read. krun.
  fold (spr k (SPR_EEAR 0)) (spr k (SPR_EPCR 0)). rewrite <- He.
  rewrite (pair_eqb_ne _ _ _ _ Hd).
  krun. rewrite (bind_ok _ _ _ t (set_last_d e (spr k (SPR_EPCR 0)) k)).
  2: { change (active_task (set_last_d _ _ k)) with (active_task k). rewrite Hp, <- (Z2Nat.id (active_num k)) at 1 by lia.
       by apply tcb_at_eq. }
  unfold spr_write. krun. eexists. split; [reflexivity|]. split; [by eapply kernel_inv_frame|]. split; [done|].
  assert (0 <= TLB_ENTRY e < 64) as Hn by (rewrite tlb_entry_eq; page_lia). pose proof (tlb_regs_ne _ Hn) as Hne.
  unfold installed. revert Hne. generalize (SPR_DTLBW0MR (TLB_ENTRY e)), (SPR_DTLBW0TR (TLB_ENTRY e)). intros i j Hne.
  unfold spr. cbn. rewrite lookup_insert_ne by congruence.
  by rewrite !lookup_insert_eq.
Qed.

Lemma tlb_mr_eq e ctx : is_u32 e → 0 <= ctx < 16 →
  u32 ((e .& VPN_MASK) .| (TLBMR_V .| (ctx <<< 2))) = e - e mod 8192 + 1 + 4 * ctx.
Proof.
  intros He Hc. unfold TLBMR_V. rewrite vpn_eq by done.
  assert (1 .| (ctx <<< 2) = 1 + 4 * ctx) as ->.
  { rewrite Z.lor_comm, (lor_disjoint 2), Z.shiftl_mul_pow2; rewrite ?Z.shiftl_mul_pow2; page_lia. }
  rewrite (lor_disjoint 13) by page_lia. rewrite u32_id; unfold is_u32 in *; page_lia.
Qed.

Lemma installed_hit e ctx tr k v : installed e (u32 ((e .& VPN_MASK) .| (TLBMR_V .| (ctx <<< 2)))) tr k →
  is_u32 e → is_u32 v → 0 <= ctx < 16 → same_page v e → tlb_hit k ctx v = true.
Proof.
  intros [Hmr _] He Hv Hc Hp. pose proof (same_page_div v e Hv He Hp) as Hd. rewrite tlb_mr_eq in Hmr by done.
  unfold tlb_hit. rewrite Hp, tlb_entry_eq, Hd, <- tlb_entry_eq, Hmr. apply andb_true_intro; split; [apply andb_true_intro; split|].
  - rewrite Z.bit0_odd, Zodd_mod. apply Zeq_is_eq_bool. page_lia.
  - apply Z.eqb_eq. rewrite !vpn_eq by (unfold is_u32 in *; page_lia). page_lia.
  - apply Z.eqb_eq. change 0xf with (Z.ones 4). rewrite Z.land_ones, Z.shiftr_div_pow2 by done. page_lia.
Qed.

Lemma installed_perms e mr perms k v i : installed e mr (u32 ((e .& VPN_MASK) .| perms)) k → is_u32 e → is_u32 v →
  same_page v e → 0 <= i < 13 → Z.testbit (spr k (SPR_DTLBW0TR (TLB_ENTRY v))) i = Z.testbit perms i.
Proof.
  intros [_ Htr] He Hv Hp Hi. pose proof (same_page_div v e Hv He Hp) as Hd.
  rewrite tlb_entry_eq, Hd, <- tlb_entry_eq, Htr. unfold u32. rewrite Z.mod_pow2_bits_low by lia. apply perm_bit.
  change VPN_MASK with (Z.shiftl (Z.ones (32 - 13)) 13). by rewrite Z.shiftl_spec, Z.testbit_neg_r by lia.
Qed.

Lemma active_block k : kernel_inv k → ∃ q, taskmem_stack_bottom (active_num k) = 8192 * q ∧
  taskmem_heap_end (active_num k) = 8192 * (q + 2) ∧ RAM_START <= 8192 * q ∧ 8192 * (q + 2) <= RAM_START + RAM_SIZE.
Proof.
  intros Hinv. pose proof (iv_range k Hinv). pose proof (ok_num k (sd_ok k (iv_steady k Hinv))).
  destruct (taskmem_eq (active_num k)) as (-> & _ & _ & ->); [lia|]. exists (256 + 2 * active_num k).
  unfold RAM_START, RAM_SIZE. lia.
Qed.

(** The active task's own memory. *)
Definition own_block (k : kernel) (v : Z) : bool :=
  in_range v (taskmem_stack_bottom (active_num k)) (taskmem_heap_end (active_num k)).

(** Write permission for a page is that of every address on it. *)
Lemma write_bit k v e : kernel_inv k → v / 8192 = e / 8192 →
  negb (in_range e ROM_START (ROM_START + ROM_SIZE)) && in_range e RAM_START (RAM_START + RAM_SIZE) && own_block k e =
  own_block k v.
Proof.
  intros Hinv Hp. destruct (active_block k Hinv) as (q & E1 & E2 & H1 & H2). unfold own_block.
  rewrite E1, E2, (same_page_range v e) by (done || page_lia). unfold in_range, RAM_START, RAM_SIZE, ROM_START, ROM_SIZE in *.
  destruct (Z.leb_spec (8192 * q) e), (Z.ltb_spec e (8192 * (q + 2))); cbn [andb]; rewrite ?andb_false_r; try done.
  rewrite (proj2 (Z.ltb_ge e (0x100000 + 0x10000))), (proj2 (Z.leb_le 0x200000 e)), (proj2 (Z.ltb_lt e (0x200000 + 0x20000))) by lia.
  by rewrite andb_false_r.
Qed.

Lemma read_bit k v e shared : kernel_inv k → v / 8192 = e / 8192 →
  in_range e ROM_START (ROM_START + ROM_SIZE) || in_range e RAM_START (RAM_START + RAM_SIZE) && (own_block k e || shared) =
  in_range v ROM_START (ROM_START + ROM_SIZE) || own_block k v || in_range v RAM_START (RAM_START + RAM_SIZE) && shared.
Proof.
  intros Hinv Hp. pose proof (write_bit k v e Hinv Hp) as Hw.
  rewrite (same_page_range v e ROM_START), (same_page_range v e RAM_START) by (done || page_lia).
  destruct (in_range e ROM_START _); [done|]. cbn [orb negb andb] in *. rewrite <- Hw.
  destruct (in_range e RAM_START _), (own_block k e), shared; done.
Qed.

(** The memory of task [j]. *)
Definition task_block (j v : Z) : bool := in_range v (taskmem_stack_bottom j) (taskmem_heap_end j).

(** The kernel's data lie behind the tasks' memory, so a page with kernel data has
    nothing of a task. *)
Lemma kernel_page data_beg bss_end e v : taskmem_heap_end 4 <= data_beg → in_range e data_beg bss_end = true →
  v / 8192 = e / 8192 → taskmem_heap_end 4 <= v.
Proof.
  destruct (taskmem_eq 4 ltac:(lia)) as (_ & _ & _ & ->). intros Hlay [H1%Z.leb_le H2%Z.ltb_lt]%andb_true_iff Hp. page_lia.
Qed.

Lemma block_below j v : 0 <= j <= 4 → task_block j v = true →
  0x200000 + 16384 * j <= v < 0x200000 + 16384 * j + 16384 ∧ v < taskmem_heap_end 4.
Proof.
  intros Hj. unfold task_block. destruct (taskmem_eq j Hj) as (-> & _ & _ & ->).
  destruct (taskmem_eq 4 ltac:(lia)) as (_ & _ & _ & ->). intros [H1%Z.leb_le H2%Z.ltb_lt]%andb_true_iff. lia.
Qed.

(** An address of another task is neither in the ROM nor the active task's own. *)
Lemma foreign_block k j v : kernel_inv k → 0 <= j <= 4 → j ≠ active_num k → task_block j v = true →
  own_block k v = false ∧ in_range v ROM_START (ROM_START + ROM_SIZE) = false.
Proof.
  intros Hinv Hj Hne Hb. pose proof (iv_range k Hinv). pose proof (ok_num k (sd_ok k (iv_steady k Hinv))).
  destruct (block_below j v Hj Hb) as [Hv _]. unfold own_block, in_range, ROM_START, ROM_SIZE.
  destruct (taskmem_eq (active_num k)) as (-> & _ & _ & ->); [lia|]. rewrite !andb_false_iff, !Z.leb_gt, !Z.ltb_ge. lia.
Qed.

(** C19: after a data TLB miss of a user task at address e, unless it is the same
    fault again, the new entry covers the 8 KiB page of e.  For every address v of
    that page, user code may write exactly when v lies in the active task's own
    stack and heap.  It may read exactly when v lies there, in the ROM, or, for a
    miss inside the kernel's data, anywhere on the page, which with the linker
    script's layout lies behind the memory of all tasks.  So no task gets access to
    another task's memory, the main task's included. *)
Theorem dtlb_page_isolated data_beg bss_end k t e : kernel_inv k → active_num k ≠ 0 →
  tasks k !! Z.to_nat (active_num k) = Some t → 0 <= ctx_id t < 16 → e = spr k (SPR_EEAR 0) → is_u32 e →
  (e, spr k (SPR_EPCR 0)) ≠ (d_last_eear (k_mmu k), d_last_epcr (k_mmu k)) → taskmem_heap_end 4 <= data_beg →
  ∃ k', DTLBMiss data_beg bss_end k = Ok tt k' ∧ kernel_inv k' ∧
  ∀ v, is_u32 v → same_page v e →
    tlb_hit k' (ctx_id t) v = true ∧
    user_may_write k' (ctx_id t) v = own_block k v ∧
    user_may_read k' (ctx_id t) v =
      in_range v ROM_START (ROM_START + ROM_SIZE) || own_block k v ||
      in_range v RAM_START (RAM_START + RAM_SIZE) && in_range e data_beg bss_end ∧
    (in_range e data_beg bss_end = true → taskmem_heap_end 4 <= v) ∧
    (∀ j, 0 <= j <= 4 → j ≠ active_num k → task_block j v = true →
      user_may_write k' (ctx_id t) v = false ∧ user_may_read k' (ctx_id t) v = false).
Proof.
  intros Hinv Ha Ht Hc He He32 Hd Hlay. destruct (DTLBMiss_ok data_beg bss_end k t e Hinv Ht He Hd) as (k' & E & Hk' & _ & Hin).
  exists k'. split; [done|]. split; [done|]. intros v Hv Hp. pose proof (same_page_div v e Hv He32 Hp) as Hdiv.
  pose proof (installed_hit e _ _ k' v Hin He32 Hv Hc Hp) as Hhit.
  destruct (data_perms_bits data_beg bss_end (active_num k) e Ha) as [Hw Hr]. unfold user_may_write, user_may_read.
  rewrite Hhit, !(installed_perms e _ _ k' v _ Hin He32 Hv Hp) by lia. rewrite Hw, Hr. cbn [andb].
  fold (own_block k e). rewrite (write_bit k v e Hinv Hdiv), (read_bit k v e _ Hinv Hdiv).
  split; [done|]. split; [done|]. split; [done|]. split; [intros Hin'; by eapply kernel_page|].
  intros j Hj Hne Hb. destruct (foreign_block k j v Hinv Hj Hne Hb) as [-> ->]. split; [done|].
  destruct (in_range e data_beg bss_end) eqn:Hk; [|by rewrite andb_false_r].
  pose proof (kernel_page _ _ _ v Hlay Hk Hdiv). pose proof (block_below j v Hj Hb). lia.
Qed.

(** Task switches leave the TLB and the context numbers alone. *)
Lemma schedule_tlb k : kernel_inv k → Forall (λ t, ctx_id t = 0) (tasks k) →
  ∃ k' t, msel_task_schedule k = Ok MSEL_OK k' ∧ k_mmu k' = k_mmu k ∧ kernel_inv k' ∧
  tasks k' !! Z.to_nat (active_num k') = Some t ∧ ctx_id t = 0.
Proof.
  intros Hinv Hctx. destruct (iv_steady k Hinv) as [Hok Hm Hu Hf] eqn:Hs. clear Hs. pose proof (ok_num k Hok).
  destruct (schedule_ok k 0 Hok ltac:(lia) Hm) as (d & g & r & E & _).
  assert (kernel_inv (switched d g r k)) as Hinv'.
  { pose proof (wp_schedule k (λ _ k', kernel_inv k') (iv_steady k Hinv)) as H1. unfold wp in H1. rewrite E in H1. by apply H1. }
  destruct (iv_active _ Hinv') as (t & Ht & _). exists (switched d g r k), t.
  split; [done|]. split; [done|]. split; [done|]. split; [done|].
  change (tasks (switched d g r k)) with (reap_list 0 (Z.to_nat (num_tasks k)) (tasks k)) in Ht. unfold reap_list in Ht.
  rewrite list_lookup_imap in Ht. destruct (tasks k !! _) as [u|] eqn:Hu'; [|done]. simplify_eq/=.
  eapply Forall_lookup in Hctx; [|exact Hu']. unfold reaped. by destruct (_ && _).
Qed.

(** C35: the entry stays in the TLB when the scheduler switches to another task,
    and no task has a context number of its own: user code of the next task may
    write to the page too, although it lies outside that task's memory. *)
Theorem dtlb_survives_switch data_beg bss_end k e : kernel_inv k → active_num k ≠ 0 →
  Forall (λ t, ctx_id t = 0) (tasks k) → e = spr k (SPR_EEAR 0) → is_u32 e → own_block k e = true →
  (e, spr k (SPR_EPCR 0)) ≠ (d_last_eear (k_mmu k), d_last_epcr (k_mmu k)) →
  ∃ k' t, bind (DTLBMiss data_beg bss_end) (λ _, msel_task_schedule) k = Ok MSEL_OK k' ∧
  tasks k' !! Z.to_nat (active_num k') = Some t ∧ user_may_write k' (ctx_id t) e = true ∧
  (active_num k' ≠ active_num k → own_block k' e = false).
Proof.
  intros Hinv Ha Hctx He He32 Hown Hd. destruct (iv_active k Hinv) as (t & Ht & _).
  assert (ctx_id t = 0) as Hc by (eapply Forall_lookup in Hctx; [exact Hctx|exact Ht]).
  destruct (DTLBMiss_ok data_beg bss_end k t e Hinv Ht He Hd) as (k1 & E1 & Hk1 & Hs1 & Hin). rewrite Hc in Hin.
  destruct (schedule_tlb k1 Hk1) as (k2 & t2 & E2 & Hm2 & Hk2 & Ht2 & Hc2); [unfold tasks in *; by rewrite Hs1|].
  exists k2, t2. rewrite (bind_ok _ _ _ _ _ E1). split; [done|]. split; [done|].
  assert (installed e (u32 ((e .& VPN_MASK) .| (TLBMR_V .| (0 <<< 2))))
    (u32 ((e .& VPN_MASK) .| data_perms data_beg bss_end (active_num k) e)) k2) as Hin2
    by (unfold installed, spr in *; by rewrite Hm2).
  split.
  - unfold user_may_write. rewrite Hc2, (installed_hit e 0 _ k2 e Hin2 He32 He32) by (done || lia).
    rewrite (installed_perms e _ _ k2 e 7 Hin2 He32 He32) by (done || lia). cbn [andb].
    rewrite (proj1 (data_perms_bits data_beg bss_end (active_num k) e Ha)). fold (own_block k e).
    by rewrite (write_bit k e e Hinv eq_refl).
  - intros Hne. pose proof (iv_range k Hinv). pose proof (iv_range k2 Hk2).
    pose proof (ok_num k (sd_ok k (iv_steady k Hinv))). pose proof (ok_num k2 (sd_ok k2 (iv_steady k2 Hk2))).
    unfold own_block, in_range in *. destruct (taskmem_eq (active_num k)) as (E3 & _ & _ & E4); [lia|].
    destruct (taskmem_eq (active_num k2)) as (-> & _ & _ & ->); [lia|]. rewrite E3, E4 in Hown.
    apply andb_true_iff in Hown as [H3%Z.leb_le H4%Z.ltb_lt]. apply andb_false_iff. rewrite Z.leb_gt, Z.ltb_ge. lia.
Qed.

(** ** Examples *)

(** Task 1 of two user tasks touches its heap for the first time. *)
Definition example_miss : kernel :=
  with_mmu (Mmu (<[SPR_EEAR 0 := 0x206010]> {[SPR_EPCR 0 := 0x100404]}) 0 0 0 0)
    (example_state [ready_tcb; ready_tcb; ready_tcb; tcb0; tcb0] 3 1).

Lemma example_miss_inv : kernel_inv example_miss.
Proof.
  apply (kernel_inv_frame (example_state [ready_tcb; ready_tcb; ready_tcb; tcb0; tcb0] 3 1)); [|done|done|done].
  apply example_inv; [done|lia|lia|by repeat constructor|by eexists|by eexists].
Qed.

Lemma dtlb_page_isolated_witness : ∃ k', DTLBMiss 0x214000 0x218000 example_miss = Ok tt k' ∧
  user_may_write k' 0 0x207ff0 = true ∧ user_may_read k' 0 0x207ff0 = true.
Proof.
  destruct (dtlb_page_isolated 0x214000 0x218000 example_miss ready_tcb 0x206010) as (k' & E & _ & H);
    [apply example_miss_inv|done|done|cbn; lia|done|unfold is_u32; lia|done|vm_compute; discriminate|].
  exists k'. split; [done|]. destruct (H 0x207ff0) as (_ & Hw & Hr & _); [unfold is_u32; lia|done|]. split; [exact Hw|exact Hr].
Defined.

Lemma dtlb_survives_switch_witness : ∃ k' t,
  bind (DTLBMiss 0x214000 0x218000) (λ _, msel_task_schedule) example_miss = Ok MSEL_OK k' ∧
  tasks k' !! Z.to_nat (active_num k') = Some t ∧ user_may_write k' (ctx_id t) 0x206010 = true.
Proof.
  destruct (dtlb_survives_switch 0x214000 0x218000 example_miss 0x206010) as (k' & t & E & Ht & Hw & _);
    [apply example_miss_inv|done|by repeat constructor|done|unfold is_u32; lia|done|done|by exists k', t].
Defined.
